(* ===== verification/_CoqProject ===== *)
-Q . S2P
Prelude.v
Machine.v
Simd.v
NeonText.v
SimdMem.v
Stream.v
Pixels.v
Arm.v
ArmText.v
MemText.v
ArmLoops.v
ArmTurns.v
ArmKernels.v
NeonLoops.v
NeonKernels.v
NeonWrap.v
ArmFrames.v
Floats.v
Json.v
World.v
Instances.v
Camera.v
Calib.v
Config.v
Server.v
Registry.v
Runner.v
Program.v
Storage.v
Threads.v
Survival.v
Geometry.v
TfModel.v
Sequential.v
Vs1Camera.v
Vs1Config.v
Vs1Server.v
Vs1Contours.v
Vs1Pipelines.v
Vs1Strips.v
Vs1Cargo.v
Vs1Worker.v
Vs1Session.v
Vs1Kernel.v
