(* ===== verification/Prelude.v ===== *)
(** * VisionServer: a verification library

    VisionServer is a vision library for robots.  A robot's cameras are read by
    the camera server library (cscore), frames go through pipelines the user
    writes, and streams, settings and results are entries of the network tables
    (ntcore).  The repository's own code is [lib-vs/src/core] (namespace [vs2],
    with vector kernels in AArch64 and 32-bit ARM assembly) and [lib-vs/src/vs1-legacy] (the
    first framework and the robot code of 2021 and 2022).  This library models
    both in Rocq, definition by definition, and proves what they do, including
    where that is not what they mean to do.

    ** How code is modelled

    - Integers are [Z] with the width written out: [wrapu], [wraps] here;
      [int_res] (Geometry.v) where signed overflow is undefined; [cast_to]
      (Floats.v) for conversions of floating-point numbers.  [size_t] has 64 bits.
    - [double] and [float] are the Standard Library's [SpecFloat] numbers with
      the precision of the operation (Floats.v), so that measuring code can be
      evaluated.  [to_double] normalises a [float] where it meets a [double].
    - Code that may throw or run into undefined behaviour returns [res]
      (Json.v): [Ok], [Throw e] or [Undefined].  Undefined stands for accesses
      outside vectors and arrays, division by zero, overflow, conversions out of
      range, null pointers and missing returns.
    - Code with effects is a computation [M C T A] (World.v): it reads and
      changes a world made of the camera server's state [C], the tables' state
      [T], the buffers that matrix headers share, and the console.  What was
      done before a throw stays done.
    - Objects that are pointed to (pipelines, cameras, matrix buffers) have
      addresses or buffer numbers, so sharing is visible: two headers with one
      buffer number change together.
    - Loops over lists are recursive functions on the list.  Loops that jump or
      run until a condition take fuel: [strip_scan] (Vs1Strips.v), for which as
      many turns as there are contours are enough ([strip_scan_terminates]);
      [push_backwards] (Server.v), which always throws before its fuel ends
      ([push_backwards_throws]); the runs of Machine.v, for which every theorem
      about a kernel states that some fuel is enough, and more changes nothing.
      Threads run turns given as a list:
      a turn holds what the rest of the program and the clients did before it,
      the frame and the clock.
    - Third-party code is an interface: the camera server [CsCore], the tables
      [Tables] with the laws [TablesLaws], files [Files], exception texts [What]
      (World.v, Config.v), the inference library [TfLite] (TfModel.v), the vision
      library [Vision] and the C library [CMath] (Vs1Pipelines.v).  Where few of
      its functions are used they are section variables.  Instances.v and the
      ends of the legacy files have concrete instances, on which the definitions
      run and the theorems' witnesses are computed.

    ** Vector kernels: [neon64.S], [neon32.S], [mem.S], [neon.h], [extensions.h]

    Machine.v runs a step function with fuel.  Simd.v is the AArch64 machine:
    registers, flags, a partial byte memory, one step per instruction; Arm.v is
    the 32-bit one, with its stack, its multiple loads and stores and the
    conditions it branches on.  NeonText.v, ArmText.v and MemText.v have the text
    of the three assembly files, element by element; [neon64], [neon32] and
    [mem_S] are the sections in which branches find their labels.  SimdMem.v and
    Stream.v hold the theory of block loops over memory, shared by both machines,
    and Pixels.v the buffers of pixels and the reference functions on pixels.
    NeonLoops.v and ArmTurns.v prove each loop body by symbolic execution (the
    latter with the tactics and the calling convention of ArmLoops.v),
    NeonKernels.v and ArmKernels.v state what each routine does to whole buffers
    (for arguments that fill their registers, see [args_are]),
    and NeonWrap.v models the wrappers of [neon.h]: their assertions, the kernel
    they choose and its arguments.
    The theorems [neon_threshold_frame], [neon_wstb_frame],
    [neon_combine_frames] and [neon_cvt2gray_frame] say what a call of a wrapper
    does to a frame of any number of whole blocks and the memory around it;
    [neon_dispatch] what the wrappers accept.  [add_3c_writes],
    [compare3_writes], [threshold_binary_writes], [or_3c_writes],
    [add_3c2_writes], [wst_writes_channel] and [small_count_faults] state what
    the routines do that depart from their comments.  ArmFrames.v puts the
    kernels beside each other and into their callers: [legacy_threshold_frame]
    and [legacy_threshold_overruns] are about the thresholds of the first
    framework's frames, [two_sources_agree] says where the two files agree,
    [threshold_prototype] and [cmp3_px32_bound] where they do not;
    [neon32_split_writes] is the 32-bit weighted subtraction.

    ** Cameras, calibrations, configuration: [visioncamera.*], [calib.h], [config.*], [vision.cpp]

    Camera.v has the constructors, assignment and destruction of [VisionCamera],
    calibration matrices, frames, settings with their limits and the listener of
    remote entries.  [calibrated_camera_shares_defaults]: a calibrated camera
    writes its numbers into the static default matrices.  [on_remote_value_spec]
    has every case of a remote value, [getJsonVideoMode_fields] those of a video
    mode.  Calib.v has the finders over every kind of container
    ([findCalib_first], [findAnyCalib_spec]) and the parsing of sizes
    ([extractSize_roundtrip]).  Config.v reads the configuration file:
    [createCameras_one_per_entry] says which camera each entry becomes, by the
    calibration it names ([calibrated_by_name]) or its type ([calibrated_from]);
    and [initNT_modes].

    ** The server: [visionserver2.*], [target.h]

    Server.v has the static state of [vs2::VisionServer] (cameras, pipelines on
    the heap, streams), its operations and entries: routes
    ([setSourceIdx_then_sync], [syncIdx_follows]), compensation
    ([compensate_spec]), the lists of pipelines ([pipelines_published],
    [addPipelines_of_throws]), and that a running server is not changed
    ([frozen_while_running]).  Registry.v is its contract: an abstract registry of
    handles, sinks and indices, one action for each operation.  In every state
    that operations reach the server is well formed, as long as the program
    uses them as [allowed] says; [setPipelines] with a pipeline that the server
    owns is what breaks it ([reachable_well_formed]).  Each operation changes the registry as its action says and makes exactly
    the action's connections ([server_refines_registry]).  Runner.v has the turns of
    [pipelineRunner], [run], [runSingle] and [runRaw] and the life of the flag, the head
    thread, the threads of the pipelines and [stop] as a step relation:
    [stop_returns] and [stop_lost] are about every interleaving of their steps, [raw_turns_follow] about any number of turns,
    [runner_select_spec], [single_camera_off_by_one] and [no_frame_rate] about
    single ones.  Program.v puts the parts together as the example of [README.md]
    does: as it stands the program connects nothing but its cameras' own sinks
    ([readme_shows_nothing]), and
    with [compensate] its stream shows the pipeline and the pipeline sees the
    first connected camera ([compensated_program_shows]).  Storage.v is about the
    vector the cameras are in, whose storage Server.v counts ([camera_store],
    with the interface [Capacity] for the library's growth): a listener keeps the
    address of its camera, a pipeline those of its camera's matrices.  They stay
    valid through every operation and every turn as long as the vector does not
    move ([pointers_stay_live]), and are left on freed memory when it does
    ([cameras_moved]).  Threads.v and Survival.v are about [run] as a whole, with a
    thread per pipeline: the abstract routing extends the registry with the
    matrices of the pipelines and the indices of the threads, every interleaving
    of turns makes its moves and connections ([run_refines_routing]), threads do
    not disturb each other ([threads_do_not_interfere]), and the run returns as
    long as the entries are usable ([run_survives]).  Turns of different threads
    are not split: no two threads write the same pipeline, and the copy of another
    pipeline's matrices is taken to be undisturbed.  Sequential.v has [SequentialPipeline] and the targets with
    their entries.  Geometry.v has the helper templates of [vision.h] over an
    interface [Num] of number types ([findCenter_mean],
    [reorderCClockWise_ordered]).  TfModel.v has label files
    ([labels_roundtrip]), the choice of a model ([TfModel_first_usable]) and the
    runners' processing.

    ** The first framework: [vs1-legacy]

    Vs1Camera.v has the camera ([on_event_settings]); Vs1Config.v reads cameras
    from a configuration ([readConfig_one_per_entry]) and switches a sink between
    them ([switched_camera_takes_first]); Vs1Server.v has the server, its
    configuration ([reload_deletes_settings]), its workers for one, two, three
    and any number of pipelines ([pipeline_selection]), statistics and the active
    target; Vs1Contours.v contours ([findLargest_spec]), the weighted subtraction and
    targets with world points ([sort_corners_spec]); Vs1Pipelines.v the pipeline
    class, the target solver ([TargetSolver_reports]) and the pipelines of 2021; Vs1Strips.v the hub of
    2022 and the search for its strips ([strip_scan_terminates],
    [StripFinder_reports], [strips_overrun], [hub_seen_spec]); Vs1Cargo.v the balls of 2022 with a
    thread per colour ([BallFilter_largest], [CargoFinder_reports]).  Vs1Kernel.v
    joins the pipelines to the machine: over the interface [KernelFrames] of
    frames with bytes, the routines of [mem.S] compute the thresholds of
    [weightedsubtraction.inc] and [rapidreact.inc], whole blocks of them
    ([weighted_threshold_pixels], [ball_threshold_pixels]).  Vs1Worker.v states
    the terms for pipelines and clients on which a worker returns after a stop, and
    Vs1Session.v is about sessions: sequences of stops, workers and threads with
    their stops.  Each session returns, and its flag and count of frames are those
    of an abstract server ([sessions_count]); a stop without a thread puts the later
    threads out of work, until a stop overtakes its worker or a worker is run
    without a thread ([stray_stop_disables_threads]); the workers of two and three
    pipelines agree with the general one while the index fits in eight bits
    ([fixed_and_general_workers_agree]);
    and the target solvers of Vs1Pipelines.v keep the terms for every "Scaling" that clients may set, from 1 on
    ([solvers_decent]).

    ** Not modelled

    [aprilpose.h] (commented out); the legacy [vision.h], [vision.inc] and the
    reader of video modes in the legacy [vision.cpp] where they repeat [core],
    whose models stand for both; [getWeight] and [setWeight] of the weighted
    subtraction, which name a member that does not exist; the console output of
    the processing loops, drawing itself, and vendored code.  A client's changes of
    entries in the middle of a frame of a legacy pipeline are not modelled: its
    entries are read once per frame, and listeners run between turns. *)

From stdpp Require Export base list gmap strings.
From Stdlib Require Export ZArith Lia.

Declare Scope vs_scope.
Delimit Scope vs_scope with vs.

Create HintDb vsdb.

(** * Machine integers *)

(** Unsigned wrap-around to [w] bits. *)
Definition wrapu (w z : Z) : Z := (z mod 2 ^ w)%Z.

(** Two's complement reading of the low [w] bits. *)
Definition wraps (w z : Z) : Z :=
  let u := (z mod 2 ^ w)%Z in
  if (u <? 2 ^ (w - 1))%Z then u else (u - 2 ^ w)%Z.

(** * Strings *)

Lemma string_app_cons c s t : String c s +:+ t = String c (s +:+ t).
Proof. done. Qed.
Lemma string_app_nil s : s +:+ "" = s.
Proof. induction s as [|c s IH]; [done|]. exact (f_equal (String c) IH). Qed.
Lemma string_app_assoc a b c : (a +:+ b) +:+ c = a +:+ (b +:+ c).
Proof. induction a as [|x a IH]; [done|]. exact (f_equal (String x) IH). Qed.
Lemma string_length_app s t : String.length (s +:+ t) = (String.length s + String.length t)%nat.
Proof. induction s as [|c s IH]; [done|]. exact (f_equal S IH). Qed.
Lemma substring_app_l s t : String.substring 0 (String.length s) (s +:+ t) = s.
Proof. induction s as [|c s IH]; [by destruct t|]. exact (f_equal (String c) IH). Qed.
Lemma substring_app_r s t n k :
  String.substring (String.length s + k) n (s +:+ t) = String.substring k n t.
Proof. induction s as [|c s IH]; [done|]. exact IH. Qed.
Lemma substring_all t : String.substring 0 (String.length t) t = t.
Proof. induction t as [|c t IH]; simpl; [done | by rewrite IH]. Qed.
