(* ===== verification/Machine.v ===== *)
(** Execution of a machine given by its step function: the run with fuel that
    both processors of the kernels share, and how runs compose. *)

From S2P Require Import Prelude.

(** What a step, or a run, leaves. *)
Inductive outcome (S : Type) :=
| Running (s : S)
| Halted (s : S)
| Fault.
Arguments Running {S} s.
Arguments Halted {S} s.
Arguments Fault {S}.

Section Run.

Context {S : Type} (step : S -> outcome S).

Fixpoint run (fuel : nat) (s : S) : outcome S :=
  match fuel with
  | O => Running s
  | Datatypes.S n => match step s with
           | Running s' => run n s'
           | o => o
           end
  end.

Lemma run_S n s :
  run (Datatypes.S n) s = match step s with Running s' => run n s' | o => o end.
Proof. reflexivity. Qed.

Lemma run_app n1 n2 s s' :
  run n1 s = Running s' -> run (n1 + n2) s = run n2 s'.
Proof.
  revert s. induction n1 as [|n1 IH]; intros s; simpl.
  - congruence.
  - destruct (step s); try discriminate. apply IH.
Qed.

(** Once the routine has returned or faulted, more fuel changes nothing. *)
Lemma run_more n1 n2 s :
  (forall s', run n1 s <> Running s') -> (n1 <= n2)%nat -> run n2 s = run n1 s.
Proof.
  revert n2 s. induction n1 as [|n1 IH]; intros n2 s Hs Hle; simpl in *.
  - destruct (Hs s); reflexivity.
  - destruct n2 as [|n2]; [lia|]. simpl.
    destruct (step s); try reflexivity. apply IH; [assumption | lia].
Qed.

End Run.
