(* ===== verification/Simd.v ===== *)
(** The fragment of AArch64 that [lib-vs/src/core/neon64.S] is written in: a
    register file of eight 64-bit integer registers and seven 128-bit vector
    registers (sixteen byte lanes each), the four condition flags, a partial
    byte memory and one step function per instruction.  An access outside the
    mapped addresses is a fault, so the theorems about the kernels are also
    statements about where they read and write. *)

From S2P Require Import Prelude Machine.
Local Open Scope Z_scope.

(** * Lane operations *)

Module Lane.

(** The signed value of the low byte of a lane, as [ushl]/[uqshl] read it. *)
Definition sbyte (y : Z) : Z := if y <? 128 then y else y - 256.

Definition cmhi8 (x y : Z) : Z := if y <? x then 255 else 0.
Definition uqadd8 (x y : Z) : Z := Z.min 255 (x + y).
Definition uqsub8 (x y : Z) : Z := Z.max 0 (x - y).
Definition neg8 (x : Z) : Z := (- x) mod 256.
Definition clz8 (x : Z) : Z := if x =? 0 then 8 else 7 - Z.log2 x.
Definition ushl8 (x y : Z) : Z :=
  let s := sbyte y in
  if 0 <=? s then Z.shiftl x s mod 256 else Z.shiftr x (- s).
Definition uqshl8 (x y : Z) : Z :=
  let s := sbyte y in
  if 0 <=? s then Z.min 255 (Z.shiftl x s) else Z.shiftr x (- s).

(** [dup v.16b, w]: the low byte of [w] in every lane; [dup v.8b, w] fills the
    low half and clears the high half of the register. *)
Definition dup16 (w : Z) : list Z := replicate 16 (w mod 256).
Definition dup8 (w : Z) : list Z := replicate 8 (w mod 256) ++ replicate 8 0.

End Lane.

(** De-interleave a run of three-byte pixels into its three planes ([ld3]). *)
Fixpoint deint3 (bs : list Z) : list Z * list Z * list Z :=
  match bs with
  | r :: g :: b :: t =>
      let '(x, y, z) := deint3 t in (r :: x, g :: y, b :: z)
  | _ => ([], [], [])
  end.

(** Interleave three planes ([st3]). *)
Fixpoint int3 (r g b : list Z) : list Z :=
  match r, g, b with
  | x :: r', y :: g', z :: b' => x :: y :: z :: int3 r' g' b'
  | _, _, _ => []
  end.

(** Lane 0 of a register, read and replaced ([ld3 {..}[0]], [st1 {..}[0]]). *)
Definition lane0 (v : list Z) : Z := v !!! 0%nat.
Definition set_lane0 (x : Z) (v : list Z) : list Z := <[0%nat := x]> v.

(** * Machine state *)

Abbreviation memory := (gmap Z Z).

Record cpu := Cpu {
  xr : list Z;          (* x0 .. x7 *)
  vr : list (list Z);   (* v0 .. v6 *)
  fN : bool; fZ : bool; fC : bool; fV : bool;
  mem : memory;
  pc : nat
}.

Inductive cond := NE | EQ | LT | GT | LO | HS.

Inductive instr :=
| label (l : string)
| lsr_w (d n : nat) (k : Z)
| lsr_x (d n : nat) (k : Z)
| dup_16b (d n : nat)
| dup_8b (d n : nat)
| ldr_q (q x : nat)
| str_q (q x : nat)
| ld3_16b (q x : nat)
| st3_16b (q x : nat)
| ld3_lane0 (q x : nat)
| st1_lane0 (q x : nat)
| cmhi (d n m : nat)
| and_v (d n m : nat)
| orr_v (d n m : nat)
| uqadd (d n m : nat)
| uqsub (d n m : nat)
| ushl (d n m : nat)
| uqshl (d n m : nat)
| uqshl_i (d n : nat) (k : Z)
| ushr (d n : nat) (k : Z)
| neg_v (d n : nat)
| clz_v (d n : nat)
| subs (d n : nat) (k : Z)
| cmp (n : nat) (k : Z)
| b_ (c : cond) (l : string)
| ret.

(** * Memory access *)

Fixpoint load (n : nat) (m : memory) (a : Z) : option (list Z) :=
  match n with
  | O => Some []
  | S n' => match m !! a with
            | Some b => match load n' m (a + 1) with
                        | Some bs => Some (b :: bs)
                        | None => None
                        end
            | None => None
            end
  end.

(** All of [n] bytes from [a] are mapped. *)
Fixpoint mapped (n : nat) (m : memory) (a : Z) : bool :=
  match n with
  | O => true
  | S n' => match m !! a with Some _ => mapped n' m (a + 1) | None => false end
  end.

Fixpoint store_bytes (m : memory) (a : Z) (bs : list Z) : memory :=
  match bs with
  | [] => m
  | b :: bs' => store_bytes (<[a := b]> m) (a + 1) bs'
  end.

Definition store (m : memory) (a : Z) (bs : list Z) : option memory :=
  if mapped (length bs) m a then Some (store_bytes m a bs) else None.

(** * Registers and flags *)

Definition w64 (z : Z) : Z := z mod 2 ^ 64.
Definition w32 (z : Z) : Z := z mod 2 ^ 32.

Lemma w64_small z : 0 <= z < 2 ^ 64 -> w64 z = z.
Proof. apply Z.mod_small. Qed.

Definition getx (s : cpu) (n : nat) : Z := xr s !!! n.
Definition getv (s : cpu) (n : nat) : list Z := vr s !!! n.

Definition setx (n : nat) (v : Z) (s : cpu) : cpu :=
  Cpu (<[n := v]> (xr s)) (vr s) (fN s) (fZ s) (fC s) (fV s) (mem s) (pc s).
Definition setv (n : nat) (v : list Z) (s : cpu) : cpu :=
  Cpu (xr s) (<[n := v]> (vr s)) (fN s) (fZ s) (fC s) (fV s) (mem s) (pc s).
Definition setmem (m : memory) (s : cpu) : cpu :=
  Cpu (xr s) (vr s) (fN s) (fZ s) (fC s) (fV s) m (pc s).
Definition goto (p : nat) (s : cpu) : cpu :=
  Cpu (xr s) (vr s) (fN s) (fZ s) (fC s) (fV s) (mem s) p.
Definition next (s : cpu) : cpu := goto (S (pc s)) s.

(** Flags of [a - k] on 64 bits. *)
Definition negative64 (z : Z) : bool := 2 ^ 63 <=? z.
Definition setflags (a k : Z) (s : cpu) : cpu :=
  let r := w64 (a - k) in
  Cpu (xr s) (vr s)
      (negative64 r) (r =? 0) (k <=? a)
      (negb (Bool.eqb (negative64 a) (negative64 k)) &&
       negb (Bool.eqb (negative64 a) (negative64 r)))
      (mem s) (pc s).

Definition holds (c : cond) (s : cpu) : bool :=
  match c with
  | NE => negb (fZ s)
  | EQ => fZ s
  | LT => negb (Bool.eqb (fN s) (fV s))
  | GT => negb (fZ s) && Bool.eqb (fN s) (fV s)
  | LO => negb (fC s)
  | HS => fC s
  end.

(** * Execution *)

Section Machine.

Context (prog : list instr).

Fixpoint label_from (p : list instr) (l : string) (i : nat) : option nat :=
  match p with
  | [] => None
  | label l' :: p' => if String.eqb l l' then Some i else label_from p' l (S i)
  | _ :: p' => label_from p' l (S i)
  end.
Definition label_pos (l : string) : option nat := label_from prog l 0.

Definition lanes1 (f : list Z -> list Z) (d n : nat) (s : cpu) : outcome cpu :=
  Running (next (setv d (f (getv s n)) s)).
Definition lanes2 (f : Z -> Z -> Z) (d n m : nat) (s : cpu) : outcome cpu :=
  Running (next (setv d (zip_with f (getv s n) (getv s m)) s)).

Definition exec (i : instr) (s : cpu) : outcome cpu :=
  match i with
  | label _ => Running (next s)
  | lsr_w d n k => Running (next (setx d (Z.shiftr (w32 (getx s n)) k) s))
  | lsr_x d n k => Running (next (setx d (Z.shiftr (getx s n) k) s))
  | dup_16b d n => Running (next (setv d (Lane.dup16 (getx s n)) s))
  | dup_8b d n => Running (next (setv d (Lane.dup8 (getx s n)) s))
  | ldr_q q x =>
      match load 16 (mem s) (getx s x) with
      | Some bs => Running (next (setv q bs (setx x (w64 (getx s x + 16)) s)))
      | None => Fault
      end
  | str_q q x =>
      match store (mem s) (getx s x) (getv s q) with
      | Some m' => Running (next (setmem m' (setx x (w64 (getx s x + 16)) s)))
      | None => Fault
      end
  | ld3_16b q x =>
      match load 48 (mem s) (getx s x) with
      | Some bs =>
          Running (next (setv q (deint3 bs).1.1 (setv (S q) (deint3 bs).1.2
                   (setv (S (S q)) (deint3 bs).2 (setx x (w64 (getx s x + 48)) s)))))
      | None => Fault
      end
  | st3_16b q x =>
      match store (mem s) (getx s x) (int3 (getv s q) (getv s (S q)) (getv s (S (S q)))) with
      | Some m' => Running (next (setmem m' (setx x (w64 (getx s x + 48)) s)))
      | None => Fault
      end
  | ld3_lane0 q x =>
      match load 3 (mem s) (getx s x) with
      | Some bs =>
          Running (next (setv q (set_lane0 (bs !!! 0%nat) (getv s q))
                   (setv (S q) (set_lane0 (bs !!! 1%nat) (getv s (S q)))
                   (setv (S (S q)) (set_lane0 (bs !!! 2%nat) (getv s (S (S q))))
                   (setx x (w64 (getx s x + 3)) s)))))
      | None => Fault
      end
  | st1_lane0 q x =>
      match store (mem s) (getx s x) [lane0 (getv s q)] with
      | Some m' => Running (next (setmem m' (setx x (w64 (getx s x + 1)) s)))
      | None => Fault
      end
  | cmhi d n m => lanes2 Lane.cmhi8 d n m s
  | and_v d n m => lanes2 Z.land d n m s
  | orr_v d n m => lanes2 Z.lor d n m s
  | uqadd d n m => lanes2 Lane.uqadd8 d n m s
  | uqsub d n m => lanes2 Lane.uqsub8 d n m s
  | ushl d n m => lanes2 Lane.ushl8 d n m s
  | uqshl d n m => lanes2 Lane.uqshl8 d n m s
  | uqshl_i d n k => lanes1 (map (fun x => Lane.uqshl8 x k)) d n s
  | ushr d n k => lanes1 (map (fun x => Z.shiftr x k)) d n s
  | neg_v d n => lanes1 (map Lane.neg8) d n s
  | clz_v d n => lanes1 (map Lane.clz8) d n s
  | subs d n k => Running (next (setx d (w64 (getx s n - k)) (setflags (getx s n) k s)))
  | cmp n k => Running (next (setflags (getx s n) k s))
  | b_ c l =>
      if holds c s then
        match label_pos l with Some p => Running (goto p s) | None => Fault end
      else Running (next s)
  | ret => Halted s
  end.

Definition step (s : cpu) : outcome cpu :=
  match prog !! pc s with
  | Some i => exec i s
  | None => Fault
  end.

(** Calling a routine by its symbol, with the integer arguments in [x0]...;
    the vector registers and flags are whatever the caller left in them. *)
Definition call (fuel : nat) (f : string) (s : cpu) : outcome cpu :=
  match label_pos f with
  | Some p => run step fuel (goto p s)
  | None => Fault
  end.

End Machine.
