(* ===== verification/NeonText.v ===== *)
(** The text of [lib-vs/src/core/neon64.S], one definition per routine and
    one list element per source line that assembles to something; [neon64] is
    the whole section in source order, so a branch to a label of another
    routine means here what it means there. *)

From S2P Require Import Prelude Simd.
Local Open Scope Z_scope.

Definition memcpy_threshold_asm : list instr := [
  label "memcpy_threshold_asm";
    lsr_w 2 2 4;
    dup_16b 3 3;
  label "_thresh_loop";
    ldr_q 0 0;
    cmhi 1 0 3;
    and_v 2 1 0;
    str_q 2 1;
    subs 2 2 1;
    b_ NE "_thresh_loop";
    ret ].

Definition memcpy_threshold_binary_asm : list instr := [
  label "memcpy_threshold_binary_asm";
    lsr_w 2 2 4;
    dup_8b 3 3;
  label "_thresh_bin_loop";
    ldr_q 0 1;
    cmhi 1 0 3;
    str_q 1 0;
    subs 2 2 1;
    b_ NE "_thresh_bin_loop";
    ret ].

Definition memcpy_compare3_add_asm : list instr := [
  label "memcpy_compare3_add_asm";
    lsr_w 5 5 4;
  label "_cmp3_add_loop";
    ldr_q 0 0;
    ldr_q 1 1;
    ldr_q 2 2;
    ldr_q 3 3;
    cmhi 1 0 1;
    cmhi 2 0 2;
    and_v 1 1 2;
    and_v 2 0 1;
    ushr 1 2 6;
    neg_v 1 1;
    uqshl 2 0 1;
    uqshl_i 2 2 4;
    uqadd 3 2 3;
    str_q 3 4;
    subs 5 5 1;
    b_ NE "_cmp3_add_loop";
    ret ].

Definition memcpy_wst_asm : list instr := [
  label "memcpy_wst_asm";
    dup_16b 4 5;
    clz_v 4 4;
    neg_v 4 4;
    dup_16b 5 6;
    clz_v 5 5;
    neg_v 5 5;
    dup_16b 6 7;
    lsr_x 4 4 4;
  label "_wst_loop";
    ldr_q 0 0;
    ldr_q 1 1;
    ldr_q 2 2;
    ushl 1 1 4;
    ushl 2 2 5;
    uqadd 3 1 2;
    uqadd 3 3 6;
    uqsub 3 0 3;
    str_q 3 1;
    subs 4 4 1;
    b_ NE "_wst_loop";
    ret ].

Definition memcpy_deinterlace_wstb_asm : list instr := [
  label "memcpy_deinterlace_wstb_asm";
    dup_16b 4 4;
    clz_v 4 4;
    neg_v 4 4;
    dup_16b 5 5;
    clz_v 5 5;
    neg_v 5 5;
    dup_16b 6 6;
    lsr_x 2 2 4;
    cmp 3 1;
    b_ LT "_c0_split_wstb_loop";
    b_ EQ "_c1_split_wstb_loop";
    b_ GT "_c2_split_wstb_loop";
  label "_c0_split_wstb_loop";
    ld3_16b 0 0;
    ushl 1 1 4;
    ushl 2 2 5;
    uqadd 3 1 2;
    uqsub 3 0 3;
    cmhi 3 3 6;
    str_q 3 1;
    subs 2 2 1;
    b_ NE "_c0_split_wstb_loop";
    b_ EQ "_split_wstb_end";
  label "_c1_split_wstb_loop";
    ld3_16b 0 0;
    ushl 2 2 4;
    ushl 0 0 5;
    uqadd 3 2 0;
    uqsub 3 1 3;
    cmhi 3 3 6;
    str_q 3 1;
    subs 2 2 1;
    b_ NE "_c1_split_wstb_loop";
    b_ EQ "_split_wstb_end";
  label "_c2_split_wstb_loop";
    ld3_16b 0 0;
    ushl 0 0 4;
    ushl 1 1 5;
    uqadd 3 0 1;
    uqsub 3 2 3;
    cmhi 3 3 6;
    str_q 3 1;
    subs 2 2 1;
    b_ NE "_c2_split_wstb_loop";
    b_ EQ "_split_wstb_end";
  label "_split_wstb_end";
    ret ].

Definition memcpy_deinterlace_togray_asm : list instr := [
  label "memcpy_deinterlace_togray_asm";
    cmp 2 16;
    b_ LO "_togray_single";
  label "_togray_loop";
    ld3_16b 0 0;
    ushr 0 0 2;
    ushr 1 1 1;
    ushr 2 2 2;
    uqadd 3 0 1;
    uqadd 3 2 3;
    str_q 3 1;
    subs 2 2 16;
    b_ EQ "_togray_end";
    cmp 2 16;
    b_ HS "_togray_loop";
  label "_togray_single";
    ld3_lane0 0 0;
    ushr 0 0 2;
    ushr 1 1 1;
    ushr 2 2 2;
    uqadd 3 0 1;
    uqadd 3 2 3;
    st1_lane0 2 1;
    subs 2 2 1;
    b_ NE "_togray_single";
  label "_togray_end";
    ret ].

Definition memcpy_bitwise_or_asm : list instr := [
  label "memcpy_bitwise_or_asm";
    lsr_x 3 3 4;
  label "_bitwise_or_loop";
    ldr_q 0 0;
    ldr_q 1 1;
    orr_v 2 0 1;
    str_q 2 2;
    subs 3 3 1;
    b_ NE "_bitwise_or_loop";
    ret ].

Definition memcpy_bitwise_or_3c_asm : list instr := [
  label "memcpy_bitwise_or_3c_asm";
    lsr_x 3 3 4;
  label "_bitwise_or_3c_loop";
    ld3_16b 0 0;
    ldr_q 3 1;
    orr_v 0 0 3;
    orr_v 1 1 3;
    orr_v 2 2 3;
    st3_16b 0 2;
    subs 3 3 1;
    b_ NE "_bitwise_or_loop";
    ret ].

Definition memcpy_add_asm : list instr := [
  label "memcpy_add_asm";
    lsr_x 3 3 4;
  label "_add_loop";
    ldr_q 0 0;
    ldr_q 1 1;
    uqadd 2 0 1;
    str_q 2 2;
    subs 3 3 1;
    b_ NE "_add_loop";
    ret ].

Definition memcpy_add_3c_asm : list instr := [
  label "memcpy_add_3c_asm";
    lsr_x 3 3 4;
  label "_add_3c_loop";
    ld3_16b 0 0;
    ldr_q 3 1;
    uqadd 0 0 3;
    uqadd 1 1 3;
    uqadd 2 2 3;
    st3_16b 0 2;
    subs 3 3 1;
    b_ NE "_add_3c_loop";
    ret ].

Definition memcpy_add_3c2_asm : list instr := [
  label "memcpy_add_3c2_asm";
    lsr_x 3 3 4;
  label "_add_3c2_loop";
    ld3_16b 0 0;
    ld3_16b 3 1;
    uqadd 0 0 3;
    uqadd 1 1 4;
    uqadd 2 2 5;
    st3_16b 0 2;
    subs 3 3 1;
    b_ NE "_add_3c_loop";
    ret ].

Definition memcpy_subtract_asm : list instr := [
  label "memcpy_subtract_asm";
    lsr_x 3 3 4;
  label "_subtract_loop";
    ldr_q 0 0;
    ldr_q 1 1;
    uqsub 2 0 1;
    str_q 2 2;
    subs 3 3 1;
    b_ NE "_subtract_loop";
    ret ].

(** The text section, routines in source order. *)
Definition neon64 : list instr :=
  memcpy_threshold_asm ++ memcpy_threshold_binary_asm ++
  memcpy_compare3_add_asm ++ memcpy_wst_asm ++
  memcpy_deinterlace_wstb_asm ++ memcpy_deinterlace_togray_asm ++
  memcpy_bitwise_or_asm ++ memcpy_bitwise_or_3c_asm ++
  memcpy_add_asm ++ memcpy_add_3c_asm ++ memcpy_add_3c2_asm ++
  memcpy_subtract_asm.
