(* ===== verification/SimdMem.v ===== *)
(** Lemmas on the byte memory of [Simd]: what a load sees, what a store
    changes, and when the two do not interfere. *)

From S2P Require Import Prelude Simd.
Local Open Scope Z_scope.

Definition is_byte (z : Z) : Prop := 0 <= z < 256.

(** The memory holds the bytes [l] from address [a] on. *)
Definition bytes_at (m : memory) (a : Z) (l : list Z) : Prop :=
  load (length l) m a = Some l.

Lemma load_length n m a bs : load n m a = Some bs -> length bs = n.
Proof.
  revert a bs. induction n as [|n IH]; intros a bs; simpl.
  - by intros [= <-].
  - destruct (m !! a); [|done]. destruct (load n m (a + 1)) eqn:E; [|done].
    intros [= <-]. simpl. f_equal. eauto.
Qed.

Lemma load_Some n m a bs :
  load n m a = Some bs <->
  length bs = n /\ forall i, (i < n)%nat -> m !! (a + Z.of_nat i) = bs !! i.
Proof.
  revert a bs. induction n as [|n IH]; intros a bs; simpl.
  - split.
    + intros [= <-]. split; [done | lia].
    + intros [Hl _]. by destruct bs.
  - split.
    + destruct (m !! a) eqn:Ea; [|done].
      destruct (load n m (a + 1)) eqn:E; [|done]. intros [= <-].
      apply IH in E as [Hl Hi]. split; [simpl; lia|].
      intros [|i] Hlt; simpl; [by rewrite Z.add_0_r|].
      rewrite <- Hi by lia. f_equal. lia.
    + intros [Hl Hi]. destruct bs as [|b bs]; [done|].
      pose proof (Hi 0%nat ltac:(lia)) as H0. rewrite Z.add_0_r in H0.
      rewrite H0. simpl.
      replace (load n m (a + 1)) with (Some bs); [done|].
      symmetry. apply IH. split; [simpl in Hl; lia|].
      intros i Hlt. specialize (Hi (S i) ltac:(lia)). simpl in Hi.
      rewrite <- Hi. f_equal. lia.
Qed.

Lemma mapped_true n m a :
  mapped n m a = true <->
  forall i, (i < n)%nat -> is_Some (m !! (a + Z.of_nat i)).
Proof.
  revert a. induction n as [|n IH]; intros a; simpl.
  - split; [lia | done].
  - split.
    + destruct (m !! a) eqn:E; [|done]. intros H [|i] Hi.
      * rewrite Z.add_0_r, E. by eexists.
      * replace (a + Z.of_nat (S i)) with (a + 1 + Z.of_nat i) by lia.
        apply IH; [done | lia].
    + intros H. pose proof (H 0%nat ltac:(lia)) as [b Hb].
      rewrite Z.add_0_r in Hb. rewrite Hb. apply IH. intros i Hi.
      replace (a + 1 + Z.of_nat i) with (a + Z.of_nat (S i)) by lia.
      apply H. lia.
Qed.

Lemma load_mapped n m a bs : load n m a = Some bs -> mapped n m a = true.
Proof.
  intros [Hl Hi]%load_Some. apply mapped_true. intros i Hlt.
  rewrite Hi by done. apply lookup_lt_is_Some. lia.
Qed.

Lemma mapped_load n m a : mapped n m a = true -> exists bs, load n m a = Some bs.
Proof.
  revert a. induction n as [|n IH]; intros a; simpl; [by eauto|].
  destruct (m !! a); [|done]. intros (bs & ->)%IH. eauto.
Qed.

Lemma lookup_store_bytes m a bs k :
  store_bytes m a bs !! k =
  if decide (a <= k < a + Z.of_nat (length bs))
  then bs !! Z.to_nat (k - a) else m !! k.
Proof.
  revert m a. induction bs as [|b bs IH]; intros m a; simpl.
  - rewrite decide_False by lia. done.
  - rewrite IH. destruct (decide (a + 1 <= k < a + 1 + Z.of_nat (length bs))).
    + rewrite decide_True by lia.
      replace (Z.to_nat (k - a)) with (S (Z.to_nat (k - (a + 1)))) by lia. done.
    + destruct (decide (k = a)) as [->|Hne].
      * rewrite lookup_insert_eq, decide_True by lia.
        by rewrite Z.sub_diag.
      * rewrite lookup_insert_ne by congruence. by rewrite decide_False by lia.
Qed.

Lemma store_bytes_app m a l1 l2 :
  store_bytes m a (l1 ++ l2) =
  store_bytes (store_bytes m a l1) (a + Z.of_nat (length l1)) l2.
Proof.
  revert m a. induction l1 as [|b l1 IH]; intros m a; simpl.
  - by rewrite Z.add_0_r.
  - rewrite IH. f_equal. lia.
Qed.

Lemma mapped_store n m a b bs :
  mapped n m a = true -> mapped n (store_bytes m b bs) a = true.
Proof.
  rewrite !mapped_true. intros H i Hi. rewrite lookup_store_bytes.
  case_decide; [|by apply H]. apply lookup_lt_is_Some. lia.
Qed.

Lemma mapped_app n1 n2 m a :
  mapped (n1 + n2) m a = true <->
  mapped n1 m a = true /\ mapped n2 m (a + Z.of_nat n1) = true.
Proof.
  rewrite !mapped_true. split.
  - intros H. split; intros i Hi; [apply H; lia|].
    replace (a + Z.of_nat n1 + Z.of_nat i) with (a + Z.of_nat (n1 + i)) by lia.
    apply H. lia.
  - intros [H1 H2] i Hi. destruct (decide (i < n1)%nat); [by apply H1|].
    replace (a + Z.of_nat i) with (a + Z.of_nat n1 + Z.of_nat (i - n1)) by lia.
    apply H2. lia.
Qed.

Lemma load_split n1 n2 m a bs :
  load (n1 + n2) m a = Some bs ->
  load n1 m a = Some (take n1 bs) /\
  load n2 m (a + Z.of_nat n1) = Some (drop n1 bs).
Proof.
  rewrite !load_Some. intros [Hl Hi]. repeat split.
  - rewrite length_take. lia.
  - intros i Hlt. rewrite lookup_take_lt by done. apply Hi. lia.
  - rewrite length_drop. lia.
  - intros i Hlt. rewrite lookup_drop, <- Hi by lia. f_equal. lia.
Qed.

(** A load does not see a store to a disjoint range. *)
Lemma load_store_disjoint n m a b bs :
  a + Z.of_nat n <= b \/ b + Z.of_nat (length bs) <= a ->
  load n (store_bytes m b bs) a = load n m a.
Proof.
  intros Hd.
  assert (Heq : forall i, (i < n)%nat ->
            store_bytes m b bs !! (a + Z.of_nat i) = m !! (a + Z.of_nat i)).
  { intros i Hi. rewrite lookup_store_bytes, decide_False by lia. done. }
  clear Hd. revert a Heq. induction n as [|n IH]; intros a Heq; simpl; [done|].
  pose proof (Heq 0%nat ltac:(lia)) as H0. rewrite Z.add_0_r in H0. rewrite H0.
  rewrite IH; [done|]. intros i Hi.
  replace (a + 1 + Z.of_nat i) with (a + Z.of_nat (S i)) by lia. apply Heq. lia.
Qed.

Lemma load_store_same m a bs : bytes_at (store_bytes m a bs) a bs.
Proof.
  apply load_Some. split; [done|]. intros i Hi.
  rewrite lookup_store_bytes, decide_True by lia. f_equal. lia.
Qed.

Lemma store_Some m a bs :
  mapped (length bs) m a = true -> store m a bs = Some (store_bytes m a bs).
Proof. unfold store. by intros ->. Qed.

(** * Planes of interleaved pixels *)

Lemma list_ind3 (P : list Z -> Prop) :
  P [] -> (forall x, P [x]) -> (forall x y, P [x; y]) ->
  (forall x y z l, P l -> P (x :: y :: z :: l)) -> forall l, P l.
Proof.
  intros H0 H1 H2 H3. fix IH 1. intros [|x [|y [|z l]]]; [done..|]. apply H3, IH.
Qed.

Lemma deint3_lookup n bs i :
  length bs = (3 * n)%nat ->
  ((deint3 bs).1.1 !! i = bs !! (3 * i)%nat) /\
  ((deint3 bs).1.2 !! i = bs !! (3 * i + 1)%nat) /\
  ((deint3 bs).2 !! i = bs !! (3 * i + 2)%nat).
Proof.
  revert n i. induction bs as [|x|x y|x y z l IH] using list_ind3; intros n i Hl;
    simpl in Hl; [by rewrite !lookup_nil | lia | lia |].
  destruct n as [|n]; [lia|]. specialize (IH n). cbn [deint3].
  destruct (deint3 l) as [[r g] b]. cbn [fst snd] in *.
  destruct i as [|i]; [done|].
  replace (3 * S i)%nat with (S (S (S (3 * i)))) by lia.
  replace (S (S (S (3 * i))) + 1)%nat with (S (S (S (3 * i + 1)))) by lia.
  replace (S (S (S (3 * i))) + 2)%nat with (S (S (S (3 * i + 2)))) by lia.
  exact (IH i ltac:(lia)).
Qed.

Lemma length_deint3 n bs :
  length bs = (3 * n)%nat ->
  length (deint3 bs).1.1 = n /\ length (deint3 bs).1.2 = n /\ length (deint3 bs).2 = n.
Proof.
  revert n. induction bs as [|x|x y|x y z l IH] using list_ind3; intros n Hl;
    simpl in Hl; [simpl; lia | lia | lia |].
  destruct n as [|n]; [lia|]. cbn [deint3]. specialize (IH n ltac:(lia)).
  destruct (deint3 l) as [[r g] b]. simpl in *. lia.
Qed.

Lemma length_int3 n r g b :
  length r = n -> length g = n -> length b = n -> length (int3 r g b) = (3 * n)%nat.
Proof.
  revert r g b. induction n as [|n IH]; intros [|x r] [|y g] [|z b]; simpl; try lia.
  intros [= Hr] [= Hg] [= Hb]. rewrite (IH r g b) by done. lia.
Qed.

Lemma int3_deint3 n bs :
  length bs = (3 * n)%nat -> int3 (deint3 bs).1.1 (deint3 bs).1.2 (deint3 bs).2 = bs.
Proof.
  revert n. induction bs as [|x|x y|x y z l IH] using list_ind3; intros n Hl;
    simpl in Hl; [done | lia | lia |].
  destruct n as [|n]; [lia|]. cbn [deint3]. specialize (IH n ltac:(lia)).
  destruct (deint3 l) as [[r g] b]. simpl in *. by rewrite IH.
Qed.

Lemma deint3_int3 r g b :
  length g = length r -> length b = length r -> deint3 (int3 r g b) = (r, g, b).
Proof.
  revert g b. induction r as [|x r IH]; intros [|y g] [|z b]; simpl; try lia; [done|].
  intros [= Hg] [= Hb]. by rewrite IH.
Qed.

#[export] Hint Resolve load_length load_mapped mapped_store load_store_same : vsdb.
