(* ===== verification/Stream.v ===== *)
(** The block loop that every kernel of [neon64.S] is an instance of.  The
    abstract loop [stream_mem] loads one block from each source, stores one
    block to the destination and advances the pointers; [stream_refines] says
    that a machine loop with the right one-iteration lemma computes exactly
    this, faults included, and [stream_mem_out] gives its closed form on
    buffers that do not overlap (or that coincide). *)

From S2P Require Import Prelude Machine Simd SimdMem.
Local Open Scope Z_scope.

(** One block from each source, [blks] giving the block lengths. *)
Fixpoint loads (m : memory) (blks : list nat) (ps : list Z) : option (list (list Z)) :=
  match blks, ps with
  | n :: blks', a :: ps' =>
      match load n m a, loads m blks' ps' with
      | Some b, Some bs => Some (b :: bs)
      | _, _ => None
      end
  | _, _ => Some []
  end.

Section Stream.

Context (blks : list nat) (advs : list Z) (dadv : Z).
Context (F : list (list Z) -> list Z).

Definition bump (ps : list Z) : list Z := zip_with (fun a n => w64 (a + n)) ps advs.

Fixpoint stream_mem (k : nat) (ps : list Z) (d : Z) (m : memory) : option memory :=
  match k with
  | O => Some m
  | S k' =>
      match loads m blks ps with
      | Some bs =>
          match store m d (F bs) with
          | Some m' => stream_mem k' (bump ps) (w64 (d + dadv)) m'
          | None => None
          end
      | None => None
      end
  end.

(** ** The machine loop refines the abstract one *)

Section Refines.

Context {St : Type} (step : St -> outcome St).

Section Ends.

Context (Exit : memory -> St -> Prop).

(** A machine state that faults, whatever fuel is left. *)
Definition will_fault (s : St) : Prop := exists c, run step c s = Fault.
Definition will_exit (m : memory) (s : St) : Prop :=
  exists c s', run step c s = Running s' /\ Exit m s'.

(** What one turn of a loop body does from its head [Inv]: it faults, or
    performs one block and is at the exit when the counter was one, and at the
    head [Inv'] with a decremented counter otherwise.  ([Inv'] is [Inv] in a
    loop that branches back to itself.) *)
Definition iteration (Inv Inv' : list Z -> Z -> Z -> memory -> St -> Prop) : Prop :=
  forall ps d r m s, Inv ps d r m s -> 1 <= r <= 2 ^ 64 ->
  match loads m blks ps with
  | None => will_fault s
  | Some bs =>
      match store m d (F bs) with
      | None => will_fault s
      | Some m' =>
          exists c s', run step c s = Running s' /\
            if r =? 1 then Exit m' s' else Inv' (bump ps) (w64 (d + dadv)) (r - 1) m' s'
      end
  end.

Lemma will_fault_step c s s' : run step c s = Running s' -> will_fault s' -> will_fault s.
Proof. intros H [c' H']. exists (c + c')%nat. by rewrite (run_app _ _ _ _ _ H). Qed.

Lemma will_exit_step c m s s' :
  run step c s = Running s' -> will_exit m s' -> will_exit m s.
Proof.
  intros H (c' & s1 & H' & HE). exists (c + c')%nat, s1.
  by rewrite (run_app _ _ _ _ _ H).
Qed.

(** The machine ends as the abstract computation [o] says. *)
Definition ends (o : option memory) (s : St) : Prop :=
  match o with Some m' => will_exit m' s | None => will_fault s end.

Lemma ends_step c o s s' : run step c s = Running s' -> ends o s' -> ends o s.
Proof. destruct o; simpl; eauto using will_fault_step, will_exit_step. Qed.

End Ends.

Lemma ends_bind Exit Exit' o k s :
  ends Exit o s -> (forall m s', Exit m s' -> ends Exit' (k m) s') ->
  ends Exit' (match o with Some m => k m | None => None end) s.
Proof.
  destruct o as [m|]; simpl; [|done]. intros (c & s' & Hrun & HE) Hk.
  eapply ends_step; eauto.
Qed.

Context (Exit : memory -> St -> Prop).

(** One block, then the computation [rest] with one turn less to go. *)
Definition once_then (rest : nat -> list Z -> Z -> memory -> option memory)
    (k : nat) (ps : list Z) (d : Z) (m : memory) : option memory :=
  match loads m blks ps with
  | Some bs =>
      match store m d (F bs) with
      | Some m' => match k with O => Some m' | S _ => rest k (bump ps) (w64 (d + dadv)) m' end
      | None => None
      end
  | None => None
  end.

Lemma stream_mem_once k ps d m : stream_mem (S k) ps d m = once_then stream_mem k ps d m.
Proof.
  unfold once_then. cbn [stream_mem]. destruct (loads m blks ps); [|done].
  destruct (store m d (F l)); [|done]. by destruct k.
Qed.

Lemma once_then_refines Inv Inv' rest k ps d m s :
  iteration Exit Inv Inv' ->
  (forall ps' d' m' s', (0 < k)%nat -> Inv' ps' d' (Z.of_nat k) m' s' ->
     ends Exit (rest k ps' d' m') s') ->
  Inv ps d (Z.of_nat (S k)) m s -> Z.of_nat (S k) <= 2 ^ 64 ->
  ends Exit (once_then rest k ps d m) s.
Proof.
  intros Hit Hrest HI Hr.
  pose proof (Hit ps d (Z.of_nat (S k)) m s HI ltac:(lia)) as Hs. unfold once_then.
  destruct (loads m blks ps) as [bs|]; [|done].
  destruct (store m d (F bs)) as [m'|]; [|done].
  destruct Hs as (c & s1 & Hrun & Hs1). apply (ends_step _ _ _ _ _ Hrun).
  destruct (Z.eqb_spec (Z.of_nat (S k)) 1) as [E|E].
  - assert (k = 0%nat) as -> by lia. exists 0%nat, s1. done.
  - destruct k as [|k]; [lia|]. apply Hrest; [lia|].
    by replace (Z.of_nat (S k)) with (Z.of_nat (S (S k)) - 1) by lia.
Qed.

Lemma stream_refines Inv k ps d m s :
  iteration Exit Inv Inv -> Inv ps d (Z.of_nat (S k)) m s -> Z.of_nat (S k) <= 2 ^ 64 ->
  ends Exit (stream_mem (S k) ps d m) s.
Proof.
  intros Hit. revert ps d m s. induction k as [|k IH]; intros ps d m s HI Hr;
    rewrite stream_mem_once; eapply once_then_refines; eauto; [lia|].
  intros. apply IH; [done | lia].
Qed.

(** ** Loops whose accesses succeed *)

(** A turn of a loop body from its head, where the block accesses succeed. *)
Definition turn_ok (Inv : list Z -> Z -> Z -> memory -> St -> Prop) : Prop :=
  forall ps d r m s bs m', Inv ps d r m s -> 1 <= r <= 2 ^ 64 ->
  loads m blks ps = Some bs -> store m d (F bs) = Some m' ->
  exists c s', run step c s = Running s' /\
    if r =? 1 then Exit m' s' else Inv (bump ps) (w64 (d + dadv)) (r - 1) m' s'.

(** Such a loop ends with the memory the abstract loop computes, when that is
    defined: it terminates, and it faults nowhere. *)
Lemma stream_terminates Inv k ps d m m' s :
  turn_ok Inv -> Inv ps d (Z.of_nat (S k)) m s -> Z.of_nat (S k) <= 2 ^ 64 ->
  stream_mem (S k) ps d m = Some m' -> will_exit Exit m' s.
Proof.
  intros Hit. revert ps d m s. induction k as [|k IH]; intros ps d m s HI Hr; cbn [stream_mem].
  all: destruct (loads m blks ps) as [bs|] eqn:El; [|done].
  all: destruct (store m d (F bs)) as [m1|] eqn:Es; [|done].
  all: destruct (Hit _ _ _ _ _ _ _ HI ltac:(lia) El Es) as (c & s1 & Hrun & H1).
  - intros [= <-]. by exists c, s1.
  - rewrite (proj2 (Z.eqb_neq _ 1)) in H1 by lia. intros Hm.
    eapply will_exit_step; [exact Hrun|]. eapply IH; [ | lia | exact Hm].
    by replace (Z.of_nat (S k)) with (Z.of_nat (S (S k)) - 1) by lia.
Qed.

End Refines.

(** ** Closed form on separate or coinciding buffers *)

(** The bytes written, given the whole contents of the sources. *)
Fixpoint stream_out (k : nat) (datas : list (list Z)) : list Z :=
  match k with
  | O => []
  | S k' => F (zip_with take blks datas) ++ stream_out k' (zip_with drop blks datas)
  end.

(** A source of [b]-byte blocks at [a] against the destination [d] of [t]-byte
    blocks, [k] blocks left: apart, or processed in place. *)
Definition apart (k t b : nat) (a d : Z) : Prop :=
  a + Z.of_nat (b * k) <= d \/ d + Z.of_nat (t * k) <= a \/ (a = d /\ b = t).

Inductive sources (k t : nat) (d : Z) (m : memory) :
  list nat -> list Z -> list Z -> list (list Z) -> Prop :=
| sources_nil : sources k t d m [] [] [] []
| sources_cons b bs a ps avs data datas :
    0 <= a -> a + Z.of_nat (b * k) < 2 ^ 64 ->
    load (b * k) m a = Some data ->
    apart k t b a d ->
    sources k t d m bs ps avs datas ->
    sources k t d m (b :: bs) (a :: ps) (Z.of_nat b :: avs) (data :: datas).

Lemma sources_loads k t d m bs ps avs datas :
  sources (S k) t d m bs ps avs datas ->
  loads m bs ps = Some (zip_with take bs datas).
Proof.
  induction 1 as [|b bs a ps avs data datas Ha Hb Hl Hap _ IH]; simpl; [done|].
  rewrite Nat.mul_succ_r, Nat.add_comm in Hl.
  apply load_split in Hl as [-> _]. by rewrite IH.
Qed.

Lemma sources_next k t d m bs ps avs datas out :
  length out = t ->
  sources (S k) t d m bs ps avs datas ->
  sources k t (d + Z.of_nat t) (store_bytes m d out) bs
    (zip_with (fun a n => w64 (a + n)) ps avs) avs (zip_with drop bs datas).
Proof.
  intros Ho.
  induction 1 as [|b bs a ps avs data datas Ha Hb Hl Hap _ IH]; simpl.
  { constructor. }
  rewrite Nat.mul_succ_r, Nat.add_comm in Hl.
  apply load_split in Hl as [_ Hl].
  unfold apart in *. rewrite !Nat.mul_succ_r, !Nat2Z.inj_add, ?Nat2Z.inj_mul in *.
  assert (E : w64 (a + Z.of_nat b) = a + Z.of_nat b).
  { unfold w64. apply Z.mod_small. lia. }
  rewrite E. constructor; unfold apart; rewrite ?Nat2Z.inj_mul; [lia | lia | | | done].
  - rewrite load_store_disjoint; [done|]. rewrite Ho, Nat2Z.inj_mul.
    destruct Hap as [?|[?|[-> ->]]]; lia.
  - destruct Hap as [?|[?|[-> ->]]]; lia.
Qed.

Lemma stream_mem_out k t ps d m datas :
  dadv = Z.of_nat t -> 0 <= d -> d + Z.of_nat (t * k) < 2 ^ 64 ->
  sources k t d m blks ps advs datas ->
  mapped (t * k) m d = true ->
  (forall bs, Forall2 (fun n b => length b = n) blks bs -> length (F bs) = t) ->
  stream_mem k ps d m = Some (store_bytes m d (stream_out k datas)).
Proof.
  intros Hdadv Hd Hbound Hsrc Hmap HF.
  revert ps d m datas Hd Hbound Hsrc Hmap.
  induction k as [|k IH]; intros ps d m datas Hd Hbound Hsrc Hmap; [done|].
  cbn [stream_mem stream_out].
  rewrite (sources_loads _ _ _ _ _ _ _ _ Hsrc).
  assert (Hlen : length (F (zip_with take blks datas)) = t).
  { apply HF. clear - Hsrc. induction Hsrc; simpl; constructor; [|done].
    apply load_length in H1. rewrite length_take. nia. }
  rewrite Nat.mul_succ_r, Nat.add_comm in Hmap.
  apply mapped_app in Hmap as [Hm1 Hm2].
  rewrite store_Some by (by rewrite Hlen).
  assert (E : w64 (d + dadv) = d + Z.of_nat t).
  { rewrite Hdadv. unfold w64. apply Z.mod_small. nia. }
  rewrite E, (IH (bump ps) (d + Z.of_nat t) _ (zip_with drop blks datas)).
  - by rewrite store_bytes_app, Hlen.
  - lia.
  - nia.
  - by apply sources_next.
  - by apply mapped_store.
Qed.

End Stream.

#[export] Hint Constructors sources : vsdb.
