(* ===== verification/Pixels.v ===== *)
(** Frames in memory and what is done to their pixels: buffers, rooms and
    when they are apart, the reference functions of the kernels on whole
    frames, and how a block function repeated over a frame gives its reference.
    Shared by the kernels of both processors. *)

From S2P Require Import Prelude Simd SimdMem Stream.
Local Open Scope Z_scope.

(** * Buffers *)

(** The bytes [l] at [a], a range that does not wrap around. *)
Definition buffer (m : memory) (a : Z) (l : list Z) : Prop :=
  0 <= a /\ a + Z.of_nat (length l) < 2 ^ 64 /\ bytes_at m a l /\ Forall is_byte l.

(** [n] writable bytes at [a]. *)
Definition room (m : memory) (a : Z) (n : nat) : Prop :=
  0 <= a /\ a + Z.of_nat n < 2 ^ 64 /\ mapped n m a = true.

(** [n] bytes at [a] and [n'] bytes at [b] do not overlap. *)
Definition separate (a : Z) (n : nat) (b : Z) (n' : nat) : Prop :=
  a + Z.of_nat n <= b \/ b + Z.of_nat n' <= a.

(** The source may also be the destination itself. *)
Definition in_place_or_separate (a b : Z) (n : nat) : Prop :=
  a = b \/ separate a n b n.

(** All of these are decidable, so a concrete call is checked by evaluation. *)
#[export] Instance is_byte_dec z : Decision (is_byte z).
Proof. unfold is_byte. apply _. Defined.
#[export] Instance buffer_dec m a l : Decision (buffer m a l).
Proof. unfold buffer, bytes_at. apply _. Defined.
#[export] Instance room_dec m a n : Decision (room m a n).
Proof. unfold room. apply _. Defined.
#[export] Instance separate_dec a n b n' : Decision (separate a n b n').
Proof. unfold separate. apply _. Defined.
#[export] Instance in_place_or_separate_dec a b n : Decision (in_place_or_separate a b n).
Proof. unfold in_place_or_separate. apply _. Defined.
#[export] Instance reg_is_dec {A} `{EqDecision A} (r : list A) :
  forall p : nat * A, Decision ((fun '(i, x) => r !! i = Some x) p).
Proof. intros [i x]. apply _. Defined.
Ltac concretely := apply (bool_decide_unpack _); vm_compute; exact I.

(** * From blocks to whole buffers *)

Definition exactly (k : nat) : list nat -> list (list Z) -> Prop :=
  Forall2 (fun b d => length d = (b * k)%nat).

Lemma exactly_split k blks datas :
  exactly (S k) blks datas ->
  exactly 1 blks (zip_with take blks datas) /\ exactly k blks (zip_with drop blks datas).
Proof.
  induction 1 as [|b d blks datas Hl _ [IH1 IH2]]; [split; constructor|].
  split; constructor; try done; [rewrite length_take | rewrite length_drop]; nia.
Qed.

Lemma exactly_one blks bs :
  Forall2 (fun n b => length b = n) blks bs <-> exactly 1 blks bs.
Proof.
  split; induction 1; constructor; try done; lia.
Qed.

Lemma length_stream_out blks F t k datas :
  (forall bs, exactly 1 blks bs -> length (F bs) = t) -> exactly k blks datas ->
  length (stream_out blks F k datas) = (t * k)%nat.
Proof.
  intros HF. revert datas. induction k as [|k IH]; intros datas Hd; simpl; [lia|].
  destruct (exactly_split _ _ _ Hd) as [H1 H2]. rewrite length_app, HF, IH by done. lia.
Qed.

Lemma sources_exactly k t d m blks ps avs datas :
  sources k t d m blks ps avs datas -> exactly k blks datas.
Proof. induction 1; constructor; [by eapply load_length | done]. Qed.

Lemma stream_out_ref blks F (R : list (list Z) -> list Z) :
  (forall bs, exactly 1 blks bs -> F bs = R bs) ->
  (forall k datas, exactly (S k) blks datas ->
     R datas = R (zip_with take blks datas) ++ R (zip_with drop blks datas)) ->
  (forall datas, exactly 0 blks datas -> R datas = []) ->
  forall k datas, exactly k blks datas -> stream_out blks F k datas = R datas.
Proof.
  intros HF HS H0. induction k as [|k IH]; intros datas Hd; simpl; [by rewrite H0|].
  destruct (exactly_split _ _ _ Hd) as [H1 H2].
  by rewrite (HS _ _ Hd), HF, IH.
Qed.

(** * Reference functions *)

Fixpoint zip3_with (f : Z -> Z -> Z -> Z) (a b c : list Z) : list Z :=
  match a, b, c with
  | x :: a', y :: b', z :: c' => f x y z :: zip3_with f a' b' c'
  | _, _, _ => []
  end.

Fixpoint zip4_with (f : Z -> Z -> Z -> Z -> Z) (a b c d : list Z) : list Z :=
  match a, b, c, d with
  | x :: a', y :: b', z :: c', w :: d' => f x y z w :: zip4_with f a' b' c' d'
  | _, _, _, _ => []
  end.

(** A three-channel frame against a one-channel frame, pixel by pixel. *)
Fixpoint pixels_with (f : Z -> Z -> Z) (px b : list Z) : list Z :=
  match px, b with
  | x :: y :: z :: px', v :: b' => f x v :: f y v :: f z v :: pixels_with f px' b'
  | _, _ => []
  end.

(** One byte from each three-byte pixel. *)
Fixpoint pixels_map (f : Z -> Z -> Z -> Z) (px : list Z) : list Z :=
  match px with
  | x :: y :: z :: px' => f x y z :: pixels_map f px'
  | _ => []
  end.

Definition thresh_px (t p : Z) : Z := if t <? p then p else 0.
Definition thresh_bin_px (t p : Z) : Z := if t <? p then 255 else 0.

(** Gray by halves and quarters, each rounded down. *)
Definition gray_px (r g b : Z) : Z := r / 4 + g / 2 + b / 4.

(** The primary channel, divided by its own top two bits where it beats both
    others, scaled by sixteen, plus the addition; both steps saturate. *)
Definition cmp3_px (p c1 c2 a : Z) : Z :=
  let kept := if (c1 <? p) && (c2 <? p) then p / 2 ^ (p / 64) else p in
  Z.min 255 (Z.min 255 (16 * kept) + a).

(** A channel weighted by the leading zeros of its eight-bit weight. *)
Definition weighted (w x : Z) : Z := x / 2 ^ Lane.clz8 w.

Definition wst_px (alpha beta gamma p c1 c2 : Z) : Z :=
  Z.max 0 (p - Z.min 255 (Z.min 255 (weighted alpha c1 + weighted beta c2) + gamma)).

(** The primary channel of pixel [(x, y, z)] at offset [o], the weighted others
    following it cyclically. *)
Definition wstb_px (o alpha beta t x y z : Z) : Z :=
  let '(p, c1, c2) := if o =? 0 then (x, y, z) else if o =? 1 then (y, z, x) else (z, x, y) in
  thresh_bin_px t (wst_px alpha beta 0 p c1 c2).

(** * The references on blocks *)

Lemma map_split {A B} (f : A -> B) n l : map f l = map f (take n l) ++ map f (drop n l).
Proof. by rewrite <- map_app, take_drop. Qed.

Lemma zip_with_split {A B C} (f : A -> B -> C) n l k :
  zip_with f l k = zip_with f (take n l) (take n k) ++ zip_with f (drop n l) (drop n k).
Proof.
  revert l k. induction n as [|n IH]; intros l k; [done|].
  destruct l as [|x l], k as [|y k]; simpl; [done.. | by destruct (drop n l) |].
  by rewrite (IH l k).
Qed.

Lemma zip3_nil f a b c : a = [] \/ b = [] \/ c = [] -> zip3_with f a b c = [].
Proof. intros [->|[->| ->]]; [done | by destruct a | by destruct a, b]. Qed.

Lemma zip3_split f n a b c :
  zip3_with f a b c = zip3_with f (take n a) (take n b) (take n c)
                      ++ zip3_with f (drop n a) (drop n b) (drop n c).
Proof.
  revert a b c. induction n as [|n IH]; intros a b c; [done|].
  destruct a as [|x a], b as [|y b], c as [|z c];
    try (solve [rewrite !zip3_nil; simpl; auto]). simpl. by rewrite (IH a b c).
Qed.

Lemma zip4_nil f a b c d : a = [] \/ b = [] \/ c = [] \/ d = [] -> zip4_with f a b c d = [].
Proof. intros [->|[->|[->| ->]]]; [done | by destruct a | by destruct a, b | by destruct a, b, c]. Qed.

Lemma zip4_split f n a b c d :
  zip4_with f a b c d = zip4_with f (take n a) (take n b) (take n c) (take n d)
                        ++ zip4_with f (drop n a) (drop n b) (drop n c) (drop n d).
Proof.
  revert a b c d. induction n as [|n IH]; intros a b c d; [done|].
  destruct a as [|x a], b as [|y b], c as [|z c], d as [|w d];
    try (solve [rewrite !zip4_nil; simpl; auto]). simpl. by rewrite (IH a b c d).
Qed.

(** Cutting a frame at a pixel boundary, for the inductions below. *)
Ltac cut_pixel n :=
  destruct n as [|n]; [done|];
  replace (3 * S n)%nat with (S (S (S (3 * n)))) by lia; cbn [take drop];
  rewrite ?take_nil, ?drop_nil; try done.

Lemma pixels_map_split f n px :
  pixels_map f px = pixels_map f (take (3 * n) px) ++ pixels_map f (drop (3 * n) px).
Proof.
  revert n. induction px as [|x|x y|x y z l IH] using list_ind3; intros n; cut_pixel n.
  simpl. by rewrite (IH n).
Qed.

Lemma pixels_with_nil f px : pixels_with f px [] = [].
Proof. by destruct px as [|? [|? [|? ?]]]. Qed.

Lemma pixels_with_split f n px b :
  pixels_with f px b = pixels_with f (take (3 * n) px) (take n b)
                       ++ pixels_with f (drop (3 * n) px) (drop n b).
Proof.
  revert n b. induction px as [|x|x y|x y z l IH] using list_ind3; intros n b; cut_pixel n.
  destruct b as [|v b]; cbn [take drop]; [by rewrite !pixels_with_nil|].
  simpl. by rewrite (IH n).
Qed.

Lemma length_zip3 f n a b c :
  length a = n -> length b = n -> length c = n -> length (zip3_with f a b c) = n.
Proof.
  revert a b c. induction n as [|n IH]; intros [|x a] [|y b] [|z c]; simpl; try lia.
  intros. by rewrite IH by lia.
Qed.

Lemma length_zip4 f n a b c d :
  length a = n -> length b = n -> length c = n -> length d = n ->
  length (zip4_with f a b c d) = n.
Proof.
  revert a b c d. induction n as [|n IH]; intros [|x a] [|y b] [|z c] [|w d]; simpl; try lia.
  intros. by rewrite IH by lia.
Qed.

Lemma length_pixels_map f n px :
  length px = (3 * n)%nat -> length (pixels_map f px) = n.
Proof.
  revert n. induction px as [|x|x y|x y z l IH] using list_ind3; intros n; simpl; try lia.
  intros Hl. destruct n as [|n]; [lia|]. by rewrite (IH n) by lia.
Qed.

Lemma length_pixels_with f n px b :
  length px = (3 * n)%nat -> length b = n -> length (pixels_with f px b) = (3 * n)%nat.
Proof.
  revert n b. induction px as [|x|x y|x y z l IH] using list_ind3; intros n b; simpl; try lia.
  intros Hl Hb. destruct n as [|n]; [lia|]. destruct b as [|v b]; [done|].
  simpl in *. rewrite (IH n) by lia. lia.
Qed.

Lemma zip4_ext f g a b c d :
  (forall x y z w, is_byte x -> is_byte y -> is_byte z -> is_byte w -> f x y z w = g x y z w) ->
  Forall is_byte a -> Forall is_byte b -> Forall is_byte c -> Forall is_byte d ->
  zip4_with f a b c d = zip4_with g a b c d.
Proof.
  intros Hfg Ha. revert b c d.
  induction Ha as [|x a Hx Ha IH]; intros b c d Hb Hc Hd; [done|].
  destruct Hb, Hc, Hd; simpl; try done. rewrite Hfg by done. by rewrite IH.
Qed.

Lemma pixels_map_ext f g px :
  (forall x y z, is_byte x -> is_byte y -> is_byte z -> f x y z = g x y z) ->
  Forall is_byte px -> pixels_map f px = pixels_map g px.
Proof.
  intros Hfg. induction px as [|x|x y|x y z l IH] using list_ind3; try done.
  rewrite !Forall_cons. intros (Hx & Hy & Hz & Hl). simpl. by rewrite Hfg, IH.
Qed.

(** The binary threshold of the byte at position [i] of a sixteen-byte run
    whose upper half is compared with zero. *)
Definition half_thresh_px (t : Z) (i : nat) (p : Z) : Z :=
  thresh_bin_px (if (i mod 16 <? 8)%nat then t else 0) p.

Lemma half_thresh_split t n l :
  imap (half_thresh_px t) l =
  imap (half_thresh_px t) (take (16 * n) l) ++ imap (half_thresh_px t) (drop (16 * n) l).
Proof.
  rewrite <- (take_drop (16 * n) l) at 1. rewrite imap_app. f_equal.
  destruct (decide (16 * n <= length l)%nat) as [Hn|Hn].
  - apply imap_ext. intros i x _. unfold half_thresh_px, compose.
    rewrite length_take_le by done.
    replace ((16 * n + i) mod 16)%nat with (i mod 16)%nat; [done|].
    by rewrite (Nat.add_comm _ i), (Nat.mul_comm 16), Nat.Div0.mod_add.
  - by rewrite drop_ge by lia.
Qed.

(** * The block functions are the references, lane by lane *)

(** Name the lanes of a block. *)
Tactic Notation "lanes" integer(n) ident(l) :=
  do n (destruct l as [|? l]; [discriminate|]); destruct l; [|discriminate].

(** The blocks of a turn, one by one. *)
Ltac blocks H :=
  unfold exactly in H;
  repeat match type of H with
         | Forall2 _ (_ :: _) ?bs =>
             let b := fresh "b" in let Hb := fresh "Hlen" in
             inversion H as [|? b ? ? Hb H']; subst; clear H; rename H' into H; cbn in Hb
         end;
  inversion H; subst; clear H.

Definition R1 (g : Z -> Z) (bs : list (list Z)) : list Z :=
  match bs with [b] => map g b | _ => [] end.
Definition R2 (g : Z -> Z -> Z) (bs : list (list Z)) : list Z :=
  match bs with [a; b] => zip_with g a b | _ => [] end.
Definition R3 (g : Z -> Z -> Z -> Z) (bs : list (list Z)) : list Z :=
  match bs with [a; b; c] => zip3_with g a b c | _ => [] end.
Definition R4 (g : Z -> Z -> Z -> Z -> Z) (bs : list (list Z)) : list Z :=
  match bs with [a; b; c; d] => zip4_with g a b c d | _ => [] end.
Definition RP (g : Z -> Z -> Z -> Z) (bs : list (list Z)) : list Z :=
  match bs with [b] => pixels_map g b | _ => [] end.
Definition RPW (g : Z -> Z -> Z) (bs : list (list Z)) : list Z :=
  match bs with [a; b] => pixels_with g a b | _ => [] end.

Definition cmp3_raw (p c1 c2 a : Z) : Z :=
  Lane.uqadd8
    (Lane.uqshl8
       (Lane.uqshl8 p (Lane.neg8 (Z.shiftr (Z.land p (Z.land (Lane.cmhi8 p c1) (Lane.cmhi8 p c2))) 6)))
       4) a.

Definition lane_weight (w : Z) : Z := Lane.neg8 (Lane.clz8 (w mod 256)).

Definition wst_raw (alpha beta gamma p c1 c2 : Z) : Z :=
  Lane.uqsub8 p (Lane.uqadd8 (Lane.uqadd8 (Lane.ushl8 c1 (lane_weight alpha))
                                          (Lane.ushl8 c2 (lane_weight beta))) (gamma mod 256)).

Definition wstb_raw (o alpha beta t x y z : Z) : Z :=
  let '(p, c1, c2) := if o =? 0 then (x, y, z) else if o =? 1 then (y, z, x) else (z, x, y) in
  Lane.cmhi8 (Lane.uqsub8 p (Lane.uqadd8 (Lane.ushl8 c1 (lane_weight alpha))
                                         (Lane.ushl8 c2 (lane_weight beta)))) (t mod 256).

Definition gray_raw (r g b : Z) : Z :=
  Lane.uqadd8 (Z.shiftr b 2) (Lane.uqadd8 (Z.shiftr r 2) (Z.shiftr g 1)).

Ltac splits_by lem :=
  let Hd := fresh "Hd" in intros ? ? Hd; blocks Hd; cbn [zip_with]; apply lem.
Ltac empties :=
  let Hd := fresh "Hd" in
  intros ? Hd; blocks Hd;
  repeat match goal with
         | H : length ?l = 0%nat |- _ => apply nil_length_inv in H; subst
         end; reflexivity.

(** Block by block to buffer by buffer, for each shape of kernel. *)

Lemma out1 F g k px :
  (forall b, length b = 16%nat -> F [b] = map g b) -> length px = (16 * k)%nat ->
  stream_out [16%nat] F k [px] = map g px.
Proof.
  intros HF Hl. apply (stream_out_ref _ _ (R1 g)).
  - intros bs Hbs. blocks Hbs. auto.
  - splits_by (@map_split Z Z).
  - empties.
  - by repeat constructor.
Qed.

Lemma out2 F g k a b :
  (forall a b, length a = 16%nat -> length b = 16%nat -> F [a; b] = zip_with g a b) ->
  length a = (16 * k)%nat -> length b = (16 * k)%nat ->
  stream_out [16; 16]%nat F k [a; b] = zip_with g a b.
Proof.
  intros HF Ha Hb. apply (stream_out_ref _ _ (R2 g)).
  - intros bs Hbs. blocks Hbs. auto.
  - splits_by (@zip_with_split Z Z Z).
  - empties.
  - by repeat constructor.
Qed.

Lemma out3 F g k a b c :
  (forall a b c, length a = 16%nat -> length b = 16%nat -> length c = 16%nat ->
     F [a; b; c] = zip3_with g a b c) ->
  length a = (16 * k)%nat -> length b = (16 * k)%nat -> length c = (16 * k)%nat ->
  stream_out [16; 16; 16]%nat F k [a; b; c] = zip3_with g a b c.
Proof.
  intros HF Ha Hb Hc. apply (stream_out_ref _ _ (R3 g)).
  - intros bs Hbs. blocks Hbs. auto.
  - splits_by zip3_split.
  - empties.
  - by repeat constructor.
Qed.

Lemma out4 F g k a b c d :
  (forall a b c d, length a = 16%nat -> length b = 16%nat -> length c = 16%nat ->
     length d = 16%nat -> F [a; b; c; d] = zip4_with g a b c d) ->
  length a = (16 * k)%nat -> length b = (16 * k)%nat -> length c = (16 * k)%nat ->
  length d = (16 * k)%nat ->
  stream_out [16; 16; 16; 16]%nat F k [a; b; c; d] = zip4_with g a b c d.
Proof.
  intros HF Ha Hb Hc Hd. apply (stream_out_ref _ _ (R4 g)).
  - intros bs Hbs. blocks Hbs. auto.
  - splits_by zip4_split.
  - empties.
  - by repeat constructor.
Qed.

Lemma out_px F g k px :
  (forall b, length b = 48%nat -> F [b] = pixels_map g b) -> length px = (48 * k)%nat ->
  stream_out [48%nat] F k [px] = pixels_map g px.
Proof.
  intros HF Hl. apply (stream_out_ref _ _ (RP g)).
  - intros bs Hbs. blocks Hbs. auto.
  - splits_by (pixels_map_split g 16).
  - empties.
  - by repeat constructor.
Qed.

Lemma out_px_with F g k px b :
  (forall a b, length a = 48%nat -> length b = 16%nat -> F [a; b] = pixels_with g a b) ->
  length px = (48 * k)%nat -> length b = (16 * k)%nat ->
  stream_out [48; 16]%nat F k [px; b] = pixels_with g px b.
Proof.
  intros HF Hl Hb. apply (stream_out_ref _ _ (RPW g)).
  - intros bs Hbs. blocks Hbs. auto.
  - splits_by (pixels_with_split g 16).
  - empties.
  - by repeat constructor.
Qed.

(** * Lanes of bytes *)

Lemma land_cmhi p t : is_byte p -> Z.land (Lane.cmhi8 p t) p = thresh_px t p.
Proof.
  intros Hp. unfold Lane.cmhi8, thresh_px. destruct (t <? p); [|done].
  rewrite Z.land_comm. change 255 with (Z.ones 8). rewrite Z.land_ones by lia.
  apply Z.mod_small. exact Hp.
Qed.

(** Shifting left by the negation of a byte below eight. *)
Lemma sbyte_neg k : 0 < k < 128 -> Lane.sbyte (Lane.neg8 k) = - k.
Proof.
  intros Hk. unfold Lane.sbyte, Lane.neg8.
  assert ((- k) mod 256 = 256 - k) as -> by (Z.to_euclidean_division_equations; lia).
  destruct (Z.ltb_spec (256 - k) 128); lia.
Qed.

Lemma ushl8_neg x k : is_byte x -> 0 <= k < 128 -> Lane.ushl8 x (Lane.neg8 k) = x / 2 ^ k.
Proof.
  intros Hx Hk. unfold Lane.ushl8. destruct (Z.eq_dec k 0) as [->|].
  - change (Lane.sbyte (Lane.neg8 0)) with 0. change (0 <=? 0) with true.
    change (2 ^ 0) with 1. cbv beta iota. rewrite Z.shiftl_0_r, Z.div_1_r. apply Z.mod_small. exact Hx.
  - rewrite sbyte_neg by lia. destruct (Z.leb_spec 0 (- k)); [lia|].
    rewrite Z.opp_involutive. apply Z.shiftr_div_pow2. lia.
Qed.

Lemma uqshl8_neg x k : is_byte x -> 0 <= k < 128 -> Lane.uqshl8 x (Lane.neg8 k) = x / 2 ^ k.
Proof.
  intros Hx Hk. unfold Lane.uqshl8. destruct (Z.eq_dec k 0) as [->|].
  - change (Lane.sbyte (Lane.neg8 0)) with 0. change (0 <=? 0) with true.
    change (2 ^ 0) with 1. cbv beta iota. rewrite Z.shiftl_0_r, Z.div_1_r.
    unfold is_byte in Hx. lia.
  - rewrite sbyte_neg by lia. destruct (Z.leb_spec 0 (- k)); [lia|].
    rewrite Z.opp_involutive. apply Z.shiftr_div_pow2. lia.
Qed.

Lemma clz8_range w : is_byte w -> 0 <= Lane.clz8 w <= 8.
Proof.
  intros Hw. unfold Lane.clz8, is_byte in *. destruct (Z.eqb_spec w 0); [lia|].
  pose proof (Z.log2_nonneg w). pose proof (Z.log2_lt_pow2 w 8). lia.
Qed.

Lemma ushl8_weight w x : is_byte w -> is_byte x -> Lane.ushl8 x (lane_weight w) = weighted w x.
Proof.
  intros Hw Hx. unfold lane_weight. rewrite Z.mod_small by exact Hw.
  pose proof (clz8_range w Hw). apply ushl8_neg; [done | lia].
Qed.

Lemma cmp3_raw_px p c1 c2 a :
  is_byte p -> is_byte c1 -> is_byte c2 -> is_byte a -> cmp3_raw p c1 c2 a = cmp3_px p c1 c2 a.
Proof.
  intros Hp _ _ _. unfold cmp3_raw, cmp3_px, Lane.uqadd8. f_equal. f_equal.
  assert (Hk : Z.shiftr (Z.land p (Z.land (Lane.cmhi8 p c1) (Lane.cmhi8 p c2))) 6 =
               if (c1 <? p) && (c2 <? p) then p / 64 else 0).
  { rewrite Z.shiftr_div_pow2 by lia. unfold Lane.cmhi8.
    destruct (c1 <? p), (c2 <? p); cbn [andb]; try (rewrite ?Z.land_0_l, ?Z.land_0_r; done).
    change (Z.land 255 255) with (Z.ones 8). rewrite Z.land_ones, Z.mod_small by (lia || apply Hp).
    done. }
  assert (0 <= p / 64 < 128).
  { unfold is_byte in Hp. split; [apply Z.div_pos; lia | apply Z.div_lt_upper_bound; lia]. }
  rewrite Hk, uqshl8_neg by (try destruct (_ && _); done || lia).
  assert (H16 : forall z, Lane.uqshl8 z 4 = Z.min 255 (16 * z)).
  { intros z. unfold Lane.uqshl8. change (Lane.sbyte 4) with 4. cbn.
    rewrite Z.shiftl_mul_pow2 by lia. f_equal. lia. }
  rewrite H16. do 2 f_equal. destruct (_ && _); [done|]. change (2 ^ 0) with 1. by rewrite Z.div_1_r.
Qed.

Lemma wst_raw_px al be ga p c1 c2 :
  is_byte al -> is_byte be -> is_byte ga -> is_byte p -> is_byte c1 -> is_byte c2 ->
  wst_raw al be ga p c1 c2 = wst_px al be ga p c1 c2.
Proof.
  intros Ha Hb Hg _ H1 H2. unfold wst_raw, wst_px, Lane.uqsub8, Lane.uqadd8.
  by rewrite !ushl8_weight, Z.mod_small by done.
Qed.

Lemma wstb_raw_px o al be t x y z :
  is_byte al -> is_byte be -> is_byte t -> is_byte x -> is_byte y -> is_byte z ->
  wstb_raw o al be t x y z = wstb_px o al be t x y z.
Proof.
  intros Ha Hb Ht Hx Hy Hz. unfold wstb_raw, wstb_px.
  assert (Hcore : forall p c1 c2, is_byte c1 -> is_byte c2 ->
    Lane.cmhi8 (Lane.uqsub8 p (Lane.uqadd8 (Lane.ushl8 c1 (lane_weight al))
                                           (Lane.ushl8 c2 (lane_weight be)))) (t mod 256)
    = thresh_bin_px t (wst_px al be 0 p c1 c2)).
  { intros p c1 c2 H1 H2. rewrite !ushl8_weight, Z.mod_small by done.
    unfold Lane.cmhi8, thresh_bin_px, wst_px, Lane.uqsub8, Lane.uqadd8.
    by rewrite Z.add_0_r, (Z.min_r 255 (Z.min _ _)) by lia. }
  destruct (o =? 0); [by apply Hcore|]. destruct (o =? 1); by apply Hcore.
Qed.

Lemma gray_raw_px r g b : is_byte r -> is_byte g -> is_byte b -> gray_raw r g b = gray_px r g b.
Proof.
  unfold is_byte, gray_raw, gray_px, Lane.uqadd8. intros Hr Hg Hb.
  rewrite !Z.shiftr_div_pow2 by lia. change (2 ^ 2) with 4. change (2 ^ 1) with 2.
  Z.to_euclidean_division_equations. lia.
Qed.

(** An [int32_t] count of [k] whole blocks (and a rest the kernels ignore). *)
Definition whole_blocks (n : Z) (k : nat) : Prop :=
  0 <= n < 2 ^ 31 /\ n / 16 = Z.of_nat k /\ (0 < k)%nat.

#[export] Instance whole_blocks_dec n k : Decision (whole_blocks n k).
Proof. unfold whole_blocks. apply _. Defined.

Lemma whole_blocks_range n k : whole_blocks n k -> 0 <= n < 2 ^ 64.
Proof. intros [? _]. lia. Qed.

Lemma whole_blocks_pos n k : whole_blocks n k -> (0 < k)%nat.
Proof. by intros (_ & _ & ?). Qed.

Lemma buffer_source k t d m b a l bs ps avs datas :
  buffer m a l -> length l = (b * k)%nat ->
  separate a (b * k) d (t * k) \/ (a = d /\ b = t) ->
  sources k t d m bs ps avs datas ->
  sources k t d m (b :: bs) (a :: ps) (Z.of_nat b :: avs) (l :: datas).
Proof.
  intros (Ha & Hb & Hl & _) Hlen Hd Hs. unfold bytes_at in Hl. rewrite Hlen in *.
  constructor; try done. unfold apart. destruct Hd as [[?|?]|?]; auto.
Qed.

Lemma buffer_bytes m a l : buffer m a l -> Forall is_byte l.
Proof. by intros (_ & _ & _ & ?). Qed.

(** The disjointness the statement gives, for one source. *)
Ltac separated :=
  match goal with
  | H : in_place_or_separate ?a ?d _ |- separate ?a _ ?d _ \/ _ => destruct H; [right | left]; auto
  | H : separate ?a _ ?d _ |- separate ?a _ ?d _ \/ _ => left; exact H
  end.

Ltac source_list :=
  repeat (eapply (buffer_source _ _ _ _ 16) || eapply (buffer_source _ _ _ _ 48);
          [eassumption | first [eassumption | lia] | separated |]);
  constructor.

Lemma buffer_app m a l1 l2 :
  buffer m a (l1 ++ l2) -> buffer m a l1 /\ buffer m (a + Z.of_nat (length l1)) l2.
Proof.
  intros (Ha & Hb & Hl & Hf). unfold bytes_at in Hl. rewrite length_app in *.
  apply load_split in Hl as [H1 H2]. rewrite take_app_length, drop_app_length in *.
  apply Forall_app in Hf as [Hf1 Hf2]. repeat split; try done; lia.
Qed.

Lemma room_app m a n1 n2 :
  room m a (n1 + n2) -> room m a n1 /\ room m (a + Z.of_nat n1) n2.
Proof.
  intros (Ha & Hb & Hm). apply mapped_app in Hm as [H1 H2]. repeat split; try done; lia.
Qed.

Lemma buffer_store m a l d out :
  buffer m a l -> separate a (length l) d (length out) ->
  buffer (store_bytes m d out) a l.
Proof.
  intros (Ha & Hb & Hl & Hf) Hs. repeat split; try done.
  unfold bytes_at. by rewrite load_store_disjoint.
Qed.

Lemma room_store m a n d out : room m a n -> room (store_bytes m d out) a n.
Proof. intros (Ha & Hb & Hm). repeat split; try done. by apply mapped_store. Qed.

Definition ramp (start n : nat) : list Z := map Z.of_nat (seq start n).

(** Thirty-two bytes at 1000, 1100, 1200; 96 bytes at 2000 and 3000; zeros at 4000. *)
Definition kernel_runs : list (Z * list Z) :=
  [(1000, ramp 100 32); (1100, ramp 90 32); (1200, ramp 110 32); (2000, ramp 100 96);
   (3000, ramp 120 96); (4000, replicate 96 0)].
