(* ===== verification/Arm.v ===== *)
(** The fragment of 32-bit ARM that [lib-vs/src/core/neon32.S] and
    [lib-vs/src/vs1-legacy/mem.S] are written in: fifteen 32-bit integer
    registers ([r11] is the frame pointer, [r13] the stack pointer, [r14] the
    return address), thirty-two 64-bit vector registers of eight byte lanes
    ([q<n>] is the pair [d<2n>], [d<2n+1>]), the four condition flags, the
    byte memory of [Simd] and one step function per instruction. *)

From S2P Require Import Prelude Machine Simd.
Local Open Scope Z_scope.

(** [vshl.s8]: the lane is signed, a negative shift is an arithmetic one. *)
Definition sshl8 (x y : Z) : Z :=
  let s := Lane.sbyte y in
  if 0 <=? s then Z.shiftl x s mod 256 else Z.shiftr (Lane.sbyte x) (- s) mod 256.
(** [vsub.i8]: lanes wrap around. *)
Definition wsub8 (x y : Z) : Z := (x - y) mod 256.
(** [vshl.u8 q, q, #k]: bits shifted out are lost. *)
Definition shl8 (k x : Z) : Z := Z.shiftl x k mod 256.
(** [vdup.8 q, r] on one half of [q]. *)
Definition dupd (w : Z) : list Z := replicate 8 (w mod 256).

(** A word in memory, least significant byte first. *)
Definition le32 (w : Z) : list Z :=
  [w mod 256; (w / 256) mod 256; (w / 65536) mod 256; w / 16777216].
Definition word_of (bs : list Z) : Z :=
  match bs with
  | [a; b; c; d] => a + 256 * b + 65536 * c + 16777216 * d
  | _ => 0
  end.

Lemma word_le32 w : word_of (le32 w) = w.
Proof.
  unfold word_of, le32.
  pose proof (Z.div_mod w 256 ltac:(lia)).
  pose proof (Z.div_mod (w / 256) 256 ltac:(lia)) as H1. rewrite Z.div_div in H1 by lia.
  pose proof (Z.div_mod (w / 65536) 256 ltac:(lia)) as H2. rewrite Z.div_div in H2 by lia.
  change (256 * 256) with 65536 in H1. change (65536 * 256) with 16777216 in H2. lia.
Qed.

(** Words one after the other, as [push] leaves the registers [rs]. *)
Definition words (val : nat -> Z) (rs : list nat) : list Z :=
  flat_map (fun r => le32 (val r)) rs.

(** * Machine state *)

Record arm := ArmState {
  rr : list Z;          (* r0 .. r14 *)
  dr : list (list Z);   (* d0 .. d31 *)
  aN : bool; aZ : bool; aC : bool; aV : bool;
  amem : memory;
  apc : nat
}.

Definition FP : nat := 11.
Definition SP : nat := 13.
Definition LR : nat := 14.

Inductive acond := AEQ | ALT | AGT | ALE.

Inductive ainstr :=
| a_label (l : string)
| push (rs : list nat)
| pop (rs : list nat)
| add_i (d n : nat) (k : Z)
| sub_i (d n : nat) (k : Z)
| lsr_i (d : nat) (k : Z)
| ldr (d n : nat) (k : Z)
| vdup8 (q r : nat)
| vld1 (ds : list nat) (r : nat)
| vst1 (ds : list nat) (r : nat)
| vld3 (d1 d2 d3 : nat) (r : nat)
| vcgt_u (d n m : nat)
| vand (d n m : nat)
| vorr (d n m : nat)
| vqadd_u (d n m : nat)
| vqsub_u (d n m : nat)
| vsub (d n m : nat)
| vshl_u (d n m : nat)
| vshl_s (d n m : nat)
| vshl_i (d n : nat) (k : Z)
| vshr_i (d n : nat) (k : Z)
| vneg (d n : nat)
| vclz (d n : nat)
| cmp_i (n : nat) (k : Z)
| bc (c : acond) (l : string)
| bx_lr.

Definition getr (s : arm) (n : nat) : Z := rr s !!! n.
Definition getd (s : arm) (n : nat) : list Z := dr s !!! n.
Definition setr (n : nat) (v : Z) (s : arm) : arm :=
  ArmState (<[n := v]> (rr s)) (dr s) (aN s) (aZ s) (aC s) (aV s) (amem s) (apc s).
Definition setd (n : nat) (v : list Z) (s : arm) : arm :=
  ArmState (rr s) (<[n := v]> (dr s)) (aN s) (aZ s) (aC s) (aV s) (amem s) (apc s).
Definition setm (m : memory) (s : arm) : arm :=
  ArmState (rr s) (dr s) (aN s) (aZ s) (aC s) (aV s) m (apc s).
Definition jump (p : nat) (s : arm) : arm :=
  ArmState (rr s) (dr s) (aN s) (aZ s) (aC s) (aV s) (amem s) p.
Definition advance (s : arm) : arm := jump (S (apc s)) s.

(** The flags of [a - k] on 32 bits. *)
Definition negative32 (z : Z) : bool := 2 ^ 31 <=? z.
Definition flagN (a k : Z) : bool := negative32 (w32 (a - k)).
Definition flagZ (a k : Z) : bool := w32 (a - k) =? 0.
Definition flagC (a k : Z) : bool := k <=? a.
Definition flagV (a k : Z) : bool :=
  negb (Bool.eqb (negative32 a) (negative32 k)) &&
  negb (Bool.eqb (negative32 a) (negative32 (w32 (a - k)))).
Definition set_flags (a k : Z) (s : arm) : arm :=
  ArmState (rr s) (dr s) (flagN a k) (flagZ a k) (flagC a k) (flagV a k) (amem s) (apc s).

Definition is_gt (n z v : bool) : bool := negb z && Bool.eqb n v.
Definition is_lt (n v : bool) : bool := negb (Bool.eqb n v).
Definition aholds (c : acond) (s : arm) : bool :=
  match c with
  | AEQ => aZ s
  | ALT => is_lt (aN s) (aV s)
  | AGT => is_gt (aN s) (aZ s) (aV s)
  | ALE => negb (is_gt (aN s) (aZ s) (aV s))
  end.

(** * Execution *)

Section Arm.

Context (prog : list ainstr).

Fixpoint alabel_from (p : list ainstr) (l : string) (i : nat) : option nat :=
  match p with
  | [] => None
  | a_label l' :: p' => if String.eqb l l' then Some i else alabel_from p' l (S i)
  | _ :: p' => alabel_from p' l (S i)
  end.
Definition alabel_pos (l : string) : option nat := alabel_from prog l 0.

(** An operation on [q] registers, half by half. *)
Definition q1 (f : Z -> Z) (d n : nat) (s : arm) : outcome arm :=
  Running (advance
    (setd (2 * d) (map f (getd s (2 * n)))
    (setd (2 * d + 1) (map f (getd s (2 * n + 1))) s))).
Definition q2 (f : Z -> Z -> Z) (d n m : nat) (s : arm) : outcome arm :=
  Running (advance
    (setd (2 * d) (zip_with f (getd s (2 * n)) (getd s (2 * m)))
    (setd (2 * d + 1) (zip_with f (getd s (2 * n + 1)) (getd s (2 * m + 1))) s))).

(** Consecutive words into registers ([pop]), consecutive eight-byte groups
    into vector registers ([vld1]). *)
Fixpoint pop_regs (rs : list nat) (bs : list Z) (s : arm) : arm :=
  match rs with
  | [] => s
  | r :: rs' => pop_regs rs' (drop 4 bs) (setr r (word_of (take 4 bs)) s)
  end.
Fixpoint load_dregs (ds : list nat) (bs : list Z) (s : arm) : arm :=
  match ds with
  | [] => s
  | [d] => setd d bs s
  | d :: ds' => load_dregs ds' (drop 8 bs) (setd d (take 8 bs) s)
  end.
Fixpoint store_dregs (ds : list nat) (s : arm) : list Z :=
  match ds with
  | [] => []
  | [d] => getd s d
  | d :: ds' => getd s d ++ store_dregs ds' s
  end.
Definition aexec (i : ainstr) (s : arm) : outcome arm :=
  match i with
  | a_label _ => Running (advance s)
  | push rs =>
      let sp := w32 (getr s SP - 4 * Z.of_nat (length rs)) in
      match store (amem s) sp (words (getr s) rs) with
      | Some m' => Running (advance (setm m' (setr SP sp s)))
      | None => Fault
      end
  | pop rs =>
      match load (4 * length rs) (amem s) (getr s SP) with
      | Some bs =>
          Running (advance (pop_regs rs bs
                     (setr SP (w32 (getr s SP + 4 * Z.of_nat (length rs))) s)))
      | None => Fault
      end
  | add_i d n k => Running (advance (setr d (w32 (getr s n + k)) s))
  | sub_i d n k => Running (advance (setr d (w32 (getr s n - k)) s))
  | lsr_i d k => Running (advance (setr d (Z.shiftr (getr s d) k) s))
  | ldr d n k =>
      match load 4 (amem s) (w32 (getr s n + k)) with
      | Some bs => Running (advance (setr d (word_of bs) s))
      | None => Fault
      end
  | vdup8 q r =>
      Running (advance (setd (2 * q) (dupd (getr s r)) (setd (2 * q + 1) (dupd (getr s r)) s)))
  | vld1 ds r =>
      match load (8 * length ds) (amem s) (getr s r) with
      | Some bs =>
          Running (advance (load_dregs ds bs
                     (setr r (w32 (getr s r + 8 * Z.of_nat (length ds))) s)))
      | None => Fault
      end
  | vst1 ds r =>
      match store (amem s) (getr s r) (store_dregs ds s) with
      | Some m' =>
          Running (advance (setm m' (setr r (w32 (getr s r + 8 * Z.of_nat (length ds))) s)))
      | None => Fault
      end
  | vld3 d1 d2 d3 r =>
      match load 24 (amem s) (getr s r) with
      | Some bs =>
          Running (advance (setd d1 (deint3 bs).1.1 (setd d2 (deint3 bs).1.2
                     (setd d3 (deint3 bs).2 (setr r (w32 (getr s r + 24)) s)))))
      | None => Fault
      end
  | vcgt_u d n m => q2 Lane.cmhi8 d n m s
  | vand d n m => q2 Z.land d n m s
  | vorr d n m => q2 Z.lor d n m s
  | vqadd_u d n m => q2 Lane.uqadd8 d n m s
  | vqsub_u d n m => q2 Lane.uqsub8 d n m s
  | vsub d n m => q2 wsub8 d n m s
  | vshl_u d n m => q2 Lane.ushl8 d n m s
  | vshl_s d n m => q2 sshl8 d n m s
  | vshl_i d n k => q1 (shl8 k) d n s
  | vshr_i d n k => q1 (fun x => Z.shiftr x k) d n s
  | vneg d n => q1 Lane.neg8 d n s
  | vclz d n => q1 Lane.clz8 d n s
  | cmp_i n k => Running (advance (set_flags (getr s n) k s))
  | bc c l =>
      if aholds c s then
        match alabel_pos l with Some p => Running (jump p s) | None => Fault end
      else Running (advance s)
  | bx_lr => Halted s
  end.

Definition astep (s : arm) : outcome arm :=
  match prog !! apc s with
  | Some i => aexec i s
  | None => Fault
  end.

(** Calling a routine by its symbol. *)
Definition acall (fuel : nat) (f : string) (s : arm) : outcome arm :=
  match alabel_pos f with
  | Some p => run astep fuel (jump p s)
  | None => Fault
  end.

End Arm.
