(* ===== verification/ArmText.v ===== *)
(** The text of [lib-vs/src/core/neon32.S], one definition per routine and one
    list element per source line that assembles to something. *)

From S2P Require Import Prelude Simd Arm.
Local Open Scope Z_scope.

Definition memcpy_threshold_asm : list ainstr := [
  a_label "memcpy_threshold_asm";
    push [FP]%nat;
    add_i FP SP 0;
    lsr_i 2 4;
    vdup8 3 3;
  a_label "_thresh_loop";
    vld1 [0]%nat 1;
    vld1 [1]%nat 1;
    vcgt_u 1 0 3;
    vand 2 1 0;
    vst1 [4]%nat 0;
    vst1 [5]%nat 0;
    sub_i 2 2 1;
    cmp_i 2 0;
    bc AGT "_thresh_loop";
    sub_i SP FP 0;
    pop [FP]%nat;
    bx_lr ].

Definition memcpy_threshold_binary_asm : list ainstr := [
  a_label "memcpy_threshold_binary_asm";
    push [FP]%nat;
    add_i FP SP 0;
    lsr_i 2 4;
    vdup8 3 3;
  a_label "_thresh_bin_loop";
    vld1 [0]%nat 1;
    vld1 [1]%nat 1;
    vcgt_u 1 0 3;
    vst1 [2]%nat 0;
    vst1 [3]%nat 0;
    sub_i 2 2 1;
    cmp_i 2 0;
    bc AGT "_thresh_bin_loop";
    sub_i SP FP 0;
    pop [FP]%nat;
    bx_lr ].

Definition memcpy_compare3_add_asm : list ainstr := [
  a_label "memcpy_compare3_add_asm";
    push [4; 5; FP]%nat;
    add_i FP SP 0;
    ldr 4 SP 12;
    ldr 5 SP 16;
    lsr_i 5 4;
  a_label "_cmp3_add_loop";
    vld1 [0]%nat 0;
    vld1 [1]%nat 0;
    vld1 [2]%nat 1;
    vld1 [3]%nat 1;
    vld1 [4]%nat 2;
    vld1 [5]%nat 2;
    vld1 [6]%nat 3;
    vld1 [7]%nat 3;
    vcgt_u 1 0 1;
    vcgt_u 2 0 2;
    vand 1 1 2;
    vand 2 0 1;
    vshr_i 1 2 6;
    vneg 1 1;
    vshl_s 2 0 1;
    vshl_i 2 2 4;
    vqadd_u 3 2 3;
    vst1 [6]%nat 4;
    vst1 [7]%nat 4;
    sub_i 5 5 1;
    cmp_i 5 0;
    bc AGT "_cmp3_add_loop";
    sub_i SP FP 0;
    pop [4; 5; FP]%nat;
    bx_lr ].

Definition memcpy_wst_asm : list ainstr := [
  a_label "memcpy_wst_asm";
    push [4; 5; 6; 7; FP]%nat;
    add_i FP SP 0;
    ldr 4 SP 20;
    ldr 5 SP 24;
    ldr 6 SP 28;
    ldr 7 SP 32;
    vdup8 8 5;
    vclz 8 8;
    vneg 8 8;
    vdup8 9 6;
    vclz 9 9;
    vneg 9 9;
    vdup8 10 7;
    lsr_i 4 4;
  a_label "_wst_loop";
    vld1 [0]%nat 0;
    vld1 [1]%nat 0;
    vld1 [2]%nat 1;
    vld1 [3]%nat 1;
    vld1 [4]%nat 2;
    vld1 [5]%nat 2;
    vshl_u 1 1 8;
    vshl_u 2 2 9;
    vqadd_u 3 1 2;
    vqadd_u 3 3 10;
    vqsub_u 3 0 3;
    vst1 [6]%nat 3;
    vst1 [7]%nat 3;
    sub_i 4 4 1;
    cmp_i 4 0;
    bc AGT "_wst_loop";
    sub_i SP FP 0;
    pop [4; 5; 6; 7; FP]%nat;
    bx_lr ].

Definition memcpy_split_wst_asm : list ainstr := [
  a_label "memcpy_split_wst_asm";
    push [4; 5; 6; FP]%nat;
    add_i FP SP 0;
    ldr 4 SP 16;
    ldr 5 SP 20;
    ldr 6 SP 24;
    vdup8 8 4;
    vclz 8 8;
    vneg 8 8;
    vdup8 9 5;
    vclz 9 9;
    vneg 9 9;
    vdup8 10 6;
    lsr_i 2 4;
    cmp_i 3 1;
    bc ALT "_c0_split_wst_loop";
    bc AEQ "_c1_split_wst_loop";
    bc AGT "_c2_split_wst_loop";
  a_label "_c0_split_wst_loop";
    vld3 0 2 4 0;
    vld3 1 3 5 0;
    vshl_u 1 1 8;
    vshl_u 2 2 9;
    vqadd_u 3 1 2;
    vqadd_u 3 3 10;
    vqsub_u 3 0 3;
    vst1 [6; 7]%nat 1;
    sub_i 2 2 1;
    cmp_i 2 0;
    bc AGT "_c0_split_wst_loop";
    bc ALE "_split_wst_end";
  a_label "_c1_split_wst_loop";
    vld3 0 2 4 0;
    vld3 1 3 5 0;
    vshl_u 2 2 8;
    vshl_u 0 0 9;
    vqadd_u 3 2 0;
    vqadd_u 3 3 10;
    vqsub_u 3 1 3;
    vst1 [6; 7]%nat 1;
    sub_i 2 2 1;
    cmp_i 2 0;
    bc AGT "_c1_split_wst_loop";
    bc ALE "_split_wst_end";
  a_label "_c2_split_wst_loop";
    vld3 0 2 4 0;
    vld3 1 3 5 0;
    vshl_u 0 0 8;
    vshl_u 1 1 9;
    vqadd_u 3 0 1;
    vqadd_u 3 3 10;
    vqsub_u 3 2 3;
    vst1 [6; 7]%nat 1;
    sub_i 2 2 1;
    cmp_i 2 0;
    bc AGT "_c2_split_wst_loop";
    bc ALE "_split_wst_end";
  a_label "_split_wst_end";
    sub_i SP FP 0;
    pop [4; 5; 6; FP]%nat;
    bx_lr ].

Definition memcpy_bitwise_or_asm : list ainstr := [
  a_label "memcpy_bitwise_or_asm";
    push [FP]%nat;
    add_i FP SP 0;
    lsr_i 3 4;
  a_label "_bitwise_or_loop";
    vld1 [0]%nat 0;
    vld1 [1]%nat 0;
    vld1 [2]%nat 1;
    vld1 [3]%nat 1;
    vorr 2 0 1;
    vst1 [4]%nat 2;
    vst1 [5]%nat 2;
    sub_i 3 3 1;
    cmp_i 3 0;
    bc AGT "_bitwise_or_loop";
    sub_i SP FP 0;
    pop [FP]%nat;
    bx_lr ].

Definition memcpy_subtract_asm : list ainstr := [
  a_label "memcpy_subtract_asm";
    push [FP]%nat;
    add_i FP SP 0;
    lsr_i 3 4;
  a_label "_subtract_loop";
    vld1 [0]%nat 0;
    vld1 [1]%nat 0;
    vld1 [2]%nat 1;
    vld1 [3]%nat 1;
    vqsub_u 2 0 1;
    vst1 [4]%nat 2;
    vst1 [5]%nat 2;
    sub_i 3 3 1;
    cmp_i 3 0;
    bc AGT "_subtract_loop";
    sub_i SP FP 0;
    pop [FP]%nat;
    bx_lr ].

(** The whole section, in source order. *)
Definition neon32 : list ainstr :=
  memcpy_threshold_asm ++
  memcpy_threshold_binary_asm ++
  memcpy_compare3_add_asm ++
  memcpy_wst_asm ++
  memcpy_split_wst_asm ++
  memcpy_bitwise_or_asm ++
  memcpy_subtract_asm.
