(* ===== verification/MemText.v ===== *)
(** The text of [lib-vs/src/vs1-legacy/mem.S], the kernels of the first library,
    one definition per routine as in [ArmText]. *)

From S2P Require Import Prelude Simd Arm.
Local Open Scope Z_scope.

Definition memcpy_threshold_asm : list ainstr := [
  a_label "memcpy_threshold_asm";
    push [FP]%nat;
    add_i FP SP 0;
    lsr_i 2 4;
    vdup8 3 3;
  a_label "_thresh_loop";
    vld1 [0]%nat 1;
    vld1 [1]%nat 1;
    vcgt_u 1 0 3;
    vand 2 1 0;
    vst1 [4]%nat 0;
    vst1 [5]%nat 0;
    sub_i 2 2 1;
    cmp_i 2 0;
    bc AGT "_thresh_loop";
    sub_i SP FP 0;
    pop [FP]%nat;
    bx_lr ].

Definition memcpy_threshold_binary_asm : list ainstr := [
  a_label "memcpy_threshold_binary_asm";
    push [FP]%nat;
    add_i FP SP 0;
    lsr_i 2 4;
    vdup8 3 3;
  a_label "_thresh_bin_loop";
    vld1 [0]%nat 1;
    vld1 [1]%nat 1;
    vcgt_u 1 0 3;
    vst1 [2]%nat 0;
    vst1 [3]%nat 0;
    sub_i 2 2 1;
    cmp_i 2 0;
    bc AGT "_thresh_bin_loop";
    sub_i SP FP 0;
    pop [FP]%nat;
    bx_lr ].

Definition memcpy_subtract_asm : list ainstr := [
  a_label "memcpy_subtract_asm";
    push [FP]%nat;
    add_i FP SP 0;
    lsr_i 3 4;
  a_label "_subtract_loop";
    vld1 [0]%nat 0;
    vld1 [1]%nat 0;
    vld1 [2]%nat 1;
    vld1 [3]%nat 1;
    vsub 2 0 1;
    vst1 [4]%nat 2;
    vst1 [5]%nat 2;
    sub_i 3 3 1;
    cmp_i 3 0;
    bc AGT "_subtract_loop";
    sub_i SP FP 0;
    pop [FP]%nat;
    bx_lr ].

(** The whole section, in source order. *)
Definition mem_S : list ainstr :=
  memcpy_threshold_asm ++
  memcpy_threshold_binary_asm ++
  memcpy_subtract_asm.
