(* ===== verification/ArmLoops.v ===== *)
(** The loops of the 32-bit kernels ([Arm], [ArmText], [MemText]): symbolic
    execution of one turn, of the code before the loop and of the code after
    it, and the call of a routine as a whole under the calling convention. *)

From S2P Require Import Prelude Machine Simd SimdMem Stream Pixels Arm.
Local Open Scope Z_scope.

(** * Symbolic execution *)

Lemma drop_le32 w l : drop 4 (le32 w ++ l) = l.
Proof. done. Qed.
Lemma word_take_le32 w l : word_of (take 4 (le32 w ++ l)) = w.
Proof. exact (word_le32 w). Qed.

(** A weight as a lane shift, on one half of a register. *)
Definition arm_weight (w : Z) : list Z := map Lane.neg8 (map Lane.clz8 (dupd w)).

Ltac arm_eval_in t :=
  eval lazy -[load store zip_with map take drop app dupd arm_weight le32 word_of alabel_pos
              Z.land Z.lor Z.shiftr Z.shiftl
              Lane.cmhi8 Lane.uqadd8 Lane.uqsub8 Lane.neg8 Lane.clz8 Lane.ushl8
              sshl8 wsub8 shl8 deint3 fst snd w32 w64 negative32 flagN flagZ flagC flagV
              is_gt is_lt negb Z.add Z.sub Z.eqb Z.leb Z.modulo] in t.

(** The outcome of a comparison of known values. *)
Ltac known a t :=
  lazymatch a with Z0 => idtac | Zpos _ => idtac end;
  let v := eval vm_compute in t in change t with v.
Ltac arm_flags :=
  repeat match goal with
         | |- context [is_lt (flagN ?a ?k) ?v] => known a (is_lt (flagN a k) v)
         | |- context [is_gt (flagN ?a ?k) ?z ?v] => known a (is_gt (flagN a k) z v)
         | |- context [flagZ ?a ?k] => known a (flagZ a k)
         end.

(** One machine step: the instruction at hand, its effect, the target of a
    branch; an access or an address the context knows is resolved. *)
Ltac arm_step :=
  rewrite run_S;
  match goal with
  | |- context [astep ?p ?s] =>
      let i := eval lazy in (p !! apc s) in
      lazymatch i with
      | Some ?i =>
          let t := arm_eval_in (aexec p i s) in change (astep p s) with t
      end
  end;
  repeat match goal with
         | |- context [alabel_pos ?p ?l] =>
             let q := eval vm_compute in (alabel_pos p l) in change (alabel_pos p l) with q
         end;
  arm_flags; cbn beta iota;
  repeat match goal with
         | H : load ?n ?m ?a = _ |- context [load ?n ?m ?a] => rewrite H
         | H : store ?m ?a ?l = _ |- context [store ?m ?a ?l] => rewrite H
         | H : w32 ?a = _ |- context [w32 ?a] => rewrite H
         | H : is_gt ?n ?z ?v = _ |- context [is_gt ?n ?z ?v] => rewrite H
         end;
  rewrite ?drop_le32, ?word_take_le32, ?word_le32; cbn [negb].
Ltac arm_reduce H := let T := type of H in let T' := arm_eval_in T in change T' in H.
Ltac arm_steps := repeat arm_step; try reflexivity.

(** * Machine states by the registers that matter *)

Definition apoint (p : nat) (rs : list (nat * Z)) (ds : list (nat * list Z))
    (m : memory) (s : arm) : Prop :=
  exists R D n z c v,
    s = ArmState R D n z c v m p /\ length R = 15%nat /\ length D = 32%nat /\
    Forall (fun '(i, x) => R !! i = Some x) rs /\
    Forall (fun '(i, x) => D !! i = Some x) ds.

(** Name the registers of a machine state one by one. *)
Ltac arm_registers R D HR HD :=
  do 15 (destruct R as [|? R]; [discriminate HR|]); destruct R; [|discriminate HR];
  do 32 (destruct D as [|? D]; [discriminate HD|]); destruct D; [|discriminate HD];
  clear HR HD.

Ltac arm_values :=
  repeat match goal with
         | H : Forall _ (_ :: _) |- _ => apply Forall_cons_1 in H as [? ?]
         | H : Forall _ [] |- _ => clear H
         end;
  repeat match goal with
         | H : (_ :: _) !! _ = Some _ |- _ =>
             cbv [lookup list_lookup FP SP LR] in H; injection H as H;
             match type of H with ?z = _ => subst z end
         end.

Ltac arm_open H :=
  let R := fresh "R" in let D := fresh "D" in
  let HR := fresh in let HD := fresh in let Hr := fresh in let Hd := fresh in
  destruct H as (R & D & ? & ? & ? & ? & -> & HR & HD & Hr & Hd);
  arm_registers R D HR HD; arm_values.

(** The registers a routine leaves alone: the frame pointer it set up, the
    callee-saved ones of the list [ws] (holding [sv]) and the vector registers
    [d8]..[d15] (holding [svd]). *)
Definition kept (fp : Z) (sv : nat -> Z) (ws : list nat) : list (nat * Z) :=
  (FP, fp) :: map (fun i => (i, sv i)) ws.
Definition keptd (svd : nat -> list Z) : list (nat * list Z) :=
  map (fun i => (i, svd i)) (seq 8 8).

Ltac arm_close :=
  cbv [kept keptd map seq zip zip_with app];
  eexists _, _, _, _, _, _;
  split; [reflexivity | split; [reflexivity | split; [reflexivity | split]]];
  repeat constructor.

(** * The counter *)

(** The blocks a loop runs for: the count in sixteens, but at least one, since
    the counter is tested after the turn (and as a signed number). *)
Definition arm_turns (cnt : Z) : Z := Z.max 1 cnt.

Lemma w32_small z : 0 <= z < 2 ^ 32 -> w32 z = z.
Proof. apply Z.mod_small. Qed.

Lemma negative32_small z : 0 <= z < 2 ^ 31 -> negative32 z = false.
Proof. intros Hz. apply Z.leb_gt. lia. Qed.

(** After [sub r, r, #1; cmp r, #0] the branch [bgt] is taken exactly when the
    turn was not the last. *)
Lemma loop_gt cnt :
  0 <= cnt < 2 ^ 28 ->
  is_gt (flagN (w32 (cnt - 1)) 0) (flagZ (w32 (cnt - 1)) 0) (flagV (w32 (cnt - 1)) 0) =
  negb (arm_turns cnt =? 1).
Proof.
  intros Hc. unfold is_gt, flagN, flagZ, flagV, arm_turns. rewrite Z.sub_0_r.
  destruct (Z.eq_dec cnt 0) as [->|]; [reflexivity|].
  rewrite (w32_small (cnt - 1)), (w32_small (cnt - 1)) by lia.
  rewrite negative32_small by lia. change (negative32 0) with false. cbn [Bool.eqb negb andb].
  rewrite andb_true_r. f_equal. destruct (Z.eqb_spec (cnt - 1) 0), (Z.eqb_spec (Z.max 1 cnt) 1); lia.
Qed.

Lemma counter_next cnt :
  0 <= cnt < 2 ^ 28 -> arm_turns cnt <> 1 ->
  0 <= w32 (cnt - 1) < 2 ^ 28 /\ arm_turns (w32 (cnt - 1)) = arm_turns cnt - 1.
Proof. unfold arm_turns. intros Hc Ht. rewrite w32_small by lia. lia. Qed.

(** * Pointers below 4 GiB *)

(** [r] blocks of [b] bytes from [a] end below 4 GiB. *)
Definition low (b r a : Z) : Prop := 0 <= a /\ a + b * r < 2 ^ 32.

Lemma low_next b r a : 0 <= b -> low b r a -> 1 <= r -> low b (r - 1) (w64 (a + b)).
Proof. unfold low. intros Hb [Ha Hr] H1. rewrite w64_small by nia. nia. Qed.

Lemma low_16 r a :
  low 16 r a -> 1 <= r ->
  w32 (a + 8) = a + 8 /\ w32 (a + 8 + 8) = w64 (a + 16) /\ w32 (a + 16) = w64 (a + 16).
Proof.
  unfold low. intros [Ha Hr] H1. rewrite !w32_small, w64_small by lia.
  repeat split; lia.
Qed.

Lemma low_48 r a :
  low 48 r a -> 1 <= r -> w32 (a + 24) = a + 24 /\ w32 (a + 24 + 24) = w64 (a + 48).
Proof.
  unfold low. intros [Ha Hr] H1. rewrite !w32_small, w64_small by lia. lia.
Qed.

(** * Blocks in two halves *)

Lemma load_halves n m a b :
  load (n + n) m a = Some b ->
  load n m a = Some (take n b) /\ load n m (a + Z.of_nat n) = Some (drop n b).
Proof. apply load_split. Qed.

Lemma store_halves m d l1 l2 m' :
  length l1 = 8%nat -> store m d (l1 ++ l2) = Some m' ->
  exists m1, store m d l1 = Some m1 /\ store m1 (d + 8) l2 = Some m'.
Proof.
  unfold store. intros Hl. rewrite length_app, Hl.
  destruct (mapped (8 + length l2) m d) eqn:E; [|done]. intros [= <-].
  apply mapped_app in E as [E1 E2]. rewrite E1. exists (store_bytes m d l1).
  split; [done|]. change (Z.of_nat 8) with 8 in E2.
  by rewrite mapped_store, store_bytes_app, Hl by done.
Qed.

(** A block function applied to each half, of [n] bytes, of the sources. *)
Definition halves (n : nat) (f : list (list Z) -> list Z) (bs : list (list Z)) : list Z :=
  f (map (take n) bs) ++ f (map (drop n) bs).

(** * The loop invariant *)

(** At the loop head [p]: the sources in the registers [regs], the destination
    in [dreg], the counter in [creg], and the registers that stay. *)
Definition loop_at (p : nat) (regs : list nat) (dreg creg : nat) (advs : list Z)
    (keepr : list (nat * Z)) (keepd : list (nat * list Z))
    (ps : list Z) (d r : Z) (m : memory) (s : arm) : Prop :=
  length ps = length regs /\ Forall2 (fun b a => low b r a) advs ps /\ low 16 r d /\
  exists cnt, 0 <= cnt < 2 ^ 28 /\ arm_turns cnt = r /\
    apoint p (zip regs ps ++ [(dreg, d); (creg, cnt)] ++ keepr) keepd m s.

Lemma low_all_next r advs ps :
  Forall (fun b => 0 <= b) advs -> Forall2 (fun b a => low b r a) advs ps -> 1 <= r ->
  Forall2 (fun b a => low b (r - 1) a) advs (bump advs ps).
Proof.
  intros Hb Hl Hr. induction Hl as [|b a advs ps Hba _ IH]; [constructor|].
  apply Forall_cons in Hb as [Hb1 Hb2]. constructor; [by apply low_next | by apply IH].
Qed.

(** * One turn *)

(** The blocks of a turn, their halves and the stored halves. *)
Ltac halve :=
  match goal with
  | H : load 16 ?m ?a = Some ?b |- _ =>
      let H1 := fresh "Hlo" in let H2 := fresh "Hhi" in let Hn := fresh "Hlen" in
      pose proof (load_length _ _ _ _ H) as Hn;
      apply (load_halves 8) in H as [H1 H2]; change (Z.of_nat 8) with 8 in H2
  | H : load 48 ?m ?a = Some ?b |- _ =>
      let H1 := fresh "Hlo" in let H2 := fresh "Hhi" in let Hn := fresh "Hlen" in
      pose proof (load_length _ _ _ _ H) as Hn;
      apply (load_halves 24) in H as [H1 H2]; change (Z.of_nat 24) with 24 in H2
  end.

Ltac half_length :=
  repeat rewrite ?length_zip_with, ?length_map, ?length_take, ?length_replicate; lia.

Ltac turn_loads Hl :=
  cbn [loads] in Hl;
  repeat match type of Hl with
         | context [match load ?n ?m ?a with _ => _ end] =>
             let E := fresh "Hld" in destruct (load n m a) eqn:E; [|discriminate Hl]
         end;
  injection Hl as <-; repeat halve.

Ltac turn_addresses :=
  repeat match goal with
         | H : Forall2 _ (_ :: _) (_ :: _) |- _ => apply Forall2_cons in H as [? H]
         | H : Forall2 _ [] _ |- _ => clear H
         end;
  repeat match goal with
         | H : low 16 ?r ?a, Hr : 1 <= ?r <= _ |- _ =>
             let E1 := fresh "Ew" in let E2 := fresh "Ew" in let E3 := fresh "Ew" in
             destruct (low_16 r a H (proj1 Hr)) as (E1 & E2 & E3);
             let H' := fresh "Hnext" in
             pose proof (low_next 16 r a ltac:(lia) H (proj1 Hr)) as H'; clear H
         | H : low 48 ?r ?a, Hr : 1 <= ?r <= _ |- _ =>
             let E1 := fresh "Ew" in let E2 := fresh "Ew" in
             destruct (low_48 r a H (proj1 Hr)) as (E1 & E2);
             let H' := fresh "Hnext" in
             pose proof (low_next 48 r a ltac:(lia) H (proj1 Hr)) as H'; clear H
         end.

(** The branch at the end of the loop, then the loop head or the exit. *)
Ltac turn_ends :=
  let G := fresh "G" in
  match goal with
  | H : 0 <= ?cnt < 2 ^ 28 |- context [arm_turns ?cnt] =>
      pose proof (loop_gt cnt H) as G; destruct (Z.eqb_spec (arm_turns cnt) 1)
  end; cbn [negb] in G; rewrite G; cbn beta iota; arm_steps;
  (eexists; split; [reflexivity|]);
  [ arm_close
  | split; [reflexivity | split; [repeat first [assumption | constructor] | split; [assumption|]]];
    match goal with
    | |- context [arm_turns ?cnt] =>
        exists (w32 (cnt - 1));
        destruct (counter_next cnt) as [? ?]; [assumption | assumption |];
        split; [assumption | split; [assumption | arm_close]]
    end ].

(** The definitions of the block functions, unfolded in a turn. *)
Create HintDb arm_blocks.

(** The start of a turn, up to the block function of its store [Hs]. *)
Ltac turn_opens HI Hs :=
  let ps := fresh "ps" in let d := fresh "d" in let r := fresh "r" in
  let m := fresh "m" in let s := fresh "s" in let bs := fresh "bs" in let m' := fresh "m'" in
  let Hlen := fresh "Hlen" in let Hd := fresh "Hd" in let cnt := fresh "cnt" in
  let Hcnt := fresh "Hcnt" in let Ht := fresh "Ht" in
  let Hl := fresh "Hl" in let Hlow := fresh "Hlow" in let Hr := fresh "Hr" in
  intros ps d r m s bs m' (Hlen & Hlow & Hd & cnt & Hcnt & Ht & HI) Hr Hl Hs;
  repeat (destruct ps as [|? ps]; try discriminate Hlen);
  turn_loads Hl; turn_addresses; subst r;
  unfold halves in Hs; cbn [map] in Hs; autounfold with arm_blocks in Hs; cbn [Z.eqb Pos.eqb] in Hs;
  cbv [zip zip_with app kept keptd map seq] in HI.

(** A turn of [c] steps that stores the block in two halves, or at once. *)
Ltac turn_in_halves c :=
  let HI := fresh "HI" in let Hs := fresh "Hs" in
  turn_opens HI Hs; apply store_halves in Hs as (? & ? & Hs); [| unfold arm_weight, dupd; half_length];
  arm_open HI; exists c; arm_steps; turn_ends.
Ltac turn_at_once c :=
  let HI := fresh "HI" in let Hs := fresh "Hs" in
  turn_opens HI Hs; arm_open HI; exists c; arm_steps; turn_ends.

(** * Calling a routine *)

(** The routine's stack frame of [n] bytes, and the memory once it has pushed
    the registers [rs] there. *)
Definition frame (s : arm) (n : nat) : Z := getr s SP - Z.of_nat n.
Definition pushed (rs : list nat) (s : arm) : memory :=
  store_bytes (amem s) (frame s (4 * length rs)) (words (getr s) rs).

(** A call with [args] in [r0]... and [sargs] on the stack, with room for a
    frame of [n] bytes. *)
Definition called (s : arm) (args sargs : list Z) (n : nat) : Prop :=
  length (rr s) = 15%nat /\ length (dr s) = 32%nat /\
  Forall (fun '(i, x) => rr s !! i = Some x) (zip (seq 0 4) args) /\
  Z.of_nat n <= getr s SP /\ mapped n (amem s) (frame s n) = true /\
  getr s SP + 4 * Z.of_nat (length sargs) < 2 ^ 32 /\
  load (4 * length sargs) (amem s) (getr s SP) = Some (flat_map le32 sargs).

(** The registers a routine must restore: [r4]..[r11], the stack pointer, the
    return address and [d8]..[d15]. *)
Definition saved_regs : list nat := [4; 5; 6; 7; 8; 9; 10; FP; SP; LR]%nat.
Definition holds_saved (sv : nat -> Z) (svd : nat -> list Z) (s : arm) : Prop :=
  Forall (fun i => getr s i = sv i) saved_regs /\ Forall (fun i => getd s i = svd i) (seq 8 8).
Definition restored (s : arm) : arm -> Prop := holds_saved (getr s) (getd s).

Definition arm_returns (prog : list ainstr) (f : string) (s : arm) (m' : memory) : Prop :=
  exists fuel s', acall prog fuel f s = Halted s' /\ amem s' = m' /\ restored s s'.

(** What the first instructions of a routine rely on. *)
Definition entry (s : arm) (args sargs : list Z) (rs : list nat) (fr : Z) (m1 : memory) : Prop :=
  length (rr s) = 15%nat /\ length (dr s) = 32%nat /\
  Forall (fun '(i, x) => rr s !! i = Some x) (zip (seq 0 4) args) /\
  w32 (getr s SP - 4 * Z.of_nat (length rs)) = fr /\ w32 (fr + 0) = fr /\
  store (amem s) fr (words (getr s) rs) = Some m1 /\
  Forall (fun '(i, x) => load 4 m1 (w32 (fr + 4 * Z.of_nat (length rs + i))) = Some (le32 x))
    (zip (seq 0 (length sargs)) sargs).

Lemma length_flat_le32 {A} (val : A -> Z) l :
  length (flat_map (fun x => le32 (val x)) l) = (4 * length l)%nat.
Proof. induction l as [|x l IH]; [done|]. cbn [flat_map]. rewrite length_app, IH. cbn. lia. Qed.

Lemma length_words val rs : length (words val rs) = (4 * length rs)%nat.
Proof. apply (length_flat_le32 val). Qed.

(** One stack argument out of the block of them. *)
Lemma stack_arg m a l i x :
  load (4 * length l) m a = Some (flat_map le32 l) -> l !! i = Some x ->
  load 4 m (a + 4 * Z.of_nat i) = Some (le32 x).
Proof.
  revert a i. induction l as [|y l IH]; intros a i Hl Hi; [done|].
  replace (4 * length (y :: l))%nat with (4 + 4 * length l)%nat in Hl by (cbn; lia).
  apply load_split in Hl as [H1 H2]. destruct i as [|i]; cbn in Hi.
  - injection Hi as ->. by rewrite Z.add_0_r.
  - replace (a + 4 * Z.of_nat (S i)) with (a + Z.of_nat 4 + 4 * Z.of_nat i) by lia.
    by apply IH.
Qed.

Lemma called_stored s args sargs rs :
  called s args sargs (4 * length rs) ->
  store (amem s) (frame s (4 * length rs)) (words (getr s) rs) = Some (pushed rs s).
Proof.
  intros (_ & _ & _ & _ & Hm & _). apply store_Some. by rewrite length_words.
Qed.

Lemma called_entry s args sargs rs :
  called s args sargs (4 * length rs) ->
  entry s args sargs rs (frame s (4 * length rs)) (pushed rs s).
Proof.
  intros Hc. pose proof (called_stored _ _ _ _ Hc) as Hs.
  destruct Hc as (HR & HD & Ha & Hlo & _ & Hhi & Hst).
  assert (Hf : getr s SP - 4 * Z.of_nat (length rs) = frame s (4 * length rs)) by (unfold frame; lia).
  repeat split; try done.
  - rewrite Hf, w32_small; [done|]. unfold frame in *. lia.
  - rewrite w32_small; unfold frame in *; lia.
  - apply Forall_lookup. intros j [i x] (y & z & E & Hi & Hx)%lookup_zip_with_Some.
    injection E as -> ->. apply lookup_seq in Hi as [-> Hi]. cbn [Nat.add].
    rewrite w32_small by (unfold frame; lia).
    replace (frame s _ + _) with (getr s SP + 4 * Z.of_nat j) by (unfold frame; lia).
    unfold pushed. rewrite load_store_disjoint.
    + by eapply stack_arg.
    + rewrite length_words. unfold frame. lia.
Qed.

(** The pushed registers are still there after a store elsewhere. *)
Lemma frame_intact s rs d out :
  separate (frame s (4 * length rs)) (4 * length rs) d (length out) ->
  load (4 * length rs) (store_bytes (pushed rs s) d out) (frame s (4 * length rs)) =
  Some (words (getr s) rs).
Proof.
  intros Hs. rewrite load_store_disjoint by exact Hs.
  pose proof (load_store_same (amem s) (frame s (4 * length rs)) (words (getr s) rs)) as H.
  unfold bytes_at in H. by rewrite length_words in H.
Qed.

(** What the instructions after the loop do: they restore the registers. *)
Definition returning (prog : list ainstr) (pE : nat) (rs ws : list nat) : Prop :=
  forall sv svd m s1 fr, apoint pE (kept fr sv ws) (keptd svd) m s1 ->
  load (4 * length rs) m fr = Some (words sv rs) ->
  w32 (fr - 0) = fr -> w32 (fr + 4 * Z.of_nat (length rs)) = sv SP ->
  exists c s2, run (astep prog) c s1 = Halted s2 /\ amem s2 = m /\ holds_saved sv svd s2.

(** What the instructions before the loop do: they set up the loop. *)
Definition entering (prog : list ainstr) (p p0 c0 : nat) (args sargs : list Z)
    (rs ws : list nat) (values : list (nat * Z)) (kd : list (nat * list Z)) : Prop :=
  forall s fr m1, entry s args sargs rs fr m1 ->
  exists s1, run (astep prog) c0 (jump p s) = Running s1 /\
    apoint p0 (values ++ kept fr (getr s) ws) (kd ++ keptd (getd s)) m1 s1.

(** A routine as a whole: with buffers below 4 GiB, apart from each other and
    from the stack frame, it returns with the stream's output in the
    destination, its frame below the stack pointer, every other byte of memory
    as before and the registers of its caller restored. *)
Lemma arm_kernel prog f p p0 pE c0 rs ws args sargs regs dreg creg cnt kd blks advs F s k ps d datas :
  alabel_pos prog f = Some p ->
  entering prog p p0 c0 args sargs rs ws (zip regs ps ++ [(dreg, d); (creg, cnt)]) kd ->
  (forall fp sv svd,
     turn_ok blks advs 16 F (astep prog) (apoint pE (kept fp sv ws) (keptd svd))
       (loop_at p0 regs dreg creg advs (kept fp sv ws) (kd ++ keptd svd))) ->
  returning prog pE rs ws ->
  called s args sargs (4 * length rs) ->
  0 <= cnt < 2 ^ 28 -> Z.of_nat k = arm_turns cnt ->
  length ps = length regs -> Forall2 (fun b a => low b (Z.of_nat k) a) advs ps ->
  low 16 (Z.of_nat k) d ->
  sources k 16 d (pushed rs s) blks ps advs datas ->
  mapped (16 * k) (amem s) d = true ->
  separate (frame s (4 * length rs)) (4 * length rs) d (16 * k) ->
  (forall bs, exactly 1 blks bs -> length (F bs) = 16%nat) ->
  arm_returns prog f s (store_bytes (pushed rs s) d (stream_out blks F k datas)).
Proof.
  intros Hp Hpro Hturn Hepi Hc Hcnt Hk Hps Hlow Hd Hsrc Hmap Hsep HF.
  destruct (Hpro _ _ _ (called_entry _ _ _ _ Hc)) as (s1 & Hrun1 & H1).
  assert (Hm : stream_mem blks advs 16 F k ps d (pushed rs s) =
               Some (store_bytes (pushed rs s) d (stream_out blks F k datas))).
  { destruct Hd as [Hd Hdb]. apply (stream_mem_out _ _ _ _ k 16); try done; [lia | |].
    - by apply mapped_store.
    - intros bs Hbs%exactly_one. auto. }
  destruct k as [|k]; [unfold arm_turns in Hk; lia|].
  assert (Hlen : length (stream_out blks F (S k) datas) = (16 * S k)%nat) by (eapply length_stream_out; eauto using sources_exactly).
  eapply stream_terminates in Hm; [| apply (Hturn (frame s (4 * length rs)) (getr s) (getd s)) | | ].
  - destruct Hm as (c & s2 & Hrun2 & H2).
    edestruct (Hepi _ _ _ _ _ H2) as (c' & s3 & Hrun3 & Hm3 & Hr3); [| | |exists (c0 + (c + c'))%nat, s3; unfold acall; rewrite Hp;
      by rewrite (run_app _ _ _ _ _ Hrun1), (run_app _ _ _ _ _ Hrun2)].
    + apply frame_intact. by rewrite Hlen.
    + destruct Hc as (_ & _ & _ & Hlo & _ & Hhi & _).
      rewrite Z.sub_0_r, w32_small; unfold frame in *; lia.
    + destruct Hc as (_ & _ & _ & Hlo & _ & Hhi & _).
      rewrite w32_small; unfold frame in *; lia.
  - split; [done|]. split; [done|]. split; [done|]. exists cnt. rewrite <- app_assoc in H1. done.
  - unfold arm_turns in Hk. lia.
Qed.

(** [arm_enters]: the straight-line code before the loop. *)
Ltac arm_enters :=
  let s := fresh "s" in let fr := fresh "fr" in let m1 := fresh "m1" in
  let R := fresh "R" in let D := fresh "D" in
  let HR := fresh in let HD := fresh in let Ha := fresh in
  let E1 := fresh "E" in let E2 := fresh "E" in let E3 := fresh "E" in let E4 := fresh "E" in
  intros s fr m1 (HR & HD & Ha & E1 & E2 & E3 & E4);
  destruct s as [R D ? ? ? ? ? ?]; cbn [rr dr] in HR, HD, Ha;
  cbv [zip zip_with seq] in Ha; arm_registers R D HR HD;
  arm_reduce E1; arm_reduce E3; cbv [zip zip_with seq length] in E4; arm_values;
  repeat match goal with H : context [load 4 m1 (w32 (fr + 4 * _))] |- _ => arm_reduce H end;
  eexists; split; [arm_steps | arm_close].

Ltac solve_leave :=
  eexists; split; [solve [arm_steps]|];
  split; [reflexivity|]; split; repeat constructor; assumption || reflexivity.

(** [arm_leaves]: the straight-line code after it. *)
Ltac arm_leaves :=
  let sv := fresh "sv" in let svd := fresh "svd" in let m := fresh "m" in
  let s1 := fresh "s" in let fr := fresh "fr" in let H := fresh "H" in
  let L := fresh "L" in let E1 := fresh "E" in let E2 := fresh "E" in
  intros sv svd m s1 fr H L E1 E2;
  cbv [kept keptd map seq] in H; arm_reduce L; arm_reduce E2;
  arm_open H; first [exists 3%nat; solve_leave | exists 4%nat; solve_leave].

