(* ===== verification/ArmTurns.v ===== *)
(** The loops of the routines of [neon32.S] and [mem.S]: the block function of
    each, one turn of its loop, and the code before and after it. *)

From S2P Require Import Prelude Machine Simd SimdMem Stream Pixels Arm ArmLoops.
From S2P Require ArmText MemText.
Local Open Scope Z_scope.

Abbreviation neon32 := ArmText.neon32.
Abbreviation mem_S := MemText.mem_S.

(** * The routines' block functions, on half blocks *)

Definition h_threshold (t : Z) (bs : list (list Z)) : list Z :=
  match bs with
  | [b] => zip_with Z.land (zip_with Lane.cmhi8 b (dupd t)) b
  | _ => []
  end.
Definition h_binary (t : Z) (bs : list (list Z)) : list Z :=
  match bs with [b] => zip_with Lane.cmhi8 b (dupd t) | _ => [] end.
Definition h_two (op : Z -> Z -> Z) (bs : list (list Z)) : list Z :=
  match bs with [a; b] => zip_with op a b | _ => [] end.
Definition h_compare3 (bs : list (list Z)) : list Z :=
  match bs with
  | [p; c1; c2; a] =>
      let kept := zip_with Z.land p (zip_with Z.land (zip_with Lane.cmhi8 p c1)
                                                     (zip_with Lane.cmhi8 p c2)) in
      zip_with Lane.uqadd8
        (map (shl8 4) (zip_with sshl8 p (map Lane.neg8 (map (fun x => Z.shiftr x 6) kept)))) a
  | _ => []
  end.
Definition weigh (al be ga : Z) (p c1 c2 : list Z) : list Z :=
  zip_with Lane.uqsub8 p
    (zip_with Lane.uqadd8
       (zip_with Lane.uqadd8 (zip_with Lane.ushl8 c1 (arm_weight al))
                             (zip_with Lane.ushl8 c2 (arm_weight be))) (dupd ga)).
Definition h_wst (al be ga : Z) (bs : list (list Z)) : list Z :=
  match bs with [p; c1; c2] => weigh al be ga p c1 c2 | _ => [] end.
Definition h_split (o al be ga : Z) (bs : list (list Z)) : list Z :=
  match bs with
  | [b] =>
      let x := (deint3 b).1.1 in let y := (deint3 b).1.2 in let z := (deint3 b).2 in
      if o =? 0 then weigh al be ga x y z
      else if o =? 1 then weigh al be ga y z x else weigh al be ga z x y
  | _ => []
  end.

#[export] Hint Unfold h_threshold h_binary h_two h_compare3 weigh h_wst h_split : arm_blocks.

(** * The loops *)

(** The callee-saved registers other than those a routine pushes. *)
Definition stay_fp : list nat := [4; 5; 6; 7; 8; 9; 10; LR]%nat.
Definition stay_r5 : list nat := [6; 7; 8; 9; 10; LR]%nat.
Definition stay_r6 : list nat := [7; 8; 9; 10; LR]%nat.
Definition stay_r7 : list nat := [8; 9; 10; LR]%nat.

(** [loops prog p0 pE regs dreg creg advs ws kd b F]: the loop at [p0] of
    [prog], left at [pE], computes the block function [F] on [b]-byte blocks. *)
Definition loops (prog : list ainstr) (p0 pE : nat) (regs : list nat) (dreg creg : nat)
    (b : nat) (ws : list nat) (kd : list (nat * list Z)) (F : list (list Z) -> list Z) : Prop :=
  forall fp sv svd,
  turn_ok (map (fun _ => b) regs) (map (fun _ => Z.of_nat b) regs) 16 F (astep prog)
    (apoint pE (kept fp sv ws) (keptd svd))
    (loop_at p0 regs dreg creg (map (fun _ => Z.of_nat b) regs) (kept fp sv ws) (kd ++ keptd svd)).

Ltac loop_opens := intros ? ? ?; cbn [map]; change (Z.of_nat 16) with 16;
  change (Z.of_nat 48) with 48; autounfold with arm_blocks.

Definition q3_is (t : Z) : list (nat * list Z) := [(6, dupd t); (7, dupd t)]%nat.

(** The weights and the constant of the weighted subtractions. *)
Definition weights_are (al be ga : Z) : list (nat * list Z) :=
  [(16, arm_weight al); (17, arm_weight al); (18, arm_weight be); (19, arm_weight be);
   (20, dupd ga); (21, dupd ga)]%nat.

#[export] Hint Unfold q3_is weights_are stay_fp stay_r5 stay_r6 stay_r7 : arm_blocks.

Lemma neon32_threshold_loop t :
  loops neon32 5 15 [1%nat] 0 2 16 stay_fp (q3_is t) (halves 8 (h_threshold t)).
Proof. loop_opens. turn_in_halves 10%nat. Qed.
Lemma neon32_binary_loop t :
  loops neon32 23 32 [1%nat] 0 2 16 stay_fp (q3_is t) (halves 8 (h_binary t)).
Proof. loop_opens. turn_in_halves 9%nat. Qed.
Lemma neon32_compare3_loop :
  loops neon32 41 64 [0; 1; 2; 3]%nat 4 5 16 stay_r5 [] (halves 8 h_compare3).
Proof. loop_opens. turn_in_halves 23%nat. Qed.
Lemma neon32_wst_loop al be ga :
  loops neon32 82 99 [0; 1; 2]%nat 3 4 16 stay_r7 (weights_are al be ga) (halves 8 (h_wst al be ga)).
Proof. loop_opens. turn_in_halves 17%nat. Qed.
Lemma neon32_split0_loop al be ga :
  loops neon32 121 159 [0]%nat 1 2 48 stay_r6 (weights_are al be ga) (halves 24 (h_split 0 al be ga)).
Proof. loop_opens. turn_at_once 12%nat. Qed.
Lemma neon32_split1_loop al be ga :
  loops neon32 134 159 [0]%nat 1 2 48 stay_r6 (weights_are al be ga) (halves 24 (h_split 1 al be ga)).
Proof. loop_opens. turn_at_once 12%nat. Qed.
Lemma neon32_split2_loop al be ga :
  loops neon32 147 159 [0]%nat 1 2 48 stay_r6 (weights_are al be ga) (halves 24 (h_split 2 al be ga)).
Proof. loop_opens. turn_at_once 12%nat. Qed.
Lemma neon32_or_loop : loops neon32 167 178 [0; 1]%nat 2 3 16 stay_fp [] (halves 8 (h_two Z.lor)).
Proof. loop_opens. turn_in_halves 11%nat. Qed.
Lemma neon32_subtract_loop :
  loops neon32 185 196 [0; 1]%nat 2 3 16 stay_fp [] (halves 8 (h_two Lane.uqsub8)).
Proof. loop_opens. turn_in_halves 11%nat. Qed.
Lemma mem_threshold_loop t :
  loops mem_S 5 15 [1%nat] 0 2 16 stay_fp (q3_is t) (halves 8 (h_threshold t)).
Proof. loop_opens. turn_in_halves 10%nat. Qed.
Lemma mem_binary_loop t :
  loops mem_S 23 32 [1%nat] 0 2 16 stay_fp (q3_is t) (halves 8 (h_binary t)).
Proof. loop_opens. turn_in_halves 9%nat. Qed.
Lemma mem_subtract_loop :
  loops mem_S 39 50 [0; 1]%nat 2 3 16 stay_fp [] (halves 8 (h_two wsub8)).
Proof. loop_opens. turn_in_halves 11%nat. Qed.

(** * Before and after the loops *)

Lemma neon32_leaves_fp pE :
  pE ∈ [15; 32; 178; 196]%nat -> returning neon32 pE [FP] stay_fp.
Proof.
  intros H. autounfold with arm_blocks.
  repeat (apply elem_of_cons in H as [->|H]; [arm_leaves|]). by apply elem_of_nil in H.
Qed.
Lemma neon32_leaves_r5 : returning neon32 64 [4%nat; 5%nat; FP] stay_r5.
Proof. autounfold with arm_blocks. arm_leaves. Qed.
Lemma neon32_leaves_r7 : returning neon32 99 [4%nat; 5%nat; 6%nat; 7%nat; FP] stay_r7.
Proof. autounfold with arm_blocks. arm_leaves. Qed.
Lemma neon32_leaves_r6 : returning neon32 159 [4%nat; 5%nat; 6%nat; FP] stay_r6.
Proof. autounfold with arm_blocks. arm_leaves. Qed.
Lemma mem_leaves_fp pE :
  pE ∈ [15; 32; 50]%nat -> returning mem_S pE [FP] stay_fp.
Proof.
  intros H. autounfold with arm_blocks.
  repeat (apply elem_of_cons in H as [->|H]; [arm_leaves|]). by apply elem_of_nil in H.
Qed.

Lemma neon32_threshold_enters a d n t :
  entering neon32 0 5 5 [d; a; n; t] [] [FP] stay_fp
    (zip [1%nat] [a] ++ [(0%nat, d); (2%nat, Z.shiftr n 4)]) (q3_is t) /\
  entering neon32 18 23 5 [d; a; n; t] [] [FP] stay_fp
    (zip [1%nat] [a] ++ [(0%nat, d); (2%nat, Z.shiftr n 4)]) (q3_is t).
Proof. autounfold with arm_blocks. split; arm_enters. Qed.
Lemma mem_threshold_enters a d n t :
  entering mem_S 0 5 5 [d; a; n; t] [] [FP] stay_fp
    (zip [1%nat] [a] ++ [(0%nat, d); (2%nat, Z.shiftr n 4)]) (q3_is t) /\
  entering mem_S 18 23 5 [d; a; n; t] [] [FP] stay_fp
    (zip [1%nat] [a] ++ [(0%nat, d); (2%nat, Z.shiftr n 4)]) (q3_is t).
Proof. autounfold with arm_blocks. split; arm_enters. Qed.
Lemma neon32_two_enters a b d n :
  entering neon32 163 167 4 [a; b; d; n] [] [FP] stay_fp
    (zip [0; 1]%nat [a; b] ++ [(2%nat, d); (3%nat, Z.shiftr n 4)]) [] /\
  entering neon32 181 185 4 [a; b; d; n] [] [FP] stay_fp
    (zip [0; 1]%nat [a; b] ++ [(2%nat, d); (3%nat, Z.shiftr n 4)]) [].
Proof. autounfold with arm_blocks. split; arm_enters. Qed.
Lemma mem_subtract_enters a b d n :
  entering mem_S 35 39 4 [a; b; d; n] [] [FP] stay_fp
    (zip [0; 1]%nat [a; b] ++ [(2%nat, d); (3%nat, Z.shiftr n 4)]) [].
Proof. autounfold with arm_blocks. arm_enters. Qed.
Lemma neon32_compare3_enters p c1 c2 a d n :
  entering neon32 35 41 6 [p; c1; c2; a] [d; n] [4%nat; 5%nat; FP] stay_r5
    (zip [0; 1; 2; 3]%nat [p; c1; c2; a] ++ [(4%nat, d); (5%nat, Z.shiftr n 4)]) [].
Proof. autounfold with arm_blocks. arm_enters. Qed.
Lemma neon32_wst_enters p c1 c2 d n al be ga :
  entering neon32 67 82 15 [p; c1; c2; d] [n; al; be; ga] [4%nat; 5%nat; 6%nat; 7%nat; FP] stay_r7
    (zip [0; 1; 2]%nat [p; c1; c2] ++ [(3%nat, d); (4%nat, Z.shiftr n 4)]) (weights_are al be ga).
Proof. autounfold with arm_blocks. arm_enters. Qed.
Lemma neon32_split_enters a d n al be ga :
  entering neon32 102 121 17 [a; d; n; 0] [al; be; ga] [4%nat; 5%nat; 6%nat; FP] stay_r6
    (zip [0%nat] [a] ++ [(1%nat, d); (2%nat, Z.shiftr n 4)]) (weights_are al be ga) /\
  entering neon32 102 134 18 [a; d; n; 1] [al; be; ga] [4%nat; 5%nat; 6%nat; FP] stay_r6
    (zip [0%nat] [a] ++ [(1%nat, d); (2%nat, Z.shiftr n 4)]) (weights_are al be ga) /\
  entering neon32 102 147 19 [a; d; n; 2] [al; be; ga] [4%nat; 5%nat; 6%nat; FP] stay_r6
    (zip [0%nat] [a] ++ [(1%nat, d); (2%nat, Z.shiftr n 4)]) (weights_are al be ga).
Proof. autounfold with arm_blocks. split; [|split]; arm_enters. Qed.
