(* ===== verification/ArmKernels.v ===== *)
(** What the kernels of [neon32.S] and [mem.S] compute, in terms of pixels:
    each routine, called under the calling convention, against the reference
    functions of [Pixels], for every count. *)

From S2P Require Import Prelude Machine Simd SimdMem Stream Pixels Arm ArmLoops ArmTurns.
Local Open Scope Z_scope.

(** * A call on frames *)

(** The blocks a call with count [n] processes: the whole blocks of [n], and
    one block when there is none. *)
Definition arm_blocks (n : Z) (k : nat) : Prop := 0 <= n < 2 ^ 32 /\ Z.of_nat k = Z.max 1 (n / 16).

(** A source of [k] blocks of [b] bytes: below 4 GiB, apart from the routine's
    frame of [nf] bytes, and apart from the destination or equal to it. *)
Definition arm_source (s : arm) (nf : nat) (d : Z) (k b : nat) (a : Z) (l : list Z) : Prop :=
  buffer (amem s) a l /\ length l = (b * k)%nat /\ a + Z.of_nat (b * k) < 2 ^ 32 /\
  separate a (b * k) (frame s nf) nf /\ (separate a (b * k) d (16 * k) \/ (a = d /\ b = 16%nat)).
Definition arm_dest (s : arm) (nf : nat) (d : Z) (k : nat) : Prop :=
  room (amem s) d (16 * k) /\ d + Z.of_nat (16 * k) < 2 ^ 32 /\ separate (frame s nf) nf d (16 * k).

#[export] Instance arm_blocks_dec n k : Decision (arm_blocks n k).
Proof. unfold arm_blocks. apply _. Defined.
#[export] Instance arm_source_dec s nf d k b a l : Decision (arm_source s nf d k b a l).
Proof. unfold arm_source. apply _. Defined.
#[export] Instance arm_dest_dec s nf d k : Decision (arm_dest s nf d k).
Proof. unfold arm_dest. apply _. Defined.
#[export] Instance called_dec s args sargs n : Decision (called s args sargs n).
Proof. unfold called. apply _. Defined.

Lemma arm_sources s rs d k b ps datas :
  (0 < k)%nat -> Forall2 (arm_source s (4 * length rs) d k b) ps datas ->
  sources k 16 d (pushed rs s) (map (fun _ => b) ps) ps (map (fun _ => Z.of_nat b) ps) datas /\
  Forall2 (fun v a => low v (Z.of_nat k) a) (map (fun _ => Z.of_nat b) ps) ps.
Proof.
  intros Hk. induction 1 as [|a l ps datas (Hb & Hl & Hlo & Hf & Hd) _ [IH1 IH2]];
    [split; constructor|]. cbn [map]. split.
  - eapply buffer_source; [| exact Hl | exact Hd | exact IH1].
    apply buffer_store; [exact Hb|]. rewrite length_words, Hl. exact Hf.
  - constructor; [|exact IH2]. destruct Hb as (H0 & _). split; [done | lia].
Qed.

Lemma map_const_length {A B C} (x : C) (l : list A) (l' : list B) :
  length l = length l' -> map (fun _ => x) l = map (fun _ => x) l'.
Proof.
  revert l'. induction l as [|a l IH]; intros [|b l']; try done. intros [= H]. cbn. by rewrite (IH l').
Qed.

Lemma arm_writes prog f p p0 pE c0 rs ws args sargs regs dreg creg kd b blks F s n k ps d datas :
  alabel_pos prog f = Some p ->
  entering prog p p0 c0 args sargs rs ws (zip regs ps ++ [(dreg, d); (creg, Z.shiftr n 4)]) kd ->
  loops prog p0 pE regs dreg creg b ws kd F -> returning prog pE rs ws ->
  blks = map (fun _ => b) ps -> length ps = length regs ->
  called s args sargs (4 * length rs) -> arm_blocks n k ->
  arm_dest s (4 * length rs) d k -> Forall2 (arm_source s (4 * length rs) d k b) ps datas ->
  (forall bs, exactly 1 blks bs -> length (F bs) = 16%nat) ->
  arm_returns prog f s (store_bytes (pushed rs s) d (stream_out blks F k datas)).
Proof.
  intros Hp He Hl Hr -> Hps Hc [Hn Hk] ((Hd & _ & Hm) & Hdb & Hsep) Hs HF.
  destruct (arm_sources s rs d k b ps datas ltac:(lia) Hs) as [Hsrc Hlow].
  unfold loops in Hl. rewrite !(map_const_length _ regs ps) in Hl by done.
  eapply arm_kernel; eauto.
  - rewrite Z.shiftr_div_pow2 by lia. change (2 ^ 4) with 16.
    split; [apply Z.div_pos; lia | apply Z.div_lt_upper_bound; lia].
  - rewrite Z.shiftr_div_pow2 by lia. exact Hk.
  - split; [done | lia].
Qed.

(** * The block functions are the references, lane by lane *)

Lemma h_threshold_lanes t b :
  length b = 16%nat ->
  halves 8 (h_threshold t) [b] = map (fun p => Z.land (Lane.cmhi8 p (t mod 256)) p) b.
Proof. intros. lanes 16 b. reflexivity. Qed.

Lemma h_binary_lanes t b :
  length b = 16%nat -> halves 8 (h_binary t) [b] = map (thresh_bin_px (t mod 256)) b.
Proof. intros. lanes 16 b. reflexivity. Qed.

Lemma h_two_lanes op a b :
  length a = 16%nat -> length b = 16%nat -> halves 8 (h_two op) [a; b] = zip_with op a b.
Proof. intros. lanes 16 a. lanes 16 b. reflexivity. Qed.

Definition cmp3_raw32 (p c1 c2 a : Z) : Z :=
  Lane.uqadd8
    (shl8 4 (sshl8 p (Lane.neg8 (Z.shiftr (Z.land p (Z.land (Lane.cmhi8 p c1) (Lane.cmhi8 p c2))) 6))))
    a.

Lemma h_compare3_lanes p c1 c2 a :
  length p = 16%nat -> length c1 = 16%nat -> length c2 = 16%nat -> length a = 16%nat ->
  halves 8 h_compare3 [p; c1; c2; a] = zip4_with cmp3_raw32 p c1 c2 a.
Proof. intros. lanes 16 p. lanes 16 c1. lanes 16 c2. lanes 16 a. reflexivity. Qed.

Lemma h_wst_lanes al be ga p c1 c2 :
  length p = 16%nat -> length c1 = 16%nat -> length c2 = 16%nat ->
  halves 8 (h_wst al be ga) [p; c1; c2] = zip3_with (wst_raw al be ga) p c1 c2.
Proof. intros. lanes 16 p. lanes 16 c1. lanes 16 c2. reflexivity. Qed.

Definition split_raw (o al be ga x y z : Z) : Z :=
  if o =? 0 then wst_raw al be ga x y z
  else if o =? 1 then wst_raw al be ga y z x else wst_raw al be ga z x y.

Lemma h_split_lanes o al be ga b :
  length b = 48%nat -> halves 24 (h_split o al be ga) [b] = pixels_map (split_raw o al be ga) b.
Proof.
  intros. lanes 48 b. unfold halves, h_split, split_raw.
  destruct (o =? 0); [reflexivity|]. destruct (o =? 1); reflexivity.
Qed.

(** * Lanes of bytes *)

(** [memcpy_compare3_add_asm] of [neon32.S]: as [cmp3_px], but the scaling by
    sixteen keeps the low four bits instead of saturating. *)
Definition cmp3_px32 (p c1 c2 a : Z) : Z :=
  let kept := if (c1 <? p) && (c2 <? p) then p / 2 ^ (p / 64) else p in
  Z.min 255 (16 * (kept mod 16) + a).

Definition split_px (o al be ga x y z : Z) : Z :=
  if o =? 0 then wst_px al be ga x y z
  else if o =? 1 then wst_px al be ga y z x else wst_px al be ga z x y.

(** The scaled primary channel, for every byte, beaten or not. *)
Lemma scaled32 p (m : bool) :
  is_byte p ->
  shl8 4 (sshl8 p (Lane.neg8 (Z.shiftr (Z.land p (if m then 255 else 0)) 6))) =
  16 * ((if m then p / 2 ^ (p / 64) else p) mod 16).
Proof.
  intros Hp.
  assert (H : forallb (fun i => let q := Z.of_nat i in
                let f (m : bool) := shl8 4 (sshl8 q (Lane.neg8 (Z.shiftr (Z.land q (if m then 255 else 0)) 6)))
                         =? 16 * ((if m then q / 2 ^ (q / 64) else q) mod 16) in f true && f false)
              (seq 0 256) = true) by (vm_compute; reflexivity).
  rewrite forallb_forall in H. specialize (H (Z.to_nat p)). cbv zeta in H.
  unfold is_byte in Hp. rewrite Z2Nat.id in H by lia.
  assert (Hin : In (Z.to_nat p) (seq 0 256)) by (apply in_seq; lia).
  apply H, andb_prop in Hin as [H1%Z.eqb_eq H2%Z.eqb_eq]. by destruct m.
Qed.

Lemma cmp3_raw32_px p c1 c2 a :
  is_byte p -> cmp3_raw32 p c1 c2 a = cmp3_px32 p c1 c2 a.
Proof.
  intros Hp. unfold cmp3_raw32, cmp3_px32, Lane.uqadd8.
  rewrite <- scaled32 by done. unfold Lane.cmhi8.
  destruct (c1 <? p), (c2 <? p); reflexivity.
Qed.

Lemma split_raw_px o al be ga x y z :
  is_byte al -> is_byte be -> is_byte ga -> is_byte x -> is_byte y -> is_byte z ->
  split_raw o al be ga x y z = split_px o al be ga x y z.
Proof. intros. unfold split_raw, split_px. by rewrite !wst_raw_px by done. Qed.

(** * What a call computes *)

(** [arm_by enters loop leaves lanes len]: the call of the routine with these
    parts; [lanes] says what its block function is. *)
Ltac arm_by enters loop leaves lanes :=
  eapply arm_writes;
  [ reflexivity | apply enters | apply loop | apply leaves; try (apply (bool_decide_unpack _); exact I)
  | reflexivity | reflexivity | eassumption | eassumption | eassumption | repeat (constructor; [eassumption|]); constructor
  | let Hbs := fresh "Hbs" in cbn [map]; intros ? Hbs; blocks Hbs; rewrite lanes by done ].

Lemma thresh_map t px :
  Forall is_byte px ->
  map (fun p => Z.land (Lane.cmhi8 p (t mod 256)) p) px = map (thresh_px (t mod 256)) px.
Proof.
  intros Hpx. apply map_ext_Forall. eapply Forall_impl; [exact Hpx|].
  intros p Hp. by apply land_cmhi.
Qed.

Lemma arm_source_bytes s nf d k b a l :
  arm_source s nf d k b a l -> Forall is_byte l /\ length l = (b * k)%nat.
Proof. intros (Hb & Hl & _). split; [by eapply buffer_bytes | done]. Qed.

Section Threshold.

Context (s : arm) (n : Z) (k : nat) (dst src t : Z) (px : list Z).
Hypothesis Hcall : called s [dst; src; n; t] [] 4.
Hypothesis Hn : arm_blocks n k.
Hypothesis Hd : arm_dest s 4 dst k.
Hypothesis Hs : arm_source s 4 dst k 16 src px.

Let len : length px = (16 * k)%nat := proj2 (arm_source_bytes _ _ _ _ _ _ _ Hs).
Let bytes : Forall is_byte px := proj1 (arm_source_bytes _ _ _ _ _ _ _ Hs).

Lemma neon32_threshold_writes :
  arm_returns neon32 "memcpy_threshold_asm" s
    (store_bytes (pushed [FP] s) dst (map (thresh_px (t mod 256)) px)) /\
  arm_returns neon32 "memcpy_threshold_binary_asm" s
    (store_bytes (pushed [FP] s) dst (map (thresh_bin_px (t mod 256)) px)).
Proof.
  split.
  - rewrite <- thresh_map, <- (out1 _ _ _ _ (h_threshold_lanes t) len) by exact bytes.
    arm_by (neon32_threshold_enters src dst n t) (neon32_threshold_loop t) neon32_leaves_fp h_threshold_lanes.
    by rewrite length_map.
  - rewrite <- (out1 _ _ _ _ (h_binary_lanes t) len).
    arm_by (neon32_threshold_enters src dst n t) (neon32_binary_loop t) neon32_leaves_fp h_binary_lanes.
    by rewrite length_map.
Qed.

Lemma mem_threshold_writes :
  arm_returns mem_S "memcpy_threshold_asm" s
    (store_bytes (pushed [FP] s) dst (map (thresh_px (t mod 256)) px)) /\
  arm_returns mem_S "memcpy_threshold_binary_asm" s
    (store_bytes (pushed [FP] s) dst (map (thresh_bin_px (t mod 256)) px)).
Proof.
  split.
  - rewrite <- thresh_map, <- (out1 _ _ _ _ (h_threshold_lanes t) len) by exact bytes.
    arm_by (mem_threshold_enters src dst n t) (mem_threshold_loop t) mem_leaves_fp h_threshold_lanes.
    by rewrite length_map.
  - rewrite <- (out1 _ _ _ _ (h_binary_lanes t) len).
    arm_by (mem_threshold_enters src dst n t) (mem_binary_loop t) mem_leaves_fp h_binary_lanes.
    by rewrite length_map.
Qed.

End Threshold.

Section TwoSources.

Context (s : arm) (n : Z) (k : nat) (a b dst : Z) (la lb : list Z).
Hypothesis Hcall : called s [a; b; dst; n] [] 4.
Hypothesis Hn : arm_blocks n k.
Hypothesis Hd : arm_dest s 4 dst k.
Hypothesis Ha : arm_source s 4 dst k 16 a la.
Hypothesis Hb : arm_source s 4 dst k 16 b lb.

Let lena : length la = (16 * k)%nat := proj2 (arm_source_bytes _ _ _ _ _ _ _ Ha).
Let lenb : length lb = (16 * k)%nat := proj2 (arm_source_bytes _ _ _ _ _ _ _ Hb).

Lemma neon32_two_sources_write :
  arm_returns neon32 "memcpy_bitwise_or_asm" s
    (store_bytes (pushed [FP] s) dst (zip_with Z.lor la lb)) /\
  arm_returns neon32 "memcpy_subtract_asm" s
    (store_bytes (pushed [FP] s) dst (zip_with (fun x y => Z.max 0 (x - y)) la lb)).
Proof.
  split.
  - rewrite <- (out2 _ _ _ _ _ (h_two_lanes Z.lor) lena lenb).
    arm_by (neon32_two_enters a b dst n) neon32_or_loop neon32_leaves_fp (h_two_lanes Z.lor).
    rewrite length_zip_with. lia.
  - change (fun x y => Z.max 0 (x - y)) with Lane.uqsub8.
    rewrite <- (out2 _ _ _ _ _ (h_two_lanes Lane.uqsub8) lena lenb).
    arm_by (neon32_two_enters a b dst n) neon32_subtract_loop neon32_leaves_fp (h_two_lanes Lane.uqsub8).
    rewrite length_zip_with. lia.
Qed.

Lemma mem_subtract_writes :
  arm_returns mem_S "memcpy_subtract_asm" s
    (store_bytes (pushed [FP] s) dst (zip_with (fun x y => (x - y) mod 256) la lb)).
Proof.
  change (fun x y => (x - y) mod 256) with wsub8.
  rewrite <- (out2 _ _ _ _ _ (h_two_lanes wsub8) lena lenb).
  arm_by (mem_subtract_enters a b dst n) mem_subtract_loop mem_leaves_fp (h_two_lanes wsub8).
  rewrite length_zip_with. lia.
Qed.

End TwoSources.

(** [memcpy_compare3_add_asm] of [neon32.S]. *)
Lemma neon32_compare3_writes s n k p c1 c2 a dst lp l1 l2 la :
  called s [p; c1; c2; a] [dst; n] 12 -> arm_blocks n k -> arm_dest s 12 dst k ->
  arm_source s 12 dst k 16 p lp -> arm_source s 12 dst k 16 c1 l1 ->
  arm_source s 12 dst k 16 c2 l2 -> arm_source s 12 dst k 16 a la ->
  arm_returns neon32 "memcpy_compare3_add_asm" s
    (store_bytes (pushed [4%nat; 5%nat; FP] s) dst (zip4_with cmp3_px32 lp l1 l2 la)).
Proof.
  intros Hc Hn Hd Hp H1 H2 Ha.
  destruct (arm_source_bytes _ _ _ _ _ _ _ Hp), (arm_source_bytes _ _ _ _ _ _ _ H1),
    (arm_source_bytes _ _ _ _ _ _ _ H2), (arm_source_bytes _ _ _ _ _ _ _ Ha).
  erewrite zip4_ext; [| intros; symmetry; by apply cmp3_raw32_px | done ..].
  erewrite <- (out4 _ _ k); [| apply h_compare3_lanes | done ..].
  arm_by (neon32_compare3_enters p c1 c2 a dst n) neon32_compare3_loop neon32_leaves_r5 h_compare3_lanes.
  by apply length_zip4.
Qed.

Lemma zip3_ext f g a b c :
  (forall x y z, is_byte x -> is_byte y -> is_byte z -> f x y z = g x y z) ->
  Forall is_byte a -> Forall is_byte b -> Forall is_byte c ->
  zip3_with f a b c = zip3_with g a b c.
Proof.
  intros Hfg Ha. revert b c. induction Ha as [|x a Hx Ha IH]; intros b c Hb Hc; [done|].
  destruct Hb, Hc; simpl; try done. rewrite Hfg by done. by rewrite IH.
Qed.

(** [memcpy_wst_asm] of [neon32.S] stores the subtraction at its destination. *)
Lemma neon32_wst_writes s n k p c1 c2 dst al be ga lp l1 l2 :
  is_byte al -> is_byte be -> is_byte ga ->
  called s [p; c1; c2; dst] [n; al; be; ga] 20 -> arm_blocks n k -> arm_dest s 20 dst k ->
  arm_source s 20 dst k 16 p lp -> arm_source s 20 dst k 16 c1 l1 -> arm_source s 20 dst k 16 c2 l2 ->
  arm_returns neon32 "memcpy_wst_asm" s
    (store_bytes (pushed [4%nat; 5%nat; 6%nat; 7%nat; FP] s) dst
       (zip3_with (wst_px al be ga) lp l1 l2)).
Proof.
  intros Hal Hbe Hga Hc Hn Hd Hp H1 H2.
  destruct (arm_source_bytes _ _ _ _ _ _ _ Hp), (arm_source_bytes _ _ _ _ _ _ _ H1),
    (arm_source_bytes _ _ _ _ _ _ _ H2).
  erewrite zip3_ext; [| intros; symmetry; by apply wst_raw_px | done ..].
  erewrite <- (out3 _ _ k); [| apply h_wst_lanes | done ..].
  arm_by (neon32_wst_enters p c1 c2 dst n al be ga) (neon32_wst_loop al be ga) neon32_leaves_r7
    h_wst_lanes.
  by apply length_zip3.
Qed.

(** C40. [memcpy_split_wst_asm] of [neon32.S]: from interleaved pixels, the
    channel the offset names less the two weighted others, for every count. *)
Theorem neon32_split_writes s n k o src dst al be ga px :
  0 <= o <= 2 -> is_byte al -> is_byte be -> is_byte ga ->
  called s [src; dst; n; o] [al; be; ga] 16 -> arm_blocks n k -> arm_dest s 16 dst k ->
  arm_source s 16 dst k 48 src px ->
  arm_returns neon32 "memcpy_split_wst_asm" s
    (store_bytes (pushed [4%nat; 5%nat; 6%nat; FP] s) dst (pixels_map (split_px o al be ga) px)).
Proof.
  intros Ho Hal Hbe Hga Hc Hn Hd Hs.
  destruct (arm_source_bytes _ _ _ _ _ _ _ Hs).
  erewrite pixels_map_ext; [| intros; symmetry; by apply split_raw_px | done].
  erewrite <- (out_px _ _ k); [| apply h_split_lanes | done].
  pose proof (neon32_split_enters src dst n al be ga) as (E0 & E1 & E2).
  assert (Hcase : o = 0 \/ o = 1 \/ o = 2) by lia.
  destruct Hcase as [-> | [-> | ->]].
  - arm_by E0 (neon32_split0_loop al be ga) neon32_leaves_r6 h_split_lanes. by apply length_pixels_map.
  - arm_by E1 (neon32_split1_loop al be ga) neon32_leaves_r6 h_split_lanes. by apply length_pixels_map.
  - arm_by E2 (neon32_split2_loop al be ga) neon32_leaves_r6 h_split_lanes. by apply length_pixels_map.
Qed.
