(* ===== verification/NeonLoops.v ===== *)
(** One turn of each kernel loop of [neon64.S], by symbolic execution of the
    text: the loop invariant of the routine and the proof that a turn of the
    machine loop is a turn of the abstract block loop of [Stream]. *)

From S2P Require Import Prelude Machine Simd NeonText SimdMem Stream.
Local Open Scope Z_scope.

(** * Symbolic execution *)

Lemma w64_range z : 0 <= w64 z < 2 ^ 64.
Proof. apply Z.mod_pos_bound. lia. Qed.

(** Decrementing the 64-bit loop counter [r], [2 ^ 64] being represented as 0. *)
Lemma counter_dec r : w64 (w64 r - 1) = w64 (r - 1).
Proof. unfold w64. by rewrite Zminus_mod_idemp_l. Qed.

Lemma counter_zero r : 1 <= r <= 2 ^ 64 -> (w64 (r - 1) =? 0) = (r =? 1).
Proof.
  intros Hr. unfold w64. rewrite Z.mod_small by lia.
  destruct (Z.eqb_spec (r - 1) 0), (Z.eqb_spec r 1); lia || done.
Qed.

(** The lane shift that stands for a weight: minus the number of leading zeros
    of the low byte. *)
Definition weight (w : Z) : list Z := map Lane.neg8 (map Lane.clz8 (Lane.dup16 w)).

Ltac simd_eval_in t :=
  eval lazy -[load store zip_with map Lane.dup16 Lane.dup8 weight Z.land Z.lor Z.shiftr
              Lane.cmhi8 Lane.uqadd8 Lane.uqsub8 Lane.neg8 Lane.clz8
              Lane.ushl8 Lane.uqshl8 lane0 set_lane0 deint3 int3 fst snd
              w64 w32 negative64 Z.add Z.sub Z.eqb Z.leb Z.modulo Z.of_nat] in t.

(** One machine step; a load or store the context knows is resolved. *)
Ltac simd_step :=
  rewrite run_S;
  match goal with
  | |- context [step ?p ?s] =>
      let t := simd_eval_in (step p s) in change (step p s) with t
  end;
  cbn beta iota;
  repeat match goal with
         | H : load ?n ?m ?a = _ |- context [load ?n ?m ?a] => rewrite H
         | H : store ?m ?a ?l = _ |- context [store ?m ?a ?l] => rewrite H
         end;
  cbn beta iota.
Ltac simd_steps := repeat simd_step; try reflexivity.

(** Split on whether the block accesses of this turn succeed. *)
Ltac simd_accesses :=
  cbn [loads];
  repeat match goal with
         | |- context [match load ?n ?m ?a with _ => _ end] =>
             let E := fresh "Hld" in
             destruct (load n m a) eqn:E; cbn beta iota; [| solve [exists 40%nat; simd_steps]]
         end;
  match goal with
  | |- context [match store ?m ?a ?l with _ => _ end] =>
      let E := fresh "Hst" in
      destruct (store m a l) eqn:E; cbn beta iota; [| solve [exists 40%nat; simd_steps]]
  end.

(** Decide the loop branch from the counter. *)
Ltac simd_branch :=
  rewrite !counter_dec, !counter_zero by assumption;
  match goal with
  | |- context [?r =? 1] => destruct (Z.eqb_spec r 1)
  end; cbn [negb].

(** Flags of a comparison of known values. *)
Ltac simd_flags :=
  repeat match goal with
         | |- context [negative64 ?t] =>
             let v := eval vm_compute in (negative64 t) in
             lazymatch v with true => idtac | false => idtac end;
             change (negative64 t) with v
         | |- context [?a =? ?b] =>
             let v := eval vm_compute in (a =? b) in
             lazymatch v with true => idtac | false => idtac end;
             change (a =? b) with v
         end; cbn beta iota.

(** * Machine states by the registers that matter *)

(** At program point [p], with memory [m], and the named registers holding the
    given values; every other register and the flags are arbitrary. *)
Definition at_point (p : nat) (xs : list (nat * Z)) (vs : list (nat * list Z))
    (m : memory) (s : cpu) : Prop :=
  exists X V n z c o,
    s = Cpu X V n z c o m p /\ length X = 8%nat /\ length V = 7%nat /\
    Forall (fun '(i, x) => X !! i = Some x) xs /\
    Forall (fun '(i, v) => V !! i = Some v) vs.

Ltac simd_open H :=
  let X := fresh "X" in let V := fresh "V" in
  let HX := fresh in let HV := fresh in
  let Hx := fresh in let Hv := fresh in
  destruct H as (X & V & ? & ? & ? & ? & -> & HX & HV & Hx & Hv);
  do 8 (destruct X as [|? X]; [discriminate HX|]); destruct X; [|discriminate HX];
  do 7 (destruct V as [|? V]; [discriminate HV|]); destruct V; [|discriminate HV];
  clear HX HV;
  repeat match goal with
         | H : Forall _ (_ :: _) |- _ => apply Forall_cons_1 in H as [? ?]
         | H : Forall _ [] |- _ => clear H
         end;
  repeat match goal with
         | H : (_ :: _) !! _ = Some _ |- _ =>
             cbv [lookup list_lookup] in H; injection H as H; subst
         end.

Ltac simd_close :=
  lazymatch goal with
  | |- _ \/ _ => left
  | |- _ /\ _ => split; [| first [reflexivity | assumption]]
  | _ => idtac
  end;
  eexists _, _, _, _, _, _;
  split; [reflexivity | split; [reflexivity | split; [reflexivity | split]]];
  repeat constructor.

(** A turn of [c] steps: both ways of the final branch end in the stated
    state. *)
Ltac simd_turn c :=
  simd_accesses; exists c; simd_steps; simd_branch; cbn beta iota;
  (eexists; split; [reflexivity|]); cbn beta iota; subst; simd_close.

(** * Calling a kernel *)

(** The number of turns the loop makes for the counter value [q]: the counter
    is decremented before it is tested. *)
Definition turns (q : Z) : Z := if q =? 0 then 2 ^ 64 else q.

Lemma turns_w64 q : 0 <= q < 2 ^ 64 -> w64 (turns q) = q.
Proof.
  intros Hq. unfold turns, w64. destruct (Z.eqb_spec q 0) as [->|].
  - by rewrite Z_mod_same_full.
  - apply Z.mod_small. lia.
Qed.

Lemma turns_range q : 0 <= q < 2 ^ 64 -> 1 <= turns q <= 2 ^ 64.
Proof. intros Hq. unfold turns. destruct (Z.eqb_spec q 0); lia. Qed.

(** The loop count the prologue computes: [lsr w, w, #4] or [lsr x, x, #4]. *)
Definition blocks32 (n : Z) : Z := Z.shiftr (w32 n) 4.
Definition blocks64 (n : Z) : Z := Z.shiftr n 4.

Lemma blocks64_range n : 0 <= n < 2 ^ 64 -> 0 <= blocks64 n < 2 ^ 64.
Proof.
  intros Hn. unfold blocks64. rewrite Z.shiftr_div_pow2 by lia.
  split; [apply Z.div_pos; lia | apply Z.div_lt_upper_bound; lia].
Qed.
Lemma blocks32_range n : 0 <= blocks32 n < 2 ^ 64.
Proof.
  apply blocks64_range. unfold w32. pose proof (Z.mod_pos_bound n (2 ^ 32)). lia.
Qed.

(** The straight-line code before a loop ends in the loop invariant. *)
Ltac simd_prologue :=
  simd_steps; (eexists; split; [reflexivity|]); hnf;
  try rewrite turns_w64 by assumption; simd_close.

(** The arguments a call passes in [x0], [x1], ...  The routines use whole
    registers also for arguments of the types [int32_t] and [uint8_t]; the calling
    convention leaves the bits above such an argument unspecified, and they are
    taken to be zero here, as a compiler leaves them that loads or computes the
    argument in the register. *)
Definition args_are (s : cpu) (args : list Z) : Prop :=
  length (xr s) = 8%nat /\ length (vr s) = 7%nat /\
  Forall (fun '(i, x) => xr s !! i = Some x) (zip (seq 0 8) args).

(** The vector registers a routine relies on before it writes them. *)
Definition vargs_are (s : cpu) (vs : list (nat * list Z)) : Prop :=
  Forall (fun '(i, v) => vr s !! i = Some v) vs.

Lemma args_at p s args vs :
  args_are s args -> vargs_are s vs ->
  at_point p (zip (seq 0 8) args) vs (mem s) (goto p s).
Proof.
  destruct s as [X V n z c o m q]. intros (? & ? & ?) ?. cbn in *.
  repeat eexists; eauto.
Qed.

Definition returns (f : string) (s : cpu) (m' : memory) : Prop :=
  exists fuel s', call neon64 fuel f s = Halted s' /\ mem s' = m'.
Definition faults (f : string) (s : cpu) : Prop :=
  exists fuel, call neon64 fuel f s = Fault.

(** The result of a call is the abstract loop's: memory or fault. *)
Definition computes (f : string) (s : cpu) (o : option memory) : Prop :=
  match o with Some m' => returns f s m' | None => faults f s end.

(** From the exit of its loop a routine returns, leaving memory alone. *)
Definition finishes (Exit : memory -> cpu -> Prop) : Prop :=
  forall m s, Exit m s -> exists c s', run (step neon64) c s = Halted s' /\ mem s' = m.

Lemma finishes_ret q : neon64 !! q = Some ret -> finishes (at_point q [] []).
Proof.
  intros Hq m s (X & V & n & z & c & o & -> & _). exists 1%nat. eexists.
  rewrite run_S. unfold step. cbn [pc]. rewrite Hq. done.
Qed.

Lemma run_halted_more c c' s s' :
  run (step neon64) c s = Halted s' -> run (step neon64) (c + c') s = Halted s'.
Proof.
  intros H. rewrite <- H. apply run_more; [|lia]. intros s1. by rewrite H.
Qed.

Lemma kernel_ends Exit f p c0 args vs o s :
  finishes Exit -> label_pos neon64 f = Some p -> args_are s args -> vargs_are s vs ->
  (forall s0, at_point p (zip (seq 0 8) args) vs (mem s) s0 ->
     exists s1, run (step neon64) c0 s0 = Running s1 /\ ends (step neon64) Exit o s1) ->
  computes f s o.
Proof.
  intros Hfin Hf Ha Hv Hpro. apply (args_at p _ _ _ Ha) in Hv.
  apply Hpro in Hv as (s1 & Hpre & He). apply (ends_step _ _ _ _ _ _ Hpre) in He.
  unfold computes, returns, faults, call. rewrite Hf.
  destruct o as [m'|]; [|exact He].
  destruct He as (c & s' & Hrun & HE). apply Hfin in HE as (c' & s2 & Hh & Hm).
  exists (c + c')%nat, s2. by rewrite (run_app _ _ _ _ _ Hrun).
Qed.

Lemma kernel_stream Exit f p c0 blks advs dadv F Inv args ps d s r :
  iteration blks advs dadv F (step neon64) Exit Inv Inv -> finishes Exit ->
  label_pos neon64 f = Some p -> 1 <= r <= 2 ^ 64 -> args_are s args ->
  (forall m s0, at_point p (zip (seq 0 8) args) [] m s0 ->
     exists s1, run (step neon64) c0 s0 = Running s1 /\ Inv ps d r m s1) ->
  computes f s (stream_mem blks advs dadv F (Z.to_nat r) ps d (mem s)).
Proof.
  intros Hit Hfin Hf Hr Ha Hpro.
  eapply (kernel_ends _ _ _ _ _ []); eauto; [constructor|]. intros s0 (s1 & Hrun & HI)%Hpro.
  exists s1. split; [done|]. destruct (Z.to_nat r) as [|k] eqn:Ek; [lia|].
  eapply stream_refines; eauto; [|lia]. by replace (Z.of_nat (S k)) with r by lia.
Qed.

(** [kernel_by turn c0 H]: the routine whose loop body is [turn] and whose
    prologue takes [c0] steps, the loop count being in the range [H]. *)
Ltac kernel_by turn c0 H :=
  intros;
  eapply (kernel_stream _ _ _ c0);
  [ apply turn | apply finishes_ret; reflexivity | reflexivity
  | apply turns_range, H | eassumption
  | let m := fresh "m" in let s0 := fresh "s" in let Ha := fresh "Ha" in
    intros m s0 Ha; pose proof H; cbv [zip zip_with seq] in Ha;
    simd_open Ha; simd_prologue ].

Tactic Notation "turn_by" reference(F) constr(c) :=
  let ps := fresh "ps" in let d := fresh "d" in let r := fresh "r" in
  let m := fresh "m" in let s := fresh "s" in let HI := fresh "HI" in
  let Hr := fresh "Hr" in
  intros ps d r m s HI Hr;
  repeat (destruct ps as [|? ps]; try done);
  hnf in HI; simd_open HI; unfold F; simd_turn c.

(** * Threshold *)

Module Threshold.

Definition F (t : Z) (bs : list (list Z)) : list Z :=
  match bs with
  | [b] => zip_with Z.land (zip_with Lane.cmhi8 b (Lane.dup16 t)) b
  | _ => []
  end.

Definition Inv (t : Z) (ps : list Z) (d r : Z) (m : memory) (s : cpu) : Prop :=
  match ps with
  | [a] => at_point 3 [(0, a); (1, d); (2, w64 r)]%nat [(3%nat, Lane.dup16 t)] m s
  | _ => False
  end.

Lemma thr_turn t :
  iteration [16%nat] [16] 16 (F t) (step neon64) (at_point 10 [] []) (Inv t) (Inv t).
Proof. turn_by F 7%nat. Qed.

Lemma thr_stream s src dst n t :
  args_are s [src; dst; n; t] ->
  computes "memcpy_threshold_asm" s
    (stream_mem [16%nat] [16] 16 (F t) (Z.to_nat (turns (blocks32 n))) [src] dst (mem s)).
Proof. kernel_by (thr_turn t) 3%nat (blocks32_range n). Qed.

End Threshold.

(** The binary threshold reads through its destination argument and writes
    through its source argument; its threshold vector is filled in the low
    half only. *)
Module ThresholdBinary.

Definition F (t : Z) (bs : list (list Z)) : list Z :=
  match bs with
  | [b] => zip_with Lane.cmhi8 b (Lane.dup8 t)
  | _ => []
  end.

Definition Inv (t : Z) (ps : list Z) (d r : Z) (m : memory) (s : cpu) : Prop :=
  match ps with
  | [a] => at_point 14 [(1, a); (0, d); (2, w64 r)]%nat [(3%nat, Lane.dup8 t)] m s
  | _ => False
  end.

Lemma thrb_turn t :
  iteration [16%nat] [16] 16 (F t) (step neon64) (at_point 20 [] []) (Inv t) (Inv t).
Proof. turn_by F 6%nat. Qed.

Lemma thrb_stream s src dst n t :
  args_are s [src; dst; n; t] ->
  computes "memcpy_threshold_binary_asm" s
    (stream_mem [16%nat] [16] 16 (F t) (Z.to_nat (turns (blocks32 n))) [dst] src (mem s)).
Proof. kernel_by (thrb_turn t) 3%nat (blocks32_range n). Qed.

End ThresholdBinary.

(** * Two sources, lane by lane: or, add, subtract *)

Definition F2 (op : Z -> Z -> Z) (bs : list (list Z)) : list Z :=
  match bs with
  | [a; b] => zip_with op a b
  | _ => []
  end.

Definition Inv2 (p : nat) (ps : list Z) (d r : Z) (m : memory) (s : cpu) : Prop :=
  match ps with
  | [a; b] => at_point p [(0, a); (1, b); (2, d); (3, w64 r)]%nat [] m s
  | _ => False
  end.

Lemma or_turn :
  iteration [16; 16]%nat [16; 16] 16 (F2 Z.lor) (step neon64) (at_point 147 [] []) (Inv2 140) (Inv2 140).
Proof. turn_by F2 7%nat. Qed.

Lemma add_turn :
  iteration [16; 16]%nat [16; 16] 16 (F2 Lane.uqadd8) (step neon64) (at_point 169 [] []) (Inv2 162) (Inv2 162).
Proof. turn_by F2 7%nat. Qed.

Lemma sub_turn :
  iteration [16; 16]%nat [16; 16] 16 (F2 Lane.uqsub8) (step neon64) (at_point 203 [] []) (Inv2 196) (Inv2 196).
Proof. turn_by F2 7%nat. Qed.

Lemma or_stream s a b d n :
  args_are s [a; b; d; n] -> 0 <= n < 2 ^ 64 ->
  computes "memcpy_bitwise_or_asm" s
    (stream_mem [16; 16]%nat [16; 16] 16 (F2 Z.lor) (Z.to_nat (turns (blocks64 n)))
       [a; b] d (mem s)).
Proof. intros Ha Hn. kernel_by or_turn 2%nat (blocks64_range n Hn). Qed.

Lemma add_stream s a b d n :
  args_are s [a; b; d; n] -> 0 <= n < 2 ^ 64 ->
  computes "memcpy_add_asm" s
    (stream_mem [16; 16]%nat [16; 16] 16 (F2 Lane.uqadd8) (Z.to_nat (turns (blocks64 n)))
       [a; b] d (mem s)).
Proof. intros Ha Hn. kernel_by add_turn 2%nat (blocks64_range n Hn). Qed.

Lemma sub_stream s a b d n :
  args_are s [a; b; d; n] -> 0 <= n < 2 ^ 64 ->
  computes "memcpy_subtract_asm" s
    (stream_mem [16; 16]%nat [16; 16] 16 (F2 Lane.uqsub8) (Z.to_nat (turns (blocks64 n)))
       [a; b] d (mem s)).
Proof. intros Ha Hn. kernel_by sub_turn 2%nat (blocks64_range n Hn). Qed.

(** * Three-channel frames *)

(** A three-channel block against a one-channel block. *)
Definition F31 (op : Z -> Z -> Z) (bs : list (list Z)) : list Z :=
  match bs with
  | [a; b] => int3 (zip_with op (deint3 a).1.1 b) (zip_with op (deint3 a).1.2 b)
                   (zip_with op (deint3 a).2 b)
  | _ => []
  end.

(** Two three-channel blocks. *)
Definition F33 (op : Z -> Z -> Z) (bs : list (list Z)) : list Z :=
  match bs with
  | [a; b] => int3 (zip_with op (deint3 a).1.1 (deint3 b).1.1)
                   (zip_with op (deint3 a).1.2 (deint3 b).1.2)
                   (zip_with op (deint3 a).2 (deint3 b).2)
  | _ => []
  end.

Lemma add_3c_turn :
  iteration [48; 16]%nat [48; 16] 48 (F31 Lane.uqadd8) (step neon64) (at_point 181 [] [])
    (Inv2 172) (Inv2 172).
Proof. turn_by F31 9%nat. Qed.

Lemma add_3c_stream s a b d n :
  args_are s [a; b; d; n] -> 0 <= n < 2 ^ 64 ->
  computes "memcpy_add_3c_asm" s
    (stream_mem [48; 16]%nat [48; 16] 48 (F31 Lane.uqadd8) (Z.to_nat (turns (blocks64 n)))
       [a; b] d (mem s)).
Proof. intros Ha Hn. kernel_by add_3c_turn 2%nat (blocks64_range n Hn). Qed.

(** The first turn of [memcpy_bitwise_or_3c_asm] branches to the loop of
    [memcpy_bitwise_or_asm], that of [memcpy_add_3c2_asm] to the loop of
    [memcpy_add_3c_asm]. *)
Lemma or_3c_turn :
  iteration [48; 16]%nat [48; 16] 48 (F31 Z.lor) (step neon64)
    (fun m s => at_point 159 [] [] m s \/ at_point 147 [] [] m s) (Inv2 150) (Inv2 140).
Proof. turn_by F31 9%nat. Qed.

Lemma add_3c2_turn :
  iteration [48; 48]%nat [48; 48] 48 (F33 Lane.uqadd8) (step neon64)
    (fun m s => at_point 193 [] [] m s \/ at_point 181 [] [] m s) (Inv2 184) (Inv2 172).
Proof. turn_by F33 9%nat. Qed.

Lemma iteration_exit blks advs dadv F (run1 : cpu -> outcome cpu) Exit Exit' Inv Inv' :
  (forall m s, Exit m s -> Exit' m s) ->
  iteration blks advs dadv F run1 Exit Inv Inv' -> iteration blks advs dadv F run1 Exit' Inv Inv'.
Proof.
  intros HE Hit ps d r m s HI Hr. specialize (Hit ps d r m s HI Hr).
  destruct (loads m blks ps); [|done]. destruct (store m d (F l)); [|done].
  destruct Hit as (c & s' & Hrun & Hs). exists c, s'. split; [done|].
  destruct (r =? 1); auto.
Qed.

Lemma finishes_or q q' :
  neon64 !! q = Some ret -> neon64 !! q' = Some ret ->
  finishes (fun m s => at_point q [] [] m s \/ at_point q' [] [] m s).
Proof.
  intros Hq Hq' m s [H|H]; [exact (finishes_ret _ Hq _ _ H) | exact (finishes_ret _ Hq' _ _ H)].
Qed.

(** A routine whose first turn ends in the loop of another routine. *)
Lemma kernel_falls_into Exit Exit' f p c0 blks advs dadv F Inv blks' advs' dadv' F' Inv'
    args ps d s r :
  iteration blks advs dadv F (step neon64) Exit Inv Inv' ->
  iteration blks' advs' dadv' F' (step neon64) Exit' Inv' Inv' ->
  (forall m s, Exit' m s -> Exit m s) -> finishes Exit ->
  label_pos neon64 f = Some p -> 1 <= r <= 2 ^ 64 -> args_are s args ->
  (forall m s0, at_point p (zip (seq 0 8) args) [] m s0 ->
     exists s1, run (step neon64) c0 s0 = Running s1 /\ Inv ps d r m s1) ->
  computes f s (once_then blks advs dadv F (stream_mem blks' advs' dadv' F')
                  (Z.to_nat r - 1) ps d (mem s)).
Proof.
  intros Hit Hit' HE Hfin Hf Hr Ha Hpro.
  eapply (kernel_ends _ _ _ _ _ []); eauto; [constructor|]. intros s0 (s1 & Hrun & HI)%Hpro.
  exists s1. split; [done|].
  eapply once_then_refines; [exact Hit | | | lia].
  - intros ps' d' m' s' Hk HI'.
    destruct (Z.to_nat r - 1)%nat as [|k] eqn:Ek; [lia|].
    eapply stream_refines; [eapply iteration_exit; eauto | done | lia].
  - by replace (Z.of_nat (S (Z.to_nat r - 1))) with r by lia.
Qed.

Ltac falls_by turn turn' c0 H :=
  intros;
  eapply (kernel_falls_into _ _ _ _ c0);
  [ apply turn | apply turn' | cbn; tauto | apply finishes_or; reflexivity | reflexivity
  | apply turns_range, H | eassumption
  | let m := fresh "m" in let s0 := fresh "s" in let Ha := fresh "Ha" in
    intros m s0 Ha; pose proof H; cbv [zip zip_with seq] in Ha;
    simd_open Ha; simd_prologue ].

Lemma or_3c_stream s a b d n :
  args_are s [a; b; d; n] -> 0 <= n < 2 ^ 64 ->
  computes "memcpy_bitwise_or_3c_asm" s
    (once_then [48; 16]%nat [48; 16] 48 (F31 Z.lor)
       (stream_mem [16; 16]%nat [16; 16] 16 (F2 Z.lor))
       (Z.to_nat (turns (blocks64 n)) - 1) [a; b] d (mem s)).
Proof. intros Ha Hn. falls_by or_3c_turn or_turn 2%nat (blocks64_range n Hn). Qed.

Lemma add_3c2_stream s a b d n :
  args_are s [a; b; d; n] -> 0 <= n < 2 ^ 64 ->
  computes "memcpy_add_3c2_asm" s
    (once_then [48; 48]%nat [48; 48] 48 (F33 Lane.uqadd8)
       (stream_mem [48; 16]%nat [48; 16] 48 (F31 Lane.uqadd8))
       (Z.to_nat (turns (blocks64 n)) - 1) [a; b] d (mem s)).
Proof. intros Ha Hn. falls_by add_3c2_turn add_3c_turn 2%nat (blocks64_range n Hn). Qed.

(** * Compare-and-add *)

Module Compare3.

(** The lanes of one block: the primary shifted right by the top two bits it
    keeps where it beats both others, shifted left by four with saturation,
    added to the addition with saturation. *)
Definition F (bs : list (list Z)) : list Z :=
  match bs with
  | [p; c1; c2; a] =>
      let kept := zip_with Z.land p (zip_with Z.land (zip_with Lane.cmhi8 p c1)
                                                     (zip_with Lane.cmhi8 p c2)) in
      let shift := map Lane.neg8 (map (fun x => Z.shiftr x 6) kept) in
      zip_with Lane.uqadd8 (map (fun x => Lane.uqshl8 x 4) (zip_with Lane.uqshl8 p shift)) a
  | _ => []
  end.

Definition Inv (ps : list Z) (d r : Z) (m : memory) (s : cpu) : Prop :=
  match ps with
  | [p; c1; c2; a] =>
      at_point 23 [(0, p); (1, c1); (2, c2); (3, a); (4, d); (5, w64 r)]%nat [] m s
  | _ => False
  end.

Lemma cmp3_turn :
  iteration [16; 16; 16; 16]%nat [16; 16; 16; 16] 16 F (step neon64) (at_point 40 [] []) Inv Inv.
Proof. turn_by F 17%nat. Qed.

Lemma cmp3_stream s p c1 c2 a d n :
  args_are s [p; c1; c2; a; d; n] ->
  computes "memcpy_compare3_add_asm" s
    (stream_mem [16; 16; 16; 16]%nat [16; 16; 16; 16] 16 F (Z.to_nat (turns (blocks32 n)))
       [p; c1; c2; a] d (mem s)).
Proof. kernel_by cmp3_turn 2%nat (blocks32_range n). Qed.

End Compare3.

(** * Weighted subtraction *)

(** [memcpy_wst_asm] stores through the pointer of its second source, after
    that pointer has moved past the block just read: the block written is the
    next block of the second source, and the pointer moves by two blocks. *)
Module Wst.

Definition F (alpha beta gamma : Z) (bs : list (list Z)) : list Z :=
  match bs with
  | [p; c1; c2] =>
      zip_with Lane.uqsub8 p
        (zip_with Lane.uqadd8
           (zip_with Lane.uqadd8 (zip_with Lane.ushl8 c1 (weight alpha))
                                 (zip_with Lane.ushl8 c2 (weight beta)))
           (Lane.dup16 gamma))
  | _ => []
  end.

Definition Inv (alpha beta gamma : Z) (ps : list Z) (d r : Z) (m : memory) (s : cpu) : Prop :=
  match ps with
  | [p; c1; c2] =>
      at_point 50 [(0, p); (1, c1); (2, c2); (4, w64 r)]%nat
        [(4%nat, weight alpha); (5%nat, weight beta); (6%nat, Lane.dup16 gamma)] m s /\
      d = w64 (c1 + 16)
  | _ => False
  end.

Lemma w64_add_l x y : w64 (w64 x + y) = w64 (x + y).
Proof. unfold w64. by rewrite Zplus_mod_idemp_l. Qed.

Lemma wst_turn alpha beta gamma :
  iteration [16; 16; 16]%nat [16; 32; 16] 32 (F alpha beta gamma) (step neon64)
    (at_point 62 [] []) (Inv alpha beta gamma) (Inv alpha beta gamma).
Proof.
  intros ps d r m s HI Hr. repeat (destruct ps as [|? ps]; try done).
  destruct HI as [HI ->]. simd_open HI. unfold F.
  simd_accesses; exists 12%nat; simd_steps; simd_branch; cbn beta iota;
    (eexists; split; [reflexivity|]); cbn beta iota; subst; [simd_close|].
  cbv [Inv bump zip_with]. rewrite !w64_add_l, <- !Z.add_assoc.
  change (16 + 16) with 32. change (16 + 32) with 48. change (32 + 16) with 48.
  simd_close.
Qed.

Lemma wst_stream s p c1 c2 dst n alpha beta gamma :
  args_are s [p; c1; c2; dst; n; alpha; beta; gamma] -> 0 <= n < 2 ^ 64 ->
  computes "memcpy_wst_asm" s
    (stream_mem [16; 16; 16]%nat [16; 32; 16] 32 (F alpha beta gamma)
       (Z.to_nat (turns (blocks64 n))) [p; c1; c2] (w64 (c1 + 16)) (mem s)).
Proof. intros Ha Hn. kernel_by (wst_turn alpha beta gamma) 9%nat (blocks64_range n Hn). Qed.

End Wst.

(** Weighted subtraction of an interleaved frame into a binary frame, one loop
    for each position of the primary channel. *)
Module Wstb.

(** The planes of a block as (primary, alpha, beta) for the channel offset. *)
Definition planes (o : Z) (b : list Z) : list Z * list Z * list Z :=
  let c0 := (deint3 b).1.1 in
  let c1 := (deint3 b).1.2 in
  let c2 := (deint3 b).2 in
  if o =? 0 then (c0, c1, c2) else if o =? 1 then (c1, c2, c0) else (c2, c0, c1).

Definition F (o alpha beta thresh : Z) (bs : list (list Z)) : list Z :=
  match bs with
  | [b] =>
      zip_with Lane.cmhi8
        (zip_with Lane.uqsub8 (planes o b).1.1
           (zip_with Lane.uqadd8 (zip_with Lane.ushl8 (planes o b).1.2 (weight alpha))
                                 (zip_with Lane.ushl8 (planes o b).2 (weight beta))))
        (Lane.dup16 thresh)
  | _ => []
  end.

Definition head (o : Z) : nat := if o =? 0 then 76 else if o =? 1 then 87 else 98.

Definition Inv (o alpha beta thresh : Z) (ps : list Z) (d r : Z) (m : memory) (s : cpu) : Prop :=
  match ps with
  | [a] =>
      at_point (head o) [(0, a); (1, d); (2, w64 r)]%nat
        [(4%nat, weight alpha); (5%nat, weight beta); (6%nat, Lane.dup16 thresh)] m s
  | _ => False
  end.

Definition Exit (o : Z) (m : memory) (s : cpu) : Prop :=
  at_point (10 + head o) [] [] m s /\ fZ s = true.

(** The three loops differ only in the registers they name. *)
Ltac wstb_turn :=
  let HI := fresh "HI" in
  intros ps d r m s HI Hr; repeat (destruct ps as [|? ps]; try done);
  hnf in HI; simd_open HI;
  unfold F, Exit, planes; cbv beta iota delta [Inv];
  change (head 0) with 76%nat; change (head 1) with 87%nat; change (head 2) with 98%nat;
  change (0 =? 0) with true; change (1 =? 0) with false; change (1 =? 1) with true;
  change (2 =? 0) with false; change (2 =? 1) with false; cbn [fst snd Nat.add];
  simd_turn 10%nat.

Lemma turn0 alpha beta thresh :
  iteration [48%nat] [48] 16 (F 0 alpha beta thresh) (step neon64) (Exit 0)
    (Inv 0 alpha beta thresh) (Inv 0 alpha beta thresh).
Proof. wstb_turn. Qed.

Lemma turn1 alpha beta thresh :
  iteration [48%nat] [48] 16 (F 1 alpha beta thresh) (step neon64) (Exit 1)
    (Inv 1 alpha beta thresh) (Inv 1 alpha beta thresh).
Proof. wstb_turn. Qed.

Lemma turn2 alpha beta thresh :
  iteration [48%nat] [48] 16 (F 2 alpha beta thresh) (step neon64) (Exit 2)
    (Inv 2 alpha beta thresh) (Inv 2 alpha beta thresh).
Proof. wstb_turn. Qed.

Lemma Exit_finishes o : 0 <= o <= 2 -> finishes (Exit o).
Proof.
  intros Ho m s [H Hz]. exists 3%nat.
  assert (o = 0 \/ o = 1 \/ o = 2) as [->|[->| ->]] by lia;
    cbv [head Z.eqb Pos.eqb Nat.add] in H; simd_open H; cbn [fZ] in Hz; subst;
    simd_steps; (eexists; split; [reflexivity | reflexivity]).
Qed.

(** The dispatch on the primary channel, then the loop. *)
Ltac wstb_kernel turn c n Hn Ha :=
  let m := fresh "m" in let s0 := fresh "s" in let H := fresh "H" in
  eapply (kernel_stream _ _ _ c);
    [apply turn | by apply Exit_finishes | reflexivity
    | by apply turns_range, blocks64_range | exact Ha |];
  intros m s0 H; pose proof (blocks64_range n Hn); cbv [zip zip_with seq] in H; simd_open H;
  repeat (simd_step; simd_flags); simd_steps;
  (eexists; split; [reflexivity|]); hnf; rewrite turns_w64 by assumption; simd_close.

Lemma wstb_stream o s src dst n alpha beta thresh :
  0 <= o <= 2 ->
  args_are s [src; dst; n; o; alpha; beta; thresh] -> 0 <= n < 2 ^ 64 ->
  computes "memcpy_deinterlace_wstb_asm" s
    (stream_mem [48%nat] [48] 16 (F o alpha beta thresh)
       (Z.to_nat (turns (blocks64 n))) [src] dst (mem s)).
Proof.
  intros Ho Ha Hn.
  assert (o = 0 \/ o = 1 \/ o = 2) as [->|[->| ->]] by lia.
  - wstb_kernel (turn0 alpha beta thresh) 11%nat n Hn Ha.
  - wstb_kernel (turn1 alpha beta thresh) 12%nat n Hn Ha.
  - wstb_kernel (turn2 alpha beta thresh) 13%nat n Hn Ha.
Qed.

End Wstb.

(** * Gray conversion *)

(** Sixteen pixels at a time while at least sixteen are left, then one pixel at
    a time.  The second loop stores the register of the third channel, not the
    sum. *)
Module Togray.

Definition gray (r g b : list Z) : list Z :=
  zip_with Lane.uqadd8 (map (fun x => Z.shiftr x 2) b)
    (zip_with Lane.uqadd8 (map (fun x => Z.shiftr x 2) r) (map (fun x => Z.shiftr x 1) g)).

Definition F (bs : list (list Z)) : list Z :=
  match bs with
  | [b] => gray (deint3 b).1.1 (deint3 b).1.2 (deint3 b).2
  | _ => []
  end.

Definition F1 (bs : list (list Z)) : list Z :=
  match bs with
  | [b] => [Z.shiftr (b !!! 2%nat) 2]
  | _ => []
  end.

Definition Exit (t aE dE : Z) (m : memory) (s : cpu) : Prop :=
  if t =? 0 then at_point 136 [] [] m s
  else exists v2, length v2 = 16%nat /\
    at_point 126 [(0, aE); (1, dE); (2, t)]%nat [(2%nat, v2)] m s.

Definition Inv (t aE dE : Z) (ps : list Z) (d r : Z) (m : memory) (s : cpu) : Prop :=
  match ps with
  | [a] => at_point 114 [(0%nat, a); (1%nat, d); (2%nat, 16 * r + t)] [] m s /\
           16 * r + t < 2 ^ 64 /\ w64 (a + 48 * r) = aE /\ w64 (d + 16 * r) = dE
  | _ => False
  end.

Definition InvT (ps : list Z) (d r : Z) (m : memory) (s : cpu) : Prop :=
  match ps with
  | [a] => exists v2, length v2 = 16%nat /\
           at_point 126 [(0, a); (1, d); (2, w64 r)]%nat [(2%nat, v2)] m s
  | _ => False
  end.

Lemma lane0_map f x v : length v = 16%nat -> lane0 (map f (set_lane0 x v)) = f x.
Proof. by destruct v. Qed.

Lemma length_set_lane0 x v : length (set_lane0 x v) = length v.
Proof. apply length_insert. Qed.

Lemma turnT : iteration [3%nat] [3] 1 F1 (step neon64) (at_point 136 [] []) InvT InvT.
Proof.
  intros ps d r m s HI Hr; repeat (destruct ps as [|? ps]; try done).
  destruct HI as (v2 & Hl & HI). simd_open HI. unfold F1.
  cbn [loads]. destruct (load 3 m z) as [b|] eqn:Hb; [|exists 40%nat; simd_steps].
  pose proof (load_length _ _ _ _ Hb) as Hlen.
  destruct b as [|b0 [|b1 [|b2 [|]]]]; try discriminate Hlen. cbn beta iota.
  change ([b0; b1; b2] !!! 2%nat) with b2.
  rewrite <- (lane0_map (fun x => Z.shiftr x 2) b2 _ Hl).
  destruct (store m d _) eqn:E1; [|exists 40%nat; simd_steps].
  exists 10%nat. simd_steps. simd_branch; (eexists; split; [reflexivity|]); cbn beta iota; subst.
  - simd_close.
  - eexists. split; [|simd_close]. by rewrite length_map, length_set_lane0.
Qed.

Lemma togray_turn t aE dE :
  0 <= t < 16 ->
  iteration [48%nat] [48] 16 F (step neon64) (Exit t aE dE) (Inv t aE dE) (Inv t aE dE).
Proof.
  intros Ht ps d r m s HI Hr; repeat (destruct ps as [|? ps]; try done).
  destruct HI as (HI & Hb & HaE & HdE). simd_open HI. unfold F, gray.
  simd_accesses.
  match goal with H : load 48 _ _ = Some ?b |- _ =>
    destruct (length_deint3 16 b) as (_ & _ & H2); [by apply load_length in H|] end.
  remember (16 * r + t) as X eqn:HX. remember (w64 (X - 16)) as Y eqn:HY.
  assert (HYv : Y = 16 * (r - 1) + t).
  { subst Y. unfold w64. rewrite Z.mod_small; lia. }
  assert (Hnext : w64 (w64 (z + 48) + 48 * (r - 1)) = w64 (z + 48 * r) /\
                  w64 (w64 (d + 16) + 16 * (r - 1)) = w64 (d + 16 * r)).
  { split; rewrite Wst.w64_add_l; f_equal; lia. }
  destruct (Z.eqb_spec Y 0) as [HY0|HY0].
  - exists 10%nat. do 9 simd_step. rewrite <- HY, HY0. change (0 =? 0) with true. simd_steps.
    eexists; split; [reflexivity|]. assert (r = 1) as -> by lia. assert (t = 0) as -> by lia.
    simd_close.
  - exists 12%nat. do 9 simd_step. rewrite <- HY, (proj2 (Z.eqb_neq _ _) HY0). do 2 simd_step.
    destruct (Z.leb_spec 16 Y); simd_steps; (eexists; split; [reflexivity|]).
    + rewrite (proj2 (Z.eqb_neq r 1)), HYv by lia. split; [simd_close|].
      split; [lia | exact Hnext].
    + assert (r = 1) as -> by lia. replace Y with t by lia.
      unfold Exit. rewrite (proj2 (Z.eqb_neq t 0)), !Z.mul_1_r by lia.
      eexists. split; [|simd_close]. by rewrite length_map.
Qed.

(** Whole vectors, then the rest; a size below one vector goes to the
    single-pixel loop at once, a size of zero for [2 ^ 64] pixels. *)
Definition togray_mem (n src dst : Z) (m : memory) : option memory :=
  match stream_mem [48%nat] [48] 16 F (Z.to_nat (n / 16)) [src] dst m with
  | Some m' =>
      if (16 <=? n) && (n mod 16 =? 0) then Some m'
      else stream_mem [3%nat] [3] 1 F1 (Z.to_nat (turns (n mod 16)))
             [w64 (src + 48 * (n / 16))] (w64 (dst + 16 * (n / 16))) m'
  | None => None
  end.

Lemma finishes_end : finishes (at_point 136 [] []).
Proof.
  intros m s (X & V & n & z & c & o & -> & _). exists 2%nat. eexists.
  by rewrite run_S.
Qed.

(** The single-pixel loop from its head. *)
Lemma tail_ends a d t v2 m s :
  length v2 = 16%nat -> 0 <= t < 2 ^ 64 ->
  at_point 126 [(0%nat, a); (1%nat, d); (2%nat, t)] [(2%nat, v2)] m s ->
  ends (step neon64) (at_point 136 [] [])
    (stream_mem [3%nat] [3] 1 F1 (Z.to_nat (turns t)) [a] d m) s.
Proof.
  intros Hv Ht Hs. pose proof (turns_range t Ht) as Hr.
  destruct (Z.to_nat (turns t)) as [|k] eqn:Ek; [lia|].
  eapply stream_refines; [apply turnT | | lia].
  exists v2. split; [done|]. replace (Z.of_nat (S k)) with (turns t) by lia.
  by rewrite turns_w64.
Qed.

(** The vector loop from its head, then whatever is left. *)
Lemma vector_ends a d n m s :
  0 <= a < 2 ^ 64 -> 0 <= d < 2 ^ 64 -> 16 <= n < 2 ^ 64 ->
  at_point 114 [(0, a); (1, d); (2, n)]%nat [] m s ->
  ends (step neon64) (at_point 136 [] []) (togray_mem n a d m) s.
Proof.
  intros Ha Hd Hn Hs.
  pose proof (Z.mod_pos_bound n 16 ltac:(lia)) as Ht.
  pose proof (Z.div_mod n 16 ltac:(lia)) as Hdm.
  unfold togray_mem. rewrite (proj2 (Z.leb_le 16 n)) by lia. cbn [andb].
  eapply (ends_bind _ (Exit (n mod 16) (w64 (a + 48 * (n / 16))) (w64 (d + 16 * (n / 16))))).
  - destruct (Z.to_nat (n / 16)) as [|k] eqn:Ek; [lia|].
    eapply stream_refines; [by apply togray_turn | | lia].
    replace (Z.of_nat (S k)) with (n / 16) by lia. unfold Inv. rewrite <- Hdm.
    split; [done|]. split; [lia | done].
  - intros m' s' HE. unfold Exit in HE. destruct (n mod 16 =? 0).
    + exists 0%nat, s'. done.
    + destruct HE as (v2 & Hv & HE). eapply tail_ends; eauto; lia.
Qed.

Lemma togray_small n a d m :
  0 <= a < 2 ^ 64 -> 0 <= d < 2 ^ 64 -> 0 <= n < 16 ->
  togray_mem n a d m = stream_mem [3%nat] [3] 1 F1 (Z.to_nat (turns n)) [a] d m.
Proof.
  intros Ha Hd Hn. unfold togray_mem.
  rewrite Z.div_small, Z.mod_small, (proj2 (Z.leb_gt 16 n)) by lia.
  change (Z.to_nat 0) with 0%nat. cbn [stream_mem andb].
  rewrite !Z.mul_0_r, !Z.add_0_r. unfold w64. by rewrite !Z.mod_small by lia.
Qed.

Lemma togray_stream s src dst n v2 :
  args_are s [src; dst; n] -> vargs_are s [(2%nat, v2)] -> length v2 = 16%nat ->
  0 <= src < 2 ^ 64 -> 0 <= dst < 2 ^ 64 -> 0 <= n < 2 ^ 64 ->
  computes "memcpy_deinterlace_togray_asm" s (togray_mem n src dst (mem s)).
Proof.
  intros Ha Hv Hl Hsrc Hdst Hn.
  eapply (kernel_ends _ _ _ 3%nat); [apply finishes_end | reflexivity | exact Ha | exact Hv |].
  intros s0 H. cbv [zip zip_with seq] in H. simd_open H.
  do 2 simd_step. destruct (Z.leb_spec 16 n) as [H16|H16]; simd_steps;
    (eexists; split; [reflexivity|]).
  - apply vector_ends; [done | done | lia | simd_close].
  - rewrite togray_small by lia. eapply tail_ends; [done | lia | simd_close].
Qed.

End Togray.
