(* ===== verification/NeonKernels.v ===== *)
(** What the kernels of [neon64.S] compute, in terms of pixels: the machine
    run of each routine against a reference function on whole buffers, the
    rest of memory unchanged, and what happens where the text departs from
    its comments. *)

From S2P Require Import Prelude Machine Simd NeonText SimdMem Stream Pixels NeonLoops.
Local Open Scope Z_scope.

#[export] Instance args_are_dec s args : Decision (args_are s args).
Proof. unfold args_are. apply _. Defined.
#[export] Instance vargs_are_dec s vs : Decision (vargs_are s vs).
Proof. unfold vargs_are. apply _. Defined.

(** A processor with the given arguments, zero elsewhere, and memory holding
    the given runs of bytes. *)
Definition cpu_with (args : list Z) (runs : list (Z * list Z)) : cpu :=
  Cpu (args ++ replicate (8 - length args) 0) (replicate 7 (replicate 16 0))
      false false false false
      (fold_right (fun '(a, l) m => store_bytes m a l) ∅ runs) 0.

(** A kernel whose count gives at least one block, on buffers of whole blocks,
    returns with the stream's output in the destination. *)
Lemma kernel_writes f s blks advs t F q k ps d datas :
  computes f s (stream_mem blks advs (Z.of_nat t) F (Z.to_nat (turns q)) ps d (mem s)) ->
  q = Z.of_nat k -> (0 < k)%nat -> room (mem s) d (t * k) ->
  sources k t d (mem s) blks ps advs datas ->
  (forall bs, exactly 1 blks bs -> length (F bs) = t) ->
  returns f s (store_bytes (mem s) d (stream_out blks F k datas)).
Proof.
  intros Hc -> Hk (Hd & Hb & Hm) Hs HF.
  unfold turns in Hc. rewrite (proj2 (Z.eqb_neq (Z.of_nat k) 0)), Nat2Z.id in Hc by lia.
  erewrite stream_mem_out in Hc; [exact Hc | reflexivity | done | done | done | done |].
  intros bs Hbs%exactly_one. auto.
Qed.

Lemma half_lanes t (Ht : is_byte t) b :
  length b = 16%nat -> ThresholdBinary.F t [b] = imap (half_thresh_px t) b.
Proof.
  intros Hb. lanes 16 b. unfold ThresholdBinary.F, Lane.dup8. by rewrite Z.mod_small.
Qed.

Lemma out_half t k px :
  is_byte t -> length px = (16 * k)%nat ->
  stream_out [16%nat] (ThresholdBinary.F t) k [px] = imap (half_thresh_px t) px.
Proof.
  intros Ht Hl.
  apply (stream_out_ref _ _
           (fun bs => match bs with [b] => imap (half_thresh_px t) b | _ => [] end)).
  - intros bs Hbs. blocks Hbs. by apply half_lanes.
  - splits_by (half_thresh_split t 1).
  - empties.
  - by repeat constructor.
Qed.

(** The block functions. *)

Lemma threshold_lanes t b :
  length b = 16%nat ->
  Threshold.F t [b] = map (fun p => Z.land (Lane.cmhi8 p (t mod 256)) p) b.
Proof. intros H. lanes 16 b. reflexivity. Qed.

Lemma cmp3_lanes p c1 c2 a :
  length p = 16%nat -> length c1 = 16%nat -> length c2 = 16%nat -> length a = 16%nat ->
  Compare3.F [p; c1; c2; a] = zip4_with cmp3_raw p c1 c2 a.
Proof. intros. lanes 16 p. lanes 16 c1. lanes 16 c2. lanes 16 a. reflexivity. Qed.

Lemma wst_lanes al be ga p c1 c2 :
  length p = 16%nat -> length c1 = 16%nat -> length c2 = 16%nat ->
  Wst.F al be ga [p; c1; c2] = zip3_with (wst_raw al be ga) p c1 c2.
Proof. intros. lanes 16 p. lanes 16 c1. lanes 16 c2. reflexivity. Qed.

Lemma wstb_lanes o al be t b :
  length b = 48%nat -> Wstb.F o al be t [b] = pixels_map (wstb_raw o al be t) b.
Proof.
  intros. lanes 48 b. unfold Wstb.F, Wstb.planes, wstb_raw.
  destruct (o =? 0); [reflexivity|]. destruct (o =? 1); reflexivity.
Qed.

Lemma gray_lanes b : length b = 48%nat -> Togray.F [b] = pixels_map gray_raw b.
Proof. intros. lanes 48 b. reflexivity. Qed.

Lemma lanes2 op a b :
  length a = 16%nat -> length b = 16%nat -> F2 op [a; b] = zip_with op a b.
Proof. done. Qed.

Lemma lanes31 op a b :
  length a = 48%nat -> length b = 16%nat -> F31 op [a; b] = pixels_with op a b.
Proof. intros. lanes 48 a. lanes 16 b. reflexivity. Qed.

Lemma lanes33 op a b :
  length a = 48%nat -> length b = 48%nat -> F33 op [a; b] = zip_with op a b.
Proof. intros. lanes 48 a. lanes 48 b. reflexivity. Qed.

(** * What a call computes *)

Lemma whole_blocks64 n k : whole_blocks n k -> blocks64 n = Z.of_nat k.
Proof. intros (Hn & <- & _). unfold blocks64. by rewrite Z.shiftr_div_pow2. Qed.

Lemma whole_blocks32 n k : whole_blocks n k -> blocks32 n = Z.of_nat k.
Proof.
  intros (Hn & <- & _). unfold blocks32, w32.
  rewrite Z.mod_small by lia. by rewrite Z.shiftr_div_pow2.
Qed.

(** [writes_by t st lanes out]: the call that computes the stream [st], with
    blocks of [t] bytes, writes what [out] says. *)
Ltac writes_by t st cnt lanes :=
  eapply (kernel_writes _ _ _ _ t); [exact st | by apply cnt | by eapply whole_blocks_pos | done
    | source_list | let Hbs := fresh "Hbs" in intros ? Hbs; blocks Hbs; rewrite lanes by done].

Section Calls.

Context (s : cpu) (n : Z) (k : nat).
Hypothesis (Hn : whole_blocks n k).

(** [memcpy_threshold_asm] keeps the values above the threshold. *)
Lemma threshold_writes src dst t px :
  args_are s [src; dst; n; t] -> is_byte t -> length px = (16 * k)%nat ->
  buffer (mem s) src px -> room (mem s) dst (16 * k) ->
  in_place_or_separate src dst (16 * k) ->
  returns "memcpy_threshold_asm" s (store_bytes (mem s) dst (map (thresh_px t) px)).
Proof.
  intros Ha Ht Hl Hb Hr Hsep.
  replace (map (thresh_px t) px) with (stream_out [16%nat] (Threshold.F t) k [px]).
  - writes_by 16%nat (Threshold.thr_stream _ _ _ _ _ Ha) whole_blocks32 threshold_lanes.
    by rewrite length_map.
  - rewrite (out1 _ (fun p => Z.land (Lane.cmhi8 p (t mod 256)) p)) by (done || apply threshold_lanes).
    apply map_ext_Forall. eapply Forall_impl; [by eapply buffer_bytes|].
    intros p Hp. rewrite Z.mod_small by exact Ht. by apply land_cmhi.
Qed.

(** Two frames of equal shape, byte by byte: [memcpy_bitwise_or_asm],
    [memcpy_add_asm] (saturating) and [memcpy_subtract_asm] (down to zero). *)
Lemma two_sources_write a b dst la lb :
  args_are s [a; b; dst; n] -> length la = (16 * k)%nat -> length lb = (16 * k)%nat ->
  buffer (mem s) a la -> buffer (mem s) b lb -> room (mem s) dst (16 * k) ->
  in_place_or_separate a dst (16 * k) -> in_place_or_separate b dst (16 * k) ->
  returns "memcpy_bitwise_or_asm" s (store_bytes (mem s) dst (zip_with Z.lor la lb)) /\
  returns "memcpy_add_asm" s
    (store_bytes (mem s) dst (zip_with (fun x y => Z.min 255 (x + y)) la lb)) /\
  returns "memcpy_subtract_asm" s
    (store_bytes (mem s) dst (zip_with (fun x y => Z.max 0 (x - y)) la lb)).
Proof.
  intros Ha Hla Hlb Hba Hbb Hr Hsa Hsb.
  assert (Hout : forall op, zip_with op la lb = stream_out [16; 16]%nat (F2 op) k [la; lb]).
  { intros op. symmetry. by apply out2. }
  pose proof (whole_blocks_range n k Hn) as Hn'.
  rewrite !Hout. split; [|split].
  - writes_by 16%nat (or_stream _ _ _ _ _ Ha Hn') whole_blocks64 lanes2;
      rewrite length_zip_with; lia.
  - writes_by 16%nat (add_stream _ _ _ _ _ Ha Hn') whole_blocks64 lanes2;
      rewrite length_zip_with; lia.
  - writes_by 16%nat (sub_stream _ _ _ _ _ Ha Hn') whole_blocks64 lanes2;
      rewrite length_zip_with; lia.
Qed.

(** [memcpy_add_3c_asm] adds a one-channel frame to every channel. *)
Theorem add_3c_writes a b dst la lb :
  args_are s [a; b; dst; n] -> length la = (48 * k)%nat -> length lb = (16 * k)%nat ->
  buffer (mem s) a la -> buffer (mem s) b lb -> room (mem s) dst (48 * k) ->
  in_place_or_separate a dst (48 * k) -> separate b (16 * k) dst (48 * k) ->
  returns "memcpy_add_3c_asm" s
    (store_bytes (mem s) dst (pixels_with (fun x y => Z.min 255 (x + y)) la lb)).
Proof.
  intros Ha Hla Hlb Hba Hbb Hr Hsa Hsb.
  pose proof (whole_blocks_range n k Hn) as Hn'.
  erewrite <- (out_px_with _ _ k); [| by apply lanes31 | done | done].
  writes_by 48%nat (add_3c_stream _ _ _ _ _ Ha Hn') whole_blocks64 lanes31.
  by rewrite (length_pixels_with _ 16%nat).
Qed.

(** [memcpy_compare3_add_asm], byte by byte. *)
Theorem compare3_writes p c1 c2 a dst lp l1 l2 la :
  args_are s [p; c1; c2; a; dst; n] ->
  length lp = (16 * k)%nat -> length l1 = (16 * k)%nat -> length l2 = (16 * k)%nat ->
  length la = (16 * k)%nat ->
  buffer (mem s) p lp -> buffer (mem s) c1 l1 -> buffer (mem s) c2 l2 -> buffer (mem s) a la ->
  room (mem s) dst (16 * k) ->
  in_place_or_separate p dst (16 * k) -> in_place_or_separate c1 dst (16 * k) ->
  in_place_or_separate c2 dst (16 * k) -> in_place_or_separate a dst (16 * k) ->
  returns "memcpy_compare3_add_asm" s
    (store_bytes (mem s) dst (zip4_with cmp3_px lp l1 l2 la)).
Proof.
  intros Ha Hlp Hl1 Hl2 Hla Hp H1 H2 Hba Hr Hsp Hs1 Hs2 Hsa.
  erewrite zip4_ext; [| intros; symmetry; by apply cmp3_raw_px | by eapply buffer_bytes ..].
  erewrite <- (out4 _ _ k); [| apply cmp3_lanes | done ..].
  writes_by 16%nat (Compare3.cmp3_stream _ _ _ _ _ _ _ Ha) whole_blocks32 cmp3_lanes.
  by apply length_zip4.
Qed.

(** [memcpy_deinterlace_wstb_asm], pixel by pixel, for each primary channel. *)
Lemma wstb_writes o src dst al be t px :
  0 <= o <= 2 -> is_byte al -> is_byte be -> is_byte t ->
  args_are s [src; dst; n; o; al; be; t] -> length px = (48 * k)%nat ->
  buffer (mem s) src px -> room (mem s) dst (16 * k) ->
  separate src (48 * k) dst (16 * k) ->
  returns "memcpy_deinterlace_wstb_asm" s
    (store_bytes (mem s) dst (pixels_map (wstb_px o al be t) px)).
Proof.
  intros Ho Hal Hbe Ht Ha Hl Hb Hr Hs.
  pose proof (whole_blocks_range n k Hn) as Hn'.
  erewrite pixels_map_ext; [| intros; symmetry; by apply wstb_raw_px | by eapply buffer_bytes].
  erewrite <- (out_px _ _ k); [| apply wstb_lanes | done].
  writes_by 16%nat (Wstb.wstb_stream _ _ _ _ _ _ _ _ Ho Ha Hn') whole_blocks64 wstb_lanes.
  by apply length_pixels_map.
Qed.

(** [memcpy_threshold_binary_asm] reads its second argument and writes its
    first, and compares the upper eight of every sixteen bytes with zero. *)
Theorem threshold_binary_writes src dst t px :
  args_are s [src; dst; n; t] -> is_byte t -> length px = (16 * k)%nat ->
  buffer (mem s) dst px -> room (mem s) src (16 * k) ->
  in_place_or_separate dst src (16 * k) ->
  returns "memcpy_threshold_binary_asm" s
    (store_bytes (mem s) src (imap (half_thresh_px t) px)).
Proof.
  intros Ha Ht Hl Hb Hr Hsep.
  rewrite <- (out_half _ k) by done.
  writes_by 16%nat (ThresholdBinary.thrb_stream _ _ _ _ _ Ha) whole_blocks32 (half_lanes t Ht).
  by rewrite length_imap.
Qed.

End Calls.

(** * Gray conversion, both loops *)

Definition tail_px (r g b : Z) : Z := b / 4.

Lemma tail_out k px :
  length px = (3 * k)%nat -> Forall is_byte px ->
  stream_out [3%nat] Togray.F1 k [px] = pixels_map tail_px px.
Proof.
  revert px. induction k as [|k IH]; intros px Hl Hb.
  - rewrite Nat.mul_0_r in Hl. by apply nil_length_inv in Hl as ->.
  - destruct px as [|r [|g [|b px]]]; simpl in Hl; try lia.
    rewrite !Forall_cons in Hb. destruct Hb as (_ & _ & _ & Hb).
    change (Z.shiftr b 2 :: stream_out [3%nat] Togray.F1 k [px] =
            tail_px r g b :: pixels_map tail_px px).
    rewrite IH by (done || lia). unfold tail_px. f_equal. by rewrite Z.shiftr_div_pow2.
Qed.

(** The bytes the conversion writes for [n] pixels. *)
Definition togray_bytes (n : Z) (px : list Z) : list Z :=
  pixels_map gray_px (take (Z.to_nat (48 * (n / 16))) px) ++
  pixels_map tail_px (drop (Z.to_nat (48 * (n / 16))) px).

Lemma gray_stream s n src dst k px :
  k = Z.to_nat (n / 16) -> 0 <= n -> length px = (48 * k)%nat ->
  buffer (mem s) src px -> room (mem s) dst (16 * k) -> separate src (48 * k) dst (16 * k) ->
  stream_mem [48%nat] [48] 16 Togray.F k [src] dst (mem s) =
  Some (store_bytes (mem s) dst (pixels_map gray_px px)).
Proof.
  intros Hk Hn Hl Hb (Hd & Hdb & Hdm) Hs.
  rewrite (stream_mem_out _ _ _ _ _ 16 _ _ _ [px]); try done; [| source_list |].
  - erewrite pixels_map_ext; [| intros; symmetry; by apply gray_raw_px | by eapply buffer_bytes].
    do 2 f_equal. apply out_px; [apply gray_lanes | done].
  - intros bs Hbs%exactly_one. blocks Hbs. rewrite gray_lanes by done. by apply length_pixels_map.
Qed.

Lemma tail_stream m src dst k px :
  length px = (3 * k)%nat -> buffer m src px -> room m dst k ->
  separate src (3 * k) dst k ->
  stream_mem [3%nat] [3] 1 Togray.F1 k [src] dst m =
  Some (store_bytes m dst (pixels_map tail_px px)).
Proof.
  intros Hl Hb (Hd & Hdb & Hdm) Hs.
  rewrite (stream_mem_out _ _ _ _ _ 1 _ _ _ [px]); try done.
  - rewrite tail_out; [done | done | by eapply buffer_bytes].
  - by rewrite Nat.mul_1_l.
  - eapply (buffer_source _ _ _ _ 3); try done; [|constructor].
    left. unfold separate in *. lia.
  - by rewrite Nat.mul_1_l.
  - intros bs Hbs%exactly_one. by blocks Hbs.
Qed.

(** [memcpy_deinterlace_togray_asm] on [n] pixels: the gray value for every
    pixel of a whole block of sixteen, a quarter of the third channel for the
    others. *)
Lemma togray_writes s n src dst v2 px :
  args_are s [src; dst; n] -> vargs_are s [(2%nat, v2)] -> length v2 = 16%nat ->
  1 <= n < 2 ^ 31 -> Z.of_nat (length px) = 3 * n ->
  buffer (mem s) src px -> room (mem s) dst (Z.to_nat n) ->
  separate src (length px) dst (Z.to_nat n) ->
  returns "memcpy_deinterlace_togray_asm" s (store_bytes (mem s) dst (togray_bytes n px)).
Proof.
  intros Ha Hv Hv2 Hn Hl Hb Hr Hs.
  pose proof (Z.div_mod n 16 ltac:(lia)) as Hdm.
  pose proof (Z.mod_pos_bound n 16 ltac:(lia)) as Hm.
  pose proof (Z.div_pos n 16 ltac:(lia) ltac:(lia)) as Hd.
  pose proof Hb as (Hsrc & Hsrcb & _). pose proof Hr as (Hdst & Hdstb & _).
  pose proof (Togray.togray_stream s src dst n v2 Ha Hv Hv2
                ltac:(lia) ltac:(lia) ltac:(lia)) as Hc.
  cut (Togray.togray_mem n src dst (mem s) = Some (store_bytes (mem s) dst (togray_bytes n px)));
    [by intros E; rewrite E in Hc|].
  clear Hc. unfold Togray.togray_mem, togray_bytes.
  destruct (Z_of_nat_complete (n / 16) Hd) as [k Hk]. rewrite Hk, Nat2Z.id in *.
  replace (Z.to_nat (48 * Z.of_nat k)) with (48 * k)%nat by lia.
  set (px1 := take (48 * k) px). set (px2 := drop (48 * k) px).
  assert (Hl1 : length px1 = (48 * k)%nat) by (unfold px1; rewrite length_take; lia).
  assert (Hl2 : Z.of_nat (length px2) = 3 * (n mod 16)) by (unfold px2; rewrite length_drop; lia).
  rewrite <- (take_drop (48 * k) px) in Hb. apply buffer_app in Hb as [Hb1 Hb2].
  fold px1 in Hb1, Hb2. fold px2 in Hb2. rewrite Hl1 in Hb2.
  replace (Z.to_nat n) with (16 * k + Z.to_nat (n mod 16))%nat in Hr by lia.
  apply room_app in Hr as [Hr1 Hr2].
  rewrite (gray_stream s n src dst k px1); [| lia | lia | done | done | done | unfold separate in *; lia].
  assert (Hlg : length (pixels_map gray_px px1) = (16 * k)%nat) by (apply length_pixels_map; lia).
  destruct (Z.eqb_spec (n mod 16) 0) as [E|E].
  - rewrite (proj2 (Z.leb_le 16 n)) by lia. cbn [andb].
    assert (px2 = []) as -> by (apply nil_length_inv; lia). by rewrite app_nil_r.
  - rewrite andb_false_r. unfold turns. rewrite (proj2 (Z.eqb_neq _ _) E).
    rewrite !w64_small by lia.
    replace (src + 48 * Z.of_nat k) with (src + Z.of_nat (48 * k)) by lia.
    replace (dst + 16 * Z.of_nat k) with (dst + Z.of_nat (16 * k)) by lia.
    rewrite (tail_stream _ _ _ _ px2).
    + by rewrite store_bytes_app, Hlg.
    + lia.
    + apply buffer_store; [done|]. unfold separate in *. lia.
    + by apply room_store.
    + unfold separate in *. lia.
Qed.

(** * Kernels whose loop branches to another kernel's loop *)

(** The first block by one loop, the following [k] by another. *)
Lemma once_then_out n1 n2 t F n1' n2' t' F' k a b d m la lb :
  length la = (n1 + n1' * k)%nat -> length lb = (n2 + n2' * k)%nat ->
  buffer m a la -> buffer m b lb -> room m d (t + t' * k) ->
  separate a (length la) d (t + t' * k) -> separate b (length lb) d (t + t' * k) ->
  (forall x y, length x = n1 -> length y = n2 -> length (F [x; y]) = t) ->
  (forall x y, length x = n1' -> length y = n2' -> length (F' [x; y]) = t') ->
  once_then [n1; n2] [Z.of_nat n1; Z.of_nat n2] (Z.of_nat t) F
    (stream_mem [n1'; n2'] [Z.of_nat n1'; Z.of_nat n2'] (Z.of_nat t') F') k [a; b] d m =
  Some (store_bytes m d
          (F [take n1 la; take n2 lb] ++ stream_out [n1'; n2'] F' k [drop n1 la; drop n2 lb])).
Proof.
  intros Hla Hlb Ha Hb Hr Hsa Hsb HF HF'.
  rewrite <- (take_drop n1 la) in Ha. rewrite <- (take_drop n2 lb) in Hb.
  apply buffer_app in Ha as [Ha1 Ha2]. apply buffer_app in Hb as [Hb1 Hb2].
  apply room_app in Hr as [Hr1 Hr2].
  assert (E1 : length (take n1 la) = n1) by (rewrite length_take; lia).
  assert (E2 : length (take n2 lb) = n2) by (rewrite length_take; lia).
  assert (E3 : length (drop n1 la) = (n1' * k)%nat) by (rewrite length_drop; lia).
  assert (E4 : length (drop n2 lb) = (n2' * k)%nat) by (rewrite length_drop; lia).
  rewrite E1 in Ha2. rewrite E2 in Hb2.
  pose proof (HF _ _ E1 E2) as HL.
  unfold once_then. destruct Ha1 as (Pa & Pa' & La & _), Hb1 as (Pb & Pb' & Lb & _).
  unfold bytes_at in La, Lb. rewrite E1 in La. rewrite E2 in Lb. cbn [loads]. rewrite La, Lb.
  rewrite store_Some by (rewrite HL; apply Hr1).
  set (m' := store_bytes m d (F [take n1 la; take n2 lb])).
  assert (Ha2' : buffer m' (a + Z.of_nat n1) (drop n1 la)).
  { apply buffer_store; [done|]. unfold separate in *. lia. }
  assert (Hb2' : buffer m' (b + Z.of_nat n2) (drop n2 lb)).
  { apply buffer_store; [done|]. unfold separate in *. lia. }
  assert (Hr2' : room m' (d + Z.of_nat t) (t' * k)) by by apply room_store.
  transitivity (stream_mem [n1'; n2'] [Z.of_nat n1'; Z.of_nat n2'] (Z.of_nat t') F' k
                  (bump [Z.of_nat n1; Z.of_nat n2] [a; b]) (w64 (d + Z.of_nat t)) m').
  { by destruct k. }
  pose proof Ha2' as (Qa & Qa' & _). pose proof Hb2' as (Qb & Qb' & _).
  destruct Hr2' as (Qd & Qd' & Qm).
  cbn [bump zip_with]. rewrite !w64_small by lia.
  rewrite (stream_mem_out _ _ _ _ _ t' _ _ _ [drop n1 la; drop n2 lb]).
  - by rewrite store_bytes_app, HL.
  - done.
  - lia.
  - lia.
  - apply buffer_source; [done | done | left; unfold separate in *; lia |].
    apply buffer_source; [done | done | left; unfold separate in *; lia |].
    constructor.
  - done.
  - intros bs Hbs%exactly_one. blocks Hbs. rewrite Nat.mul_1_r in *. by apply HF'.
Qed.

Section WrongLoop.

Context (s : cpu) (n : Z) (k : nat).
Hypothesis (Hn : whole_blocks n (S k)).

Lemma whole_blocks_turns : (Z.to_nat (turns (blocks64 n)) - 1)%nat = k.
Proof.
  rewrite (whole_blocks64 n (S k)) by done. unfold turns.
  rewrite (proj2 (Z.eqb_neq _ _)) by lia. lia.
Qed.

(** [memcpy_bitwise_or_3c_asm] combines the first sixteen pixels as frames of
    three and one channels; after that it combines the bytes that follow as if
    both frames had one channel, and stops after [48 + 16 * k] bytes. *)
Theorem or_3c_writes a b dst la lb :
  args_are s [a; b; dst; n] ->
  length la = (48 + 16 * k)%nat -> length lb = (16 * S k)%nat ->
  buffer (mem s) a la -> buffer (mem s) b lb -> room (mem s) dst (48 + 16 * k) ->
  separate a (length la) dst (48 + 16 * k) -> separate b (length lb) dst (48 + 16 * k) ->
  returns "memcpy_bitwise_or_3c_asm" s
    (store_bytes (mem s) dst
       (pixels_with Z.lor (take 48 la) (take 16 lb) ++ zip_with Z.lor (drop 48 la) (drop 16 lb))).
Proof.
  intros Ha Hla Hlb Hba Hbb Hr Hsa Hsb.
  pose proof (whole_blocks_range n _ Hn) as Hn'.
  pose proof (or_3c_stream _ _ _ _ _ Ha Hn') as Hc. rewrite whole_blocks_turns in Hc.
  erewrite (once_then_out 48 16 48 _ 16 16 16 _ k _ _ _ _ la lb) in Hc;
    [| lia | lia | eassumption ..| |].
  - rewrite (out2 _ Z.lor) in Hc; [| done | rewrite length_drop; lia | rewrite length_drop; lia].
    rewrite lanes31 in Hc; [exact Hc | rewrite length_take; lia | rewrite length_take; lia].
  - intros x y Hx Hy. rewrite lanes31 by done. by rewrite (length_pixels_with _ 16%nat).
  - intros x y Hx Hy. rewrite lanes2, length_zip_with by done. lia.
Qed.

(** [memcpy_add_3c2_asm] adds the first sixteen pixels as three-channel
    frames; after that it takes the second frame for a one-channel frame. *)
Theorem add_3c2_writes a b dst la lb :
  args_are s [a; b; dst; n] ->
  length la = (48 * S k)%nat -> length lb = (48 + 16 * k)%nat ->
  buffer (mem s) a la -> buffer (mem s) b lb -> room (mem s) dst (48 * S k) ->
  separate a (length la) dst (48 * S k) -> separate b (length lb) dst (48 * S k) ->
  returns "memcpy_add_3c2_asm" s
    (store_bytes (mem s) dst
       (zip_with (fun x y => Z.min 255 (x + y)) (take 48 la) (take 48 lb) ++
        pixels_with (fun x y => Z.min 255 (x + y)) (drop 48 la) (drop 48 lb))).
Proof.
  intros Ha Hla Hlb Hba Hbb Hr Hsa Hsb.
  replace (48 * S k)%nat with (48 + 48 * k)%nat in * by lia.
  pose proof (whole_blocks_range n _ Hn) as Hn'.
  pose proof (add_3c2_stream _ _ _ _ _ Ha Hn') as Hc. rewrite whole_blocks_turns in Hc.
  erewrite (once_then_out 48 48 48 _ 48 16 48 _ k _ _ _ _ la lb) in Hc;
    [| lia | lia | eassumption ..| |].
  - rewrite (out_px_with _ Lane.uqadd8) in Hc;
      [| apply lanes31 | rewrite length_drop; lia | rewrite length_drop; lia].
    rewrite lanes33 in Hc; [exact Hc | rewrite length_take; lia | rewrite length_take; lia].
  - intros x y Hx Hy. rewrite lanes33, length_zip_with by done. lia.
  - intros x y Hx Hy. rewrite lanes31 by done. by rewrite (length_pixels_with _ 16%nat).
Qed.

End WrongLoop.

(** * Counts below one block *)

(** Memory is within the 64-bit address space. *)
Definition addressable (m : memory) : Prop := map_Forall (fun a _ => 0 <= a < 2 ^ 64) m.

#[export] Instance addressable_dec m : Decision (addressable m).
Proof. unfold addressable. apply _. Defined.

Lemma w64_add_add x y z : w64 (w64 (x + y) + z) = w64 (x + (y + z)).
Proof. unfold w64. rewrite Zplus_mod_idemp_l. f_equal. lia. Qed.

(** A stream that ends has stored every one of its blocks. *)
Lemma stream_mem_stored blks advs dadv F t k ps d m m' :
  (forall bs, Forall2 (fun n b => length b = n) blks bs -> length (F bs) = t) ->
  length ps = length blks -> length advs = length blks ->
  stream_mem blks advs dadv F k ps d m = Some m' ->
  forall j, (j < k)%nat ->
    mapped t m (if decide (j = 0)%nat then d else w64 (d + dadv * Z.of_nat j)) = true.
Proof.
  intros HF Hps Hadv. revert ps d m Hps. induction k as [|k IH]; intros ps d m Hps Hm j Hj; [lia|].
  cbn [stream_mem] in Hm. destruct (loads m blks ps) as [bs|] eqn:El; [|done].
  destruct (store m d (F bs)) as [m1|] eqn:Es; [|done].
  assert (Hlen : length (F bs) = t).
  { apply HF. clear - El Hps. revert ps bs El Hps. induction blks as [|n blks IH]; intros [|p ps] bs; simpl.
    - intros [= <-] _. constructor.
    - done.
    - done.
    - destruct (load n m p) eqn:E; [|done]. destruct (loads m blks ps) eqn:E'; [|done].
      intros [= <-] Hl. constructor; [by eapply load_length | eapply IH; eauto]. }
  unfold store in Es. rewrite Hlen in Es. destruct (mapped t m d) eqn:Emap; [|done].
  injection Es as <-.
  destruct j as [|j]; [done|]. rewrite decide_False by done.
  eapply IH with (j := j) in Hm; [| unfold bump; rewrite length_zip_with; lia | lia].
  assert (Hst : mapped t (store_bytes m d (F bs)) (w64 (d + dadv * Z.of_nat (S j))) = true).
  { destruct (decide (j = 0)%nat) as [->|].
    - by replace (dadv * Z.of_nat 1) with dadv by lia.
    - rewrite w64_add_add in Hm. by replace (dadv * Z.of_nat (S j)) with (dadv + dadv * Z.of_nat j) by lia. }
  revert Hst. rewrite !mapped_true. intros Hst i Hi. specialize (Hst i Hi).
  rewrite lookup_store_bytes in Hst. case_decide as Hin; [|done].
  rewrite mapped_true in Emap. rewrite Hlen in Hin.
  set (a := w64 (d + dadv * Z.of_nat (S j)) + Z.of_nat i) in *.
  replace a with (d + Z.of_nat (Z.to_nat (a - d))) by lia. apply Emap. lia.
Qed.

(** A loop that stores sixteen bytes a turn for [2 ^ 64] turns meets every
    address, so it faults at the first one that is not mapped. *)
Lemma runaway blks advs F K ps d m u :
  Z.of_nat K = 2 ^ 64 ->
  (forall bs, Forall2 (fun n b => length b = n) blks bs -> length (F bs) = 16%nat) ->
  length ps = length blks -> length advs = length blks ->
  addressable m -> 0 <= u < 2 ^ 64 -> m !! u = None ->
  stream_mem blks advs 16 F K ps d m = None.
Proof.
  intros HKZ HF Hps Hadv Hm Hu Hnone.
  destruct (stream_mem blks advs 16 F K ps d m) as [m'|] eqn:E; [|done]. exfalso.
  pose proof (Z.mod_pos_bound (u - d) (2 ^ 64) ltac:(lia)) as Hq.
  pose proof (Z.mod_pos_bound ((u - d) mod 2 ^ 64) 16 ltac:(lia)) as Hr.
  pose proof (Z.div_mod ((u - d) mod 2 ^ 64) 16 ltac:(lia)) as Hqr.
  set (q := (u - d) mod 2 ^ 64) in *.
  pose proof (Z.div_pos q 16 ltac:(lia) ltac:(lia)) as Hq0.
  assert (Hj : q / 16 < 2 ^ 64) by (apply Z.div_lt_upper_bound; lia).
  (* block [q / 16 + 2 ^ 60] is block [q / 16] one round later, and never the first *)
  set (j := q / 16 + 2 ^ 60) in *.
  assert (Hj' : q / 16 < 2 ^ 60) by (apply Z.div_lt_upper_bound; lia).
  pose proof (stream_mem_stored _ _ _ _ 16 _ _ _ _ _ HF Hps Hadv E (Z.to_nat j) ltac:(lia)) as Hst.
  rewrite decide_False, Z2Nat.id in Hst by lia. rewrite mapped_true in Hst.
  specialize (Hst (Z.to_nat (q mod 16)) ltac:(lia)). rewrite Z2Nat.id in Hst by lia.
  destruct Hst as [x Hx]. pose proof (Hm _ _ Hx) as Hb. cbv beta in Hb.
  assert (Ha : w64 (d + 16 * j) + q mod 16 = u).
  { rewrite <- (w64_small (w64 (d + 16 * j) + q mod 16)) by lia.
    unfold w64. rewrite Zplus_mod_idemp_l.
    replace (d + 16 * j + q mod 16) with (d + q + 1 * 2 ^ 64) by lia.
    rewrite Z_mod_plus_full. unfold q. rewrite Zplus_mod_idemp_r.
    replace (d + (u - d)) with u by lia. by apply Z.mod_small. }
  congruence.
Qed.

Lemma turns_zero : Z.of_nat (Z.to_nat (turns 0)) = 2 ^ 64.
Proof. apply Z2Nat.id. discriminate. Qed.

(** A count of less than sixteen wraps the loop counter: the routine runs on
    until it faults. *)
Theorem small_count_faults s n u src dst t a b d :
  0 <= n < 16 -> addressable (mem s) -> 0 <= u < 2 ^ 64 -> mem s !! u = None ->
  (args_are s [src; dst; n; t] -> faults "memcpy_threshold_asm" s) /\
  (args_are s [a; b; d; n] ->
     faults "memcpy_bitwise_or_asm" s /\ faults "memcpy_add_asm" s /\
     faults "memcpy_subtract_asm" s).
Proof.
  intros Hn Hm Hu Hnone.
  assert (E64 : blocks64 n = 0).
  { unfold blocks64. rewrite Z.shiftr_div_pow2 by lia. by apply Z.div_small. }
  assert (E32 : blocks32 n = 0).
  { unfold blocks32, w32. rewrite Z.mod_small by lia. exact E64. }
  assert (H2 : forall op bs, Forall2 (fun n b => length b = n) [16; 16]%nat bs ->
             length (F2 op bs) = 16%nat).
  { intros op bs Hbs%exactly_one. blocks Hbs. rewrite lanes2, length_zip_with by done. lia. }
  split.
  - intros Ha. pose proof (Threshold.thr_stream _ _ _ _ _ Ha) as Hc.
    rewrite E32, (runaway _ _ _ _ _ _ _ u) in Hc; [done | apply turns_zero | | done..].
    intros bs Hbs%exactly_one. blocks Hbs. rewrite threshold_lanes by done. by rewrite length_map.
  - intros Ha.
    pose proof (or_stream _ _ _ _ _ Ha ltac:(lia)) as Hc1.
    pose proof (add_stream _ _ _ _ _ Ha ltac:(lia)) as Hc2.
    pose proof (sub_stream _ _ _ _ _ Ha ltac:(lia)) as Hc3.
    rewrite E64, (runaway _ _ _ _ _ _ _ u) in Hc1; [| apply turns_zero | apply H2 | done..].
    rewrite E64, (runaway _ _ _ _ _ _ _ u) in Hc2; [| apply turns_zero | apply H2 | done..].
    rewrite E64, (runaway _ _ _ _ _ _ _ u) in Hc3; [| apply turns_zero | apply H2 | done..].
    auto.
Qed.

(** * Weighted subtraction *)

(** Every block of [memcpy_wst_asm] lands in its second source. *)
Lemma wst_stream_frame al be ga k p c1 c2 d m :
  mapped (16 * k) m p = true -> mapped (32 * k) m c1 = true -> mapped (16 * k) m c2 = true ->
  d = c1 + 16 -> 0 <= p -> 0 <= c1 -> 0 <= c2 ->
  p + Z.of_nat (16 * k) < 2 ^ 64 -> c1 + 16 + Z.of_nat (32 * k) < 2 ^ 64 ->
  c2 + Z.of_nat (16 * k) < 2 ^ 64 ->
  exists m', stream_mem [16; 16; 16]%nat [16; 32; 16] 32 (Wst.F al be ga) k [p; c1; c2] d m = Some m' /\
    forall a, ~ (c1 + 16 <= a < c1 + Z.of_nat (32 * k)) -> m' !! a = m !! a.
Proof.
  intros Hp H1 H2 -> Pp P1 P2 Bp B1 B2.
  revert p c1 c2 m Hp H1 H2 Pp P1 P2 Bp B1 B2.
  induction k as [|k IH]; intros p c1 c2 m Hp H1 H2 Pp P1 P2 Bp B1 B2; [by exists m|].
  rewrite !Nat.mul_succ_r, !(Nat.add_comm (_ * k)) in *.
  apply mapped_app in Hp as [Hp Hp']. apply mapped_app in H1 as [H1 H1'].
  apply mapped_app in H2 as [H2 H2'].
  change 32%nat with (16 + 16)%nat in H1 at 1. apply mapped_app in H1 as [H1 Hd].
  apply mapped_load in Hp as [lp Hp]. apply mapped_load in H1 as [l1 H1].
  apply mapped_load in H2 as [l2 H2].
  assert (Hlen : length (Wst.F al be ga [lp; l1; l2]) = 16%nat).
  { rewrite wst_lanes by (by eapply load_length). apply length_zip3; by eapply load_length. }
  cbn [stream_mem loads]. rewrite Hp, H1, H2, store_Some by (rewrite Hlen; exact Hd).
  cbn [bump zip_with]. change (Z.of_nat 16) with 16 in *. change (Z.of_nat 32) with 32 in *.
  rewrite !w64_small by lia.
  set (m1 := store_bytes m (c1 + 16) (Wst.F al be ga [lp; l1; l2])).
  replace (c1 + 16 + 32) with (c1 + 32 + 16) by lia.
  destruct (IH (p + 16) (c1 + 32) (c2 + 16) m1) as (m' & Hm' & Hf);
    try (by apply mapped_store); try lia.
  exists m'. split; [done|]. intros a Ha. rewrite Hf by lia.
  unfold m1. rewrite lookup_store_bytes, decide_False; [done|]. rewrite Hlen. lia.
Qed.

(** [memcpy_wst_asm] returns without writing its destination: the bytes it
    changes are all in the second half of a 32-byte run of its second source. *)
Theorem wst_writes_channel s n k p c1 c2 dst al be ga :
  args_are s [p; c1; c2; dst; n; al; be; ga] -> whole_blocks n k ->
  room (mem s) p (16 * k) -> room (mem s) c1 (32 * k) -> room (mem s) c2 (16 * k) ->
  c1 + Z.of_nat (32 * k) + 16 < 2 ^ 64 ->
  exists m', returns "memcpy_wst_asm" s m' /\
    forall a, ~ (c1 + 16 <= a < c1 + Z.of_nat (32 * k)) -> m' !! a = mem s !! a.
Proof.
  intros Ha Hn (Pp & Bp & Hp) (P1 & B1 & H1) (P2 & B2 & H2) Hend.
  pose proof (Wst.wst_stream _ _ _ _ _ _ _ _ _ Ha (whole_blocks_range _ _ Hn)) as Hc.
  pose proof (whole_blocks_pos _ _ Hn). rewrite (whole_blocks64 n k Hn) in Hc.
  unfold turns in Hc. rewrite (proj2 (Z.eqb_neq (Z.of_nat k) 0)), Nat2Z.id in Hc by lia.
  rewrite w64_small in Hc by lia.
  destruct (wst_stream_frame al be ga k p c1 c2 (c1 + 16) (mem s)) as (m' & Hm' & Hf);
    try done; [lia|].
  rewrite Hm' in Hc. by exists m'.
Qed.

(** * Concrete calls *)


Definition kernel_cpu (args : list Z) : cpu := cpu_with args kernel_runs.

Lemma add_3c_writes_witness :
  let s := kernel_cpu [2000; 1000; 4000; 37] in
  returns "memcpy_add_3c_asm" s
    (store_bytes (mem s) 4000
       (pixels_with (fun x y => Z.min 255 (x + y)) (ramp 100 96) (ramp 100 32))).
Proof.
  intros s. eapply (add_3c_writes s 37 2 ltac:(concretely) 2000 1000); concretely.
Defined.

Lemma compare3_writes_witness :
  let s := kernel_cpu [1000; 1100; 1200; 1000; 4000; 32] in
  returns "memcpy_compare3_add_asm" s
    (store_bytes (mem s) 4000 (zip4_with cmp3_px (ramp 100 32) (ramp 90 32) (ramp 110 32) (ramp 100 32))).
Proof.
  intros s. eapply (compare3_writes s 32 2 ltac:(concretely) 1000 1100 1200 1000); concretely.
Defined.

Lemma threshold_binary_writes_witness :
  let s := kernel_cpu [4000; 1000; 32; 110] in
  returns "memcpy_threshold_binary_asm" s
    (store_bytes (mem s) 4000 (imap (half_thresh_px 110) (ramp 100 32))).
Proof.
  intros s. eapply (threshold_binary_writes s 32 2 ltac:(concretely) 4000 1000); concretely.
Defined.

Lemma or_3c_writes_witness :
  let s := kernel_cpu [2000; 1000; 4000; 32] in
  returns "memcpy_bitwise_or_3c_asm" s
    (store_bytes (mem s) 4000
       (pixels_with Z.lor (ramp 100 48) (ramp 100 16) ++ zip_with Z.lor (ramp 148 16) (ramp 116 16))).
Proof.
  intros s.
  eapply (or_3c_writes s 32 1 ltac:(concretely) 2000 1000 4000 (ramp 100 64) (ramp 100 32));
    concretely.
Defined.

Lemma add_3c2_writes_witness :
  let s := kernel_cpu [2000; 3000; 4000; 32] in
  returns "memcpy_add_3c2_asm" s
    (store_bytes (mem s) 4000
       (zip_with (fun x y => Z.min 255 (x + y)) (ramp 100 48) (ramp 120 48) ++
        pixels_with (fun x y => Z.min 255 (x + y)) (ramp 148 48) (ramp 168 16))).
Proof.
  intros s.
  eapply (add_3c2_writes s 32 1 ltac:(concretely) 2000 3000 4000 (ramp 100 96) (ramp 120 64));
    concretely.
Defined.

Lemma small_count_faults_witness :
  faults "memcpy_add_asm" (kernel_cpu [1000; 1100; 4000; 15]).
Proof.
  apply (proj2 (small_count_faults (kernel_cpu [1000; 1100; 4000; 15]) 15 0 0 0 0
                  1000 1100 4000 ltac:(concretely) ltac:(concretely) ltac:(concretely)
                  ltac:(reflexivity))); concretely.
Defined.

Lemma wst_writes_channel_witness :
  let s := kernel_cpu [1000; 2000; 1200; 4000; 32; 255; 16; 3] in
  exists m', returns "memcpy_wst_asm" s m' /\ load 96 m' 4000 = Some (replicate 96 0).
Proof.
  intros s.
  destruct (wst_writes_channel s 32 2 1000 2000 1200 4000 255 16 3) as (m' & Hr & Hf);
    [concretely .. |].
  exists m'. split; [exact Hr|]. apply load_Some. split; [reflexivity|]. intros i Hi.
  rewrite Hf by lia. revert i Hi.
  assert (E : load 96 (mem s) 4000 = Some (replicate 96 0)) by (vm_compute; reflexivity).
  apply load_Some in E. exact (proj2 E).
Defined.
