(* ===== verification/NeonWrap.v ===== *)
(** The inline wrappers of [lib-vs/src/core/neon.h]: the assertions on the
    matrices, the choice of the kernel, and the arguments passed to it. *)

From S2P Require Import Prelude Machine Simd NeonText SimdMem Stream Pixels NeonLoops NeonKernels.
Local Open Scope Z_scope.

(** What a wrapper reads of a [cv::Mat]: [type()], [size().area()],
    [channels()] and [data]. *)
Record Mat := mkMat { type : Z; area : Z; channels : Z; data : Z }.

(** The channel enumeration of [extensions.h] and its conversion. *)
Inductive BGR := BLUE | GREEN | RED.

Definition bgr_value (v : BGR) : Z :=
  match v with BLUE => 0 | GREEN => 1 | RED => 2 end.

(** The two other channels of each channel, [weights_map]. *)
Definition weights_map : list (list Z) :=
  [[bgr_value GREEN; bgr_value RED];
   [bgr_value BLUE; bgr_value RED];
   [bgr_value BLUE; bgr_value GREEN]].

(** A wrapper throws on the first assertion that fails ([CV_Assert], numbered
    in the order it makes them) or calls a kernel. *)
Inductive wrapped :=
| AssertFailed (i : nat)
| Calls (f : string) (args : list Z).

(** The assertions from number [i] on, then [k]. *)
Fixpoint asserting (i : nat) (cs : list bool) (k : wrapped) : wrapped :=
  match cs with
  | [] => k
  | c :: cs' => if c then asserting (S i) cs' k else AssertFailed i
  end.

Section Wrappers.

(** The type codes of OpenCV. *)
Context (CV_8UC1 CV_8UC3 : Z).

Definition neon_threshold (src dest : Mat) (thresh : Z) : wrapped :=
  asserting 0 [type src =? CV_8UC1; type dest =? CV_8UC1; area src =? area dest]
    (Calls "memcpy_threshold_asm" [data src; data dest; area src; thresh]).

Definition neon_threshold_binary (src dest : Mat) (thresh : Z) : wrapped :=
  asserting 0 [type src =? CV_8UC1; type dest =? CV_8UC1; area src =? area dest]
    (Calls "memcpy_threshold_binary_asm" [data src; data dest; area src; thresh]).

Definition neon_compare3_add (primary comp1 comp2 add dest : Mat) : wrapped :=
  asserting 0
    [type primary =? CV_8UC1; type comp1 =? CV_8UC1; type comp2 =? CV_8UC1;
     type add =? CV_8UC1; type dest =? CV_8UC1;
     area primary =? area comp1; area primary =? area comp2;
     area primary =? area add; area primary =? area dest]
    (Calls "memcpy_compare3_add_asm"
       [data primary; data comp1; data comp2; data add; data dest; area primary]).

Definition neon_wst (primary ch1 : Mat) (alpha : Z) (ch2 : Mat) (beta : Z) (dest : Mat)
    (gamma : Z) : wrapped :=
  asserting 0
    [type primary =? CV_8UC1; type ch1 =? CV_8UC1; type ch2 =? CV_8UC1; type dest =? CV_8UC1;
     area primary =? area ch1; area primary =? area ch2; area primary =? area dest]
    (Calls "memcpy_wst_asm"
       [data primary; data ch1; data ch2; data dest; area primary; alpha; beta; gamma]).

Definition neon_deinterlace_wstb (frame_3C dest : Mat) (primary : BGR)
    (alpha beta thresh : Z) : wrapped :=
  asserting 0 [type frame_3C =? CV_8UC3; type dest =? CV_8UC1; area frame_3C =? area dest]
    (Calls "memcpy_deinterlace_wstb_asm"
       [data frame_3C; data dest; area frame_3C; bgr_value primary; alpha; beta; thresh]).

Definition neon_deinterlace_cvt2gray (frame_3C dest : Mat) : wrapped :=
  asserting 0 [type frame_3C =? CV_8UC3; type dest =? CV_8UC1; area frame_3C =? area dest]
    (Calls "memcpy_deinterlace_togray_asm" [data frame_3C; data dest; area frame_3C]).

Definition neon_bitwise_or (a b dest : Mat) : wrapped :=
  asserting 0 [area a =? area b; area a =? area dest]
    (if type a =? type b then
       asserting 2 [type a =? type dest]
         (Calls "memcpy_bitwise_or_asm" [data a; data b; data dest; area a * channels a])
     else if type a =? CV_8UC3 then
       asserting 2 [type b =? CV_8UC1; type dest =? CV_8UC3]
         (Calls "memcpy_bitwise_or_3c_asm" [data a; data b; data dest; area a])
     else
       asserting 2 [type a =? CV_8UC1; type b =? CV_8UC3; type dest =? CV_8UC3]
         (Calls "memcpy_bitwise_or_3c_asm" [data b; data a; data dest; area a])).

Definition neon_add (a b dest : Mat) : wrapped :=
  asserting 0 [area a =? area b; area a =? area dest]
    (if type a =? CV_8UC3 then
       asserting 2 [type dest =? CV_8UC3]
         (if type b =? CV_8UC3 then
            Calls "memcpy_add_3c2_asm" [data a; data b; data dest; area a]
          else
            asserting 3 [type b =? CV_8UC1]
              (Calls "memcpy_add_3c_asm" [data a; data b; data dest; area a]))
     else if type b =? CV_8UC3 then
       asserting 2 [type a =? CV_8UC1; type dest =? CV_8UC3]
         (Calls "memcpy_add_3c_asm" [data b; data a; data dest; area a])
     else
       asserting 2 [type a =? CV_8UC1; type b =? CV_8UC1; type dest =? CV_8UC1]
         (Calls "memcpy_add_asm" [data a; data b; data dest; area a])).

(** The third assertion compares the destination with itself. *)
Definition neon_subtract (src sub dest : Mat) : wrapped :=
  asserting 0
    [type src =? CV_8UC1; type sub =? CV_8UC1; type dest =? type dest;
     area src =? area sub; area src =? area dest]
    (Calls "memcpy_subtract_asm" [data src; data sub; data dest; area src]).

(** * What the assertions establish *)

Lemma asserting_calls i cs k f args :
  asserting i cs k = Calls f args <-> Forall (fun c => c = true) cs /\ k = Calls f args.
Proof.
  revert i. induction cs as [|c cs IH]; intros i; simpl.
  - split; [by intros -> | by intros [_ ->]].
  - rewrite Forall_cons. destruct c; [rewrite IH; tauto|]. split; [done|]. by intros [[? _] _].
Qed.

Lemma asserting_never_1 i cs k :
  (forall j, k <> AssertFailed j) ->
  (exists j, asserting i cs k = AssertFailed j) \/ asserting i cs k = k.
Proof.
  revert i. induction cs as [|c cs IH]; intros i Hk; simpl; [by right|].
  destruct c; [by apply IH | left; by eexists].
Qed.

End Wrappers.

(** A frame of [c] bytes a pixel holding [l], and room for one. *)
Definition frame (m : memory) (f : Mat) (c : nat) (l : list Z) : Prop :=
  Z.of_nat (length l) = Z.of_nat c * area f /\ buffer m (data f) l.

Definition frame_room (m : memory) (f : Mat) (c : nat) : Prop :=
  room m (data f) (c * Z.to_nat (area f)).

(** The wrapper gets past its assertions, and the kernel it calls, given the
    arguments it passes, returns with memory [m']. *)
Definition wrapper_returns (w : wrapped) (s : cpu) (m' : memory) : Prop :=
  match w with
  | AssertFailed _ => False
  | Calls f args => args_are s args -> returns f s m'
  end.

#[export] Instance frame_dec m f c l : Decision (frame m f c l).
Proof. unfold frame. apply _. Defined.
#[export] Instance frame_room_dec m f c : Decision (frame_room m f c).
Proof. unfold frame_room. apply _. Defined.

(** The part of a frame a kernel reaches: whole blocks of sixteen pixels. *)
Definition reached (c : nat) (n : Z) (l : list Z) : list Z := take (c * Z.to_nat (16 * (n / 16))) l.

Lemma blocks_of n : 16 <= n < 2 ^ 31 -> exists k, whole_blocks n k /\ Z.to_nat (16 * (n / 16)) = (16 * k)%nat.
Proof.
  intros Hn. pose proof (Z.div_le_lower_bound n 16 1 ltac:(lia) ltac:(lia)).
  destruct (Z_of_nat_complete (n / 16) ltac:(lia)) as [k Hk].
  exists k. rewrite Hk. unfold whole_blocks. lia.
Qed.

Lemma frame_reached m f c l k :
  whole_blocks (area f) k -> frame m f c l ->
  length (reached c (area f) l) = (c * 16 * k)%nat /\
  buffer m (data f) (reached c (area f) l).
Proof.
  intros (Hn & Hk & _) [Hl Hb]. unfold reached. rewrite Hk.
  pose proof (Z.mul_div_le (area f) 16 ltac:(lia)) as Hle. rewrite Hk in Hle. split.
  - rewrite length_take. nia.
  - rewrite <- (take_drop (c * Z.to_nat (16 * Z.of_nat k)) l) in Hb. by apply buffer_app in Hb as [? _].
Qed.

Lemma frame_room_reached m f c k :
  whole_blocks (area f) k -> frame_room m f c -> room m (data f) (c * 16 * k).
Proof.
  intros (Hn & Hk & _) Hr.
  pose proof (Z.mul_div_le (area f) 16 ltac:(lia)) as Hle. rewrite Hk in Hle.
  unfold frame_room in Hr.
  replace (c * Z.to_nat (area f))%nat
    with (c * 16 * k + (c * Z.to_nat (area f) - c * 16 * k))%nat in Hr by nia.
  by apply room_app in Hr as [? _].
Qed.

(** Buffers of frames that are apart, or one frame used for both. *)
Definition frames_apart (f : Mat) (c : nat) (g : Mat) (c' : nat) : Prop :=
  separate (data f) (c * Z.to_nat (area f)) (data g) (c' * Z.to_nat (area g)).

Definition same_or_apart (f g : Mat) (c : nat) : Prop :=
  data f = data g \/ frames_apart f c g c.

#[export] Instance frames_apart_dec f c g c' : Decision (frames_apart f c g c').
Proof. unfold frames_apart. apply _. Defined.
#[export] Instance same_or_apart_dec f g c : Decision (same_or_apart f g c).
Proof. unfold same_or_apart. apply _. Defined.

Lemma frames_apart_reached f c g c' k :
  whole_blocks (area f) k -> area f = area g -> frames_apart f c g c' ->
  separate (data f) (c * 16 * k) (data g) (c' * 16 * k).
Proof.
  unfold frames_apart, separate. intros (Hn & Hk & _) E H. rewrite <- E in H.
  pose proof (Z.mul_div_le (area f) 16 ltac:(lia)). nia.
Qed.

Lemma same_or_apart_reached f g c k :
  whole_blocks (area f) k -> area f = area g -> same_or_apart f g c ->
  in_place_or_separate (data f) (data g) (c * 16 * k).
Proof.
  intros Hk E [H|H]; [by left | right; by eapply frames_apart_reached].
Qed.

(** Evaluate the assertions of a wrapper whose operands are known to satisfy
    them. *)
Ltac assertions_hold :=
  repeat match goal with
         | H : type _ = _ |- _ => rewrite H; clear H
         | H : area ?x = area ?y |- context [area ?x =? area ?y] =>
             rewrite (proj2 (Z.eqb_eq (area x) (area y)) H)
         end;
  rewrite ?Z.eqb_refl; cbn [asserting].

Section Frames.

Context (CV_8UC1 CV_8UC3 : Z) (s : cpu).

(** C1. Thresholding a one-channel frame: the assertions pass, the call
    returns, and every pixel of the whole blocks of sixteen keeps its value if
    it is above the threshold and becomes zero otherwise; nothing else in
    memory changes.  The destination may be the source. *)
Theorem neon_threshold_frame src dest t px :
  type src = CV_8UC1 -> type dest = CV_8UC1 -> area src = area dest ->
  16 <= area src < 2 ^ 31 -> is_byte t ->
  frame (mem s) src 1 px -> frame_room (mem s) dest 1 -> same_or_apart src dest 1 ->
  wrapper_returns (neon_threshold CV_8UC1 src dest t) s
    (store_bytes (mem s) (data dest) (map (thresh_px t) (reached 1 (area src) px))).
Proof.
  intros T1 T2 Ea Hn Ht Hf Hr Hs. unfold neon_threshold. assertions_hold.
  destruct (blocks_of _ Hn) as (k & Hk & _). intros Ha.
  destruct (frame_reached _ _ _ _ _ Hk Hf) as [Hl Hb].
  eapply (threshold_writes s (area src) k); eauto.
  - rewrite Ea in Hk. exact (frame_room_reached _ _ _ _ Hk Hr).
  - exact (same_or_apart_reached _ _ _ _ Hk Ea Hs).
Qed.

(** C2. Weighted subtraction into a binary frame, for each choice of the
    primary channel: one byte a pixel, all ones where the primary channel
    minus the weighted others exceeds the threshold. *)
Theorem neon_wstb_frame frame_3C dest primary al be t px :
  type frame_3C = CV_8UC3 -> type dest = CV_8UC1 -> area frame_3C = area dest ->
  16 <= area frame_3C < 2 ^ 31 -> is_byte al -> is_byte be -> is_byte t ->
  frame (mem s) frame_3C 3 px -> frame_room (mem s) dest 1 ->
  frames_apart frame_3C 3 dest 1 ->
  wrapper_returns (neon_deinterlace_wstb CV_8UC1 CV_8UC3 frame_3C dest primary al be t) s
    (store_bytes (mem s) (data dest)
       (pixels_map (wstb_px (bgr_value primary) al be t) (reached 3 (area frame_3C) px))).
Proof.
  intros T1 T2 Ea Hn Hal Hbe Ht Hf Hr Hs. unfold neon_deinterlace_wstb. assertions_hold.
  destruct (blocks_of _ Hn) as (k & Hk & _). intros Ha.
  destruct (frame_reached _ _ _ _ _ Hk Hf) as [Hl Hb].
  eapply (wstb_writes s (area frame_3C) k); eauto.
  - destruct primary; simpl; lia.
  - rewrite Ea in Hk. exact (frame_room_reached _ _ _ _ Hk Hr).
  - exact (frames_apart_reached _ _ _ _ _ Hk Ea Hs).
Qed.

(** C4. Gray conversion of a frame of any positive area: for the pixels of the
    whole blocks of sixteen, the halves and quarters of the channels summed;
    for the remaining pixels, only a quarter of the third channel. *)
Theorem neon_cvt2gray_frame frame_3C dest px v2 :
  type frame_3C = CV_8UC3 -> type dest = CV_8UC1 -> area frame_3C = area dest ->
  1 <= area frame_3C < 2 ^ 31 -> vargs_are s [(2%nat, v2)] -> length v2 = 16%nat ->
  frame (mem s) frame_3C 3 px -> frame_room (mem s) dest 1 ->
  frames_apart frame_3C 3 dest 1 ->
  wrapper_returns (neon_deinterlace_cvt2gray CV_8UC1 CV_8UC3 frame_3C dest) s
    (store_bytes (mem s) (data dest) (togray_bytes (area frame_3C) px)).
Proof.
  intros T1 T2 Ea Hn Hv Hv2 [Hl Hb] Hr Hs. unfold neon_deinterlace_cvt2gray. assertions_hold.
  intros Ha. unfold frame_room in Hr. unfold frames_apart in Hs.
  rewrite Nat.mul_1_l, <- Ea in Hr, Hs.
  eapply (togray_writes s); eauto. by replace (length px) with (3 * Z.to_nat (area frame_3C))%nat by lia.
Qed.

(** C3. Combining two one-channel frames: the wrappers choose the byte-wise
    kernels, which compute the bitwise or, the saturating sum and the
    difference cut off at zero on every pixel of the whole blocks; the
    destination may be either source. *)
Theorem neon_combine_frames a b dest la lb :
  type a = CV_8UC1 -> type b = CV_8UC1 -> type dest = CV_8UC1 -> CV_8UC1 <> CV_8UC3 ->
  channels a = 1 -> area a = area b -> area a = area dest -> 16 <= area a < 2 ^ 31 ->
  frame (mem s) a 1 la -> frame (mem s) b 1 lb -> frame_room (mem s) dest 1 ->
  same_or_apart a dest 1 -> same_or_apart b dest 1 ->
  let ra := reached 1 (area a) la in
  let rb := reached 1 (area b) lb in
  let out op := store_bytes (mem s) (data dest) (zip_with op ra rb) in
  wrapper_returns (neon_bitwise_or CV_8UC1 CV_8UC3 a b dest) s (out Z.lor) /\
  wrapper_returns (neon_add CV_8UC1 CV_8UC3 a b dest) s (out (fun x y => Z.min 255 (x + y))) /\
  wrapper_returns (neon_subtract CV_8UC1 a b dest) s (out (fun x y => Z.max 0 (x - y))).
Proof.
  intros T1 T2 T3 Hne Hch Ea Ed Hn Hfa Hfb Hr Hsa Hsb ra rb out.
  destruct (blocks_of _ Hn) as (k & Hk & _).
  pose proof Hk as Hkb. rewrite Ea in Hkb.
  destruct (frame_reached _ _ _ _ _ Hk Hfa) as [Hla Hba].
  destruct (frame_reached _ _ _ _ _ Hkb Hfb) as [Hlb Hbb].
  assert (Hall : args_are s [data a; data b; data dest; area a] ->
    returns "memcpy_bitwise_or_asm" s (out Z.lor) /\
    returns "memcpy_add_asm" s (out (fun x y => Z.min 255 (x + y))) /\
    returns "memcpy_subtract_asm" s (out (fun x y => Z.max 0 (x - y)))).
  { intros Ha. eapply (two_sources_write s (area a) k); eauto.
    - pose proof Hk as Hkd. rewrite Ed in Hkd. exact (frame_room_reached _ _ _ _ Hkd Hr).
    - exact (same_or_apart_reached _ _ _ _ Hk Ed Hsa).
    - refine (same_or_apart_reached _ _ _ _ Hkb _ Hsb). congruence. }
  unfold neon_bitwise_or, neon_add, neon_subtract. assertions_hold.
  rewrite (proj2 (Z.eqb_neq _ _) Hne), Hch, Z.mul_1_r. cbn [asserting].
  repeat split; intros Ha; apply Hall in Ha; tauto.
Qed.

(** Which kernel the wrappers of the binary operations call, and that they
    throw on every other combination of types and areas. *)
Theorem neon_dispatch a b dest f args :
  CV_8UC1 <> CV_8UC3 ->
  (neon_add CV_8UC1 CV_8UC3 a b dest = Calls f args <->
   area a = area b /\ area a = area dest /\
   ((type a = CV_8UC3 /\ type b = CV_8UC3 /\ type dest = CV_8UC3 /\
       f = "memcpy_add_3c2_asm" /\ args = [data a; data b; data dest; area a]) \/
    (type a = CV_8UC3 /\ type b = CV_8UC1 /\ type dest = CV_8UC3 /\
       f = "memcpy_add_3c_asm" /\ args = [data a; data b; data dest; area a]) \/
    (type a = CV_8UC1 /\ type b = CV_8UC3 /\ type dest = CV_8UC3 /\
       f = "memcpy_add_3c_asm" /\ args = [data b; data a; data dest; area a]) \/
    (type a = CV_8UC1 /\ type b = CV_8UC1 /\ type dest = CV_8UC1 /\
       f = "memcpy_add_asm" /\ args = [data a; data b; data dest; area a]))) /\
  (neon_bitwise_or CV_8UC1 CV_8UC3 a b dest = Calls f args <->
   area a = area b /\ area a = area dest /\
   ((type a = type b /\ type a = type dest /\
       f = "memcpy_bitwise_or_asm" /\ args = [data a; data b; data dest; area a * channels a]) \/
    (type a = CV_8UC3 /\ type b = CV_8UC1 /\ type dest = CV_8UC3 /\
       f = "memcpy_bitwise_or_3c_asm" /\ args = [data a; data b; data dest; area a]) \/
    (type a = CV_8UC1 /\ type b = CV_8UC3 /\ type dest = CV_8UC3 /\
       f = "memcpy_bitwise_or_3c_asm" /\ args = [data b; data a; data dest; area a]))) /\
  (neon_subtract CV_8UC1 a b dest = Calls f args <->
   area a = area b /\ area a = area dest /\ type a = CV_8UC1 /\ type b = CV_8UC1 /\
   f = "memcpy_subtract_asm" /\ args = [data a; data b; data dest; area a]).
Proof.
  intros Hne. unfold neon_add, neon_bitwise_or, neon_subtract.
  repeat case_match; rewrite ?asserting_calls, ?Forall_cons, ?Forall_nil;
    rewrite ?Z.eqb_eq, ?Z.eqb_neq in *; intuition (try congruence).
Qed.

End Frames.

(** * Concrete calls *)

(** One-channel and three-channel frames of 19 pixels, and room for results;
    OpenCV's codes for the two types are 0 and 16. *)
Definition gray_a := mkMat 0 19 1 1000.
Definition gray_b := mkMat 0 19 1 1100.
Definition bgr_c := mkMat 16 19 3 1200.
Definition gray_d := mkMat 0 19 1 2000.

Definition sample_runs : list (Z * list Z) :=
  [(1000, ramp 100 19); (1100, ramp 150 19); (1200, ramp 10 57); (2000, replicate 57 0)].

Definition threshold_cpu := cpu_with [1000; 2000; 19; 107] sample_runs.
Definition wstb_cpu := cpu_with [1200; 2000; 19; 1; 255; 16; 30] sample_runs.
Definition gray_cpu := cpu_with [1200; 2000; 19] sample_runs.
Definition combine_cpu := cpu_with [1000; 1100; 2000; 19] sample_runs.

Lemma neon_threshold_frame_witness :
  wrapper_returns (neon_threshold 0 gray_a gray_d 107) threshold_cpu
    (store_bytes (mem threshold_cpu) 2000 (replicate 8 0 ++ ramp 108 8)).
Proof.
  apply (neon_threshold_frame 0 threshold_cpu gray_a gray_d 107 (ramp 100 19));
    [reflexivity | reflexivity | reflexivity | concretely ..].
Defined.

Lemma neon_wstb_frame_witness :
  wrapper_returns (neon_deinterlace_wstb 0 16 bgr_c gray_d GREEN 255 16 30) wstb_cpu
    (store_bytes (mem wstb_cpu) 2000
       (pixels_map (wstb_px 1 255 16 30) (ramp 10 48))).
Proof.
  apply (neon_wstb_frame 0 16 wstb_cpu bgr_c gray_d GREEN 255 16 30 (ramp 10 57));
    [reflexivity | reflexivity | reflexivity | concretely ..].
Defined.

Lemma neon_cvt2gray_frame_witness :
  wrapper_returns (neon_deinterlace_cvt2gray 0 16 bgr_c gray_d) gray_cpu
    (store_bytes (mem gray_cpu) 2000 (togray_bytes 19 (ramp 10 57))).
Proof.
  apply (neon_cvt2gray_frame 0 16 gray_cpu bgr_c gray_d (ramp 10 57) (replicate 16 0));
    [reflexivity | reflexivity | reflexivity | concretely ..].
Defined.

Lemma neon_combine_frames_witness :
  let out op := store_bytes (mem combine_cpu) 2000 (zip_with op (ramp 100 16) (ramp 150 16)) in
  wrapper_returns (neon_bitwise_or 0 16 gray_a gray_b gray_d) combine_cpu (out Z.lor) /\
  wrapper_returns (neon_add 0 16 gray_a gray_b gray_d) combine_cpu (out (fun x y => Z.min 255 (x + y))) /\
  wrapper_returns (neon_subtract 0 gray_a gray_b gray_d) combine_cpu (out (fun x y => Z.max 0 (x - y))).
Proof.
  apply (neon_combine_frames 0 16 combine_cpu gray_a gray_b gray_d (ramp 100 19) (ramp 150 19));
    [reflexivity | reflexivity | reflexivity | discriminate | reflexivity .. | concretely | concretely
    | concretely | concretely | concretely | concretely].
Defined.

Lemma neon_dispatch_witness :
  neon_add 0 16 bgr_c gray_a bgr_c = Calls "memcpy_add_3c_asm" [1200; 1000; 1200; 19].
Proof.
  apply (proj1 (neon_dispatch 0 16 bgr_c gray_a bgr_c _ _ ltac:(discriminate))).
  repeat split; try reflexivity. right; left. repeat split; reflexivity.
Defined.

(** The machine itself, run on the calls above. *)
Definition final_mem (f : string) (s : cpu) : option memory :=
  match call neon64 1000 f s with Halted s' => Some (mem s') | _ => None end.

Example run_threshold :
  (m ← final_mem "memcpy_threshold_asm" threshold_cpu; load 19 m 2000)
  = Some (replicate 8 0 ++ ramp 108 8 ++ [0; 0; 0]).
Proof. vm_compute. reflexivity. Qed.

Example run_togray :
  (m ← final_mem "memcpy_deinterlace_togray_asm" gray_cpu; load 19 m 2000)
  = Some (togray_bytes 19 (ramp 10 57)).
Proof. vm_compute. reflexivity. Qed.
