(* ===== verification/ArmFrames.v ===== *)
(** The 32-bit kernels as they are called: the thresholds of the first
    library's pipelines on a whole frame, the same calls on both processors,
    and the calls where the two processors differ. *)

From S2P Require Import Prelude Machine Simd SimdMem Stream Pixels Arm ArmLoops ArmTurns ArmKernels.
From S2P Require NeonLoops NeonKernels.
Local Open Scope Z_scope.

(** * A frame and the pixels after its last whole block *)

Lemma store_again m a l1 l2 l1' :
  buffer m a (l1 ++ l2) -> length l1' = length l1 ->
  store_bytes m a (l1' ++ l2) = store_bytes m a l1'.
Proof.
  intros (_ & _ & Hl & _) Hlen. apply map_eq. intros i. rewrite !lookup_store_bytes, length_app, Hlen.
  unfold bytes_at in Hl. apply load_Some in Hl as [_ Hi]. rewrite length_app in Hi.
  destruct (decide (a <= i < a + Z.of_nat (length l1))).
  - rewrite decide_True by lia. rewrite lookup_app_l by lia. done.
  - case_decide as Hd; [|done]. specialize (Hi (Z.to_nat (i - a)) ltac:(lia)).
    rewrite lookup_app_r by lia. rewrite Hlen, <- lookup_app_r, <- Hi by lia. f_equal. lia.
Qed.

Lemma arm_blocks_whole n : 16 <= n < 2 ^ 31 -> arm_blocks n (Z.to_nat (n / 16)).
Proof.
  intros Hn. pose proof (Z.div_le_lower_bound n 16 1 ltac:(lia) ltac:(lia)).
  split; [lia|]. rewrite Z2Nat.id by lia. lia.
Qed.

Lemma arm_blocks_small n : 0 <= n < 16 -> arm_blocks n 1.
Proof. intros Hn. split; [lia|]. rewrite Z.div_small by lia. done. Qed.

(** The bytes of a frame of [n] pixels that the blocks cover, and the others. *)
Definition covered (n : Z) (px : list Z) : list Z := take (16 * Z.to_nat (n / 16)) px.
Definition uncovered (n : Z) (px : list Z) : list Z := drop (16 * Z.to_nat (n / 16)) px.

Lemma length_covered n px :
  0 <= n -> Z.of_nat (length px) = n -> length (covered n px) = (16 * Z.to_nat (n / 16))%nat.
Proof.
  intros Hn Hl. unfold covered. rewrite length_take_le; [done|].
  pose proof (Z.mul_div_le n 16 ltac:(lia)). pose proof (Z.div_pos n 16 Hn ltac:(lia)). lia.
Qed.

(** * The first library's calls *)

(** [memcpy_threshold_asm(binary.data, binary.data, binary.size().area(), t)]
    and the same call of [memcpy_threshold_binary_asm]: the arguments that the
    pipelines of [vs1-legacy] pass, a frame being thresholded in place. *)
Definition threshold_args (data area t : Z) : list Z := [data; data; area; t].

(** A frame of bytes at [data], below 4 GiB and apart from the stack frame the
    routine makes. *)
Definition legacy_frame (s : arm) (data : Z) (px : list Z) : Prop :=
  buffer (amem s) data px /\ data + Z.of_nat (length px) < 2 ^ 32 /\
  separate data (length px) (frame s 4) 4.

#[export] Instance legacy_frame_dec s data px : Decision (legacy_frame s data px).
Proof. unfold legacy_frame. apply _. Defined.

Lemma separate_take a n1 n2 b n : separate a (n1 + n2) b n -> separate a n1 b n.
Proof. unfold separate. lia. Qed.

Lemma legacy_frame_blocks s data px k :
  legacy_frame s data px -> length px = (16 * k)%nat ->
  arm_source s 4 data k 16 data px /\ arm_dest s 4 data k.
Proof.
  intros (Hb & Hlo & Hs) Hl. pose proof Hb as (H0 & Hb2 & Hld & _). rewrite Hl in *.
  split; [split; [done | split; [done | split; [done | split; [done | auto]]]]|].
  unfold bytes_at in Hld. rewrite Hl in Hld.
  split; [split; [done | split; [done | by eapply load_mapped]] | split; [done|]].
  unfold separate in *. lia.
Qed.

(** The part of a frame the blocks cover is a frame. *)
Lemma legacy_frame_app s data l1 l2 :
  legacy_frame s data (l1 ++ l2) -> legacy_frame s data l1.
Proof.
  intros (Hb & Hlo & Hs). rewrite length_app in *.
  split; [by apply buffer_app in Hb as [? _]|].
  split; [lia|]. by apply separate_take in Hs.
Qed.

Section Legacy.

Context (s : arm) (data area t : Z) (px : list Z).
Hypothesis Hcall : called s (threshold_args data area t) [] 4.
Hypothesis Hframe : legacy_frame s data px.

(** What one of the two routines leaves: every pixel of a whole block through
    [f], the pixels after the last one as they were. *)
Definition thresholds_frame (f : string) (px_of : Z -> Z -> Z) : Prop :=
  arm_returns mem_S f s
    (store_bytes (pushed [FP] s) data
       (map (px_of (t mod 256)) (covered area px) ++ uncovered area px)).

(** The thresholds of the first library's pipelines, in place on a frame of
    [area] pixels: [memcpy_threshold_asm] keeps the pixels above the threshold
    and clears the others, [memcpy_threshold_binary_asm] makes them 255 and 0;
    pixels after the last whole block of sixteen stay, as does every other byte
    but the routine's stack slot, and the caller's registers are restored. *)
Theorem legacy_threshold_frame :
  Z.of_nat (length px) = area -> 16 <= area < 2 ^ 31 ->
  thresholds_frame "memcpy_threshold_asm" thresh_px /\
  thresholds_frame "memcpy_threshold_binary_asm" thresh_bin_px.
Proof.
  intros Hl Ha. unfold thresholds_frame.
  assert (Hpx : covered area px ++ uncovered area px = px) by apply take_drop.
  assert (Hf := Hframe). rewrite <- Hpx in Hf.
  pose proof (length_covered area px ltac:(lia) Hl) as Hlc.
  destruct (legacy_frame_blocks _ _ _ _ (legacy_frame_app _ _ _ _ Hf) Hlc) as [Hs Hd].
  assert (Hst : buffer (pushed [FP] s) data (covered area px ++ uncovered area px)).
  { destruct Hf as (Hb & _ & Hsep). apply buffer_store; [done|]. by rewrite length_words. }
  rewrite !(store_again _ _ (covered area px)) by (done || by rewrite length_map).
  exact (mem_threshold_writes s area _ data data t _ Hcall (arm_blocks_whole _ Ha) Hd Hs).
Qed.

(** On a frame of fewer than sixteen pixels the routines rewrite the sixteen
    bytes at its address, beyond its end. *)
Lemma legacy_threshold_overruns :
  0 <= area < 16 -> length px = 16%nat ->
  arm_returns mem_S "memcpy_threshold_binary_asm" s
    (store_bytes (pushed [FP] s) data (map (thresh_bin_px (t mod 256)) px)).
Proof.
  intros Ha Hl. destruct (legacy_frame_blocks _ _ _ 1 Hframe Hl) as [Hs Hd].
  exact (proj2 (mem_threshold_writes s area _ data data t _ Hcall (arm_blocks_small _ Ha) Hd Hs)).
Qed.

End Legacy.

(** * The same calls on both processors *)

Section Both.

Context (s : cpu) (t : arm) (n : Z) (k : nat).
Hypothesis Hn : whole_blocks n k.

Lemma whole_arm_blocks : arm_blocks n k.
Proof. destruct Hn as (? & H & ?). split; [lia|]. rewrite H. lia. Qed.

(** One routine of both sections leaves the same bytes at its destinations. *)
Definition agree (f : string) (dst dst' : Z) : Prop :=
  exists out, length out = (16 * k)%nat /\
    NeonLoops.returns f s (store_bytes (mem s) dst out) /\
    arm_returns neon32 f t (store_bytes (pushed [FP] t) dst' out).

(** C5. [memcpy_bitwise_or_asm] and [memcpy_subtract_asm] of [neon32.S] and of
    [neon64.S] write the same bytes for the same frames, wherever the frames
    and the destination are in each memory. *)
Theorem two_sources_agree a b dst a' b' dst' la lb :
  NeonLoops.args_are s [a; b; dst; n] ->
  buffer (mem s) a la -> buffer (mem s) b lb -> room (mem s) dst (16 * k) ->
  in_place_or_separate a dst (16 * k) -> in_place_or_separate b dst (16 * k) ->
  called t [a'; b'; dst'; n] [] 4 -> arm_dest t 4 dst' k ->
  arm_source t 4 dst' k 16 a' la -> arm_source t 4 dst' k 16 b' lb ->
  agree "memcpy_bitwise_or_asm" dst dst' /\ agree "memcpy_subtract_asm" dst dst'.
Proof.
  intros Hargs Ha Hb Hr Hsa Hsb Hc Hd Ha' Hb'.
  destruct (arm_source_bytes _ _ _ _ _ _ _ Ha') as [_ Hla].
  destruct (arm_source_bytes _ _ _ _ _ _ _ Hb') as [_ Hlb].
  destruct (NeonKernels.two_sources_write s n k Hn a b dst la lb) as (H1 & _ & H2); try done.
  destruct (neon32_two_sources_write t n k a' b' dst' la lb Hc whole_arm_blocks Hd Ha' Hb')
    as [H1' H2'].
  split; eexists; (split; [|split; [eassumption | eassumption]]); rewrite length_zip_with; lia.
Qed.

(** [neon.h] declares [memcpy_threshold_asm] with the source first.  Called
    so, with the frame [p] at [src] and the frame [q] at [dst], the routine of
    [neon64.S] writes the thresholded [p] to [dst]; that of [neon32.S] takes the
    first argument for the destination and overwrites the source frame with the
    thresholded [q]. *)
Theorem threshold_prototype src dst th p q src' dst' :
  NeonLoops.args_are s [src; dst; n; th] -> is_byte th -> length p = (16 * k)%nat ->
  buffer (mem s) src p -> room (mem s) dst (16 * k) -> in_place_or_separate src dst (16 * k) ->
  called t [src'; dst'; n; th] [] 4 -> arm_dest t 4 src' k -> arm_source t 4 src' k 16 dst' q ->
  NeonLoops.returns "memcpy_threshold_asm" s (store_bytes (mem s) dst (map (thresh_px th) p)) /\
  arm_returns neon32 "memcpy_threshold_asm" t
    (store_bytes (pushed [FP] t) src' (map (thresh_px th) q)).
Proof.
  intros Ha Hth Hl Hp Hr Hs Hc Hd Hq. split.
  - by apply (NeonKernels.threshold_writes s n k Hn src dst th p).
  - pose proof (neon32_threshold_writes t n k src' dst' th q Hc whole_arm_blocks Hd Hq) as [H _].
    by rewrite (Z.mod_small th 256) in H by exact Hth.
Qed.

End Both.

(** The pixel functions of [memcpy_compare3_add_asm] differ where the scaled
    primary channel does not fit in eight bits: there the 32-bit one wraps. *)
Lemma cmp3_px32_bound p c1 c2 a :
  is_byte p -> is_byte a ->
  let kept := if (c1 <? p) && (c2 <? p) then p / 2 ^ (p / 64) else p in
  cmp3_px32 p c1 c2 a <= cmp3_px p c1 c2 a /\
  (kept < 16 -> cmp3_px32 p c1 c2 a = cmp3_px p c1 c2 a).
Proof.
  intros Hp Ha kept. unfold cmp3_px32, cmp3_px. fold kept.
  assert (Hk : 0 <= kept).
  { unfold kept. unfold is_byte in *. destruct (_ && _); [apply Z.div_pos|]; try lia.
    apply Z.pow_pos_nonneg; [lia | apply Z.div_pos; lia]. }
  pose proof (Z.mod_pos_bound kept 16 ltac:(lia)). pose proof (Z.mod_le kept 16 Hk ltac:(lia)).
  split; [lia|]. intros Hlt. rewrite Z.mod_small by lia. lia.
Qed.

(** * Concrete calls *)

(** A processor with the given arguments and stack arguments, the stack pointer
    at 9000 and memory holding the given runs of bytes. *)
Definition arm_with (args sargs : list Z) (runs : list (Z * list Z)) : arm :=
  ArmState (args ++ replicate (11 - length args) 5 ++ [8992; 0; 9000; 4242])
    (replicate 32 (replicate 8 0)) false false false false
    (fold_right (fun '(a, l) m => store_bytes m a l) ∅
       (runs ++ [(8960, replicate 40 0); (9000, flat_map le32 sargs)])) 0.

Lemma legacy_threshold_frame_witness :
  let px := ramp 100 37 in
  let s := arm_with (threshold_args 1000 37 120) [] [(1000, px)] in
  load 37 (store_bytes (pushed [FP] s) 1000
             (map (thresh_bin_px 120) (covered 37 px) ++ uncovered 37 px)) 1000
    = Some (replicate 21 0 ++ replicate 11 255 ++ [132; 133; 134; 135; 136]) /\
  thresholds_frame s 1000 37 120 px "memcpy_threshold_binary_asm" thresh_bin_px.
Proof.
  split; [vm_compute; reflexivity|].
  eapply (legacy_threshold_frame (arm_with (threshold_args 1000 37 120) [] [(1000, ramp 100 37)])
            1000 37 120 (ramp 100 37)); [concretely | concretely | reflexivity | split; [discriminate | reflexivity]].
Defined.

Lemma two_sources_agree_witness :
  agree (NeonKernels.kernel_cpu [1000; 1100; 4000; 37])
    (arm_with [1000; 1100; 4000; 37] [] kernel_runs) 2 "memcpy_subtract_asm" 4000 4000.
Proof.
  apply (two_sources_agree (NeonKernels.kernel_cpu [1000; 1100; 4000; 37])
           (arm_with [1000; 1100; 4000; 37] [] kernel_runs) 37 2 ltac:(concretely)
           1000 1100 4000 1000 1100 4000 (ramp 100 32) (ramp 90 32)); concretely.
Defined.

Lemma threshold_prototype_witness :
  let t := arm_with [1000; 1100; 32; 110] [] kernel_runs in
  arm_returns neon32 "memcpy_threshold_asm" t
    (store_bytes (pushed [FP] t) 1000 (map (thresh_px 110) (ramp 90 32))).
Proof.
  intros t.
  apply (threshold_prototype (NeonKernels.kernel_cpu [1000; 1100; 32; 110]) t 32 2 ltac:(concretely)
           1000 1100 110 (ramp 100 32) (ramp 90 32) 1000 1100); concretely.
Defined.

Lemma neon32_split_writes_witness :
  let s := arm_with [2000; 4000; 37; 1] [255; 16; 3] kernel_runs in
  arm_returns neon32 "memcpy_split_wst_asm" s
    (store_bytes (pushed [4%nat; 5%nat; 6%nat; FP] s) 4000
       (pixels_map (split_px 1 255 16 3) (ramp 100 96))).
Proof.
  intros s. eapply (neon32_split_writes s 37 2 1 2000 4000 255 16 3 (ramp 100 96)); concretely.
Defined.
