(* ===== verification/Floats.v ===== *)
(** IEEE 754 numbers as the sources use them: [double] and [float] values, the
    conversions between them and the integer types, and the arithmetic of the
    measuring code, on the Standard Library's executable [SpecFloat]. *)

From S2P Require Import Prelude.
From Stdlib Require Export Floats.SpecFloat.
Local Open Scope Z_scope.

Abbreviation double := spec_float.

(** Round to the [double] or [float] format. *)
Definition round (prec emax : Z) (x : double) : double :=
  match x with
  | S754_finite s m e => binary_round prec emax s m e
  | _ => x
  end.
Definition to_float (x : double) : double := round 24 128 x.
(** A [float] as a [double]: the same number, with the digits of the format. *)
Definition to_double (x : double) : double := round 53 1024 x.

(** Integer to [double] or [float], rounding to nearest. *)
Definition double_of_Z (z : Z) : double := binary_normalize 53 1024 z 0 false.
Definition float_of_Z (z : Z) : double := binary_normalize 24 128 z 0 false.

(** The integral part, towards zero; none for infinities and NaN. *)
Definition trunc (x : double) : option Z :=
  match x with
  | S754_zero _ => Some 0
  | S754_finite s m e =>
      let a := if 0 <=? e then Zpos m * 2 ^ e else Zpos m / 2 ^ (- e) in
      Some (if s then - a else a)
  | _ => None
  end.

(** Conversion to an integer type: undefined when the integral part does not
    fit. *)
Definition cast_to (lo hi : Z) (x : double) : option Z :=
  match trunc x with
  | Some z => if (lo <=? z) && (z <=? hi) then Some z else None
  | None => None
  end.
Definition int_of_double : double -> option Z := cast_to (- 2 ^ 31) (2 ^ 31 - 1).
Definition uint_of_double : double -> option Z := cast_to 0 (2 ^ 32 - 1).
Definition uint64_of_double : double -> option Z := cast_to 0 (2 ^ 64 - 1).

Definition dadd : double -> double -> double := SFadd 53 1024.
Definition dsub : double -> double -> double := SFsub 53 1024.
Definition dmul : double -> double -> double := SFmul 53 1024.
Definition ddiv : double -> double -> double := SFdiv 53 1024.
Definition fdiv : double -> double -> double := SFdiv 24 128.
Definition fmul : double -> double -> double := SFmul 24 128.
Definition fadd : double -> double -> double := SFadd 24 128.
Definition fsub : double -> double -> double := SFsub 24 128.
Definition flt : double -> double -> bool := SFltb.

(** * Small integers are exact *)

Lemma digits2_size p : digits2_pos p = Pos.size p.
Proof. induction p as [p IH|p IH|]; simpl; congruence. Qed.

Lemma digits2_bound p k : 0 < k -> Zpos p < 2 ^ k -> Zpos (digits2_pos p) <= k.
Proof.
  intros Hk Hp. rewrite digits2_size. pose proof (Pos.size_le p) as Hs.
  destruct (Z.le_gt_cases (Zpos (Pos.size p)) k) as [|Hgt]; [done|exfalso].
  assert (Hp2 : 2 ^ (k + 1) <= 2 ^ Zpos (Pos.size p)) by (apply Z.pow_le_mono_r; lia).
  rewrite Z.pow_add_r in Hp2 by lia.
  assert (Z.pos (2 ^ Pos.size p) = 2 ^ Zpos (Pos.size p)) by apply Pos2Z.inj_pow. lia.
Qed.

Lemma iter_xO m d : Pos.iter xO m d = (m * 2 ^ d)%positive.
Proof.
  revert d. refine (Pos.peano_ind _ _ _).
  - simpl. lia.
  - intros d IH. rewrite Pos.iter_succ, IH, Pos.pow_succ_r. lia.
Qed.

Lemma digits2_iter_xO m d : digits2_pos (Pos.iter xO m d) = (digits2_pos m + d)%positive.
Proof.
  revert d. refine (Pos.peano_ind _ _ _).
  - simpl. lia.
  - intros d IH. rewrite Pos.iter_succ. simpl. rewrite IH. lia.
Qed.

(** A mantissa that already has 53 digits is not rounded. *)
Lemma round_aux_exact s m e :
  Zpos (digits2_pos m) = 53 -> -1074 <= e <= 971 ->
  binary_round_aux 53 1024 s (Zpos m) e loc_Exact = S754_finite s m e.
Proof.
  intros Hd He.
  assert (Hs : shr_fexp 53 1024 (Zpos m) e loc_Exact = (Build_shr_record (Zpos m) false false, e)).
  { unfold shr_fexp, fexp, emin. cbn [Zdigits2]. rewrite Hd.
    replace (Z.max (53 + e - 53) (3 - 1024 - 53) - e) with 0 by lia. done. }
  unfold binary_round_aux. rewrite Hs. cbn [shr_m loc_of_shr_record round_nearest_even].
  rewrite Hs. cbn [shr_m]. by destruct (Z.leb_spec e (1024 - 53)); [|lia].
Qed.

Lemma binary_round_small s p :
  Zpos p < 2 ^ 53 ->
  exists m e, binary_round 53 1024 s p 0 = S754_finite s m e /\ e <= 0 /\
    Zpos m = Zpos p * 2 ^ (- e).
Proof.
  intros Hp. pose proof (digits2_bound p 53 ltac:(lia) Hp) as Hd.
  unfold binary_round, shl_align, fexp, emin.
  replace (Z.max (Z.pos (digits2_pos p) + 0 - 53) (3 - 1024 - 53) - 0)
    with (Z.pos (digits2_pos p) - 53) by lia.
  destruct (Z.pos (digits2_pos p) - 53) as [|k|k] eqn:E; [| lia |].
  - exists p, 0. rewrite round_aux_exact by lia. rewrite Z.mul_1_r. split; [done|]. lia.
  - exists (Pos.iter xO p k), (Zneg k).
    replace (Z.max (Z.pos (digits2_pos p) + 0 - 53) (3 - 1024 - 53)) with (Zneg k) by lia.
    rewrite round_aux_exact; [| rewrite digits2_iter_xO; lia | lia].
    rewrite iter_xO. split; [done|]. split; [lia|].
    change (- Z.neg k) with (Z.pos k). by rewrite Pos2Z.inj_mul, Pos2Z.inj_pow.
Qed.

Lemma trunc_shifted s m e p :
  e <= 0 -> Zpos m = Zpos p * 2 ^ (- e) -> trunc (S754_finite s m e) = Some (if s then - Zpos p else Zpos p).
Proof.
  intros He Hm. unfold trunc. destruct (Z.leb_spec 0 e).
  - assert (e = 0) as -> by lia. rewrite Hm. cbn. destruct s; f_equal; lia.
  - rewrite Hm, Z.div_mul; [done|]. pose proof (Z.pow_pos_nonneg 2 (- e)). lia.
Qed.

Lemma trunc_double_of_Z z : - 2 ^ 53 < z < 2 ^ 53 -> trunc (double_of_Z z) = Some z.
Proof.
  intros Hz. unfold double_of_Z, binary_normalize. destruct z as [|p|p]; [done|..].
  - destruct (binary_round_small false p ltac:(lia)) as (m & e & -> & He & Hm).
    exact (trunc_shifted false m e p He Hm).
  - destruct (binary_round_small true p ltac:(lia)) as (m & e & -> & He & Hm).
    exact (trunc_shifted true m e p He Hm).
Qed.

(** An [int] stored as a [double] is read back unchanged. *)
Lemma int_of_double_of_Z z :
  - 2 ^ 31 <= z <= 2 ^ 31 - 1 -> int_of_double (double_of_Z z) = Some z.
Proof.
  intros Hz. unfold int_of_double, cast_to. rewrite trunc_double_of_Z by lia.
  destruct (Z.leb_spec (- 2 ^ 31) z), (Z.leb_spec z (2 ^ 31 - 1)); done || lia.
Qed.

(** * The order *)

(** The numbers in order: sign and kind, exponent, digits. *)
Definition rank (x : double) : option (Z * Z * Z) :=
  match x with
  | S754_nan => None
  | S754_infinity s => Some (if s then -2 else 2, 0, 0)
  | S754_zero _ => Some (0, 0, 0)
  | S754_finite true m e => Some (-1, - e, Zneg m)
  | S754_finite false m e => Some (1, e, Zpos m)
  end.

Definition rank_lt (a b : Z * Z * Z) : Prop :=
  let '(x1, y1, z1) := a in let '(x2, y2, z2) := b in
  x1 < x2 \/ x1 = x2 /\ (y1 < y2 \/ y1 = y2 /\ z1 < z2).

Lemma SFltb_rank x y :
  SFltb x y = true <-> exists a b, rank x = Some a /\ rank y = Some b /\ rank_lt a b.
Proof.
  assert (Hgen : forall a b, (exists a' b', Some a = Some a' /\ Some b = Some b' /\ rank_lt a' b') <-> rank_lt a b).
  { intros a b. split; [by intros (? & ? & [= <-] & [= <-] & ?) | eauto]. }
  unfold SFltb, SFcompare.
  destruct x as [[]|[]| |[] mx ex], y as [[]|[]| |[] my ey]; cbn [rank];
    try (split; [done | by intros (? & ? & ? & ? & ?)]);
    rewrite Hgen; unfold rank_lt;
    try (split; [intros; try done; lia | intros; try done; lia]).
  - change (Pos.compare_cont Eq mx my) with (Pos.compare mx my).
    destruct (Z.compare_spec ex ey) as [->| |], (Pos.compare_spec mx my) as [->| |]; cbn;
      (split; [intros; try done; lia | intros; try done; lia]).
  - change (Pos.compare_cont Eq mx my) with (Pos.compare mx my).
    destruct (Z.compare_spec ex ey) as [->| |], (Pos.compare_spec mx my) as [->| |]; cbn;
      (split; [intros; try done; lia | intros; try done; lia]).
Qed.

Lemma SFltb_trans x y z : SFltb x y = true -> SFltb y z = true -> SFltb x z = true.
Proof.
  rewrite !SFltb_rank. intros (a & b & Ha & Hb & Hab) (b' & c & Hb' & Hc & Hbc).
  assert (b' = b) as -> by congruence. exists a, c. split; [done|]. split; [done|].
  destruct a as [[? ?] ?], b as [[? ?] ?], c as [[? ?] ?]. unfold rank_lt in *. lia.
Qed.

Lemma SFltb_irrefl x : SFltb x x = false.
Proof.
  apply not_true_is_false. rewrite SFltb_rank. intros (a & b & Ha & Hb & Hab).
  assert (b = a) as -> by congruence. destruct a as [[? ?] ?]. unfold rank_lt in Hab. lia.
Qed.

(** If [x] is not below [y] but below [z], then [y] is below [z] too. *)
Lemma SFltb_not_lt x y z : SFltb x y = false -> SFltb x z = true -> y <> S754_nan -> SFltb y z = true.
Proof.
  intros Hxy Hxz Hy. apply SFltb_rank in Hxz as (a & c & Ha & Hc & Hac).
  destruct (rank y) as [b|] eqn:Hb; [|by destruct y as [| | |[]]].
  apply SFltb_rank. exists b, c. split; [done|]. split; [done|].
  assert (Hn : ~ rank_lt a b).
  { intros Hab. apply not_true_iff_false in Hxy. apply Hxy, SFltb_rank. eauto. }
  destruct a as [[? ?] ?], b as [[? ?] ?], c as [[? ?] ?]. unfold rank_lt in *. lia.
Qed.

Lemma SFltb_asym x y : SFltb x y = true -> SFltb y x = false.
Proof.
  intros Hxy. apply not_true_is_false. intros Hyx.
  pose proof (SFltb_trans _ _ _ Hxy Hyx) as H. by rewrite SFltb_irrefl in H.
Qed.
