(* ===== verification/Json.v ===== *)
(** JSON values as the sources see them through [wpi::json], the exceptions its
    accessors throw, and the result type of code that may throw or run into
    undefined behaviour. *)

From S2P Require Import Prelude Floats.
Local Open Scope Z_scope.

(** * Results *)

(** The exceptions derived from [wpi::json::exception], and [std::out_of_range]
    of the standard containers. *)
Inductive exn :=
| TypeError
| KeyNotFound (key : string)
| IndexOutOfRange (i : nat)
| ParseError
| StdOutOfRange.

Definition is_json_exception (e : exn) : bool :=
  match e with StdOutOfRange => false | _ => true end.

(** A computation ends with a value, throws, or is undefined. *)
Inductive res (A : Type) :=
| Ok (a : A)
| Throw (e : exn)
| Undefined.
Arguments Ok {A} _.
Arguments Throw {A} _.
Arguments Undefined {A}.

#[export] Instance res_ret : MRet res := @Ok.
#[export] Instance res_bind : MBind res := fun A B f r =>
  match r with Ok a => f a | Throw e => Throw e | Undefined => Undefined end.

(** [try { r } catch(const wpi::json::exception& e) { h e }]. *)
Definition try_json {A} (r : res A) (h : exn -> res A) : res A :=
  match r with
  | Throw e => if is_json_exception e then h e else Throw e
  | _ => r
  end.

Definition of_option {A} (o : option A) : res A :=
  match o with Some a => Ok a | None => Undefined end.

#[export] Instance exn_eq_dec : EqDecision exn.
Proof. solve_decision. Defined.
#[export] Instance double_eq_dec : EqDecision double.
Proof. solve_decision. Defined.

(** * Values *)

(** Numbers keep the three representations of the library; an object is its
    key/value list in key order. *)
Inductive json :=
| JNull
| JBool (b : bool)
| JInt (z : Z)
| JUint (z : Z)
| JFloat (x : double)
| JString (s : string)
| JArray (l : list json)
| JObject (kvs : list (string * json)).

Fixpoint assoc {A} (k : string) (kvs : list (string * A)) : option A :=
  match kvs with
  | [] => None
  | (k', v) :: kvs' => if String.eqb k k' then Some v else assoc k kvs'
  end.

Definition is_object (j : json) : bool :=
  match j with JObject _ => true | _ => false end.

(** [count(key)]: 0 for anything but an object. *)
Definition count (j : json) (k : string) : nat :=
  match j with
  | JObject kvs => match assoc k kvs with Some _ => 1 | None => 0 end
  | _ => 0
  end.

Definition at_key (j : json) (k : string) : res json :=
  match j with
  | JObject kvs => match assoc k kvs with Some v => Ok v | None => Throw (KeyNotFound k) end
  | _ => Throw TypeError
  end.

Definition at_idx (j : json) (i : nat) : res json :=
  match j with
  | JArray l => match l !! i with Some v => Ok v | None => Throw (IndexOutOfRange i) end
  | _ => Throw TypeError
  end.

(** What a range-based [for] visits: the elements of an array, the mapped
    values of an object, nothing for null and the value itself otherwise. *)
Definition elements (j : json) : list json :=
  match j with
  | JNull => []
  | JArray l => l
  | JObject kvs => map snd kvs
  | _ => [j]
  end.

Definition get_string (j : json) : res string :=
  match j with JString s => Ok s | _ => Throw TypeError end.

(** [get<unsigned int>]: any number or boolean, converted. *)
Definition get_uint (j : json) : res Z :=
  match j with
  | JInt z | JUint z => Ok (wrapu 32 z)
  | JFloat x => of_option (uint_of_double x)
  | JBool b => Ok (if b then 1 else 0)
  | _ => Throw TypeError
  end.

(** [get<double>] ([number_float_t]: numbers only) and [get<float>]. *)
Definition get_double (j : json) : res double :=
  match j with
  | JInt z | JUint z => Ok (double_of_Z z)
  | JFloat x => Ok x
  | _ => Throw TypeError
  end.
Definition get_float (j : json) : res double :=
  match j with
  | JInt z | JUint z => Ok (float_of_Z z)
  | JFloat x => Ok (to_float x)
  | JBool b => Ok (float_of_Z (if b then 1 else 0))
  | _ => Throw TypeError
  end.

(** ASCII case folding of [wpi::equals_lower]. *)
Definition lower (c : Ascii.ascii) : Ascii.ascii :=
  let n := Ascii.nat_of_ascii c in
  if ((65 <=? n) && (n <=? 90))%nat then Ascii.ascii_of_nat (n + 32) else c.

Fixpoint lower_string (s : string) : string :=
  match s with
  | EmptyString => EmptyString
  | String c s' => String (lower c) (lower_string s')
  end.

Definition equals_lower (a b : string) : bool := String.eqb (lower_string a) (lower_string b).

Lemma equals_lower_refl s : equals_lower s s = true.
Proof. apply String.eqb_refl. Qed.

Lemma count_at_key j k : (0 < count j k)%nat <-> exists v, at_key j k = Ok v.
Proof.
  destruct j; simpl; try (split; [lia | by intros [? ?]]).
  destruct (assoc k kvs) as [v|]; split; intros H; try lia; [by exists v | by destruct H].
Qed.

Lemma at_key_json_exception j k e : at_key j k = Throw e -> is_json_exception e = true.
Proof. destruct j; simpl; try (by intros [= <-]). destruct (assoc k kvs); [done|]. by intros [= <-]. Qed.
