(* ===== verification/World.v ===== *)
(** What the program talks to: the camera server library (cscore), the network
    tables (ntcore), the heap of matrix buffers that [cv::Mat] headers share,
    and the console.  The libraries are interfaces with the behaviour their
    documentation promises; [Instances.v] has a concrete one for evaluation. *)

From S2P Require Import Prelude Floats Json.
Local Open Scope Z_scope.

(** * Video modes ([cs::VideoMode]) *)

Record VideoMode := mkMode { pixelFormat : Z; width : Z; height : Z; fps : Z }.

Definition kUnknown : Z := 0.
Definition kMJPEG : Z := 1.
Definition kYUYV : Z := 2.
Definition kRGB565 : Z := 3.
Definition kBGR : Z := 4.
Definition kGray : Z := 5.

Definition no_mode : VideoMode := mkMode 0 0 0 0.

(** [explicit operator bool]: true exactly when the format is unknown. *)
Definition mode_bool (m : VideoMode) : bool := pixelFormat m =? kUnknown.

(** * The camera server library *)

Class CsCore (C : Type) := {
  (* sources *)
  cs_UsbCamera : string -> string -> C -> Z * C;
  cs_SetConfigJson : Z -> json -> C -> C;
  cs_SetConnectionKeepOpen : Z -> C -> C;
  cs_GetName : Z -> C -> string;
  cs_GetVideoMode : Z -> C -> VideoMode;
  cs_SetVideoMode : Z -> VideoMode -> C -> C;
  cs_IsConnected : Z -> C -> bool;
  cs_SetBrightness : Z -> Z -> C -> C;
  cs_SetWhiteBalanceAuto : Z -> C -> C;
  cs_SetWhiteBalanceManual : Z -> Z -> C -> C;
  cs_SetExposureAuto : Z -> C -> C;
  cs_SetExposureManual : Z -> Z -> C -> C;
  (* sources fed by the program, and sinks *)
  cs_CvSource : string -> VideoMode -> C -> Z * C;
  cs_PutFrame : Z -> Z -> C -> C;
  cs_CvSink : string -> C -> Z * C;
  cs_SetSource : Z -> Z -> C -> C;
  cs_AddServer : string -> option Z -> C -> Z * C;
  cs_SinkName : Z -> C -> string;
  cs_GetPort : Z -> C -> Z;
  (* the sink the camera server keeps for a source, its settings, and the
     compression of a stream *)
  cs_GetVideo : Z -> C -> Z * C;
  cs_SetSinkConfigJson : Z -> json -> C -> C;
  cs_PutVideo : string -> Z -> Z -> C -> Z * C;
  cs_SetCompression : Z -> Z -> C -> C;
  cs_SetDefaultCompression : Z -> Z -> C -> C
}.

(** * The network tables *)

Inductive nt_kind := KBoolean | KDouble | KInteger | KString.

(** Entries are named by their full path. *)
Class Tables (T : Type) := {
  nt_SetDouble : string -> double -> T -> T;
  nt_GetDouble : string -> double -> T -> double;
  nt_SetBoolean : string -> bool -> T -> T;
  nt_GetBoolean : string -> bool -> T -> bool;
  nt_SetString : string -> string -> T -> T;
  nt_SetInteger : string -> Z -> T -> T;
  nt_GetInteger : string -> Z -> T -> Z;
  nt_AddListener : string -> T -> Z * T;
  nt_RemoveListener : Z -> T -> T;
  nt_Flush : T -> T;
  nt_StartClient : string -> T -> T;
  nt_SetServerTeam : Z -> T -> T;
  nt_StartDSClient : T -> T;
  nt_StartServer : T -> T;
  nt_SetServer : string -> T -> T;
  nt_StartClientTeam : Z -> T -> T;
  nt_StartClientHost : string -> T -> T;
  nt_IsConnected : T -> bool;
  nt_Delete : string -> T -> T;
  (* the type an entry has, if it has a value *)
  nt_type : string -> T -> option nt_kind
}.

(** An entry accepts a value when it has none yet or one of the same type. *)
Definition nt_accepts {T} `{Tables T} (k : nt_kind) (key : string) (t : T) : Prop :=
  nt_type key t = None \/ nt_type key t = Some k.

(** The documented behaviour of setting and getting numbers: an entry that
    accepts a value returns it, and other entries are not affected. *)
Class TablesLaws (T : Type) `{Tables T} := {
  nt_get_set_double key d v t :
    nt_accepts KDouble key t -> nt_GetDouble key d (nt_SetDouble key v t) = v;
  nt_get_set_double_ne key key' d v t :
    key <> key' -> nt_GetDouble key d (nt_SetDouble key' v t) = nt_GetDouble key d t;
  nt_type_set_double key v t :
    nt_accepts KDouble key t -> nt_type key (nt_SetDouble key v t) = Some KDouble;
  nt_type_set_double_ne key key' v t :
    key <> key' -> nt_type key (nt_SetDouble key' v t) = nt_type key t;
  nt_get_set_integer key d v t :
    nt_accepts KInteger key t -> nt_GetInteger key d (nt_SetInteger key v t) = v
}.

(** The text of an exception's [what()]. *)
Class What := what : exn -> string.

(** * Matrices *)

(** A [cv::Mat_] header: its shape and the buffer it shares. *)
Record Mat_ := mkMat_ { mrows : nat; mcols : nat; mbuf : nat }.

(** Copying a header shares the buffer; [reshape(0, rows)] keeps it too. *)
Definition mat_area (m : Mat_) : nat := mrows m * mcols m.
Definition reshape (m : Mat_) (rows : nat) : Mat_ := mkMat_ rows (mat_area m / rows) (mbuf m).

(** The static default calibrations: a zero 3x3 and a zero 1x5 matrix. *)
Definition default_matrix : Mat_ := mkMat_ 3 3 0.
Definition default_distort : Mat_ := mkMat_ 1 5 1.

(** * The world *)

Record world (C T : Type) := World {
  w_cs : C;
  w_nt : T;
  w_bufs : gmap nat (list double);
  w_out : list string        (* console lines, latest first *)
}.
Arguments World {C T} _ _ _ _.
Arguments w_cs {C T} _.
Arguments w_nt {C T} _.
Arguments w_bufs {C T} _.
Arguments w_out {C T} _.

(** Computations that read and change the world and may throw; the changes made
    before a throw stay. *)
Definition M (C T A : Type) : Type := world C T -> world C T * res A.

Section Monad.

Context {C T : Type}.

Definition ret {A} (a : A) : M C T A := fun w => (w, Ok a).
Definition bind {A B} (m : M C T A) (f : A -> M C T B) : M C T B := fun w =>
  match m w with
  | (w', Ok a) => f a w'
  | (w', Throw e) => (w', Throw e)
  | (w', Undefined) => (w', Undefined)
  end.

Definition catch_json {A} (m : M C T A) (h : exn -> M C T A) : M C T A := fun w =>
  match m w with
  | (w', Throw e) => if is_json_exception e then h e w' else (w', Throw e)
  | r => r
  end.

Definition lift {A} (r : res A) : M C T A := fun w => (w, r).

Definition on_cs (f : C -> C) : M C T unit := fun w =>
  (World (f (w_cs w)) (w_nt w) (w_bufs w) (w_out w), Ok tt).
Definition on_cs_new (f : C -> Z * C) : M C T Z := fun w =>
  let (h, c) := f (w_cs w) in (World c (w_nt w) (w_bufs w) (w_out w), Ok h).
Definition ask_cs {A} (f : C -> A) : M C T A := fun w => (w, Ok (f (w_cs w))).

Definition on_nt (f : T -> T) : M C T unit := fun w =>
  (World (w_cs w) (f (w_nt w)) (w_bufs w) (w_out w), Ok tt).
Definition on_nt_new (f : T -> Z * T) : M C T Z := fun w =>
  let (h, t) := f (w_nt w) in (World (w_cs w) t (w_bufs w) (w_out w), Ok h).
Definition ask_nt {A} (f : T -> A) : M C T A := fun w => (w, Ok (f (w_nt w))).

Definition print (s : string) : M C T unit := fun w =>
  (World (w_cs w) (w_nt w) (w_bufs w) (s :: w_out w), Ok tt).

(** The elements a matrix header shows; [operator[]] reads and writes them
    without a bounds check, so an access outside the buffer is undefined. *)
Definition mat_data (m : Mat_) (w : world C T) : list double :=
  default [] (w_bufs w !! mbuf m).

Definition mat_write (m : Mat_) (i j : nat) (x : double) : M C T unit := fun w =>
  match w_bufs w !! mbuf m with
  | Some l =>
      if (i * mcols m + j <? length l)%nat
      then (World (w_cs w) (w_nt w) (<[mbuf m := <[(i * mcols m + j)%nat := x]> l]> (w_bufs w))
              (w_out w), Ok tt)
      else (w, Undefined)
  | None => (w, Undefined)
  end.

End Monad.

Notation "'let*' x := m 'in' k" := (bind m (fun x => k))
  (at level 10, x pattern, m at level 100, k at level 200) : vs_scope.
Notation "m ;* k" := (bind m (fun _ => k))
  (at level 100, k at level 200, right associativity) : vs_scope.

(** Running a list of effects in order, as a [for] loop does. *)
Fixpoint for_each {C T A} (f : A -> M C T unit) (l : list A) : M C T unit :=
  match l with
  | [] => ret tt
  | a :: l' => bind (f a) (fun _ => for_each f l')
  end.

Lemma bind_ok {C T A B} (m : M C T A) (f : A -> M C T B) w w' a :
  m w = (w', Ok a) -> bind m f w = f a w'.
Proof. unfold bind. by intros ->. Qed.

Lemma bind_inv {C T A B} (m : M C T A) (f : A -> M C T B) w w' b :
  bind m f w = (w', Ok b) -> exists w1 a, m w = (w1, Ok a) /\ f a w1 = (w', Ok b).
Proof. unfold bind. destruct (m w) as [w1 [a|e|]]; try done. eauto. Qed.

Lemma lift_inv {C T A} (r : res A) (w w' : world C T) a : lift r w = (w', Ok a) -> w' = w /\ r = Ok a.
Proof. by intros [= <- <-]. Qed.

Lemma for_each_app {C T A} (f : A -> M C T unit) l1 l2 w w' :
  for_each f l1 w = (w', Ok tt) -> for_each f (l1 ++ l2) w = for_each f l2 w'.
Proof.
  revert w. induction l1 as [|a l1 IH]; intros w; simpl.
  - by intros [= ->].
  - unfold bind. destruct (f a w) as [w1 [[]|e|]]; [apply IH | done..].
Qed.

(** [decimal] of the standard library's [std::to_string] on integers. *)
Definition digit (n : nat) : string := String (Ascii.ascii_of_nat (48 + n)) EmptyString.
Fixpoint decimal_nat (fuel n : nat) : string :=
  match fuel with
  | O => EmptyString
  | S f => if (n <? 10)%nat then digit n else decimal_nat f (n / 10) +:+ digit (n mod 10)
  end.
Definition to_string (n : nat) : string := decimal_nat (S n) n.
