(* ===== verification/Instances.v ===== *)
(** Concrete camera-server and network-table states on which the development
    is evaluated, and the laws of the tables proved for them. *)

From S2P Require Import Prelude Floats Json World.
Local Open Scope Z_scope.

(** * A camera server: sources by handle, and the calls made on them *)

Record sim_source := mkSource { s_name : string; s_mode : VideoMode; s_connected : bool }.

Inductive cs_call :=
| CallBrightness (h v : Z)
| CallWhiteBalanceAuto (h : Z)
| CallWhiteBalance (h v : Z)
| CallExposureAuto (h : Z)
| CallExposure (h v : Z)
| CallSetSource (sink src : Z)
| CallPutFrame (src frame : Z)
| CallKeepOpen (h : Z)
| CallConfig (h : Z)
| CallCompression (h q : Z)
| CallDefaultCompression (h q : Z).

Record sim_cs := mkSim {
  sim_sources : list sim_source;
  sim_sinks : list string;
  sim_ports : list Z;
  sim_calls : list cs_call    (* latest first *)
}.

Definition sim_find (h : Z) (c : sim_cs) : option sim_source :=
  if h <=? 0 then None else sim_sources c !! Z.to_nat (h - 1).

Definition sim_log (x : cs_call) (c : sim_cs) : sim_cs :=
  mkSim (sim_sources c) (sim_sinks c) (sim_ports c) (x :: sim_calls c).

Definition sim_add (s : sim_source) (c : sim_cs) : Z * sim_cs :=
  (Z.of_nat (S (length (sim_sources c))),
   mkSim (sim_sources c ++ [s]) (sim_sinks c) (sim_ports c) (sim_calls c)).

#[export] Instance sim_CsCore : CsCore sim_cs := {
  cs_UsbCamera n p c := sim_add (mkSource n (mkMode kMJPEG 640 480 30) (negb (String.eqb p ""))) c;
  cs_SetConfigJson h j c := sim_log (CallConfig h) c;
  cs_SetConnectionKeepOpen h c := sim_log (CallKeepOpen h) c;
  cs_GetName h c := match sim_find h c with Some s => s_name s | None => "" end;
  cs_GetVideoMode h c := match sim_find h c with Some s => s_mode s | None => no_mode end;
  cs_SetVideoMode h m c :=
    mkSim (alter (fun s => mkSource (s_name s) m (s_connected s)) (Z.to_nat (h - 1)) (sim_sources c))
      (sim_sinks c) (sim_ports c) (sim_calls c);
  cs_IsConnected h c := match sim_find h c with Some s => s_connected s | None => false end;
  cs_SetBrightness h v c := sim_log (CallBrightness h v) c;
  cs_SetWhiteBalanceAuto h c := sim_log (CallWhiteBalanceAuto h) c;
  cs_SetWhiteBalanceManual h v c := sim_log (CallWhiteBalance h v) c;
  cs_SetExposureAuto h c := sim_log (CallExposureAuto h) c;
  cs_SetExposureManual h v c := sim_log (CallExposure h v) c;
  cs_CvSource n m c := sim_add (mkSource n m true) c;
  cs_PutFrame h f c := sim_log (CallPutFrame h f) c;
  cs_CvSink n c :=
    (Z.of_nat (S (length (sim_sinks c))),
     mkSim (sim_sources c) (sim_sinks c ++ [n]) (sim_ports c) (sim_calls c));
  cs_SetSource sink src c := sim_log (CallSetSource sink src) c;
  cs_AddServer n p c :=
    (Z.of_nat (S (length (sim_sinks c))),
     mkSim (sim_sources c) (sim_sinks c ++ [n])
       (sim_ports c ++ replicate (length (sim_sinks c) - length (sim_ports c)) 0 ++ [default 1181 p])
       (sim_calls c));
  cs_SinkName h c := nth (Z.to_nat (h - 1)) (sim_sinks c) ""%string;
  cs_GetPort h c := nth (Z.to_nat (h - 1)) (sim_ports c) 0;
  cs_GetVideo h c :=
    (Z.of_nat (S (length (sim_sinks c))),
     sim_log (CallSetSource (Z.of_nat (S (length (sim_sinks c)))) h)
       (mkSim (sim_sources c) (sim_sinks c ++ ["opencv"]) (sim_ports c) (sim_calls c)));
  cs_SetSinkConfigJson h j c := sim_log (CallConfig h) c;
  cs_PutVideo n w h c := sim_add (mkSource n (mkMode kBGR w h 0) true) c;
  cs_SetCompression h q c := sim_log (CallCompression h q) c;
  cs_SetDefaultCompression h q c := sim_log (CallDefaultCompression h q) c
}.

(** * Tables: typed values by path *)

Inductive nt_value := VBool (b : bool) | VDouble (x : double) | VInt (z : Z) | VStr (s : string).

Definition kind_of (v : nt_value) : nt_kind :=
  match v with VBool _ => KBoolean | VDouble _ => KDouble | VInt _ => KInteger | VStr _ => KString end.

Definition same_kind (a b : nt_kind) : bool :=
  match a, b with
  | KBoolean, KBoolean | KDouble, KDouble | KInteger, KInteger | KString, KString => true
  | _, _ => false
  end.

Inductive nt_call :=
| Client (name : string) | ClientTeam (n : Z) | ClientHost (host : string) | Team (n : Z) | DSClient | Server | ServerAt (host : string)
| Listen (path : string) | Unlisten (l : Z) | Flushed.

Record sim_nt := mkNt { sim_vals : gmap string nt_value; sim_next : Z; sim_log_nt : list nt_call }.

(** A value of another type than the entry's is not stored. *)
Definition sim_put (key : string) (v : nt_value) (t : sim_nt) : sim_nt :=
  match sim_vals t !! key with
  | Some v' => if same_kind (kind_of v') (kind_of v)
               then mkNt (<[key := v]> (sim_vals t)) (sim_next t) (sim_log_nt t) else t
  | None => mkNt (<[key := v]> (sim_vals t)) (sim_next t) (sim_log_nt t)
  end.

Definition sim_call (x : nt_call) (t : sim_nt) : sim_nt :=
  mkNt (sim_vals t) (sim_next t) (x :: sim_log_nt t).

#[export] Instance sim_Tables : Tables sim_nt := {
  nt_SetDouble key v t := sim_put key (VDouble v) t;
  nt_GetDouble key d t := match sim_vals t !! key with Some (VDouble x) => x | _ => d end;
  nt_SetBoolean key v t := sim_put key (VBool v) t;
  nt_GetBoolean key d t := match sim_vals t !! key with Some (VBool b) => b | _ => d end;
  nt_SetString key v t := sim_put key (VStr v) t;
  nt_SetInteger key v t := sim_put key (VInt v) t;
  nt_GetInteger key d t := match sim_vals t !! key with Some (VInt z) => z | _ => d end;
  nt_AddListener path t := (sim_next t, mkNt (sim_vals t) (sim_next t + 1) (Listen path :: sim_log_nt t));
  nt_RemoveListener l t := sim_call (Unlisten l) t;
  nt_Flush t := sim_call Flushed t;
  nt_StartClient n t := sim_call (Client n) t;
  nt_SetServerTeam n t := sim_call (Team n) t;
  nt_StartDSClient t := sim_call DSClient t;
  nt_StartServer t := sim_call Server t;
  nt_SetServer h t := sim_call (ServerAt h) t;
  nt_StartClientTeam n t := sim_call (ClientTeam n) t;
  nt_StartClientHost h t := sim_call (ClientHost h) t;
  nt_IsConnected t := false;
  nt_Delete key t := mkNt (delete key (sim_vals t)) (sim_next t) (sim_log_nt t);
  nt_type key t := kind_of <$> sim_vals t !! key
}.

Lemma sim_put_lookup_ne key key' v t :
  key <> key' -> sim_vals (sim_put key' v t) !! key = sim_vals t !! key.
Proof.
  intros Hne. unfold sim_put. destruct (sim_vals t !! key') as [v'|];
    [destruct (same_kind (kind_of v') (kind_of v))|]; cbn [sim_vals];
    rewrite ?lookup_insert_ne by congruence; done.
Qed.

Lemma sim_put_lookup key v t :
  nt_accepts (kind_of v) key t -> sim_vals (sim_put key v t) !! key = Some v.
Proof.
  unfold nt_accepts. cbn. unfold sim_put. destruct (sim_vals t !! key) as [v'|]; cbn.
  - intros [?|[= E]]; [done|]. rewrite E. assert (same_kind (kind_of v) (kind_of v) = true) as ->
      by (by destruct v).
    cbn [sim_vals]. apply lookup_insert_eq.
  - intros _. apply lookup_insert_eq.
Qed.

#[export] Instance sim_TablesLaws : TablesLaws sim_nt.
Proof.
  constructor; cbn.
  - intros key d v t Ha. by rewrite (sim_put_lookup key (VDouble v) t Ha).
  - intros key key' d v t Hne. by rewrite sim_put_lookup_ne.
  - intros key v t Ha. by rewrite (sim_put_lookup key (VDouble v) t Ha).
  - intros key key' v t Hne. by rewrite sim_put_lookup_ne.
  - intros key d v t Ha. by rewrite (sim_put_lookup key (VInt v) t Ha).
Qed.

#[export] Instance sim_what : What := fun _ => "exception".

Definition empty_nt : sim_nt := mkNt ∅ 1 [].
Definition empty_cs : sim_cs := mkSim [] [] [] [].

(** The buffers of the default matrices: nine and five zeros. *)
Definition zero_bufs : gmap nat (list double) :=
  {[ 0%nat := replicate 9 (S754_zero false); 1%nat := replicate 5 (S754_zero false) ]}.

Definition start_world : world sim_cs sim_nt := World empty_cs empty_nt zero_bufs [].
