(* ===== verification/Camera.v ===== *)
(** [VisionCamera] ([lib-vs/src/core/visioncamera.h], [visioncamera.cpp]) and
    [getJsonVideoMode] ([vision.cpp]): construction from configuration JSON,
    calibration data, settings with their limits, and the listener that applies
    remote changes. *)

From S2P Require Import Prelude Floats Json World Instances.
Local Open Scope Z_scope.
Local Open Scope vs_scope.

(** * Video mode from JSON *)

Definition format_of_string (str : string) : Z :=
  if equals_lower str "mjpeg" then kMJPEG
  else if equals_lower str "yuyv" then kYUYV
  else if equals_lower str "rgb565" then kRGB565
  else if equals_lower str "bgr" then kBGR
  else if equals_lower str "gray" then kGray
  else kUnknown.

(** An [unsigned int] member stored in an [int]; [d] when reading it throws. *)
Definition json_int (config : json) (key : string) (d : Z) : res Z :=
  if (count config key =? 0)%nat then Ok d
  else try_json (v ← at_key config key; u ← get_uint v; mret (wraps 32 u)) (fun _ => Ok d).

Definition getJsonVideoMode (config : json) : res VideoMode :=
  pf ← (if (count config "pixel format" =? 0)%nat then Ok 0
        else try_json (v ← at_key config "pixel format"; s ← get_string v;
                       mret (format_of_string s)) (fun _ => Ok kUnknown));
  w ← json_int config "width" 0;
  h ← json_int config "height" 0;
  f ← json_int config "fps" 0;
  mret (mkMode pf w h f).

(** * The camera object *)

(** An [nt::IntegerEntry]: none before it is bound to a topic. *)
Definition entry : Type := option (string * Z).

(** Where a camera lives: the storage of a vector, and the position in it. *)
Definition cam_addr : Type := nat * nat.

(** The camera.  [listener_self] is the [this] that the listener of
    [listener_handle] was created with. *)
Record VisionCamera := mkCamera {
  m_handle : Z;
  config : json;
  calibration : json;
  raw : Z;
  camera_matrix : Mat_;
  distortion : Mat_;
  properties : VideoMode;
  ntable : string;
  nt_brightness : entry;
  nt_exposure : entry;
  nt_whitebalance : entry;
  listener_handle : Z;
  listener_self : cam_addr
}.

Section Camera.

Context {C T : Type} `{CS : CsCore C} `{NT : Tables T} `{WH : What}.

Abbreviation prog := (M C T).

(** The members before a constructor's body runs: default matrices, no entries,
    and the table named after the source the base class holds. *)
Definition fresh_camera (handle : Z) (cfg cal : json) (w : world C T) : VisionCamera :=
  mkCamera handle cfg cal 0 default_matrix default_distort no_mode
    ("/Cameras/" +:+ cs_GetName handle (w_cs w)) None None None 0 (0, 0)%nat.

Definition with_properties (cam : VisionCamera) (p : VideoMode) : VisionCamera :=
  mkCamera (m_handle cam) (config cam) (calibration cam) (raw cam) (camera_matrix cam)
    (distortion cam) p (ntable cam) (nt_brightness cam) (nt_exposure cam)
    (nt_whitebalance cam) (listener_handle cam) (listener_self cam).
Definition with_source (cam : VisionCamera) (h sink : Z) : VisionCamera :=
  mkCamera h (config cam) (calibration cam) sink (camera_matrix cam)
    (distortion cam) (properties cam) (ntable cam) (nt_brightness cam) (nt_exposure cam)
    (nt_whitebalance cam) (listener_handle cam) (listener_self cam).
Definition with_calibration (cam : VisionCamera) (j : json) : VisionCamera :=
  mkCamera (m_handle cam) (config cam) j (raw cam) (camera_matrix cam)
    (distortion cam) (properties cam) (ntable cam) (nt_brightness cam) (nt_exposure cam)
    (nt_whitebalance cam) (listener_handle cam) (listener_self cam).
Definition with_matrices (cam : VisionCamera) (m d : Mat_) : VisionCamera :=
  mkCamera (m_handle cam) (config cam) (calibration cam) (raw cam) m d
    (properties cam) (ntable cam) (nt_brightness cam) (nt_exposure cam)
    (nt_whitebalance cam) (listener_handle cam) (listener_self cam).
Definition with_network (cam : VisionCamera) (table : string) (b e wb : entry) (l : Z) (self : cam_addr)
    : VisionCamera :=
  mkCamera (m_handle cam) (config cam) (calibration cam) (raw cam) (camera_matrix cam)
    (distortion cam) (properties cam) table b e wb l self.

(** ** Calibration *)

(** Rows and columns in the order of the nested loops. *)
Definition positions (rows cols : nat) : list (nat * nat) :=
  flat_map (fun i => map (fun j => (i, j)) (seq 0 cols)) (seq 0 rows).

Definition store_element (get : json -> res double) (matx : json) (array : Mat_)
    (p : nat * nat) : prog unit :=
  let* row := lift (at_idx matx p.1) in
  let* e := lift (at_idx row p.2) in
  let* x := lift (get e) in
  mat_write array p.1 p.2 x.

(** The matrix readers differ in the element conversion: [get] is [get_double]
    or [get_float]. *)
Definition getJsonCameraMatrix (get : json -> res double) (cam : VisionCamera) (array : Mat_)
    : prog bool :=
  if is_object (calibration cam) then
    catch_json
      (let* matx := lift (at_key (calibration cam) "camera_matrix") in
       for_each (store_element get matx array) (positions 3 3))
      (fun e => print ("Failed to parse camera matrix: " +:+ what e)) ;*
    ret true
  else ret false.

Definition getJsonDistortionCoefs (get : json -> res double) (cam : VisionCamera) (array : Mat_)
    : prog bool :=
  if is_object (calibration cam) then
    catch_json
      (let* matx := lift (at_key (calibration cam) "distortion") in
       for_each (store_element get matx array) (positions 1 5))
      (fun e => print ("Failed to parse camera matrix: " +:+ what e)) ;*
    ret true
  else ret false.

Definition setCalibrationJson (cam : VisionCamera) (j : json) : prog (VisionCamera * bool) :=
  if negb (is_object j) then ret (cam, false)
  else
    let cam' := with_calibration cam j in
    let* m := getJsonCameraMatrix get_float cam' (camera_matrix cam') in
    let* d := (if m then getJsonDistortionCoefs get_float cam' (distortion cam') else ret false) in
    ret (cam', d).

Definition setCameraMatrix (cam : VisionCamera) (mat : Mat_) : VisionCamera * bool :=
  if negb (mat_area mat =? mat_area default_matrix)%nat then (cam, false)
  else (with_matrices cam (reshape mat 3) (distortion cam), true).

Definition setDistortionCoefs (cam : VisionCamera) (mat : Mat_) : VisionCamera * bool :=
  if negb (mat_area mat =? mat_area default_distort)%nat then (cam, false)
  else (with_matrices cam (camera_matrix cam) (reshape mat 1), true).

(** ** Construction *)

(** The sink the camera's frames are read from, named after the source. *)
Definition new_sink (handle : Z) : prog Z :=
  let* name := ask_cs (cs_GetName handle) in
  on_cs_new (cs_CvSink (name +:+ "_cvraw")).

Definition members (handle : Z) (cfg cal : json) : prog VisionCamera :=
  fun w => (w, Ok (fresh_camera handle cfg cal w)).

Definition VisionCamera_handle (handle : Z) : prog VisionCamera :=
  let* cam := members handle JNull JNull in
  let* sink := new_sink handle in
  let* mode := ask_cs (cs_GetVideoMode handle) in
  on_cs (cs_SetSource sink handle) ;*
  ret (with_properties (with_source cam handle sink) mode).

(** From an existing source: the JSON mode replaces the source's mode when the
    latter converts to true, that is when its format is unknown. *)
Definition VisionCamera_source (handle : Z) (cfg : json) : prog VisionCamera :=
  let* cam := members handle cfg JNull in
  let* sink := new_sink handle in
  let* mode := ask_cs (cs_GetVideoMode handle) in
  let* mode' := lift (if mode_bool mode then getJsonVideoMode cfg else Ok mode) in
  on_cs (cs_SetSource sink handle) ;*
  ret (with_properties (with_source cam handle sink) mode').

(** The USB camera of a configuration; an unreadable name or path leaves the
    empty source, handle 0. *)
Definition usb_source (source_config : json) : prog Z :=
  let* h := catch_json
    (let* n := lift (v ← at_key source_config "name"; get_string v) in
     let* p := lift (v ← at_key source_config "path"; get_string v) in
     on_cs_new (cs_UsbCamera n p))
    (fun e => print ("Config error in source JSON -> could not read camera name and/or path: "
                       +:+ what e) ;* ret 0) in
  on_cs (cs_SetConfigJson h source_config) ;*
  on_cs (cs_SetConnectionKeepOpen h) ;*
  ret h.

Definition VisionCamera_calibrated (source_config cal : json) : prog VisionCamera :=
  let* cam0 := members 0 source_config cal in
  let* h := usb_source source_config in
  let cam1 := with_source cam0 h 0 in
  getJsonCameraMatrix get_float cam1 (camera_matrix cam1) ;*
  getJsonDistortionCoefs get_float cam1 (distortion cam1) ;*
  let* sink := new_sink h in
  on_cs (cs_SetSource sink h) ;*
  let* mode := ask_cs (cs_GetVideoMode h) in
  let* mode' := lift (if mode_bool mode then getJsonVideoMode (config cam1) else Ok mode) in
  ret (with_properties (with_source cam1 h sink) mode').

(** Without calibration the test on the mode is the other way round. *)
Definition VisionCamera_config (source_config : json) : prog VisionCamera :=
  let* cam0 := members 0 source_config JNull in
  let* h := usb_source source_config in
  let* sink := new_sink h in
  on_cs (cs_SetSource sink h) ;*
  let* mode := ask_cs (cs_GetVideoMode h) in
  let* mode' := lift (if negb (mode_bool mode) then getJsonVideoMode (config cam0) else Ok mode) in
  ret (with_properties (with_source cam0 h sink) mode').

(** Moving, by construction or assignment: the new object and what is left of
    the old one, which owns neither source nor sink nor listener any more. *)
Definition empty_mat : Mat_ := mkMat_ 0 0 0.

Definition VisionCamera_move (other : VisionCamera) : VisionCamera * VisionCamera :=
  (other,
   mkCamera 0 JNull JNull 0 empty_mat empty_mat (properties other) (ntable other)
     None None None 0 (0, 0)%nat).

(** Destruction removes the listener the camera still owns. *)
Definition VisionCamera_destroy (cam : VisionCamera) : prog unit :=
  on_nt (nt_RemoveListener (listener_handle cam)).

(** ** Accessors *)

Definition isValidJson (cam : VisionCamera) : bool := is_object (config cam).
Definition isValidStreamJson (cam : VisionCamera) : bool := (0 <? count (config cam) "stream")%nat.
Definition getStreamJson (cam : VisionCamera) : res json :=
  if (0 <? count (config cam) "stream")%nat then at_key (config cam) "stream" else Ok JNull.

Definition getWidth (cam : VisionCamera) : Z := width (properties cam).
Definition getHeight (cam : VisionCamera) : Z := height (properties cam).
Definition getPixels (cam : VisionCamera) : Z :=
  wraps 32 (width (properties cam) * height (properties cam)).
Definition getConfigFPS (cam : VisionCamera) : Z := fps (properties cam).
Definition getResolution (cam : VisionCamera) : Z * Z :=
  (width (properties cam), height (properties cam)).

(** A frame: what the sink grabs with its time, or a black image of the
    configured size with time 0 when the camera is not connected. *)
Inductive Frame := Grabbed (sink : Z) (timeout : option double) | Zeros (size : Z * Z).

Definition getFrame (cam : VisionCamera) (timeout : double) (w : world C T) : Frame :=
  if cs_IsConnected (m_handle cam) (w_cs w) then Grabbed (raw cam) (Some timeout)
  else Zeros (getResolution cam).
Definition getFrameNoTmO (cam : VisionCamera) (w : world C T) : Frame :=
  if cs_IsConnected (m_handle cam) (w_cs w) then Grabbed (raw cam) None
  else Zeros (getResolution cam).

(** Reading an unbound entry gives 0; setting it does nothing. *)
Definition entry_get (e : entry) : prog Z :=
  match e with
  | Some (key, d) => let* v := ask_nt (nt_GetInteger key d) in ret (wraps 32 v)
  | None => ret 0
  end.
Definition entry_set (e : entry) (v : Z) : prog unit :=
  match e with
  | Some (key, _) => on_nt (nt_SetInteger key v)
  | None => ret tt
  end.

Definition getBrightness (cam : VisionCamera) : prog Z := entry_get (nt_brightness cam).
Definition getExposure (cam : VisionCamera) : prog Z := entry_get (nt_exposure cam).
Definition getWhiteBalance (cam : VisionCamera) : prog Z := entry_get (nt_whitebalance cam).

(** ** Settings *)

Definition _setBrightness (cam : VisionCamera) (val : Z) : prog Z :=
  let val := if 100 <? val then 100 else if val <? 0 then 0 else val in
  on_cs (cs_SetBrightness (m_handle cam) val) ;* ret val.

Definition _setWhiteBalance (cam : VisionCamera) (val : Z) : prog Z :=
  (if val <? 0 then on_cs (cs_SetWhiteBalanceAuto (m_handle cam))
   else on_cs (cs_SetWhiteBalanceManual (m_handle cam) val)) ;* ret val.

Definition _setExposure (cam : VisionCamera) (val : Z) : prog Z :=
  let val := if 100 <? val then 100 else val in
  (if val <? 0 then on_cs (cs_SetExposureAuto (m_handle cam))
   else on_cs (cs_SetExposureManual (m_handle cam) val)) ;* ret val.

Definition setBrightness (cam : VisionCamera) (val : Z) : prog unit :=
  let* v := _setBrightness cam val in entry_set (nt_brightness cam) v.
Definition setWhiteBalance (cam : VisionCamera) (val : Z) : prog unit :=
  let* v := _setWhiteBalance cam val in entry_set (nt_whitebalance cam) v.
Definition setExposure (cam : VisionCamera) (val : Z) : prog unit :=
  let* v := _setExposure cam val in entry_set (nt_exposure cam) v.

Definition setNetworkBase (cam : VisionCamera) (table : string) : prog VisionCamera :=
  let* name := ask_cs (cs_GetName (m_handle cam)) in
  ret (with_network cam (table +:+ "/Cameras/" +:+ name)
          (nt_brightness cam) (nt_exposure cam) (nt_whitebalance cam) (listener_handle cam) (listener_self cam)).

(** [self] is the camera's address, which the new listener keeps. *)
Definition setNetworkAdjustable (self : cam_addr) (cam : VisionCamera) : prog VisionCamera :=
  let cam1 := with_network cam (ntable cam)
    (Some (ntable cam +:+ "/Brightness", 50)) (Some (ntable cam +:+ "/Exposure", -1))
    (Some (ntable cam +:+ "/WhiteBalance", -1)) (listener_handle cam) (listener_self cam) in
  setBrightness cam1 50 ;*
  setWhiteBalance cam1 (-1) ;*
  setExposure cam1 (-1) ;*
  on_nt (nt_RemoveListener (listener_handle cam1)) ;*
  let* l := on_nt_new (nt_AddListener (ntable cam1)) in
  ret (with_network cam1 (ntable cam1) (nt_brightness cam1) (nt_exposure cam1)
          (nt_whitebalance cam1) l self).

(** What a remote value event carries. *)
Inductive remote_value := RInteger (z : Z) | RDouble (x : double) | RFloat (x : double) | ROther.

(** [0xFFFFFFFF] as the [float] the conditional expression makes of it. *)
Definition no_value : double := float_of_Z (2 ^ 32 - 1).

(** The conditional has type [double] whatever the event carries; it is then
    converted to [int]. *)
Definition remote_int (v : remote_value) : res Z :=
  of_option (int_of_double
    match v with
    | RInteger z => double_of_Z z
    | RDouble x => x
    | RFloat x => x
    | ROther => no_value
    end).

Definition is_topic (e : entry) (key : string) : bool :=
  match e with Some (k, _) => String.eqb key k | None => false end.

(** The listener [setNetworkAdjustable] installs, for a value event on [key];
    [cam] is the camera found at its [this]. *)
Definition on_remote_value (cam : VisionCamera) (key : string) (v : remote_value) : prog unit :=
  let* val := lift (remote_int v) in
  if wrapu 32 val =? 4294967295 then ret tt
  else if is_topic (nt_brightness cam) key then _setBrightness cam val ;* ret tt
  else if is_topic (nt_exposure cam) key then _setExposure cam val ;* ret tt
  else if is_topic (nt_whitebalance cam) key then _setWhiteBalance cam val ;* ret tt
  else ret tt.

End Camera.

(** * Video modes: every member on its own *)

Definition json_int_value (j : json) (key : string) : Z :=
  match at_key j key with
  | Ok v => match get_uint v with Ok u => wraps 32 u | _ => 0 end
  | _ => 0
  end.

Lemma json_int_spec j key :
  json_int j key 0 = Ok (json_int_value j key) \/ json_int j key 0 = Undefined.
Proof.
  unfold json_int, json_int_value.
  destruct j; cbn [count at_key Nat.eqb]; try (by left).
  destruct (assoc key kvs) as [v|]; [|by left]. cbn [Nat.eqb].
  destruct v; cbn; try (by left).
  destruct (uint_of_double x); cbn; [by left | by right].
Qed.

(** Reading a video mode never throws: whatever the configuration holds,
    each member is read on its own, a missing or ill-typed one being 0 (or the
    unknown format); the only escape is a number outside the range of
    [unsigned int], whose conversion is undefined. *)
Theorem getJsonVideoMode_fields j :
  getJsonVideoMode j =
    Ok (mkMode (match at_key j "pixel format" with
                | Ok (JString s) => format_of_string s
                | _ => kUnknown
                end)
          (json_int_value j "width") (json_int_value j "height") (json_int_value j "fps"))
  \/ getJsonVideoMode j = Undefined.
Proof.
  unfold getJsonVideoMode.
  assert (Hpf : (if (count j "pixel format" =? 0)%nat then Ok 0
        else try_json (v ← at_key j "pixel format"; s ← get_string v;
                       mret (format_of_string s)) (fun _ => Ok kUnknown)) =
        Ok (match at_key j "pixel format" with
            | Ok (JString s) => format_of_string s
            | _ => kUnknown
            end)).
  { destruct j; try done. cbn [count at_key]. destruct (assoc _ _) as [v|]; [|done]. by destruct v. }
  rewrite Hpf. cbn [mbind res_bind].
  destruct (json_int_spec j "width") as [-> | ->]; [|by right].
  destruct (json_int_spec j "height") as [-> | ->]; [|by right].
  destruct (json_int_spec j "fps") as [-> | ->]; [by left | by right].
Qed.

Lemma getJsonVideoMode_no_throw j e : getJsonVideoMode j <> Throw e.
Proof.
  unfold getJsonVideoMode.
  destruct (if (count j "pixel format" =? 0)%nat then _ else _) as [pf|e'|] eqn:Epf; cbn; [|exfalso|done].
  - destruct (json_int_spec j "width") as [-> | ->]; [|done].
    destruct (json_int_spec j "height") as [-> | ->]; [|done].
    by destruct (json_int_spec j "fps") as [-> | ->].
  - destruct (count j "pixel format" =? 0)%nat; [done|].
    destruct j; cbn in Epf; try done. destruct (assoc _ _) as [v|]; [|done]. by destruct v.
Qed.

Lemma string_member j k :
  (exists s, (v ← at_key j k; get_string v) = Ok s) \/
  (exists e, (v ← at_key j k; get_string v) = Throw e /\ is_json_exception e = true).
Proof.
  destruct (at_key j k) as [v|e|] eqn:E; cbn.
  - destruct v; cbn; eauto.
  - right. exists e. split; [done|]. by eapply at_key_json_exception.
  - by destruct j; cbn in E; try done; destruct (assoc k kvs).
Qed.

(** * What the constructors do *)

Section Properties.

Context {C T : Type} `{CS : CsCore C} `{NT : Tables T} `{WH : What}.
Abbreviation prog := (M C T).

(** The network tables and the matrix buffers are as before. *)
Definition same_store (w w' : world C T) : Prop := w_nt w' = w_nt w /\ w_bufs w' = w_bufs w.

Lemma same_store_refl w : same_store w w.
Proof. done. Qed.
Lemma same_store_trans w w1 w2 : same_store w w1 -> same_store w1 w2 -> same_store w w2.
Proof. intros [? ?] [? ?]. split; congruence. Qed.

(** Effects on the camera library and the console only. *)
Definition cs_only {A} (m : prog A) (P : A -> Prop) : Prop :=
  forall w, exists w' a, m w = (w', Ok a) /\ P a /\ same_store w w'.

Lemma cs_only_bind {A B} (m : prog A) (f : A -> prog B) P Q :
  cs_only m P -> (forall a, P a -> cs_only (f a) Q) -> cs_only (bind m f) Q.
Proof.
  intros Hm Hf w. destruct (Hm w) as (w1 & a & E1 & HP & S1).
  destruct (Hf a HP w1) as (w2 & b & E2 & HQ & S2).
  exists w2, b. rewrite (bind_ok _ _ _ _ _ E1), E2. eauto using same_store_trans.
Qed.

Lemma cs_only_ret {A} (a : A) (P : A -> Prop) : P a -> cs_only (ret a) P.
Proof. intros HP w. exists w, a. done. Qed.
Lemma cs_only_on f : cs_only (on_cs f) (fun _ => True).
Proof. intros w. eexists _, tt. done. Qed.
Lemma cs_only_new f : cs_only (on_cs_new f) (fun _ => True).
Proof. intros w. unfold on_cs_new. destruct (f (w_cs w)) as [h c]. eexists _, h. done. Qed.
Lemma cs_only_ask {A} (f : C -> A) : cs_only (ask_cs f) (fun _ => True).
Proof. intros w. eexists w, _. done. Qed.
Lemma cs_only_print s : cs_only (print s) (fun _ => True).
Proof. intros w. eexists _, tt. done. Qed.
Lemma cs_only_weaken {A} (m : prog A) (P Q : A -> Prop) :
  (forall a, P a -> Q a) -> cs_only m P -> cs_only m Q.
Proof. intros HPQ Hm w. destruct (Hm w) as (w' & a & ? & ? & ?). eauto 10. Qed.

Hint Resolve cs_only_on cs_only_new cs_only_ask cs_only_print : core.

Lemma usb_source_ok cfg : cs_only (usb_source cfg) (fun _ => True).
Proof.
  unfold usb_source. eapply cs_only_bind with (P := fun _ => True).
  - intros w. unfold catch_json, bind, lift.
    destruct (string_member cfg "name") as [[n ->] | (e & -> & He)]; [|rewrite He; by eexists _, 0].
    destruct (string_member cfg "path") as [[p ->] | (e & -> & He)]; [|rewrite He; by eexists _, 0].
    destruct (cs_only_new (cs_UsbCamera n p) w) as (w' & h & E & ? & ?). rewrite E. eauto.
  - intros h _. eapply cs_only_bind; [auto|]. intros _ _.
    eapply cs_only_bind; [auto|]. intros _ _. by apply cs_only_ret.
Qed.

Lemma new_sink_ok h : cs_only (new_sink h) (fun _ => True).
Proof. unfold new_sink. eapply cs_only_bind; [auto|]. auto. Qed.

(** The JSON's video mode can be read without leaving the defined range. *)
Definition mode_defined (j : json) : Prop := getJsonVideoMode j <> Undefined.

Lemma mode_ok (b : bool) j m :
  mode_defined j -> exists m', (if b then getJsonVideoMode j else Ok m) = Ok m'.
Proof.
  intros Hd. destruct b; [|by eauto]. unfold mode_defined in Hd.
  pose proof (getJsonVideoMode_no_throw j) as Hnt.
  destruct (getJsonVideoMode j) as [m'|e|]; [by eauto | by destruct (Hnt e) | done].
Qed.

(** A camera without calibration is always constructed: it holds its
    configuration and shares the default matrices. *)
Lemma VisionCamera_config_ok cfg :
  mode_defined cfg ->
  cs_only (VisionCamera_config cfg)
    (fun cam => config cam = cfg /\ calibration cam = JNull /\
                camera_matrix cam = default_matrix /\ distortion cam = default_distort).
Proof.
  intros Hd. unfold VisionCamera_config.
  eapply cs_only_bind with (P := fun c => config c = cfg /\ calibration c = JNull /\
    camera_matrix c = default_matrix /\ distortion c = default_distort).
  { intros w. by eexists w, _. }
  intros c Hc. eapply cs_only_bind; [apply usb_source_ok|]. intros h _.
  eapply cs_only_bind; [apply new_sink_ok|]. intros sink _.
  eapply cs_only_bind; [auto|]. intros _ _.
  eapply cs_only_bind; [auto|]. intros mode _. destruct Hc as (Hc & Hc').
  rewrite Hc. destruct (mode_ok (negb (mode_bool mode)) cfg mode Hd) as [m' ->].
  eapply cs_only_bind with (P := fun _ => True); [by apply (cs_only_ret m')|]. intros a _.
  apply cs_only_ret. by destruct c.
Qed.

(** ** Calibration data *)

Definition set_buf (w : world C T) (b : nat) (l : list double) : world C T :=
  World (w_cs w) (w_nt w) (<[b := l]> (w_bufs w)) (w_out w).

(** [matx] is a matrix of numbers with the values [rows]. *)
Definition json_matrix (get : json -> res double) (matx : json) (rows : list (list double)) : Prop :=
  exists js, matx = JArray (map JArray js) /\ Forall2 (Forall2 (fun e x => get e = Ok x)) js rows.

Definition element (rows : list (list double)) (p : nat * nat) : double :=
  nth p.2 (nth p.1 rows []) S754_nan.

Lemma json_matrix_at get matx rows i j row x :
  json_matrix get matx rows -> rows !! i = Some row -> row !! j = Some x ->
  exists r e, at_idx matx i = Ok r /\ at_idx r j = Ok e /\ get e = Ok x.
Proof.
  intros (js & -> & HF) Hi Hj.
  destruct (Forall2_lookup_r _ _ _ _ _ HF Hi) as (js_i & Ei & HFi).
  destruct (Forall2_lookup_r _ _ _ _ _ HFi Hj) as (e & Ej & Hg).
  exists (JArray js_i), e. unfold at_idx.
  assert (map JArray js !! i = Some (JArray js_i)) as ->.
  { change (map JArray js) with (JArray <$> js). by rewrite list_lookup_fmap, Ei. }
  by rewrite Ej.
Qed.

Lemma for_each_store get matx rows array ps w l :
  json_matrix get matx rows ->
  Forall (fun p => exists row x, rows !! p.1 = Some row /\ row !! p.2 = Some x /\
            (p.1 * mcols array + p.2 < length l)%nat) ps ->
  w_bufs w !! mbuf array = Some l ->
  for_each (store_element get matx array) ps w =
    (set_buf w (mbuf array)
       (foldl (fun l p => <[(p.1 * mcols array + p.2)%nat := element rows p]> l) l ps), Ok tt).
Proof.
  intros Hm. revert w l. induction ps as [|p ps IH]; intros w l Hps Hl; simpl.
  - unfold ret, set_buf. rewrite insert_id by done. by destruct w.
  - apply Forall_cons in Hps as [(row & x & Hi & Hj & Hlt) Hps].
    destruct (json_matrix_at _ _ _ _ _ _ _ Hm Hi Hj) as (r & e & E1 & E2 & E3).
    assert (Hx : element rows p = x).
    { unfold element. rewrite (nth_lookup_Some rows _ _ row) by done. by apply nth_lookup_Some. }
    rewrite Hx.
    assert (Hst : store_element get matx array p w =
              (set_buf w (mbuf array) (<[(p.1 * mcols array + p.2)%nat := x]> l), Ok tt)).
    { unfold store_element, bind, lift, mat_write. rewrite E1, E2, E3, Hl.
      by rewrite (proj2 (Nat.ltb_lt _ _) Hlt). }
    rewrite (bind_ok _ _ _ _ _ Hst).
    rewrite (IH _ (<[(p.1 * mcols array + p.2)%nat := x]> l)).
    + unfold set_buf. cbn [w_cs w_nt w_bufs w_out]. by rewrite insert_insert_eq.
    + eapply Forall_impl; [exact Hps|]. intros q (? & ? & ? & ? & ?).
      rewrite length_insert. eauto.
    + unfold set_buf. cbn [w_bufs]. by rewrite lookup_insert_eq.
Qed.

(** A camera matrix of the documented form is stored row by row. *)
Lemma getJsonCameraMatrix_ok get cam array w l matx rows :
  is_object (calibration cam) = true -> at_key (calibration cam) "camera_matrix" = Ok matx ->
  json_matrix get matx rows -> length rows = 3%nat -> Forall (fun r => length r = 3%nat) rows ->
  mcols array = 3%nat -> w_bufs w !! mbuf array = Some l -> length l = 9%nat ->
  getJsonCameraMatrix get cam array w = (set_buf w (mbuf array) (concat rows), Ok true).
Proof.
  intros Ho Ek Hm Hr Hrs Hc Hl Hlen.
  destruct rows as [|r1 [|r2 [|r3 [|]]]]; try discriminate Hr.
  apply Forall_cons in Hrs as [H1 Hrs]. apply Forall_cons in Hrs as [H2 Hrs].
  apply Forall_cons in Hrs as [H3 _].
  destruct r1 as [|x1 [|x2 [|x3 [|]]]]; try discriminate H1.
  destruct r2 as [|x4 [|x5 [|x6 [|]]]]; try discriminate H2.
  destruct r3 as [|x7 [|x8 [|x9 [|]]]]; try discriminate H3.
  do 9 (destruct l as [|? l]; [discriminate|]). destruct l; [|discriminate].
  unfold getJsonCameraMatrix. rewrite Ho. unfold catch_json.
  erewrite bind_ok; [reflexivity|]. unfold bind at 1, lift. rewrite Ek.
  match type of Hl with _ = Some ?l => rewrite (for_each_store _ _ _ _ _ _ l Hm) end;
    [|rewrite Hc | exact Hl].
  - rewrite Hc. reflexivity.
  - repeat constructor; (eexists _, _; split; [reflexivity|]; split; [reflexivity|]; cbn; lia).
Qed.

Lemma getJsonDistortionCoefs_ok get cam array w l matx row :
  is_object (calibration cam) = true -> at_key (calibration cam) "distortion" = Ok matx ->
  json_matrix get matx [row] -> length row = 5%nat ->
  mcols array = 5%nat -> w_bufs w !! mbuf array = Some l -> length l = 5%nat ->
  getJsonDistortionCoefs get cam array w = (set_buf w (mbuf array) row, Ok true).
Proof.
  intros Ho Ek Hm Hr Hc Hl Hlen.
  destruct row as [|x1 [|x2 [|x3 [|x4 [|x5 [|]]]]]]; try discriminate Hr.
  do 5 (destruct l as [|? l]; [discriminate|]). destruct l; [|discriminate].
  unfold getJsonDistortionCoefs. rewrite Ho. unfold catch_json.
  erewrite bind_ok; [reflexivity|]. unfold bind at 1, lift. rewrite Ek.
  match type of Hl with _ = Some ?l => rewrite (for_each_store _ _ _ _ _ _ l Hm) end;
    [|rewrite Hc | exact Hl].
  - rewrite Hc. reflexivity.
  - repeat constructor; (eexists _, _; split; [reflexivity|]; split; [reflexivity|]; cbn; lia).
Qed.

Lemma same_store_data m (w w' : world C T) : same_store w w' -> mat_data m w' = mat_data m w.
Proof. intros [_ E]. unfold mat_data. by rewrite E. Qed.

(** C6. A camera constructed from a configuration and a calibration of the
    documented form holds exactly the calibration's numbers, row by row.  Its
    matrix headers share the buffers of the static defaults, so the defaults,
    and with them the matrices of every camera that was given none of its own,
    now show the same numbers. *)
Theorem calibrated_camera_shares_defaults cfg cal mx mrows dx drow l0 l1 (w : world C T) :
  mode_defined cfg ->
  at_key cal "camera_matrix" = Ok mx -> json_matrix get_float mx mrows ->
  length mrows = 3%nat -> Forall (fun r => length r = 3%nat) mrows ->
  at_key cal "distortion" = Ok dx -> json_matrix get_float dx [drow] -> length drow = 5%nat ->
  w_bufs w !! 0%nat = Some l0 -> length l0 = 9%nat ->
  w_bufs w !! 1%nat = Some l1 -> length l1 = 5%nat ->
  exists (w' : world C T) cam, VisionCamera_calibrated cfg cal w = (w', Ok cam) /\
    config cam = cfg /\
    mat_data (camera_matrix cam) w' = concat mrows /\ mat_data (distortion cam) w' = drow /\
    mat_data default_matrix w' = concat mrows /\ mat_data default_distort w' = drow.
Proof.
  intros Hd Ekm Hmx Hm3 Hmr Ekd Hdx Hd5 Hb0 Hl0 Hb1 Hl1.
  assert (Hobj : is_object cal = true) by (by destruct cal).
  unfold VisionCamera_calibrated. rewrite (bind_ok _ _ w w (fresh_camera 0 cfg cal w)) by done.
  destruct (usb_source_ok cfg w) as (w1 & h & E1 & _ & [_ Hw1]).
  rewrite (bind_ok _ _ _ _ _ E1). cbv zeta.
  set (cam1 := with_source (fresh_camera 0 cfg cal w) h 0).
  assert (Em : getJsonCameraMatrix get_float cam1 (camera_matrix cam1) w1 =
               (set_buf w1 0 (concat mrows), Ok true)).
  { apply (getJsonCameraMatrix_ok get_float cam1 default_matrix w1 l0 mx mrows); try done.
    by rewrite Hw1. }
  rewrite (bind_ok _ _ _ _ _ Em).
  assert (Ed : getJsonDistortionCoefs get_float cam1 (distortion cam1) (set_buf w1 0 (concat mrows)) =
               (set_buf (set_buf w1 0 (concat mrows)) 1 drow, Ok true)).
  { apply (getJsonDistortionCoefs_ok get_float cam1 default_distort _ l1 dx drow); try done.
    cbn [set_buf w_bufs]. by rewrite lookup_insert_ne, Hw1. }
  rewrite (bind_ok _ _ _ _ _ Ed). set (w2 := set_buf (set_buf w1 0 (concat mrows)) 1 drow).
  assert (Hrest : cs_only (
    let* sink := new_sink h in
    on_cs (cs_SetSource sink h) ;*
    let* mode := ask_cs (cs_GetVideoMode h) in
    let* mode' := lift (if mode_bool mode then getJsonVideoMode (config cam1) else Ok mode) in
    ret (with_properties (with_source cam1 h sink) mode'))
    (fun cam => config cam = cfg /\ camera_matrix cam = default_matrix /\
                distortion cam = default_distort)).
  { eapply cs_only_bind; [apply new_sink_ok|]. intros sink _.
    eapply cs_only_bind; [auto|]. intros _ _.
    eapply cs_only_bind; [auto|]. intros mode _.
    change (config cam1) with cfg. destruct (mode_ok (mode_bool mode) cfg mode Hd) as [m' ->].
    eapply cs_only_bind with (P := fun _ => True); [by apply (cs_only_ret m')|]. intros a _.
    by apply cs_only_ret. }
  destruct (Hrest w2) as (w3 & cam & E3 & (Hc & Hcm & Hcd) & Hs).
  exists w3, cam. split; [exact E3|]. rewrite Hcm, Hcd, !(same_store_data _ _ _ Hs).
  assert (Hd0 : mat_data default_matrix w2 = concat mrows).
  { unfold mat_data, w2. cbn [set_buf w_bufs mbuf default_matrix].
    by rewrite lookup_insert_ne, lookup_insert_eq. }
  assert (Hd1 : mat_data default_distort w2 = drow).
  { unfold mat_data, w2. cbn [set_buf w_bufs mbuf default_distort]. by rewrite lookup_insert_eq. }
  auto.
Qed.

(** The result of the matrix readers says only whether the calibration is
    an object: when the member is missing the matrix keeps its values, a line
    is printed, and the result is still true. *)
Theorem getJsonCameraMatrix_result get cam array (w : world C T) :
  (is_object (calibration cam) = false ->
     getJsonCameraMatrix get cam array w = (w, Ok false)) /\
  (is_object (calibration cam) = true -> count (calibration cam) "camera_matrix" = 0%nat ->
     getJsonCameraMatrix get cam array w =
       (World (w_cs w) (w_nt w) (w_bufs w)
          (("Failed to parse camera matrix: " +:+ what (KeyNotFound "camera_matrix")) :: w_out w),
        Ok true)).
Proof.
  unfold getJsonCameraMatrix. split; [by intros ->|]. intros Ho Hc. rewrite Ho.
  unfold catch_json, bind, lift.
  destruct (calibration cam); try done. cbn [at_key count] in *.
  by destruct (assoc "camera_matrix" kvs).
Qed.

(** ** Settings *)

Definition clamp_percent (v : Z) : Z := Z.max 0 (Z.min 100 v).

Lemma set_brightness_eq cam v (w : world C T) :
  _setBrightness cam v w =
  (World (cs_SetBrightness (m_handle cam) (clamp_percent v) (w_cs w)) (w_nt w) (w_bufs w) (w_out w),
   Ok (clamp_percent v)).
Proof.
  unfold _setBrightness, clamp_percent, bind, on_cs, ret.
  replace (if 100 <? v then 100 else if v <? 0 then 0 else v) with (Z.max 0 (Z.min 100 v)); [done|].
  destruct (Z.ltb_spec 100 v), (Z.ltb_spec v 0); lia.
Qed.

Definition apply_white_balance (h v : Z) (c : C) : C :=
  if v <? 0 then cs_SetWhiteBalanceAuto h c else cs_SetWhiteBalanceManual h v c.
Definition apply_exposure (h v : Z) (c : C) : C :=
  if v <? 0 then cs_SetExposureAuto h c else cs_SetExposureManual h v c.

Lemma set_white_balance_eq cam v (w : world C T) :
  _setWhiteBalance cam v w =
  (World (apply_white_balance (m_handle cam) v (w_cs w)) (w_nt w) (w_bufs w) (w_out w), Ok v).
Proof. unfold _setWhiteBalance, apply_white_balance, bind. by destruct (v <? 0). Qed.

Lemma set_exposure_eq cam v (w : world C T) :
  _setExposure cam v w =
  (World (apply_exposure (m_handle cam) (Z.min 100 v) (w_cs w)) (w_nt w) (w_bufs w) (w_out w),
   Ok (Z.min 100 v)).
Proof.
  unfold _setExposure, apply_exposure, bind.
  replace (if 100 <? v then 100 else v) with (Z.min 100 v) by (destruct (Z.ltb_spec 100 v); lia).
  by destruct (Z.min 100 v <? 0).
Qed.

(** The entries as [setNetworkAdjustable] binds them. *)
Definition adjustable (cam : VisionCamera) : Prop :=
  nt_brightness cam = Some (ntable cam +:+ "/Brightness", 50) /\
  nt_exposure cam = Some (ntable cam +:+ "/Exposure", -1) /\
  nt_whitebalance cam = Some (ntable cam +:+ "/WhiteBalance", -1).

Lemma eqb_app_prefix t a b : String.eqb (t +:+ a) (t +:+ b) = String.eqb a b.
Proof.
  induction t as [|c t IH]; [done|].
  change (String c t +:+ a) with (String c (t +:+ a)).
  change (String c t +:+ b) with (String c (t +:+ b)).
  cbn [String.eqb]. by rewrite Ascii.eqb_refl.
Qed.

Lemma remote_int_integer z :
  - 2 ^ 31 <= z <= 2 ^ 31 - 1 -> remote_int (RInteger z) = Ok z.
Proof. intros Hz. unfold remote_int. by rewrite int_of_double_of_Z. Qed.

(** Remote changes of an adjustable camera: an integer other than -1 is
    applied to the setting whose topic it was published on, brightness limited
    to 0..100 and exposure to at most 100; -1, the value documented as
    "automatic", is ignored on every topic; a value that is not a number makes
    the conversion undefined. *)
Theorem on_remote_value_spec cam (w : world C T) z key :
  adjustable cam -> - 2 ^ 31 <= z <= 2 ^ 31 - 1 ->
  let h := m_handle cam in
  let result c := (World c (w_nt w) (w_bufs w) (w_out w), Ok tt) in
  (z <> -1 ->
     on_remote_value cam (ntable cam +:+ "/Brightness") (RInteger z) w =
       result (cs_SetBrightness h (clamp_percent z) (w_cs w)) /\
     on_remote_value cam (ntable cam +:+ "/Exposure") (RInteger z) w =
       result (apply_exposure h (Z.min 100 z) (w_cs w)) /\
     on_remote_value cam (ntable cam +:+ "/WhiteBalance") (RInteger z) w =
       result (apply_white_balance h z (w_cs w))) /\
  on_remote_value cam key (RInteger (-1)) w = (w, Ok tt) /\
  on_remote_value cam key ROther w = (w, Undefined).
Proof.
  intros (Hb & He & Hwb) Hz h result.
  split; [|split; [done | done]].
  intros Hne. unfold on_remote_value. rewrite (remote_int_integer z Hz).
  assert (Hval : (wrapu 32 z =? 4294967295) = false).
  { apply Z.eqb_neq. unfold wrapu. intros E.
    destruct (Z.lt_ge_cases z 0).
    - rewrite <- (Z_mod_plus_full z 1), Z.mod_small in E by lia. lia.
    - rewrite Z.mod_small in E by lia. lia. }
  rewrite !(bind_ok (lift (Ok z)) _ w w z), Hval by done.
  unfold is_topic. rewrite Hb, He, Hwb, !eqb_app_prefix.
  change (String.eqb "/Exposure" "/Brightness") with false.
  change (String.eqb "/WhiteBalance" "/Brightness") with false.
  change (String.eqb "/WhiteBalance" "/Exposure") with false. rewrite !String.eqb_refl.
  by rewrite (bind_ok _ _ _ _ _ (set_brightness_eq cam z w)),
    (bind_ok _ _ _ _ _ (set_exposure_eq cam z w)), (bind_ok _ _ _ _ _ (set_white_balance_eq cam z w)).
Qed.

End Properties.

(** * Concrete cameras *)

Definition num (z : Z) : json := JInt z.
Definition sample_calibration : json :=
  JObject [("camera_matrix", JArray (map JArray [[num 700; num 0; num 320]; [num 0; num 700; num 240];
                                                 [num 0; num 0; num 1]]));
           ("distortion", JArray [JArray [num 1; num 2; num 3; num 4; num 5]])].
Definition sample_camera : json :=
  JObject [("name", JString "Front"); ("path", JString "/dev/video0");
           ("pixel format", JString "MJPEG"); ("width", JUint 640); ("height", JUint 480);
           ("fps", JUint 30)].

Definition float_rows (l : list (list Z)) : list (list double) := map (map float_of_Z) l.

Lemma calibrated_camera_shares_defaults_witness :
  exists w' cam, VisionCamera_calibrated sample_camera sample_calibration start_world = (w', Ok cam) /\
    mat_data default_matrix w' = map float_of_Z [700; 0; 320; 0; 700; 240; 0; 0; 1].
Proof.
  destruct (calibrated_camera_shares_defaults sample_camera sample_calibration
              (JArray (map JArray [[num 700; num 0; num 320]; [num 0; num 700; num 240]; [num 0; num 0; num 1]]))
              (float_rows [[700; 0; 320]; [0; 700; 240]; [0; 0; 1]])
              (JArray [JArray [num 1; num 2; num 3; num 4; num 5]]) (map float_of_Z [1; 2; 3; 4; 5])
              (replicate 9 (S754_zero false)) (replicate 5 (S754_zero false)) start_world)
    as (w' & cam & E & _ & _ & _ & Hd & _); try reflexivity.
  - unfold mode_defined. vm_compute. discriminate.
  - eexists. split; [reflexivity|]. repeat constructor.
  - repeat constructor.
  - eexists [[num 1; num 2; num 3; num 4; num 5]]. split; [reflexivity|]. repeat constructor.
  - exists w', cam. split; [exact E|]. rewrite Hd. reflexivity.
Defined.

Definition bound_camera : VisionCamera :=
  mkCamera 1 sample_camera JNull 1 default_matrix default_distort no_mode "/Cameras/Front"
    (Some ("/Cameras/Front/Brightness", 50)) (Some ("/Cameras/Front/Exposure", -1))
    (Some ("/Cameras/Front/WhiteBalance", -1)) 1 (1, 0)%nat.

Lemma on_remote_value_spec_witness :
  on_remote_value bound_camera "/Cameras/Front/Brightness" (RInteger 250) start_world =
  (World (sim_log (CallBrightness 1 100) empty_cs) empty_nt zero_bufs [], Ok tt).
Proof.
  refine (proj1 (proj1 (on_remote_value_spec bound_camera start_world 250 "" _ _) _));
    [repeat split | split; discriminate | discriminate].
Defined.

Lemma getJsonCameraMatrix_result_witness :
  getJsonCameraMatrix get_float bound_camera default_matrix start_world = (start_world, Ok false).
Proof. apply (proj1 (getJsonCameraMatrix_result get_float bound_camera default_matrix start_world)). reflexivity. Defined.
