(* ===== verification/Calib.v ===== *)
(** Calibration collections and their lookup ([lib-vs/src/core/calib.h]):
    which of the container kinds the search functions support, what they find,
    and the parsing of resolutions. *)

From S2P Require Import Prelude Floats Json World.
Local Open Scope Z_scope.

(** * Collections *)

(** The container templates the collections are instantiated with. *)
Inductive container := VecMap | StringMap | StdAssoc | OtherContainer.

(** A camera matrix and a vector of distortion coefficients. *)
Abbreviation Calibration := (Mat_ * Mat_)%type.

(** Resolution to calibration. *)
Record CalibSet := mkSet { set_container : container; set_items : list ((Z * Z) * Calibration) }.

(** Camera type to calibration set; [CalibSMap_] and [CalibMat_] differ in the
    containers they allow for the outer map. *)
Inductive map_template := SMap | NMap.
Record CalibMap := mkMap {
  map_temp : map_template;
  map_container : container;
  map_items : list (string * CalibSet)
}.

Definition container_eqb (a b : container) : bool :=
  match a, b with
  | VecMap, VecMap | StringMap, StringMap | StdAssoc, StdAssoc | OtherContainer, OtherContainer => true
  | _, _ => false
  end.

(** The traits of [CalProps]. *)
Definition is_wpi_smap (m : CalibMap) : bool :=
  match map_temp m with SMap => container_eqb (map_container m) StringMap | NMap => false end.
Definition is_seq_smap (m : CalibMap) : bool :=
  match map_temp m with SMap => false | NMap => container_eqb (map_container m) VecMap end.
Definition is_assoc_smap (m : CalibMap) : bool :=
  match map_temp m with SMap => false | NMap => container_eqb (map_container m) StdAssoc end.
Definition is_seq_cmap (s : CalibSet) : bool := container_eqb (set_container s) VecMap.
Definition is_assoc_cmap (s : CalibSet) : bool := container_eqb (set_container s) StdAssoc.

(** * Search *)

Definition size_eqb (a b : Z * Z) : bool := (a.1 =? b.1) && (a.2 =? b.2).

(** [map.find(name)] of the string map. *)
Definition wpi_find_set_impl (name : string) (m : CalibMap) : option CalibSet :=
  assoc name (map_items m).

Fixpoint seq_find {A} (name : string) (l : list (string * A)) : option A :=
  match l with
  | [] => None
  | s :: l' => if String.eqb s.1 name then Some s.2 else seq_find name l'
  end.
Definition seq_find_set_impl (name : string) (m : CalibMap) : option CalibSet :=
  seq_find name (map_items m).

(** The body of the associative lookup is commented out in the source. *)
Definition assoc_find_set_impl (name : string) (m : CalibMap) : option CalibSet := None.

Fixpoint seq_find_size {A} (sz : Z * Z) (l : list ((Z * Z) * A)) : option A :=
  match l with
  | [] => None
  | c :: l' => if size_eqb c.1 sz then Some c.2 else seq_find_size sz l'
  end.
Definition seq_find_calib_impl (sz : Z * Z) (s : CalibSet) : option Calibration :=
  seq_find_size sz (set_items s).
Definition assoc_find_calib_impl (sz : Z * Z) (s : CalibSet) : option Calibration :=
  seq_find_size sz (set_items s).

Definition findSet (name : string) (m : CalibMap) : option CalibSet :=
  if is_wpi_smap m then wpi_find_set_impl name m
  else if is_seq_smap m then seq_find_set_impl name m
  else if is_assoc_smap m then assoc_find_set_impl name m
  else None.

Definition findCalib_set (sz : Z * Z) (s : CalibSet) : option Calibration :=
  if is_seq_cmap s then seq_find_calib_impl sz s
  else if is_assoc_cmap s then assoc_find_calib_impl sz s
  else None.

Definition findCalib (name : string) (sz : Z * Z) (m : CalibMap) : option Calibration :=
  match findSet name m with
  | Some set => findCalib_set sz set
  | None => None
  end.

Fixpoint findAnyCalib (names : list string) (sz : Z * Z) (m : CalibMap) : option Calibration :=
  match names with
  | [] => None
  | n :: names' =>
      match findSet n m with
      | Some set =>
          match findCalib_set sz set with
          | Some cal => Some cal
          | None => findAnyCalib names' sz m
          end
      | None => findAnyCalib names' sz m
      end
  end.

(** * Resolutions *)

(** [std::from_chars] on [int]: an optional minus sign and the longest run of
    digits; the variable keeps its value [d] when there is no number or it does
    not fit. *)
Definition digit_value (c : Ascii.ascii) : option Z :=
  let n := Z.of_nat (Ascii.nat_of_ascii c) in
  if (48 <=? n) && (n <=? 57) then Some (n - 48) else None.

Fixpoint digits (acc : Z) (s : string) : Z :=
  match s with
  | String c s' => match digit_value c with
                   | Some v => digits (acc * 10 + v) s'
                   | None => acc
                   end
  | EmptyString => acc
  end.

Definition starts_with_digit (s : string) : bool :=
  match s with String c _ => match digit_value c with Some _ => true | None => false end
  | EmptyString => false end.

Definition in_int (z : Z) : bool := (- 2 ^ 31 <=? z) && (z <=? 2 ^ 31 - 1).

Definition from_chars (s : string) (d : Z) : Z :=
  match s with
  | String c s' =>
      if (Ascii.nat_of_ascii c =? 45)%nat then
        if starts_with_digit s' && in_int (- digits 0 s') then - digits 0 s' else d
      else if starts_with_digit s && in_int (digits 0 s) then digits 0 s else d
  | EmptyString => d
  end.

(** [str.find('x')]. *)
Fixpoint find_x (s : string) : option nat :=
  match s with
  | EmptyString => None
  | String c s' =>
      if (Ascii.nat_of_ascii c =? 120)%nat then Some 0%nat
      else match find_x s' with Some n => Some (S n) | None => None end
  end.

(** Without an ['x'] the pointers given to [from_chars] are outside the string. *)
Definition extractSize (str : string) : res (Z * Z) :=
  match find_x str with
  | Some a =>
      Ok (from_chars (String.substring 0 a str) 0,
          from_chars (String.substring (S a) (String.length str - S a) str) 0)
  | None => Undefined
  end.

(** * Lookup properties *)

Lemma seq_find_assoc {A} name (l : list (string * A)) : seq_find name l = assoc name l.
Proof.
  induction l as [|[k v] l IH]; simpl; [done|]. rewrite String.eqb_sym, IH. done.
Qed.

Lemma size_eqb_eq a b : size_eqb a b = true <-> a = b.
Proof.
  destruct a as [x y], b as [x' y']. unfold size_eqb. simpl.
  rewrite andb_true_iff, !Z.eqb_eq. split; [by intros [-> ->] | by intros [= -> ->]].
Qed.

Lemma seq_find_size_Some {A} sz (l : list ((Z * Z) * A)) c :
  seq_find_size sz l = Some c <->
  exists l1 l2, l = l1 ++ (sz, c) :: l2 /\ Forall (fun x => x.1 <> sz) l1.
Proof.
  induction l as [|[k v] l IH]; simpl.
  - split; [done|]. by intros (l1 & l2 & E & _); destruct l1.
  - destruct (size_eqb k sz) eqn:E.
    + apply size_eqb_eq in E as ->. split.
      * intros [= ->]. exists [], l. done.
      * intros (l1 & l2 & E & Hf). destruct l1 as [|x l1]; simpl in E; [by injection E as -> _|].
        injection E as <- _. inversion Hf. by simpl in *.
    + assert (k <> sz) by (intros ->; rewrite (proj2 (size_eqb_eq sz sz)) in E; done).
      rewrite IH. split.
      * intros (l1 & l2 & -> & Hf). exists ((k, v) :: l1), l2. split; [done | by constructor].
      * intros (l1 & l2 & El & Hf). destruct l1 as [|x l1]; simpl in El.
        { injection El as -> _ _. done. }
        injection El as <- ->. inversion Hf; subst. by exists l1, l2.
Qed.

Lemma assoc_Some {A} k (l : list (string * A)) v :
  assoc k l = Some v <->
  exists l1 l2, l = l1 ++ (k, v) :: l2 /\ Forall (fun x => x.1 <> k) l1.
Proof.
  induction l as [|[k' v'] l IH]; simpl.
  - split; [done|]. by intros (l1 & l2 & E & _); destruct l1.
  - destruct (String.eqb_spec k k') as [<-|Hne].
    + split.
      * intros [= ->]. exists [], l. done.
      * intros (l1 & l2 & E & Hf). destruct l1 as [|x l1]; simpl in E; [by injection E as ->|].
        injection E as <- _. inversion Hf. by simpl in *.
    + rewrite IH. split.
      * intros (l1 & l2 & -> & Hf). exists ((k', v') :: l1), l2. split; [done|].
        constructor; [by simpl; congruence | done].
      * intros (l1 & l2 & El & Hf). destruct l1 as [|x l1]; simpl in El.
        { injection El as -> _ _. done. }
        injection El as <- ->. inversion Hf; subst. by exists l1, l2.
Qed.

(** The lookup of a calibration by camera type and resolution, for the
    collections the search supports (the string map and the vector of pairs):
    the first set of that name decides, and in it the first entry of exactly
    that resolution. *)
Theorem findCalib_first name sz m c :
  is_wpi_smap m = true \/ is_seq_smap m = true ->
  (findCalib name sz m = Some c <->
   exists m1 s m2 c1 c2,
     map_items m = m1 ++ (name, s) :: m2 /\ Forall (fun x => x.1 <> name) m1 /\
     (is_seq_cmap s = true \/ is_assoc_cmap s = true) /\
     set_items s = c1 ++ (sz, c) :: c2 /\ Forall (fun x => x.1 <> sz) c1).
Proof.
  intros Hm.
  assert (Hset : findSet name m = assoc name (map_items m)).
  { unfold findSet, wpi_find_set_impl, seq_find_set_impl. rewrite seq_find_assoc.
    destruct (is_wpi_smap m); [done|]. by destruct Hm as [| ->]. }
  unfold findCalib. rewrite Hset. split.
  - destruct (assoc name (map_items m)) as [s|] eqn:E; [|done].
    apply assoc_Some in E as (m1 & m2 & Em & Hf). unfold findCalib_set.
    intros Hc. exists m1, s, m2.
    destruct (is_seq_cmap s) eqn:E1, (is_assoc_cmap s) eqn:E2; try done;
      apply seq_find_size_Some in Hc as (c1 & c2 & Hc & Hf'); exists c1, c2; auto 10.
  - intros (m1 & s & m2 & c1 & c2 & Em & Hf & Hs & Ec & Hfc).
    rewrite (proj2 (assoc_Some name (map_items m) s)) by eauto.
    assert (Hfind : seq_find_size sz (set_items s) = Some c) by (apply seq_find_size_Some; eauto).
    unfold findCalib_set, seq_find_calib_impl, assoc_find_calib_impl. rewrite Hfind.
    destruct (is_seq_cmap s); [done|]. by destruct Hs as [| ->].
Qed.

(** The search over alternative names returns the calibration of the first
    name that has one for the resolution, and nothing exactly when no name
    does; on an associative outer map it never finds anything. *)
Theorem findAnyCalib_spec names sz m :
  (forall c, findAnyCalib names sz m = Some c <->
     exists n1 n n2, names = n1 ++ n :: n2 /\ findCalib n sz m = Some c /\
       Forall (fun k => findCalib k sz m = None) n1) /\
  (findAnyCalib names sz m = None <-> Forall (fun k => findCalib k sz m = None) names) /\
  (is_assoc_smap m = true -> findAnyCalib names sz m = None).
Proof.
  assert (Hcons : forall n ns, findAnyCalib (n :: ns) sz m =
            match findCalib n sz m with Some c => Some c | None => findAnyCalib ns sz m end).
  { intros n ns. unfold findCalib. simpl. by destruct (findSet n m). }
  assert (Hnone : findAnyCalib names sz m = None <-> Forall (fun k => findCalib k sz m = None) names).
  { induction names as [|n ns IH]; [split; [by constructor | done]|].
    rewrite Hcons, Forall_cons. destruct (findCalib n sz m); [|tauto]. split; [done|]. by intros [? _]. }
  split; [|split; [exact Hnone|]].
  - intros c. clear Hnone. induction names as [|n ns IH].
    + split; [done|]. by intros ([|] & ? & ? & ? & _).
    + rewrite Hcons. destruct (findCalib n sz m) as [c'|] eqn:E.
      * split.
        -- intros [= ->]. by exists [], n, ns.
        -- intros ([|k n1] & k' & n2 & El & Hk & Hf); simpl in El; injection El as <- El; [congruence|].
           inversion Hf. congruence.
      * rewrite IH. split.
        -- intros (n1 & k & n2 & -> & Hk & Hf). exists (n :: n1), k, n2. auto.
        -- intros ([|k n1] & k' & n2 & El & Hk & Hf); simpl in El; injection El as <- El; [congruence|].
           inversion Hf; subst. eauto 10.
  - intros Ha. apply Hnone. apply Forall_forall. intros n _. unfold findCalib, findSet.
    unfold is_assoc_smap, is_wpi_smap, is_seq_smap in *.
    destruct (map_temp m); [done|]. destruct (map_container m); try done.
Qed.

(** ** Printing and parsing resolutions *)

Fixpoint all_digits (s : string) : Prop :=
  match s with
  | EmptyString => True
  | String c s' => is_Some (digit_value c) /\ all_digits s'
  end.

Lemma digit_value_digit d : (d < 10)%nat -> digit_value (Ascii.ascii_of_nat (48 + d)) = Some (Z.of_nat d).
Proof. intros Hd. do 10 (destruct d as [|d]; [reflexivity|]). lia. Qed.

Lemma digits_digit acc d : (d < 10)%nat -> digits acc (digit d) = acc * 10 + Z.of_nat d.
Proof. intros Hd. do 10 (destruct d as [|d]; [reflexivity|]). lia. Qed.

Lemma starts_digit d : (d < 10)%nat -> starts_with_digit (digit d) = true.
Proof. intros Hd. do 10 (destruct d as [|d]; [reflexivity|]). lia. Qed.

Lemma all_digits_app s t : all_digits s -> all_digits t -> all_digits (s +:+ t).
Proof. induction s as [|c s IH]; simpl; [done|]. intros [? ?] ?. auto. Qed.

Lemma decimal_all_digits f n : all_digits (decimal_nat f n).
Proof.
  revert n. induction f as [|f IH]; intros n; cbn [decimal_nat]; [done|].
  assert (Hd : forall d, (d < 10)%nat -> all_digits (digit d)).
  { intros d Hd. split; [exists (Z.of_nat d); by apply digit_value_digit | done]. }
  destruct (Nat.ltb_spec n 10); [by apply Hd|].
  apply all_digits_app; [apply IH | apply Hd, Nat.mod_upper_bound; lia].
Qed.

Lemma digits_app_digit s acc d :
  all_digits s -> (d < 10)%nat -> digits acc (s +:+ digit d) = digits acc s * 10 + Z.of_nat d.
Proof.
  revert acc. induction s as [|c s IH]; intros acc Hs Hd.
  - by apply digits_digit.
  - destruct Hs as [[v Hv] Hs]. rewrite string_app_cons. cbn [digits]. rewrite Hv. by apply IH.
Qed.

Lemma digits_decimal f n : (n < f)%nat -> digits 0 (decimal_nat f n) = Z.of_nat n.
Proof.
  revert n. induction f as [|f IH]; intros n Hn; [lia|]. cbn [decimal_nat].
  destruct (Nat.ltb_spec n 10).
  - change (digit n) with (EmptyString +:+ digit n). by rewrite digits_app_digit.
  - pose proof (Nat.div_mod_eq n 10) as E.
    pose proof (Nat.mod_upper_bound n 10 ltac:(lia)) as Hm.
    rewrite digits_app_digit by (done || apply decimal_all_digits).
    rewrite IH by (pose proof (Nat.div_lt n 10); lia). lia.
Qed.

Lemma decimal_starts f n : (n < f)%nat -> starts_with_digit (decimal_nat f n) = true.
Proof.
  assert (Hd : forall s d, (d < 10)%nat -> all_digits s -> starts_with_digit (s +:+ digit d) = true).
  { intros [|c s] d Hd Hs; [by apply starts_digit|].
    destruct Hs as [[v Hv] _]. rewrite string_app_cons. cbn [starts_with_digit]. by rewrite Hv. }
  destruct f as [|f]; intros Hn; [lia|]. cbn [decimal_nat].
  destruct (Nat.ltb_spec n 10); [by apply (Hd EmptyString)|].
  apply Hd; [apply Nat.mod_upper_bound; lia | apply decimal_all_digits].
Qed.

Lemma from_chars_to_string n d :
  Z.of_nat n <= 2 ^ 31 - 1 -> from_chars (to_string n) d = Z.of_nat n.
Proof.
  intros Hn. unfold to_string.
  pose proof (decimal_starts (S n) n ltac:(lia)) as Hs.
  pose proof (digits_decimal (S n) n ltac:(lia)) as Hv.
  destruct (decimal_nat (S n) n) as [|c s] eqn:E; [done|].
  unfold from_chars. rewrite Hs, Hv.
  destruct (Nat.eqb_spec (Ascii.nat_of_ascii c) 45) as [E45|].
  - exfalso. simpl in Hs. unfold digit_value in Hs. rewrite E45 in Hs. done.
  - unfold in_int. destruct (Z.leb_spec (- 2 ^ 31) (Z.of_nat n)), (Z.leb_spec (Z.of_nat n) (2 ^ 31 - 1));
      done || lia.
Qed.

Definition char_x : Ascii.ascii := Ascii.ascii_of_nat 120.

Lemma find_x_digits s t : all_digits s -> find_x (s +:+ String char_x t) = Some (String.length s).
Proof.
  induction s as [|c s IH]; intros Hs; [done|]. destruct Hs as [[v Hv] Hs].
  rewrite string_app_cons. cbn [find_x String.length]. rewrite IH by done.
  destruct (Nat.eqb_spec (Ascii.nat_of_ascii c) 120) as [E|]; [|done].
  unfold digit_value in Hv. rewrite E in Hv. done.
Qed.

(** C33. A printed resolution "<width>x<height>" is parsed back exactly, for
    every width and height that fits an [int]. *)
Theorem extractSize_roundtrip w h :
  Z.of_nat w <= 2 ^ 31 - 1 -> Z.of_nat h <= 2 ^ 31 - 1 ->
  extractSize (to_string w +:+ "x" +:+ to_string h) = Ok (Z.of_nat w, Z.of_nat h).
Proof.
  intros Hw Hh. unfold extractSize.
  assert (Hd : all_digits (to_string w)) by apply decimal_all_digits.
  change ("x" +:+ to_string h) with (String char_x (to_string h)).
  rewrite find_x_digits, substring_app_l by done.
  replace (S (String.length (to_string w))) with (String.length (to_string w) + 1)%nat by lia.
  rewrite substring_app_r, string_length_app. cbn [String.substring String.length].
  replace (String.length (to_string w) + S (String.length (to_string h)) -
           (String.length (to_string w) + 1))%nat with (String.length (to_string h)) by lia.
  by rewrite substring_all, !from_chars_to_string.
Qed.

(** * Concrete collections *)

Definition sample_set : CalibSet :=
  mkSet VecMap [((640, 480), (default_matrix, default_distort)); ((320, 240), (mkMat_ 3 3 7, mkMat_ 1 5 8))].
Definition sample_map : CalibMap :=
  mkMap NMap VecMap [("Microsoft LifeCam", mkSet VecMap []); ("Logitech B910", sample_set)].

Lemma findCalib_first_witness :
  findCalib "Logitech B910" (320, 240) sample_map = Some (mkMat_ 3 3 7, mkMat_ 1 5 8).
Proof.
  apply (findCalib_first "Logitech B910" (320, 240) sample_map (mkMat_ 3 3 7, mkMat_ 1 5 8)).
  - by right.
  - exists [("Microsoft LifeCam", mkSet VecMap [])], sample_set, [],
      [((640, 480), (default_matrix, default_distort))], [].
    repeat split; try reflexivity; [repeat constructor; discriminate | by left |].
    repeat constructor. discriminate.
Defined.

Lemma extractSize_roundtrip_witness : extractSize "1280x720" = Ok (1280, 720).
Proof. apply (extractSize_roundtrip 1280 720); vm_compute; discriminate. Defined.
