(* ===== verification/Config.v ===== *)
(** Reading the configuration file ([lib-vs/src/core/config.h], [config.cpp]):
    loading the JSON, starting the network tables, and creating the cameras
    with their calibrations. *)

From S2P Require Import Prelude Floats Json World Instances Camera Calib.
Local Open Scope Z_scope.
Local Open Scope vs_scope.

(** The file system and the JSON parser: what parsing the contents of a file
    gives ([None] when it cannot be opened), and the error text. *)
Class Files := {
  parse_file : string -> option (res json);
  open_error : string -> string
}.

Definition FRC_CONFIG : string := "/boot/frc.json".

Section Config.

Context {C T : Type} `{CS : CsCore C} `{NT : Tables T} `{WH : What} `{FS : Files}.
Abbreviation prog := (M C T).

Definition config_error (file text : string) : prog unit :=
  print ("Config error in " +:+ file +:+ ": " +:+ text).

(** [parse_error] is caught here, any other exception of the parser is not. *)
Definition loadJson (file : string) : prog (option json) :=
  match parse_file file with
  | None => print ("Could not open '" +:+ file +:+ "': " +:+ open_error file) ;* ret None
  | Some (Throw ParseError) => config_error file (what ParseError) ;* ret None
  | Some (Throw e) => lift (Throw e)
  | Some Undefined => lift Undefined
  | Some (Ok j) =>
      if is_object j then ret (Some j)
      else config_error file "must be JSON object" ;* ret None
  end.

(** The ["ntmode"] member: false when the team number of a client cannot be
    read, true otherwise, also when the mode itself cannot be read. *)
Definition start_networktables (j : json) (file : string) : prog bool :=
  if (count j "ntmode" =? 0)%nat then ret true
  else
    catch_json
      (let* str := lift (v ← at_key j "ntmode"; get_string v) in
       if equals_lower str "client" then
         print "Setting up NetworkTables in CLIENT mode" ;*
         catch_json
           (on_nt (nt_StartClient "VisionServer") ;*
            let* team := lift (v ← at_key j "team"; get_uint v) in
            on_nt (nt_SetServerTeam team) ;*
            on_nt nt_StartDSClient ;*
            ret true)
           (fun e => config_error file ("could not read team number: " +:+ what e) ;* ret false)
       else if equals_lower str "server" then
         print "Setting up NetworkTables in SERVER mode" ;*
         on_nt nt_StartServer ;*
         ret true
       else
         print ("Setting up NetworkTables for SIMULATION mode - host: " +:+ str) ;*
         on_nt (nt_StartClient "VisionServer") ;*
         on_nt (nt_SetServer str) ;*
         ret true)
      (fun e => config_error file ("coud not read ntmode: " +:+ what e) ;* ret true).

Definition initNT (file : string) : prog bool :=
  let* oj := loadJson file in
  match oj with
  | None => ret false
  | Some j => start_networktables j file
  end.

Definition initSimNT (sim_ip : string) : prog bool :=
  print ("Setting up NetworkTables for SIMULATION mode - host: " +:+ sim_ip) ;*
  on_nt (nt_StartClient "VisionServer") ;*
  on_nt (nt_SetServer sim_ip) ;*
  ret true.

(** ** Creating cameras *)

(** The build option [REMOVE_DISCONNECTED_CAMERAS]. *)
Context (remove_disconnected : bool).

Definition drop_if_disconnected (cameras : list VisionCamera) (cam : VisionCamera)
    : prog (list VisionCamera) :=
  let* up := ask_cs (cs_IsConnected (m_handle cam)) in
  if remove_disconnected && negb up then VisionCamera_destroy cam ;* ret cameras
  else ret (cameras ++ [cam]).

(** One turn of the loop over ["cameras"]: the calibration named by the camera,
    or none when it cannot be found. *)
Definition create_camera (j : json) (file : string) (cameras : list VisionCamera) (camera : json)
    : prog (list VisionCamera) :=
  let* cam :=
    if ((0 <? count camera "calibration") && (0 <? count j "calibrations"))%nat then
      catch_json
        (let* cals := lift (at_key j "calibrations") in
         let* name := lift (v ← at_key camera "calibration"; get_string v) in
         let* cal := lift (at_key cals name) in
         VisionCamera_calibrated camera cal)
        (fun e => config_error file ("failed to get configuration object: " +:+ what e) ;*
                  VisionCamera_config camera)
    else VisionCamera_config camera in
  drop_if_disconnected cameras cam.

(** The loop over the cameras; a JSON exception that escapes a turn ends it and
    leaves the cameras of the turns before. *)
Fixpoint for_cameras {A} (turn : list A -> json -> prog (list A))
    (cameras : list A) (l : list json) : prog (list A * option exn) :=
  match l with
  | [] => ret (cameras, None)
  | camera :: l' => fun w =>
      match turn cameras camera w with
      | (w', Ok cameras') => for_cameras turn cameras' l' w'
      | (w', Throw e) =>
          if is_json_exception e then (w', Ok (cameras, Some e)) else (w', Throw e)
      | (w', Undefined) => (w', Undefined)
      end
  end.

(** The cameras of the configuration, appended to those there are. *)
Definition read_cameras {A} (turn : list A -> json -> prog (list A))
    (j : json) (file : string) (cameras : list A) : prog (list A) :=
  if (count j "cameras" <? 1)%nat then
    config_error file "no camera configs found, this program requires cameras to function" ;*
    ret cameras
  else
    let* r := catch_json
      (let* l := lift (at_key j "cameras") in for_cameras turn cameras (elements l))
      (fun e => ret (cameras, Some e)) in
    match r.2 with
    | Some e => config_error file ("could not read cameras: " +:+ what e) ;* ret r.1
    | None => ret r.1
    end.

Definition createCameras (cameras : list VisionCamera) (file : string)
    : prog (list VisionCamera * bool) :=
  let* oj := loadJson file in
  match oj with
  | None => ret (cameras, false)
  | Some j =>
      let* cams := read_cameras (create_camera j file) j file cameras in
      ret (cams, true)
  end.

(** The other way of creating cameras: construct first, then look for a
    calibration by the camera's type in the given collection, or by name in the
    configuration. *)
Definition create_camera_from (calibrations : CalibMap) (j : json) (file : string)
    (cameras : list VisionCamera) (camera : json) : prog (list VisionCamera) :=
  let has_calibs := (0 <? count j "calibrations")%nat in
  let* cam := VisionCamera_config camera in
  let* typed := (if (count camera "properties" =? 0)%nat then ret false
                 else let* p := lift (at_key camera "properties") in
                      ret (0 <? count p "type")%nat) in
  let* cam' :=
    if typed then
      catch_json
        (let* type := lift (p ← at_key camera "properties"; v ← at_key p "type"; get_string v) in
         match findCalib type (getResolution cam) calibrations with
         | Some cal => ret (setDistortionCoefs (setCameraMatrix cam cal.1).1 cal.2).1
         | None => ret cam
         end)
        (fun e => config_error file ("failed to get 'type' property: " +:+ what e) ;* ret cam)
    else if (has_calibs && (0 <? count camera "calibration")%nat)%bool then
      catch_json
        (let* cals := lift (at_key j "calibrations") in
         let* name := lift (v ← at_key camera "calibration"; get_string v) in
         let* cal := lift (at_key cals name) in
         let* r := setCalibrationJson cam cal in
         ret r.1)
        (fun e => config_error file ("failed to get configuration object: " +:+ what e) ;* ret cam)
    else ret cam in
  drop_if_disconnected cameras cam'.

Definition createCameras_from (cameras : list VisionCamera) (calibrations : CalibMap) (file : string)
    : prog (list VisionCamera * bool) :=
  let* oj := loadJson file in
  match oj with
  | None => ret (cameras, false)
  | Some j =>
      let* cams := read_cameras (create_camera_from calibrations j file) j file cameras in
      ret (cams, true)
  end.

(** The legacy loader does both; a team number that cannot be read ends it. *)
Definition readConfig (cameras : list VisionCamera) (file : string)
    : prog (list VisionCamera * bool) :=
  let* oj := loadJson file in
  match oj with
  | None => ret (cameras, false)
  | Some j =>
      let* up := start_networktables j file in
      if up then
        let* cams := read_cameras (create_camera j file) j file cameras in
        ret (cams, true)
      else ret (cameras, false)
  end.

End Config.

(** * Starting the network tables *)

Section Properties.

Context {C T : Type} `{CS : CsCore C} `{NT : Tables T} `{WH : What} `{FS : Files}.
Abbreviation prog := (M C T).

(** The tables after [m], and its result. *)
Definition nt_result {A} (m : prog A) (w : world C T) (t : T) (a : A) : Prop :=
  exists out, m w = (World (w_cs w) t (w_bufs w) out, Ok a).

(** Evaluate the monad's operations. *)
Ltac evaluate := unfold catch_json, config_error, bind, lift, on_nt, print, ret.

(** Starting the network tables from a configuration object: a client with
    a readable team number starts, is given the team and listens to the driver
    station, in that order; without one the client has been started but the
    result is false; "server" and any other text start a server or a client of
    that host; without a textual mode nothing is started and the result is
    true. *)
Theorem initNT_modes file j w :
  parse_file file = Some (Ok j) -> is_object j = true ->
  let t := w_nt w in
  let client := nt_StartClient "VisionServer" t in
  (forall s n, at_key j "ntmode" = Ok (JString s) -> equals_lower s "client" = true ->
     (v ← at_key j "team"; get_uint v) = Ok n ->
     nt_result (initNT file) w (nt_StartDSClient (nt_SetServerTeam n client)) true) /\
  (forall s e, at_key j "ntmode" = Ok (JString s) -> equals_lower s "client" = true ->
     (v ← at_key j "team"; get_uint v) = Throw e -> is_json_exception e = true ->
     nt_result (initNT file) w client false) /\
  (forall s, at_key j "ntmode" = Ok (JString s) -> equals_lower s "client" = false ->
     nt_result (initNT file) w
       (if equals_lower s "server" then nt_StartServer t else nt_SetServer s client) true) /\
  ((forall s, at_key j "ntmode" <> Ok (JString s)) -> nt_result (initNT file) w t true).
Proof.
  intros Hp Ho t client.
  assert (Hload : initNT file w = start_networktables j file w).
  { unfold initNT, loadJson. rewrite Hp, Ho. done. }
  assert (Hcount : forall v, at_key j "ntmode" = Ok v -> (count j "ntmode" =? 0)%nat = false).
  { intros v Hv. destruct j; try done. cbn in *. by destruct (assoc _ kvs). }
  unfold nt_result. rewrite Hload. unfold start_networktables.
  split; [|split; [|split]].
  - intros s n Hm Hc Ht. rewrite (Hcount _ Hm). evaluate.
    rewrite Hm. cbn [mbind res_bind get_string]. rewrite Hc, Ht. by eexists.
  - intros s e Hm Hc Ht He. rewrite (Hcount _ Hm). evaluate.
    rewrite Hm. cbn [mbind res_bind get_string]. rewrite Hc, Ht, He. by eexists.
  - intros s Hm Hc. rewrite (Hcount _ Hm). evaluate.
    rewrite Hm. cbn [mbind res_bind get_string]. rewrite Hc.
    destruct (equals_lower s "server"); by eexists.
  - intros Hno. destruct (count j "ntmode" =? 0)%nat eqn:Ec.
    + exists (w_out w). by destruct w.
    + evaluate. destruct j; try done. cbn [at_key count] in *.
      destruct (assoc "ntmode" kvs) as [v|]; [|done].
      destruct v; try (by eexists). by destruct (Hno s).
Qed.

(** * Every entry becomes a camera *)

(** The buffers of the default matrices hold nine and five numbers. *)
Definition defaults_ok (w : world C T) : Prop :=
  (exists l0, w_bufs w !! 0%nat = Some l0 /\ length l0 = 9%nat) /\
  (exists l1, w_bufs w !! 1%nat = Some l1 /\ length l1 = 5%nat).

(** Ends with a value satisfying [P], or with a JSON exception, and keeps the
    default buffers in shape; [total]: only the former. *)
Definition safe {A} (m : prog A) (P : A -> Prop) : Prop :=
  forall w, defaults_ok w -> exists w', defaults_ok w' /\
    ((exists a, m w = (w', Ok a) /\ P a) \/
     (exists e, m w = (w', Throw e) /\ is_json_exception e = true)).
Definition total {A} (m : prog A) (P : A -> Prop) : Prop :=
  forall w, defaults_ok w -> exists w' a, defaults_ok w' /\ m w = (w', Ok a) /\ P a.

Lemma total_safe {A} (m : prog A) P : total m P -> safe m P.
Proof. intros Hm w Hw. destruct (Hm w Hw) as (w' & a & ? & ? & ?). eauto 10. Qed.

Lemma total_bind {A B} (m : prog A) (f : A -> prog B) P Q :
  total m P -> (forall a, P a -> total (f a) Q) -> total (bind m f) Q.
Proof.
  intros Hm Hf w Hw. destruct (Hm w Hw) as (w1 & a & H1 & E1 & HP).
  destruct (Hf a HP w1 H1) as (w2 & b & H2 & E2 & HQ).
  exists w2, b. by rewrite (bind_ok _ _ _ _ _ E1).
Qed.

Lemma safe_bind {A B} (m : prog A) (f : A -> prog B) P Q :
  safe m P -> (forall a, P a -> safe (f a) Q) -> safe (bind m f) Q.
Proof.
  intros Hm Hf w Hw. destruct (Hm w Hw) as (w1 & H1 & [(a & E1 & HP)|(e & E1 & He)]).
  - destruct (Hf a HP w1 H1) as (w2 & H2 & Hc). exists w2. by rewrite (bind_ok _ _ _ _ _ E1).
  - exists w1. split; [done|]. right. exists e. unfold bind. by rewrite E1.
Qed.

Lemma total_catch {A} (m : prog A) (h : exn -> prog A) P :
  safe m P -> (forall e, total (h e) P) -> total (catch_json m h) P.
Proof.
  intros Hm Hh w Hw. destruct (Hm w Hw) as (w1 & H1 & [(a & E1 & HP)|(e & E1 & He)]);
    unfold catch_json; rewrite E1.
  - by exists w1, a.
  - rewrite He. by apply Hh.
Qed.

Lemma total_ret {A} (a : A) (P : A -> Prop) : P a -> total (ret a) P.
Proof. intros HP w Hw. by exists w, a. Qed.

Lemma total_cs {A} (m : prog A) P : cs_only m P -> total m P.
Proof.
  intros Hm w Hw. destruct (Hm w) as (w' & a & E & HP & _ & Hb).
  exists w', a. split; [|done]. unfold defaults_ok. by rewrite Hb.
Qed.

Lemma total_print s : total (print s) (fun _ => True).
Proof. apply total_cs, cs_only_print. Qed.

Lemma total_nt f : total (on_nt f) (fun _ => True).
Proof.
  intros w Hw. exists (World (w_cs w) (f (w_nt w)) (w_bufs w) (w_out w)), tt. by destruct Hw.
Qed.

Lemma safe_lift {A} (r : res A) :
  r <> Undefined -> (forall e, r = Throw e -> is_json_exception e = true) ->
  safe (lift r) (fun _ => True).
Proof.
  intros Hu He w Hw. exists w. split; [done|]. destruct r as [a|e|]; [left; by eexists | right | done].
  exists e. eauto.
Qed.

Lemma total_weaken {A} (m : prog A) (P Q : A -> Prop) :
  (forall a, P a -> Q a) -> total m P -> total m Q.
Proof. intros HPQ Hm w Hw. destruct (Hm w Hw) as (w' & a & ? & ? & ?). eauto 10. Qed.

Lemma safe_at_key j k : safe (lift (at_key j k)) (fun _ => True).
Proof.
  apply safe_lift; [destruct j; cbn; try done; by destruct (assoc _ _) | apply at_key_json_exception].
Qed.
Lemma safe_at_idx j i : safe (lift (at_idx j i)) (fun _ => True).
Proof.
  apply safe_lift.
  - destruct j; try done. cbn. by destruct (l !! i).
  - intros e. destruct j; try (by intros [= <-]). cbn. destruct (l !! i); [done|]. by intros [= <-].
Qed.
Lemma safe_get_float j : safe (lift (get_float j)) (fun _ => True).
Proof. apply safe_lift; destruct j; try done; by intros ? [= <-]. Qed.
Lemma safe_get_member j k : safe (lift (v ← at_key j k; get_string v)) (fun _ => True).
Proof.
  apply safe_lift; destruct (string_member j k) as [[s E]|(e & E & He)]; rewrite E; try done.
  by intros ? [= <-].
Qed.

(** The default matrices: headers whose elements are in their buffers. *)
Definition default_header (m : Mat_) : Prop := m = default_matrix \/ m = default_distort.

Lemma safe_store matx m p :
  default_header m -> (p.1 * mcols m + p.2 < mrows m * mcols m)%nat ->
  safe (store_element get_float matx m p) (fun _ => True).
Proof.
  intros Hm Hp. unfold store_element.
  eapply safe_bind; [apply safe_at_idx|]. intros r _.
  eapply safe_bind; [apply safe_at_idx|]. intros e _.
  eapply safe_bind; [apply safe_get_float|]. intros x _.
  intros w ((l0 & E0 & Hl0) & l1 & E1 & Hl1). unfold mat_write.
  assert (Hbuf : exists l, w_bufs w !! mbuf m = Some l /\ length l = (mrows m * mcols m)%nat).
  { destruct Hm as [-> | ->]; eauto. }
  destruct Hbuf as (l & El & Hl). rewrite El, (proj2 (Nat.ltb_lt _ _)) by lia.
  eexists. split; [|left; by exists tt]. split; cbn [w_bufs].
  - destruct Hm as [-> | ->]; cbn [mbuf default_matrix default_distort] in *.
    + eexists. rewrite lookup_insert_eq. split; [reflexivity|]. rewrite length_insert. congruence.
    + exists l0. by rewrite lookup_insert_ne.
  - destruct Hm as [-> | ->]; cbn [mbuf default_matrix default_distort] in *.
    + exists l1. by rewrite lookup_insert_ne.
    + eexists. rewrite lookup_insert_eq. split; [reflexivity|]. rewrite length_insert. congruence.
Qed.

Lemma safe_for_each matx m ps :
  default_header m -> Forall (fun p => (p.1 * mcols m + p.2 < mrows m * mcols m)%nat) ps ->
  safe (for_each (store_element get_float matx m) ps) (fun _ => True).
Proof.
  intros Hm. induction 1 as [|p ps Hp _ IH]; simpl.
  - apply total_safe. by apply total_ret.
  - eapply safe_bind; [by apply safe_store|]. auto.
Qed.

(** Filling a default matrix from a member of the calibration. *)
Lemma total_fill (cal : json) key m ps (f : exn -> string) :
  default_header m -> Forall (fun p => (p.1 * mcols m + p.2 < mrows m * mcols m)%nat) ps ->
  total (if is_object cal then
           catch_json (let* matx := lift (at_key cal key) in for_each (store_element get_float matx m) ps)
             (fun e => print (f e)) ;* ret true
         else ret false) (fun _ => True).
Proof.
  intros Hm Hps. destruct (is_object cal); [|by apply total_ret].
  eapply total_bind; [|intros _ _; by apply total_ret].
  apply total_catch; [|intros; apply total_print].
  eapply safe_bind; [apply safe_at_key|]. intros matx _. by apply safe_for_each.
Qed.

Lemma total_camera_matrix cam :
  total (getJsonCameraMatrix get_float cam default_matrix) (fun _ => True).
Proof. apply total_fill; [by left | repeat constructor; cbn; lia]. Qed.

Lemma total_distortion cam :
  total (getJsonDistortionCoefs get_float cam default_distort) (fun _ => True).
Proof. apply total_fill; [by right | repeat constructor; cbn; lia]. Qed.

Lemma total_config_camera cfg :
  mode_defined cfg ->
  total (VisionCamera_config cfg)
    (fun cam => config cam = cfg /\ calibration cam = JNull /\
                camera_matrix cam = default_matrix /\ distortion cam = default_distort).
Proof. intros Hd. by apply total_cs, VisionCamera_config_ok. Qed.

Lemma total_calibrated_camera cfg cal :
  mode_defined cfg ->
  total (VisionCamera_calibrated cfg cal) (fun cam => config cam = cfg /\ calibration cam = cal).
Proof.
  intros Hd. unfold VisionCamera_calibrated.
  eapply total_bind with (P := fun c => config c = cfg /\ calibration c = cal /\
                                        camera_matrix c = default_matrix /\ distortion c = default_distort).
  { intros w Hw. by eexists w, _. }
  intros c (Hc & Hcal & Hcm & Hcd).
  eapply total_bind; [apply total_cs, usb_source_ok|]. intros h _. cbv zeta.
  change (camera_matrix (with_source c h 0)) with (camera_matrix c).
  change (distortion (with_source c h 0)) with (distortion c). rewrite Hcm, Hcd.
  eapply total_bind; [apply total_camera_matrix|]. intros _ _.
  eapply total_bind; [apply total_distortion|]. intros _ _.
  apply total_cs. eapply cs_only_bind; [apply new_sink_ok|]. intros sink _.
  eapply cs_only_bind; [apply cs_only_on|]. intros _ _.
  eapply cs_only_bind; [apply cs_only_ask|]. intros mode _.
  change (config (with_source c h 0)) with (config c). rewrite Hc.
  destruct (mode_ok (mode_bool mode) cfg mode Hd) as [m' ->].
  eapply cs_only_bind with (P := fun _ => True); [by apply (cs_only_ret m')|]. intros a _.
  apply cs_only_ret. by destruct c.
Qed.

(** *** What a camera is made from *)

(** [a] is what [m] returns somewhere. *)
Definition constructed {A} (m : prog A) (a : A) : Prop := exists w w', m w = (w', Ok a).

(** The calibration that the entry of a camera names: a member of the
    configuration's "calibrations". *)
Definition named_calibration (j camera : json) : option json :=
  match (cals ← at_key j "calibrations"; name ← (v ← at_key camera "calibration"; get_string v);
         at_key cals name) with
  | Ok cal => Some cal
  | _ => None
  end.

(** The camera of an entry: calibrated when its calibration is found. *)
Definition calibrated_by_name (j camera : json) (cam : VisionCamera) : Prop :=
  config cam = camera /\
  match named_calibration j camera with
  | Some cal => constructed (VisionCamera_calibrated camera cal) cam /\ calibration cam = cal
  | None => constructed (VisionCamera_config camera) cam /\ calibration cam = JNull
  end.

(** The camera [cam0] with the matrices of a calibration that have the sizes of
    the default ones. *)
Definition with_calibrated_matrices (cam0 : VisionCamera) (cal : Calibration) : VisionCamera :=
  with_matrices cam0
    (if (mat_area cal.1 =? 9)%nat then reshape cal.1 3 else camera_matrix cam0)
    (if (mat_area cal.2 =? 5)%nat then reshape cal.2 1 else distortion cam0).

(** The camera of an entry for a given collection of calibrations: by its "type"
    and resolution when it has a "type", otherwise by the name of its
    calibration, as far as either is found. *)
Definition calibrated_from (calibs : CalibMap) (j camera : json) (cam : VisionCamera) : Prop :=
  config cam = camera /\
  exists cam0, constructed (VisionCamera_config camera) cam0 /\
  match (p ← at_key camera "properties"; at_key p "type") with
  | Ok (JString type) =>
      cam = match findCalib type (getResolution cam0) calibs with
            | Some cal => with_calibrated_matrices cam0 cal
            | None => cam0
            end
  | Ok _ => cam = cam0
  | _ =>
      match named_calibration j camera with
      | Some cal => exists done, constructed (setCalibrationJson cam0 cal) (cam, done) /\
                      calibration cam = (if is_object cal then cal else JNull)
      | None => cam = cam0
      end
  end.

Lemma total_constructed {A} (m : prog A) P : total m P -> total m (fun a => P a /\ constructed m a).
Proof.
  intros Hm w Hw. destruct (Hm w Hw) as (w' & a & H' & E & HP).
  exists w', a. split; [done|]. split; [done|]. split; [done|]. by exists w, w'.
Qed.

Lemma total_bind_constructed {A B} (m : prog A) (f : A -> prog B) P Q :
  total m P -> (forall a, P a -> constructed m a -> total (f a) Q) -> total (bind m f) Q.
Proof. intros Hm Hf. eapply total_bind; [by apply total_constructed|]. intros a [? ?]. auto. Qed.

Lemma catch_safe_none {A} (m : prog A) (h : exn -> prog A) P :
  safe m (fun _ => False) -> (forall e, total (h e) P) -> total (catch_json m h) P.
Proof. intros Hm Hh. apply total_catch; [|done]. intros w Hw. destruct (Hm w Hw) as (w' & ? & [(? & ? & [])|?]); eauto. Qed.

(** A member that is there. *)
Lemma count_found j k v : at_key j k = Ok v -> (0 <? count j k)%nat = true.
Proof. intros E. apply Nat.ltb_lt, count_at_key. eauto. Qed.

Lemma at_key_defined j k : at_key j k <> Undefined.
Proof. destruct j; cbn; try done. by destruct (assoc _ _). Qed.

(** Looking the calibration up in the configuration, before [f] uses it. *)
Definition look_up (j camera : json) {A} (f : json -> prog A) : prog A :=
  let* cals := lift (at_key j "calibrations") in
  let* name := lift (v ← at_key camera "calibration"; get_string v) in
  let* cal := lift (at_key cals name) in
  f cal.

(** It finds the one that is named, or ends in a JSON exception. *)
Lemma look_up_found j camera cal {A} (f : json -> prog A) w :
  named_calibration j camera = Some cal ->
  look_up j camera f w = f cal w /\
  ((0 <? count camera "calibration") && (0 <? count j "calibrations"))%nat = true.
Proof.
  unfold named_calibration. destruct (at_key j "calibrations") as [cals| |] eqn:E1; [|done..].
  destruct (string_member camera "calibration") as [[name E2]|(e & E2 & _)]; rewrite E2; [|done].
  cbn [mbind res_bind]. destruct (at_key cals name) as [c| |] eqn:E3; [|done..]. intros [= ->].
  split.
  - unfold look_up. rewrite E1, E2, (bind_ok _ _ w w cals), (bind_ok _ _ w w name), E3 by done. done.
  - rewrite (count_found _ _ _ E1). destruct (at_key camera "calibration") as [v| |] eqn:E4; [|done..].
    by rewrite (count_found _ _ _ E4).
Qed.

Lemma look_up_missing j camera {A} (f : json -> prog A) :
  named_calibration j camera = None -> safe (look_up j camera f) (fun _ => False).
Proof.
  intros Hn w Hw. exists w. split; [done|]. right. revert Hn. unfold named_calibration, look_up.
  unfold bind at 1, lift at 1.
  destruct (at_key j "calibrations") as [cals|e|] eqn:E1; [|intros _; exists e; split; [done|]|].
  - destruct (string_member camera "calibration") as [[name E]|(e & E & He)]; rewrite E.
    + unfold bind, lift. cbn [mbind res_bind].
      destruct (at_key cals name) as [c|e|] eqn:E3; [done| |by destruct (at_key_defined cals name)].
      intros _. exists e. split; [done|]. by eapply at_key_json_exception.
    + intros _. exists e. by split.
  - by eapply at_key_json_exception.
  - by destruct (at_key_defined j "calibrations").
Qed.

(** *** The turns of the two loaders *)

Context (remove_disconnected : bool).

(** What a turn makes of the vector: the camera of this entry at the end, or
    nothing when it is removed as disconnected. *)
Definition turn_made {A} (R : json -> A -> Prop) (cameras : list A) (camera : json) (cams : list A) : Prop :=
  (exists cam, cams = cameras ++ [cam] /\ R camera cam) \/
  (remove_disconnected = true /\ cams = cameras).

(** Only the configuration of the camera is known. *)
Definition turn_result {A} (cfg : A -> json) : list A -> json -> list A -> Prop :=
  turn_made (fun camera cam => cfg cam = camera).

Lemma total_drop (R : json -> VisionCamera -> Prop) cameras cam camera :
  R camera cam ->
  total (drop_if_disconnected remove_disconnected cameras cam) (turn_made R cameras camera).
Proof.
  intros Hc. unfold drop_if_disconnected.
  eapply total_bind; [apply total_cs, cs_only_ask|]. intros up _.
  destruct remove_disconnected eqn:Er; cbn [andb].
  - destruct up; cbn [negb].
    + apply total_ret. left. eauto.
    + unfold VisionCamera_destroy. eapply total_bind; [apply total_nt|]. intros _ _.
      apply total_ret. by right.
  - apply total_ret. left. eauto.
Qed.

Lemma total_error file text : total (config_error file text) (fun _ => True).
Proof. apply total_print. Qed.

Lemma total_create_camera j file cameras camera :
  mode_defined camera ->
  total (create_camera remove_disconnected j file cameras camera)
    (turn_made (calibrated_by_name j) cameras camera).
Proof.
  intros Hd. unfold create_camera.
  eapply total_bind with (P := calibrated_by_name j camera); [|intros; by apply total_drop].
  unfold calibrated_by_name. destruct (named_calibration j camera) as [cal|] eqn:En.
  - pose proof (total_constructed _ _ (total_calibrated_camera camera cal Hd)) as Hcal. intros w Hw.
    destruct (look_up_found j camera cal (VisionCamera_calibrated camera) w En) as [El ->].
    destruct (Hcal w Hw) as (w' & cam & H' & E & (Hc1 & Hc2) & Hc3). exists w', cam.
    unfold catch_json, look_up in *. by rewrite El, E.
  - assert (Hplain : total (VisionCamera_config camera)
              (fun cam => config cam = camera /\ constructed (VisionCamera_config camera) cam /\ calibration cam = JNull)).
    { eapply total_weaken; [|by apply total_constructed, total_config_camera]. by intros a [(? & ? & _) ?]. }
    destruct (_ && _)%bool; [|exact Hplain].
    apply catch_safe_none; [by apply (look_up_missing j camera (VisionCamera_calibrated camera))|].
    intros e. eapply total_bind; [apply total_error|]. auto.
Qed.

(** The matrices of a calibration that is found are taken over. *)
Lemma set_matrices cam0 (cal : Calibration) :
  (setDistortionCoefs (setCameraMatrix cam0 cal.1).1 cal.2).1 = with_calibrated_matrices cam0 cal.
Proof.
  unfold setDistortionCoefs, setCameraMatrix, with_calibrated_matrices.
  change (mat_area default_matrix) with 9%nat. change (mat_area default_distort) with 5%nat.
  destruct (mat_area cal.1 =? 9)%nat, (mat_area cal.2 =? 5)%nat; by destruct cam0.
Qed.

Lemma total_setCalibrationJson cam cal :
  camera_matrix cam = default_matrix -> distortion cam = default_distort ->
  total (setCalibrationJson cam cal)
    (fun r => r.1 = if is_object cal then with_calibration cam cal else cam).
Proof.
  intros Hcm Hcd. unfold setCalibrationJson. destruct (is_object cal); cbn [negb]; [|by apply total_ret].
  change (camera_matrix (with_calibration cam cal)) with (camera_matrix cam).
  change (distortion (with_calibration cam cal)) with (distortion cam). rewrite Hcm, Hcd. cbv zeta.
  eapply total_bind; [apply total_camera_matrix|]. intros m _.
  eapply total_bind with (P := fun _ => True); [destruct m; [apply total_distortion | by apply total_ret]|].
  intros d _. by apply total_ret.
Qed.

(** Whether the entry has a "type". *)
Lemma total_typed camera :
  total (if (count camera "properties" =? 0)%nat then ret false
         else let* p := lift (at_key camera "properties") in ret (0 <? count p "type")%nat)
    (fun typed => match (p ← at_key camera "properties"; at_key p "type") with
                  | Ok _ => typed = true | _ => typed = false end).
Proof.
  destruct (at_key camera "properties") as [p|e|] eqn:E.
  - pose proof (count_found _ _ _ E) as Hc. destruct (Nat.eqb_spec (count camera "properties") 0) as [H0|_];
      [by rewrite H0 in Hc|].
    apply (total_bind _ _ (eq p)); [by apply total_ret|]. intros _ <-. apply total_ret. cbn [mbind res_bind].
    destruct (at_key p "type") as [v|e|] eqn:Et; [by apply count_found in Et|..];
      apply Nat.ltb_ge; destruct (count p "type") eqn:Ek; try lia;
      destruct (proj1 (count_at_key p "type") ltac:(lia)); congruence.
  - destruct (count camera "properties") eqn:Ek; [by apply total_ret|].
    destruct (proj1 (count_at_key camera "properties") ltac:(lia)). congruence.
  - by destruct (at_key_defined camera "properties").
Qed.

(** The two ways to a calibration, from the camera without one. *)
Lemma total_by_type calibs file text cam camera v :
  config cam = camera -> (p ← at_key camera "properties"; at_key p "type") = Ok v ->
  total
    (catch_json
      (let* type := lift (p ← at_key camera "properties"; v ← at_key p "type"; get_string v) in
       match findCalib type (getResolution cam) calibs with
       | Some cal => ret (setDistortionCoefs (setCameraMatrix cam cal.1).1 cal.2).1
       | None => ret cam
       end)
      (fun e => config_error file (text +:+ what e) ;* ret cam))
    (fun cam' => config cam' = camera /\
       match v with
       | JString type => cam' = match findCalib type (getResolution cam) calibs with
                                | Some cal => with_calibrated_matrices cam cal | None => cam end
       | _ => cam' = cam
       end).
Proof.
  intros Hc Ev.
  assert (El : (p ← at_key camera "properties"; v ← at_key p "type"; get_string v) = get_string v).
  { destruct (at_key camera "properties") as [p| |]; cbn [mbind res_bind] in *; [|done..]. by rewrite Ev. }
  rewrite El. intros w Hw. unfold catch_json, config_error, print, bind, lift, ret.
  destruct v as [| | | | |type| |]; cbn [get_string is_json_exception]; 
    try (eexists _, cam; split; [|split; [reflexivity | done]]; exact Hw).
  exists w. destruct (findCalib type (getResolution cam) calibs) as [cal|]; [|by eexists].
  eexists. split; [done|]. split; [reflexivity|]. by rewrite set_matrices.
Qed.

Lemma total_by_name j file text cam camera :
  config cam = camera -> calibration cam = JNull ->
  camera_matrix cam = default_matrix -> distortion cam = default_distort ->
  total
    (if ((0 <? count j "calibrations") && (0 <? count camera "calibration"))%nat then
       catch_json
         (look_up j camera (fun cal => let* r := setCalibrationJson cam cal in ret r.1))
         (fun e => config_error file (text +:+ what e) ;* ret cam)
     else ret cam)
    (fun cam' => config cam' = camera /\
       match named_calibration j camera with
       | Some cal => exists done, constructed (setCalibrationJson cam cal) (cam', done) /\
                       calibration cam' = (if is_object cal then cal else JNull)
       | None => cam' = cam
       end).
Proof.
  intros Hc Hn Hcm Hcd. rewrite andb_comm. destruct (named_calibration j camera) as [cal|] eqn:En.
  - intros w Hw. 
    destruct (look_up_found j camera cal (fun cal => let* r := setCalibrationJson cam cal in ret r.1) w En)
      as [El ->].
    unfold catch_json. rewrite El.
    destruct (total_setCalibrationJson cam cal Hcm Hcd w Hw) as (w' & [cam' b] & H' & E & Hr). cbn [fst] in Hr.
    exists w', cam'. rewrite (bind_ok _ _ _ _ _ E). split; [done|]. split; [done|]. subst cam'.
    split; [by destruct (is_object cal)|]. exists b. split; [by exists w, w'|]. by destruct (is_object cal).
  - destruct (_ && _)%bool; [|by apply total_ret].
    apply catch_safe_none; [by apply look_up_missing|].
    intros e. eapply total_bind; [apply total_error|]. intros _ _. by apply total_ret.
Qed.

Lemma total_create_camera_from calibs j file cameras camera :
  mode_defined camera ->
  total (create_camera_from remove_disconnected calibs j file cameras camera)
    (turn_made (calibrated_from calibs j) cameras camera).
Proof.
  intros Hd. unfold create_camera_from. cbv zeta.
  eapply total_bind_constructed; [by apply total_config_camera|]. intros cam (Hc & Hn & Hcm & Hcd) Hmade.
  eapply total_bind; [apply total_typed|]. intros typed Ht.
  eapply total_bind with (P := calibrated_from calibs j camera); [|intros; by apply total_drop].
  unfold calibrated_from. destruct (p ← at_key camera "properties"; at_key p "type") as [v|e|] eqn:Ev; subst typed.
  - eapply total_weaken; [|by apply (total_by_type calibs file _ cam camera v)].
    intros cam' [Hc' Hv]. split; [exact Hc'|]. exists cam. split; [exact Hmade|]. by destruct v.
  - eapply total_weaken; [|by apply (total_by_name j file _ cam camera)].
    intros cam' [Hc' Hv]. split; [exact Hc'|]. by exists cam.
  - eapply total_weaken; [|by apply (total_by_name j file _ cam camera)].
    intros cam' [Hc' Hv]. split; [exact Hc'|]. by exists cam.
Qed.

(** The cameras made from the entries [l], in order: one for each entry, or for
    a subsequence of them when disconnected cameras are removed. *)
Definition made_by {A} (R : json -> A -> Prop) (cams : list A) (l : list json) : Prop :=
  exists l', l' `sublist_of` l /\ Forall2 R l' cams /\ (remove_disconnected = false -> l' = l).
Definition made_from {A} (cfg : A -> json) (cams : list A) (l : list json) : Prop :=
  map cfg cams `sublist_of` l /\ (remove_disconnected = false -> map cfg cams = l).

Lemma made_by_from {A} (cfg : A -> json) cams l :
  made_by (fun camera cam => cfg cam = camera) cams l -> made_from cfg cams l.
Proof.
  intros (l' & Hs & Hf & Ha). enough (map cfg cams = l') as <- by done.
  clear Hs Ha. induction Hf; cbn; congruence.
Qed.

Lemma total_for_made {A} (R : json -> A -> Prop) turn cameras l :
  (forall cameras camera, camera ∈ l -> total (turn cameras camera) (turn_made R cameras camera)) ->
  total (for_cameras turn cameras l)
    (fun r => r.2 = None /\ exists cams, r.1 = cameras ++ cams /\ made_by R cams l).
Proof.
  revert cameras. induction l as [|camera l IH]; intros cameras Hturn; cbn [for_cameras].
  - apply total_ret. split; [done|]. exists []. rewrite app_nil_r. split; [done|]. by exists [].
  - intros w Hw. destruct (Hturn cameras camera ltac:(by left) w Hw) as (w1 & cs1 & H1 & E1 & Hr).
    rewrite E1.
    destruct (IH cs1 ltac:(intros; apply Hturn; by right) w1 H1)
      as (w2 & r & H2 & E2 & Hn & cams & Er & l' & Hsub & Hall & Heq).
    exists w2, r. split; [done|]. split; [done|]. split; [done|].
    destruct Hr as [(cam & -> & Hc)|[Hrm ->]].
    + exists (cam :: cams). rewrite Er, <- app_assoc. split; [done|]. exists (camera :: l').
      split; [by apply sublist_skip|]. split; [by constructor|]. intros Hf. by rewrite Heq.
    + exists cams. split; [done|]. exists l'. split; [by apply sublist_cons|]. split; [done | congruence].
Qed.

Lemma total_for_cameras {A} (cfg : A -> json) turn cameras l :
  (forall cameras camera, camera ∈ l -> total (turn cameras camera) (turn_result cfg cameras camera)) ->
  total (for_cameras turn cameras l)
    (fun r => r.2 = None /\ exists cams, r.1 = cameras ++ cams /\ made_from cfg cams l).
Proof.
  intros Hturn. eapply total_weaken; [|by apply total_for_made].
  intros r (H2 & cams & H1 & Hm). split; [done|]. exists cams. split; [done|]. by apply made_by_from.
Qed.

Lemma total_read_made {A} (R : json -> A -> Prop) turn j file cameras l :
  at_key j "cameras" = Ok l ->
  (forall cameras camera, camera ∈ elements l -> total (turn cameras camera) (turn_made R cameras camera)) ->
  total (read_cameras turn j file cameras)
    (fun r => exists cams, r = cameras ++ cams /\ made_by R cams (elements l)).
Proof.
  intros Hk Hturn. unfold read_cameras.
  assert ((count j "cameras" <? 1)%nat = false) as ->.
  { apply Nat.ltb_ge. pose proof (proj2 (count_at_key j "cameras") (ex_intro _ l Hk)). lia. }
  rewrite Hk.
  eapply total_bind with
    (P := fun r => r.2 = None /\ exists cams, r.1 = cameras ++ cams /\ made_by R cams (elements l)).
  - intros w Hw. destruct (total_for_made R turn cameras (elements l) Hturn w Hw) as (w' & r & H' & E & Hr).
    exists w', r. split; [done|]. split; [|done]. unfold catch_json. by rewrite (bind_ok _ _ w w l), E.
  - intros [cs e] [Hn Hr]. cbn in Hn. subst e. by apply total_ret.
Qed.

Lemma total_read_cameras {A} (cfg : A -> json) turn j file cameras l :
  at_key j "cameras" = Ok l ->
  (forall cameras camera, camera ∈ elements l -> total (turn cameras camera) (turn_result cfg cameras camera)) ->
  total (read_cameras turn j file cameras)
    (fun r => exists cams, r = cameras ++ cams /\ made_from cfg cams (elements l)).
Proof.
  intros Hk Hturn. eapply total_weaken; [|by apply total_read_made].
  intros r (cams & -> & Hm). exists cams. split; [done|]. by apply made_by_from.
Qed.

(** C7. Both loaders turn every entry of the configuration's "cameras" into one
    camera, in order and after the cameras there were, whatever the entries'
    names, paths and calibrations look like, as long as the numbers of their video
    modes convert.  Each camera is what its entry says:
    the first loader constructs it with the calibration its entry names when the
    configuration has it, and without one otherwise; the second constructs it
    without, and then gives it the matrices found for its "type" and resolution
    when the entry has a type, and otherwise the calibration it names.  A
    calibration that cannot be found or read never costs a camera.  With the
    build option that removes disconnected cameras, the cameras are those of a
    subsequence of the entries. *)
Theorem createCameras_one_per_entry cameras calibs file j l (w : world C T) :
  parse_file file = Some (Ok j) -> is_object j = true -> at_key j "cameras" = Ok l ->
  Forall mode_defined (elements l) -> defaults_ok w ->
  (exists w' cams, createCameras remove_disconnected cameras file w = (w', Ok (cameras ++ cams, true)) /\
     made_by (calibrated_by_name j) cams (elements l)) /\
  (exists w' cams, createCameras_from remove_disconnected cameras calibs file w
                     = (w', Ok (cameras ++ cams, true)) /\
     made_by (calibrated_from calibs j) cams (elements l)).
Proof.
  intros Hp Ho Hk Hd Hw. rewrite Forall_forall in Hd.
  assert (Hload : loadJson file w = (w, Ok (Some j))) by (unfold loadJson; by rewrite Hp, Ho).
  assert (Hrun : forall R turn, (forall cameras camera, camera ∈ elements l ->
                    total (turn cameras camera) (turn_made R cameras camera)) ->
    exists w' cams, (let* cams := read_cameras turn j file cameras in ret (cams, true)) w
                    = (w', Ok (cameras ++ cams, true)) /\ made_by R cams (elements l)).
  { intros R turn Hturn.
    destruct (total_read_made R turn j file cameras l Hk Hturn w Hw) as (w' & r & _ & E & cams & -> & Hm).
    exists w', cams. by rewrite (bind_ok _ _ _ _ _ E). }
  unfold createCameras, createCameras_from. rewrite !(bind_ok _ _ _ _ _ Hload).
  split; apply Hrun; intros; [apply total_create_camera | apply total_create_camera_from]; auto.
Qed.

End Properties.

(** * A concrete configuration *)

Definition second_camera : json :=
  JObject [("calibration", JString "missing"); ("path", JInt 3); ("width", JString "wide")].

Definition sample_config : json :=
  JObject [("calibrations", JObject [("front", sample_calibration)]);
           ("cameras", JArray [sample_camera; second_camera; JNull]);
           ("ntmode", JString "Client"); ("team", JUint 3407)].

#[export] Instance sample_files : Files := {
  parse_file f := if String.eqb f FRC_CONFIG then Some (Ok sample_config) else None;
  open_error _ := "no such file"
}.

Lemma start_defaults_ok : defaults_ok start_world.
Proof. split; eexists; split; reflexivity. Qed.

(** A camera whose calibration is there, and one whose calibration is missing. *)
Definition front_camera : json :=
  JObject [("calibration", JString "front"); ("name", JString "front"); ("path", JString "/dev/video0")].

Definition front_files : Files := {|
  parse_file _ := Some (Ok (JObject [("calibrations", JObject [("front", sample_calibration)]);
                                     ("cameras", JArray [front_camera; second_camera])]));
  open_error _ := "no such file"
|}.

Lemma createCameras_one_per_entry_witness :
  exists w' cams, createCameras (FS := front_files) false [] FRC_CONFIG start_world = (w', Ok (cams, true)) /\
    map config cams = [front_camera; second_camera] /\ map calibration cams = [sample_calibration; JNull].
Proof.
  destruct (proj1 (createCameras_one_per_entry (FS := front_files) false [] (mkMap NMap VecMap []) FRC_CONFIG
              _ (JArray [front_camera; second_camera]) start_world
              eq_refl eq_refl eq_refl
              ltac:(repeat constructor; unfold mode_defined; vm_compute; discriminate)
              start_defaults_ok)) as (w' & cams & E & l' & _ & Hall & Heq).
  exists w', cams. split; [exact E|]. rewrite (Heq eq_refl) in Hall. clear E Heq.
  inversion Hall as [|? c1 ? l1 [Hc1 Hn1] H1]; subst.
  inversion H1 as [|? c2 ? l2 [Hc2 Hn2] H2]; subst. inversion H2; subst.
  cbn [map]. rewrite Hc1, Hc2, (proj2 Hn1), (proj2 Hn2). by split.
Defined.

Lemma initNT_modes_witness :
  nt_result (initNT FRC_CONFIG) start_world
    (sim_call DSClient (sim_call (Team 3407) (sim_call (Client "VisionServer") empty_nt))) true.
Proof.
  exact (proj1 (initNT_modes FRC_CONFIG sample_config start_world eq_refl eq_refl)
           "Client" 3407 eq_refl eq_refl eq_refl).
Defined.
