(* ===== verification/Server.v ===== *)
(** [vs2::VisionServer] ([lib-vs/src/core/visionserver2.h], [visionserver2.cpp]):
    the registry of cameras, pipelines and output streams, the routing of
    streams and pipelines to their sources, and the index entries published in
    the network tables. *)

From S2P Require Import Prelude Floats Json World Instances Camera.
Local Open Scope Z_scope.
Local Open Scope vs_scope.

(** * State *)

(** A pointer to a matrix header: a static default, or the member of the camera
    at an address. *)
Inductive mat_ptr := DefaultPtr | CameraPtr (a : cam_addr).

(** A pipeline: the source it publishes frames on, the sink it reads from, the
    calibration it uses, and its table. *)
Record BasePipe := mkPipe {
  pipe_name : string;
  pipe_source : Z;
  pipe_input : Z;
  src_matrix : mat_ptr;
  src_distort : mat_ptr;
  pipe_table : string
}.

Record OutputStream := mkStream {
  server_handle : Z;
  stream_table : string;
  local_idx : Z
}.

(** The singleton.  Pipelines are objects at addresses: [pipelines] points to
    them, [heap_allocated] owns some, [pipes] is the store.  The cameras are in
    the storage [camera_store] of their vector: the camera at position [i] has
    the address [(camera_store, i)]. *)
Record VisionServer := mkServer {
  cameras : list VisionCamera;
  pipelines : list nat;
  heap_allocated : list nat;
  streams : list OutputStream;
  head_joinable : bool;
  is_running : bool;
  pipes : gmap nat BasePipe;
  next_addr : nat;
  camera_store : nat
}.

Definition with_cameras (v : VisionServer) (c : list VisionCamera) : VisionServer :=
  mkServer c (pipelines v) (heap_allocated v) (streams v) (head_joinable v) (is_running v) (pipes v) (next_addr v) (camera_store v).
Definition with_pipelines (v : VisionServer) (ps : list nat) : VisionServer :=
  mkServer (cameras v) ps (heap_allocated v) (streams v) (head_joinable v) (is_running v) (pipes v) (next_addr v) (camera_store v).
Definition with_streams (v : VisionServer) (ss : list OutputStream) : VisionServer :=
  mkServer (cameras v) (pipelines v) (heap_allocated v) ss (head_joinable v) (is_running v) (pipes v) (next_addr v) (camera_store v).
Definition with_running (v : VisionServer) (b : bool) : VisionServer :=
  mkServer (cameras v) (pipelines v) (heap_allocated v) (streams v) (head_joinable v) b (pipes v) (next_addr v) (camera_store v).
Definition with_head (v : VisionServer) (b : bool) : VisionServer :=
  mkServer (cameras v) (pipelines v) (heap_allocated v) (streams v) b (is_running v) (pipes v) (next_addr v) (camera_store v).
Definition with_pipe (v : VisionServer) (a : nat) (p : BasePipe) : VisionServer :=
  mkServer (cameras v) (pipelines v) (heap_allocated v) (streams v) (head_joinable v) (is_running v)
    (<[a := p]> (pipes v)) (next_addr v) (camera_store v).

(** The capacity of each storage of the cameras is the library's choice. *)
Class Capacity := room : nat -> nat.

(** The path of the server's table and of its subtables. *)
Definition server_table : string := "/Vision Server".
Definition entry_path (table key : string) : string := table +:+ "/" +:+ key.

Section Server.

Context {C T : Type} `{CS : CsCore C} `{NT : Tables T}.
Abbreviation prog := (M C T).

Definition put_number (table key : string) (z : Z) : prog unit :=
  on_nt (nt_SetDouble (entry_path table key) (double_of_Z z)).
Definition put_string (table key v : string) : prog unit :=
  on_nt (nt_SetString (entry_path table key) v).
Definition put_boolean (table key : string) (b : bool) : prog unit :=
  on_nt (nt_SetBoolean (entry_path table key) b).

(** [int n = table->GetEntry(key).GetDouble(0)]. *)
Definition get_int (table key : string) : prog Z :=
  let* x := ask_nt (nt_GetDouble (entry_path table key) (double_of_Z 0)) in
  lift (of_option (int_of_double x)).

(** [vector::at]. *)
Definition vec_at {A} (l : list A) (i : Z) : prog A :=
  match (if i <? 0 then None else l !! Z.to_nat i) with
  | Some a => ret a
  | None => lift (Throw StdOutOfRange)
  end.

(** Following a pipeline pointer. *)
Definition deref (v : VisionServer) (a : nat) : prog BasePipe :=
  lift (of_option (pipes v !! a)).

Definition numCameras (v : VisionServer) : nat := length (cameras v).
Definition numPipelines (v : VisionServer) : nat := length (pipelines v).
Definition numStreams (v : VisionServer) : nat := length (streams v).
Definition isRunning (v : VisionServer) : bool := is_running v.

(** The first use of the singleton. *)
Definition VisionServer_new : prog VisionServer :=
  print "Init VisionServer" ;*
  put_number server_table "Cameras Available" 0 ;*
  put_number server_table "Pipelines Available" 0 ;*
  put_string server_table "Status" "Offline" ;*
  ret (mkServer [] [] [] [] false false ∅ 0 0).

(** ** Pipelines and their sources *)

Definition new_pipe (name : string) : prog BasePipe :=
  let* src := on_cs_new (cs_CvSource name no_mode) in
  let* sink := on_cs_new (cs_CvSink name) in
  ret (mkPipe name src sink DefaultPtr DefaultPtr (entry_path (entry_path server_table "Pipelines") name)).

(** The name a pipeline class gives its [n]-th instance. *)
Definition instance_name (name : string) (n : nat) : string := name +:+ "/Instance " +:+ to_string n.
Definition instance_name_moved (name : string) (n : nat) : string := name +:+ "/Instance" +:+ to_string n.

(** Attach to a camera, which lives at [a]. *)
Definition setCamera (p : BasePipe) (a : cam_addr) (cam : VisionCamera) : prog BasePipe :=
  let* mode := ask_cs (cs_GetVideoMode (m_handle cam)) in
  on_cs (cs_SetVideoMode (pipe_source p) mode) ;*
  on_cs (cs_SetSource (pipe_input p) (m_handle cam)) ;*
  ret (mkPipe (pipe_name p) (pipe_source p) (pipe_input p) (CameraPtr a) (CameraPtr a) (pipe_table p)).

Definition setPipeline (p q : BasePipe) : prog BasePipe :=
  let* mode := ask_cs (cs_GetVideoMode (pipe_source q)) in
  on_cs (cs_SetVideoMode (pipe_source p) mode) ;*
  on_cs (cs_SetSource (pipe_input p) (pipe_source q)) ;*
  ret (mkPipe (pipe_name p) (pipe_source p) (pipe_input p) (src_matrix q) (src_distort q) (pipe_table p)).

Definition setSource (p : BasePipe) (src : Z) : prog BasePipe :=
  let* mode := ask_cs (cs_GetVideoMode src) in
  on_cs (cs_SetVideoMode (pipe_source p) mode) ;*
  on_cs (cs_SetSource (pipe_input p) src) ;*
  ret (mkPipe (pipe_name p) (pipe_source p) (pipe_input p) DefaultPtr DefaultPtr (pipe_table p)).

(** ** Cameras *)

Definition publish_cameras (v : VisionServer) : prog unit :=
  put_number server_table "Cameras Available" (Z.of_nat (numCameras v)).
Definition publish_pipelines (v : VisionServer) : prog unit :=
  put_number server_table "Pipelines Available" (Z.of_nat (numPipelines v)).

(** Give the camera at an address its table below the server's and its
    adjustable entries. *)
Definition adopt (self : cam_addr) (c : VisionCamera) : prog VisionCamera :=
  let* c1 := setNetworkBase c server_table in setNetworkAdjustable self c1.

(** The cameras from position [i] of a storage on. *)
Fixpoint adopt_all (store i : nat) (cms : list VisionCamera) : prog (list VisionCamera) :=
  match cms with
  | [] => ret []
  | c :: cms' =>
      let* c1 := adopt (store, i) c in
      let* cs1 := adopt_all store (S i) cms' in
      ret (c1 :: cs1)
  end.

Fixpoint destroy_all (cms : list VisionCamera) : prog unit :=
  match cms with
  | [] => ret tt
  | c :: cms' => VisionCamera_destroy c ;* destroy_all cms'
  end.

(** Appending [n] cameras moves the ones there are to a new storage when they do
    not fit; the objects left behind own nothing, so that their destruction does
    nothing. *)
Context `{CP : Capacity}.

Definition grown_store (v : VisionServer) (n : nat) : nat :=
  if (room (camera_store v) <? numCameras v + n)%nat then S (camera_store v) else camera_store v.
Definition with_store (v : VisionServer) (st : nat) (c : list VisionCamera) : VisionServer :=
  mkServer c (pipelines v) (heap_allocated v) (streams v) (head_joinable v) (is_running v)
    (pipes v) (next_addr v) st.

Definition addCamera (v : VisionServer) (c : VisionCamera) : prog (VisionServer * bool) :=
  if negb (isRunning v) then
    let st := grown_store v 1 in
    let* c1 := adopt (st, numCameras v) c in
    let v1 := with_store v st (cameras v ++ [c1]) in
    publish_cameras v1 ;* ret (v1, true)
  else ret (v, false).

Definition addCameras (v : VisionServer) (cms : list VisionCamera) : prog (VisionServer * bool) :=
  if negb (isRunning v) then
    let st := grown_store v (length cms) in
    let* cms1 := adopt_all st (numCameras v) cms in
    let v1 := with_store v st (cameras v ++ cms1) in
    publish_cameras v1 ;* ret (v1, true)
  else ret (v, false).

(** The vector takes over the storage of the argument. *)
Definition setCameras (v : VisionServer) (cms : list VisionCamera) : prog (VisionServer * bool) :=
  if negb (isRunning v) then
    destroy_all (cameras v) ;*
    let st := S (camera_store v) in
    let* cms1 := adopt_all st 0 cms in
    let v1 := with_store v st cms1 in
    publish_cameras v1 ;* ret (v1, true)
  else ret (v, false).

(** ** Pipelines *)

(** Construct pipelines on the heap ([pipeExpander]); each class is given by its
    default constructor. *)
Definition allocate (v : VisionServer) (mk : prog BasePipe) : prog VisionServer :=
  let* p := mk in
  ret (mkServer (cameras v) (pipelines v) (heap_allocated v ++ [next_addr v]) (streams v)
         (head_joinable v) (is_running v) (<[next_addr v := p]> (pipes v)) (S (next_addr v)) (camera_store v)).

Fixpoint pipeExpander (v : VisionServer) (mks : list (prog BasePipe)) : prog (VisionServer * nat) :=
  match mks with
  | [] => ret (v, 0%nat)
  | mk :: mks' =>
      let* v1 := allocate v mk in
      let* r := pipeExpander v1 mks' in
      ret (r.1, S r.2)
  end.

Definition last_addr (v : VisionServer) : nat := pred (next_addr v).

(** One class as template argument: the count is not published. *)
Definition addPipeline_of (v : VisionServer) (mk : prog BasePipe) : prog (VisionServer * bool) :=
  if negb (isRunning v) then
    let* v1 := allocate v mk in
    ret (with_pipelines v1 (pipelines v1 ++ [last_addr v1]), true)
  else ret (v, false).

Definition addPipeline (v : VisionServer) (p : nat) : prog (VisionServer * bool) :=
  if negb (isRunning v) then
    let v1 := with_pipelines v (pipelines v ++ [p]) in
    publish_pipelines v1 ;* ret (v1, true)
  else ret (v, false).

(** The loop [for(size_t i = alloc; i >= 0; --i)] with its 64-bit index: the
    condition never fails, only [at] ends it. *)
Fixpoint push_backwards (fuel : nat) (i : Z) (v : VisionServer) : prog VisionServer :=
  match fuel with
  | O => lift Undefined
  | S fuel' =>
      let idx := wrapu 64 (Z.of_nat (length (heap_allocated v)) - i - 1) in
      let* a := vec_at (heap_allocated v) idx in
      push_backwards fuel' (wrapu 64 (i - 1)) (with_pipelines v (pipelines v ++ [a]))
  end.

Definition addPipelines_of (v : VisionServer) (mks : list (prog BasePipe)) : prog (VisionServer * bool) :=
  if negb (isRunning v) then
    let* r := pipeExpander v mks in
    let* v1 := push_backwards (r.2 + 2) (Z.of_nat r.2) r.1 in
    ret (v1, true)
  else ret (v, false).

(** A vector or an initializer list of pointers. *)
Definition addPipelines (v : VisionServer) (ps : list nat) : prog (VisionServer * bool) :=
  if negb (isRunning v) then
    let v1 := with_pipelines v (pipelines v ++ ps) in
    publish_pipelines v1 ;* ret (v1, true)
  else ret (v, false).

(** Destroying the owned pipelines frees their addresses.  The source deletes
    them through [std::unique_ptr<BasePipe>] although [BasePipe] has no virtual
    destructor, which C++ leaves undefined for classes derived from it; here
    their storage is freed and nothing else happens. *)
Definition clear_heap (v : VisionServer) : VisionServer :=
  mkServer (cameras v) (pipelines v) [] (streams v) (head_joinable v) (is_running v)
    (foldr delete (pipes v) (heap_allocated v)) (next_addr v) (camera_store v).

Definition setPipelines_of (v : VisionServer) (mks : list (prog BasePipe)) : prog (VisionServer * bool) :=
  if negb (isRunning v) then
    let v1 := with_pipelines (clear_heap v) [] in
    let* r := pipeExpander v1 mks in
    ret (with_pipelines r.1 (heap_allocated r.1), true)
  else ret (v, false).

Definition setPipelines (v : VisionServer) (ps : list nat) : prog (VisionServer * bool) :=
  if negb (isRunning v) then
    let v1 := with_pipelines (clear_heap v) ps in
    publish_pipelines v1 ;* ret (v1, true)
  else ret (v, false).

(** ** Streams *)

Definition streams_table : string := entry_path server_table "Streams".

Definition OutputStream_new (h : Z) : prog OutputStream :=
  let* name := ask_cs (cs_SinkName h) in
  let s := mkStream h (entry_path streams_table name) 0 in
  put_number (stream_table s) "Source Index" (local_idx s) ;*
  let* port := ask_cs (cs_GetPort h) in
  put_number (stream_table s) "Port" port ;*
  ret s.

Definition named_stream (name : string) (port : option Z) : prog OutputStream :=
  let* h := on_cs_new (cs_AddServer name port) in OutputStream_new h.

Definition push_stream (v : VisionServer) (s : OutputStream) : VisionServer :=
  with_streams v (streams v ++ [s]).

Definition addStream_with (v : VisionServer) (mk : prog OutputStream) : prog (VisionServer * bool) :=
  if negb (isRunning v) then
    let* s := mk in ret (push_stream v s, true)
  else ret (v, false).

Definition next_stream_name (v : VisionServer) : string :=
  "Stream " +:+ to_string (S (numStreams v)).

Definition addStream (v : VisionServer) : prog (VisionServer * bool) :=
  addStream_with v (named_stream (next_stream_name v) None).
Definition addStream_named (v : VisionServer) (name : string) : prog (VisionServer * bool) :=
  addStream_with v (named_stream name None).
Definition addStream_port (v : VisionServer) (name : string) (port : Z) : prog (VisionServer * bool) :=
  addStream_with v (named_stream name (Some port)).
Definition addStream_server (v : VisionServer) (h : Z) : prog (VisionServer * bool) :=
  addStream_with v (OutputStream_new h).

Fixpoint push_streams (v : VisionServer) (mks : list (VisionServer -> prog OutputStream))
    : prog VisionServer :=
  match mks with
  | [] => ret v
  | mk :: mks' => let* s := mk v in push_streams (push_stream v s) mks'
  end.

Definition addStreams_with (v : VisionServer) (mks : list (VisionServer -> prog OutputStream))
    : prog (VisionServer * bool) :=
  if negb (isRunning v) then
    let* v1 := push_streams v mks in ret (v1, true)
  else ret (v, false).

Definition addStreams (v : VisionServer) (n : nat) : prog (VisionServer * bool) :=
  addStreams_with v (replicate n (fun v => named_stream (next_stream_name v) None)).
Definition addStreams_named (v : VisionServer) (names : list string) : prog (VisionServer * bool) :=
  addStreams_with v (map (fun name _ => named_stream name None) names).
Definition addStreams_ports (v : VisionServer) (l : list (string * Z)) : prog (VisionServer * bool) :=
  addStreams_with v (map (fun np _ => named_stream np.1 (Some np.2)) l).
Definition addStreams_servers (v : VisionServer) (hs : list Z) : prog (VisionServer * bool) :=
  addStreams_with v (map (fun h _ => OutputStream_new h) hs).

(** ** Stream sources *)

(** Negative indices are cameras, positive ones pipelines, counted from one;
    other indices leave the source as it is. *)
Definition route (v : VisionServer) (s : OutputStream) (i : Z) : prog unit :=
  if (i <? 0) && (- Z.of_nat (numCameras v) <=? i) then
    let* cam := vec_at (cameras v) (- i - 1) in
    on_cs (cs_SetSource (server_handle s) (m_handle cam))
  else if (0 <? i) && (i <=? Z.of_nat (numPipelines v)) then
    let* a := vec_at (pipelines v) (i - 1) in
    let* p := deref v a in
    on_cs (cs_SetSource (server_handle s) (pipe_source p))
  else ret tt.

Definition with_idx (s : OutputStream) (i : Z) : OutputStream :=
  mkStream (server_handle s) (stream_table s) i.

Definition setSourceIdx (v : VisionServer) (s : OutputStream) (i : Z) : prog OutputStream :=
  if negb (local_idx s =? i) then
    route v s i ;*
    put_number (stream_table s) "Source Index" i ;*
    ret (with_idx s i)
  else ret s.

Definition setPipelineIdx (v : VisionServer) (s : OutputStream) (i : Z) : prog OutputStream :=
  setSourceIdx v s (wrapu 16 i).
Definition setCameraIdx (v : VisionServer) (s : OutputStream) (i : Z) : prog OutputStream :=
  setSourceIdx v s (- wrapu 16 i).

(** Take over an index changed in the table. *)
Definition syncIdx (v : VisionServer) (s : OutputStream) : prog OutputStream :=
  let* nt := get_int (stream_table s) "Source Index" in
  if negb (nt =? local_idx s) then
    route v s nt ;* ret (with_idx s nt)
  else ret s.

Fixpoint map_streams (f : OutputStream -> prog OutputStream) (l : list OutputStream)
    : prog (list OutputStream) :=
  match l with
  | [] => ret []
  | s :: l' => let* s1 := f s in let* l1 := map_streams f l' in ret (s1 :: l1)
  end.

Definition sync_all (v : VisionServer) : prog VisionServer :=
  let* ss := map_streams (syncIdx v) (streams v) in ret (with_streams v ss).

(** ** Compensation *)

Fixpoint first_connected (i : nat) (cms : list VisionCamera) : prog (option nat) :=
  match cms with
  | [] => ret None
  | c :: cms' =>
      let* up := ask_cs (cs_IsConnected (m_handle c)) in
      if up then ret (Some i) else first_connected (S i) cms'
  end.

(** The index of the camera in an [int16_t], -1 for none. *)
Definition active_index (o : option nat) : Z :=
  match o with Some i => wraps 16 (Z.of_nat i) | None => -1 end.

Fixpoint attach_pipelines (v : VisionServer) (active : Z) (ps : list nat) : prog VisionServer :=
  match ps with
  | [] => ret v
  | a :: ps' =>
      let* p := deref v a in
      let* cam := vec_at (cameras v) active in
      let* p1 := setCamera p (camera_store v, Z.to_nat active) cam in
      let* name := ask_cs (cs_GetName (m_handle cam)) in
      print ("Compensation: connected [pipeline] " +:+ pipe_name p +:+ " to [camera] " +:+ name) ;*
      attach_pipelines (with_pipe v a p1) active ps'
  end.

Definition print_stream (shown : OutputStream) (target : string) : prog unit :=
  let* name := ask_cs (cs_SinkName (server_handle shown)) in
  print ("Compensation: connected [stream] " +:+ name +:+ " to " +:+ target).

(** Every stream to the first pipeline. *)
Definition streams_to_pipeline (v : VisionServer) : prog (list OutputStream) :=
  map_streams (fun s =>
    let* s1 := setPipelineIdx v s 1 in
    let* a := vec_at (pipelines v) 0 in
    let* p := deref v a in
    print_stream s ("[pipeline] " +:+ pipe_name p) ;* ret s1) (streams v).

(** Every stream to the active camera; the line printed names the first stream,
    as its index is that of the loop over the pipelines, which has ended. *)
Definition streams_to_camera (v : VisionServer) (active : Z) : prog (list OutputStream) :=
  map_streams (fun s =>
    let* s1 := setCameraIdx v s (active + 1) in
    let* s0 := vec_at (streams v) 0 in
    let* cam := vec_at (cameras v) active in
    let* name := ask_cs (cs_GetName (m_handle cam)) in
    print_stream s0 ("[camera] " +:+ name) ;* ret s1) (streams v).

Definition compensate (v : VisionServer) : prog (VisionServer * bool) :=
  let* o := first_connected 0 (cameras v) in
  let active := active_index o in
  if negb (active + 1 =? 0) then
    let* v1 := attach_pipelines v active (pipelines v) in
    let* ss := (if (0 <? numPipelines v)%nat then streams_to_pipeline v1
                else streams_to_camera v1 active) in
    ret (with_streams v1 ss, true)
  else
    print "Compensation failed. No cameras available." ;* ret (v, false).

End Server.

(** * Properties *)

Section Properties.

Context {C T : Type} `{CS : CsCore C} `{NT : Tables T} `{NL : !TablesLaws T} `{CP : Capacity}.
Abbreviation prog := (M C T).

(** While the server runs its registry is frozen: every operation that adds
    or replaces cameras, pipelines or streams returns false and changes
    neither the server nor anything outside it. *)
Theorem frozen_while_running v (w : world C T) c cms p ps mk mks h hs n name names np port :
  isRunning v = true ->
  Forall (fun op : prog (VisionServer * bool) => op w = (w, Ok (v, false)))
    [addCamera v c; addCameras v cms; setCameras v cms;
     addPipeline v p; addPipeline_of v mk; addPipelines v ps; addPipelines_of v mks;
     setPipelines v ps; setPipelines_of v mks;
     addStream v; addStream_named v name; addStream_port v name port; addStream_server v h;
     addStreams v n; addStreams_named v names; addStreams_ports v np; addStreams_servers v hs].
Proof.
  intros Hr. unfold addStream, addStream_named, addStream_port, addStream_server, addStreams,
    addStreams_named, addStreams_ports, addStreams_servers, addCamera, addCameras, setCameras,
    addPipeline, addPipeline_of, addPipelines, addPipelines_of, setPipelines, setPipelines_of,
    addStream_with, addStreams_with.
  rewrite Hr. repeat constructor.
Qed.

(** The table entry shows the number [z]. *)
Definition shows (t : T) (key : string) (z : Z) : Prop :=
  forall d, nt_GetDouble key d t = double_of_Z z.

Lemma put_number_shows table key z (w : world C T) :
  nt_accepts KDouble (entry_path table key) (w_nt w) ->
  exists w', put_number table key z w = (w', Ok tt) /\ w_cs w' = w_cs w /\
    shows (w_nt w') (entry_path table key) z.
Proof. intros Ha. eexists. split; [done|]. split; [done|]. intros d. by apply nt_get_set_double. Qed.

(** The pipelines are published: after adding pointers or replacing all
    pipelines, the list is as asked and "Pipelines Available" shows its length;
    replacing also destroys the pipelines the server owned. *)
Theorem pipelines_published v (w : world C T) ps :
  isRunning v = false ->
  nt_accepts KDouble (entry_path server_table "Pipelines Available") (w_nt w) ->
  let published op pls :=
    exists w' v', op w = (w', Ok (v', true)) /\ pipelines v' = pls /\
      shows (w_nt w') (entry_path server_table "Pipelines Available") (Z.of_nat (length pls)) in
  (forall p, published (addPipeline v p) (pipelines v ++ [p])) /\
  published (addPipelines v ps) (pipelines v ++ ps) /\
  published (setPipelines v ps) ps /\
  (forall w' v', setPipelines v ps w = (w', Ok (v', true)) ->
     heap_allocated v' = [] /\ forall a, a ∈ heap_allocated v -> pipes v' !! a = None).
Proof.
  intros Hr Ha published.
  assert (Hpub : forall v1, exists w', (publish_pipelines v1 ;* ret (v1, true)) w = (w', Ok (v1, true)) /\
            shows (w_nt w') (entry_path server_table "Pipelines Available") (Z.of_nat (numPipelines v1))).
  { intros v1. destruct (put_number_shows _ _ (Z.of_nat (numPipelines v1)) w Ha) as (w' & E & _ & Hs).
    exists w'. unfold publish_pipelines. by rewrite (bind_ok _ _ _ _ _ E). }
  unfold published, addPipeline, addPipelines, setPipelines. rewrite Hr. cbn [negb].
  split; [|split; [|split]].
  - intros p. destruct (Hpub (with_pipelines v (pipelines v ++ [p]))) as (w' & E & Hs). eauto 10.
  - destruct (Hpub (with_pipelines v (pipelines v ++ ps))) as (w' & E & Hs). eauto 10.
  - destruct (Hpub (with_pipelines (clear_heap v) ps)) as (w' & E & Hs). eauto 10.
  - intros w' v' E. destruct (Hpub (with_pipelines (clear_heap v) ps)) as (w1 & E1 & _).
    rewrite E1 in E. injection E as _ <-. split; [done|]. cbn [pipes with_pipelines clear_heap].
    intros a Hin. induction (heap_allocated v) as [|b l IH]; [by apply elem_of_nil in Hin|].
    cbn [foldr]. apply elem_of_cons in Hin as [->|Hin]; [by rewrite lookup_delete_eq|].
    destruct (decide (a = b)) as [->|]; [by rewrite lookup_delete_eq|].
    rewrite lookup_delete_ne by congruence. by apply IH.
Qed.

(** ** Streams *)

(** The source an index stands for. *)
Definition source_of (v : VisionServer) (i : Z) : option Z :=
  if i <? 0 then m_handle <$> cameras v !! Z.to_nat (- i - 1)
  else if 0 <? i then a ← pipelines v !! Z.to_nat (i - 1); pipe_source <$> pipes v !! a
  else None.

(** The pipelines of the list exist. *)
Definition pipes_alive (v : VisionServer) : Prop :=
  Forall (fun a => is_Some (pipes v !! a)) (pipelines v).

Definition set_source_cs (h : Z) (src : option Z) (c : C) : C :=
  match src with Some x => cs_SetSource h x c | None => c end.

Lemma route_eq v s i (w : world C T) :
  pipes_alive v ->
  route v s i w =
  (World (set_source_cs (server_handle s) (source_of v i) (w_cs w)) (w_nt w) (w_bufs w) (w_out w), Ok tt).
Proof.
  intros Hal. unfold route, source_of, numCameras, numPipelines.
  destruct (Z.ltb_spec i 0) as [Hi|Hi]; cbn [andb].
  - destruct (Z.leb_spec (- Z.of_nat (length (cameras v))) i) as [Hc|Hc].
    + destruct (lookup_lt_is_Some_2 (cameras v) (Z.to_nat (- i - 1)) ltac:(lia)) as [cam Ec].
      unfold vec_at. destruct (Z.ltb_spec (- i - 1) 0); [lia|]. by rewrite Ec.
    + destruct (Z.ltb_spec 0 i); [lia|]. cbn [andb].
      rewrite (lookup_ge_None_2 (cameras v)) by lia. by destruct w.
  - destruct (Z.ltb_spec 0 i) as [Hp|Hp]; cbn [andb]; [|by destruct w].
    destruct (Z.leb_spec i (Z.of_nat (length (pipelines v)))) as [Hl|Hl].
    + destruct (lookup_lt_is_Some_2 (pipelines v) (Z.to_nat (i - 1)) ltac:(lia)) as [a Ea].
      unfold vec_at. destruct (Z.ltb_spec (i - 1) 0); [lia|]. rewrite Ea.
      destruct (proj1 (Forall_lookup _ _) Hal _ _ Ea) as [p Ep].
      unfold bind at 1, ret, deref, lift. cbn [mbind option_bind]. rewrite Ep. done.
    + rewrite (lookup_ge_None_2 (pipelines v)) by lia. by destruct w.
Qed.

(** Selecting a source for a stream routes it (camera [n] for [-n],
    pipeline [n] for [n], nothing for an index beyond what there is), records
    the index, and publishes it so that the next synchronisation finds nothing
    to do: a selection is never undone by the stream's own entry. *)
Theorem setSourceIdx_then_sync v s i (w : world C T) :
  pipes_alive v -> - 2 ^ 31 <= i <= 2 ^ 31 - 1 -> local_idx s <> i ->
  nt_accepts KDouble (entry_path (stream_table s) "Source Index") (w_nt w) ->
  exists w', setSourceIdx v s i w = (w', Ok (with_idx s i)) /\
    w_cs w' = set_source_cs (server_handle s) (source_of v i) (w_cs w) /\
    syncIdx v (with_idx s i) w' = (w', Ok (with_idx s i)).
Proof.
  intros Hal Hi Hne Ha. unfold setSourceIdx. rewrite (proj2 (Z.eqb_neq _ _) Hne). cbn [negb].
  rewrite (bind_ok _ _ _ _ _ (route_eq v s i w Hal)).
  set (w1 := World _ _ _ _).
  destruct (put_number_shows (stream_table s) "Source Index" i w1 Ha) as (w' & E & Ecs & Hs).
  rewrite (bind_ok _ _ _ _ _ E). exists w'. split; [done|]. split; [by rewrite Ecs|].
  unfold syncIdx. rewrite (bind_ok _ _ w' w' i).
  - cbn [local_idx with_idx]. by rewrite Z.eqb_refl.
  - unfold get_int, bind, ask_nt, lift, of_option. cbn [stream_table with_idx].
    rewrite Hs, int_of_double_of_Z by done. done.
Qed.

Lemma syncIdx_eq v s x i (w : world C T) :
  pipes_alive v ->
  nt_GetDouble (entry_path (stream_table s) "Source Index") (double_of_Z 0) (w_nt w) = x ->
  int_of_double x = Some i ->
  syncIdx v s w =
    (if i =? local_idx s then w
     else World (set_source_cs (server_handle s) (source_of v i) (w_cs w)) (w_nt w) (w_bufs w) (w_out w),
     Ok (with_idx s i)).
Proof.
  intros Hal Hx Hi. unfold syncIdx.
  rewrite (bind_ok _ _ w w i) by (unfold get_int, bind, ask_nt, lift, of_option; by rewrite Hx, Hi).
  destruct (Z.eqb_spec i (local_idx s)) as [->|Hne]; cbn [negb].
  - by destruct s.
  - by rewrite (bind_ok _ _ _ _ _ (route_eq v s i w Hal)).
Qed.

(** A change of the entry by another client is followed at the next
    synchronisation, and only then: the stream takes the entry's integral part
    as its index and is routed to what it stands for; an unchanged entry leaves
    everything as it was. *)
Theorem syncIdx_follows v s x i (w : world C T) :
  pipes_alive v ->
  nt_GetDouble (entry_path (stream_table s) "Source Index") (double_of_Z 0) (w_nt w) = x ->
  int_of_double x = Some i ->
  syncIdx v s w =
    (if i =? local_idx s then w
     else World (set_source_cs (server_handle s) (source_of v i) (w_cs w)) (w_nt w) (w_bufs w) (w_out w),
     Ok (with_idx s i)).
Proof. apply syncIdx_eq. Qed.

(** ** Pipelines given as classes *)

Lemma pipeExpander_heap v mks (w w' : world C T) v' n :
  pipeExpander v mks w = (w', Ok (v', n)) ->
  n = length mks /\ heap_allocated v' = heap_allocated v ++ seq (next_addr v) n /\
  pipelines v' = pipelines v.
Proof.
  revert v w v' w' n. induction mks as [|mk mks IH]; intros v w v' w' n; cbn [pipeExpander].
  - intros [= _ <- <-]. by rewrite app_nil_r.
  - unfold bind at 1, allocate, bind at 1. destruct (mk w) as [w1 [p|e|]]; [|done|done].
    unfold ret at 1, bind.
    destruct (pipeExpander _ mks w1) as [w2 [[v2 n2]|e|]] eqn:E; [|done|done].
    apply IH in E as (-> & Eh & Ep). intros [= _ <- <-]. cbn [heap_allocated next_addr pipelines] in *.
    split; [done|]. split; [|done]. rewrite Eh, <- app_assoc. done.
Qed.

Lemma push_backwards_throws fuel i v (w : world C T) :
  0 <= i < Z.of_nat fuel - 1 -> i < 2 ^ 64 -> Z.of_nat (length (heap_allocated v)) < 2 ^ 64 ->
  push_backwards fuel i v w = (w, Throw StdOutOfRange).
Proof.
  revert i v. induction fuel as [|fuel IH]; intros i v Hi Hi64 Hh; [lia|].
  cbn [push_backwards]. unfold bind, vec_at, wrapu.
  set (idx := (Z.of_nat (length (heap_allocated v)) - i - 1) mod 2 ^ 64).
  pose proof (Z.mod_pos_bound (Z.of_nat (length (heap_allocated v)) - i - 1) (2 ^ 64) ltac:(lia)) as Hidx.
  fold idx in Hidx. destruct (Z.ltb_spec idx 0); [lia|].
  destruct (heap_allocated v !! Z.to_nat idx) as [a|] eqn:Ea; [|done]. unfold ret.
  destruct (Z.eq_dec i 0) as [->|Hi0].
  - (* the next index is [2 ^ 64 - 1], whose element is at [length] *)
    destruct fuel as [|fuel]; [lia|]. cbn [push_backwards]. unfold bind, vec_at, wrapu.
    cbn [with_pipelines heap_allocated].
    replace ((0 - 1) mod 2 ^ 64) with (2 ^ 64 - 1) by reflexivity.
    replace (Z.of_nat (length (heap_allocated v)) - (2 ^ 64 - 1) - 1)
      with (Z.of_nat (length (heap_allocated v)) + (- 1) * 2 ^ 64) by lia.
    rewrite Z_mod_plus_full, Z.mod_small by lia.
    destruct (Z.ltb_spec (Z.of_nat (length (heap_allocated v))) 0); [lia|].
    by rewrite Nat2Z.id, lookup_ge_None_2 by done.
  - rewrite Z.mod_small by lia. apply IH; [lia | lia | done].
Qed.

(** So a call that returns was refused, as the server is running. *)
Lemma push_backwards_returns_not fuel i v (w w' : world C T) v' : push_backwards fuel i v w <> (w', Ok v').
Proof.
  revert i v w. induction fuel as [|fuel IH]; intros i v w; cbn [push_backwards]; [done|].
  intros (w1 & a & _ & E)%bind_inv. by apply IH in E.
Qed.

Lemma addPipelines_of_refused v mks (w w' : world C T) r :
  addPipelines_of v mks w = (w', Ok r) -> isRunning v = true /\ w' = w /\ r = (v, false).
Proof.
  unfold addPipelines_of. destruct (isRunning v); cbn [negb]; [by intros [= <- <-]|].
  intros (w1 & x & _ & E)%bind_inv. apply bind_inv in E as (w2 & v2 & E & _).
  by apply push_backwards_returns_not in E.
Qed.

(** C32. Adding pipelines by class does not work: once the pipelines have been
    constructed, the loop that appends them never ends by its condition and the
    call always throws [std::out_of_range].  The registry the exception leaves
    behind is not tracked. *)
Theorem addPipelines_of_throws v mks (w w' : world C T) v' n :
  isRunning v = false -> pipeExpander v mks w = (w', Ok (v', n)) ->
  Z.of_nat (length (heap_allocated v')) < 2 ^ 64 ->
  addPipelines_of v mks w = (w', Throw StdOutOfRange).
Proof.
  intros Hr E Hh. unfold addPipelines_of. rewrite Hr. cbn [negb].
  rewrite (bind_ok _ _ _ _ _ E). cbn [fst snd]. unfold bind.
  apply pipeExpander_heap in E as (-> & Eh & _).
  assert (length mks <= length (heap_allocated v'))%nat
    by (rewrite Eh, length_app, length_seq; lia).
  by rewrite push_backwards_throws by lia.
Qed.

(** Setting pipelines by class: the list is exactly the newly constructed
    pipelines in the order of the classes, and no count is published. *)
Theorem setPipelines_of_order v mks (w w1 : world C T) v1 n :
  isRunning v = false ->
  pipeExpander (with_pipelines (clear_heap v) []) mks w = (w1, Ok (v1, n)) ->
  exists v2, setPipelines_of v mks w = (w1, Ok (v2, true)) /\
    pipelines v2 = seq (next_addr v) (length mks) /\ heap_allocated v2 = pipelines v2.
Proof.
  intros Hr E. unfold setPipelines_of. rewrite Hr. cbn [negb]. cbv zeta.
  rewrite (bind_ok _ _ _ _ _ E). eexists. split; [reflexivity|].
  apply pipeExpander_heap in E as (-> & Eh & _). by split.
Qed.

(** ** Compensation *)

Lemma first_connected_eq i cms (w : world C T) :
  first_connected i cms w =
  (w, Ok ((fun r => (i + r.1)%nat) <$> list_find (fun c => cs_IsConnected (m_handle c) (w_cs w) = true) cms)).
Proof.
  revert i. induction cms as [|c cms IH]; intros i; [done|]. cbn [first_connected list_find].
  unfold bind, ask_cs, ret. case_decide as E.
  - rewrite E. cbn. by rewrite Nat.add_0_r.
  - apply not_true_is_false in E. rewrite E, IH.
    destruct (list_find _ cms) as [[k c']|]; cbn; [|done]. by rewrite Nat.add_succ_r.
Qed.

(** The pipeline with the calibration of the camera at [k]. *)
Definition attached (k : cam_addr) (p : BasePipe) : BasePipe :=
  mkPipe (pipe_name p) (pipe_source p) (pipe_input p) (CameraPtr k) (CameraPtr k) (pipe_table p).

Definition ends_of (m : gmap nat BasePipe) (ps : list nat) : list (Z * Z) :=
  omap (fun a => (fun p => (pipe_source p, pipe_input p)) <$> m !! a) ps.

(** Attaching a pipeline with source and sink [x] to the camera [h]. *)
Definition attach_cs (h : Z) (c : C) (x : Z * Z) : C :=
  cs_SetSource x.2 h (cs_SetVideoMode x.1 (cs_GetVideoMode h c) c).

Definition attach_pipes (k : cam_addr) (m : gmap nat BasePipe) (ps : list nat) : gmap nat BasePipe :=
  foldl (fun m a => alter (attached k) a m) m ps.

Definition with_pipes (v : VisionServer) (m : gmap nat BasePipe) : VisionServer :=
  mkServer (cameras v) (pipelines v) (heap_allocated v) (streams v) (head_joinable v)
    (is_running v) m (next_addr v) (camera_store v).

Lemma ends_of_alter k a m ps : ends_of (alter (attached k) a m) ps = ends_of m ps.
Proof.
  unfold ends_of. induction ps as [|b ps IH]; [done|]. cbn.
  destruct (decide (a = b)) as [->|Hne].
  - rewrite lookup_alter_eq, IH. by destruct (m !! b).
  - by rewrite lookup_alter_ne, IH by done.
Qed.

Lemma attach_pipelines_eq v k cam ps (w : world C T) :
  cameras v !! k = Some cam -> Forall (fun a => is_Some (pipes v !! a)) ps ->
  exists w', attach_pipelines v (Z.of_nat k) ps w = (w', Ok (with_pipes v (attach_pipes (camera_store v, k) (pipes v) ps))) /\
    w_cs w' = foldl (attach_cs (m_handle cam)) (w_cs w) (ends_of (pipes v) ps) /\
    w_nt w' = w_nt w.
Proof.
  revert v w. induction ps as [|a ps IH]; intros v w Hk Hps.
  - exists w. by destruct v.
  - apply Forall_cons in Hps as [[p Hp] Hps]. cbn [attach_pipelines].
    rewrite (bind_ok _ _ w w p) by (unfold deref, lift; by rewrite Hp).
    rewrite (bind_ok _ _ w w cam).
    2:{ unfold vec_at. destruct (Z.ltb_spec (Z.of_nat k) 0); [lia|]. by rewrite Nat2Z.id, Hk. }
    erewrite bind_ok by reflexivity. erewrite bind_ok by reflexivity. erewrite bind_ok by reflexivity.
    rewrite Nat2Z.id.
    assert (Em : <[a := attached (camera_store v, k) p]> (pipes v) = alter (attached (camera_store v, k)) a (pipes v)).
    { apply map_eq. intros b. destruct (decide (a = b)) as [->|Hne].
      - by rewrite lookup_insert_eq, lookup_alter_eq, Hp.
      - by rewrite lookup_insert_ne, lookup_alter_ne by done. }
    edestruct (IH (with_pipe v a (attached (camera_store v, k) p))) as (w' & E & Ecs & Ent); [exact Hk | |].
    + cbn [pipes with_pipe]. rewrite Em. eapply Forall_impl; [exact Hps|]. intros b [q Hq].
      destruct (decide (a = b)) as [->|Hne]; [rewrite lookup_alter_eq | rewrite lookup_alter_ne by done];
        rewrite Hq; by eexists.
    + exists w'. rewrite E. cbn [pipes with_pipe] in *. rewrite Em in *. split; [done|].
      rewrite Ecs, Ent. cbn [w_cs w_nt]. rewrite ends_of_alter. unfold ends_of at 2. cbn. by rewrite Hp.
Qed.

Lemma attach_pipes_lookup k m ps a :
  a ∈ ps -> attach_pipes k m ps !! a = attached k <$> m !! a.
Proof.
  assert (Hidem : forall p, attached k (attached k p) = attached k p) by done.
  assert (Hfix : forall ps m, attached k <$> m !! a = m !! a -> attach_pipes k m ps !! a = m !! a).
  { clear ps. intros ps. induction ps as [|b ps IH]; intros m' Hm; [done|]. cbn.
    destruct (decide (b = a)) as [->|Hne].
    - unfold attach_pipes in IH. rewrite IH; rewrite lookup_alter_eq; [done|].
      destruct (m' !! a); cbn; [by rewrite Hidem|done].
    - unfold attach_pipes in IH. rewrite IH; rewrite lookup_alter_ne; done. }
  revert m. induction ps as [|b ps IH]; intros m Hin; [by apply elem_of_nil in Hin|].
  cbn. fold (attach_pipes k (alter (attached k) b m) ps).
  destruct (decide (b = a)) as [->|Hne].
  - rewrite Hfix; rewrite lookup_alter_eq; [done|]. destruct (m !! a); cbn; [by rewrite Hidem|done].
  - apply elem_of_cons in Hin as [->|Hin]; [done|]. rewrite IH by done. by rewrite lookup_alter_ne.
Qed.

(** Selecting [i] on a stream, as the camera library sees it. *)
Definition select_cs (src : option Z) (i : Z) (c : C) (s : OutputStream) : C :=
  if local_idx s =? i then c else set_source_cs (server_handle s) src c.

Lemma setSourceIdx_eq v s i (w : world C T) :
  pipes_alive v ->
  exists w', setSourceIdx v s i w = (w', Ok (with_idx s i)) /\
    w_cs w' = select_cs (source_of v i) i (w_cs w) s.
Proof.
  intros Hal. unfold setSourceIdx, select_cs.
  destruct (Z.eqb_spec (local_idx s) i) as [<-|Hne]; cbn [negb].
  - exists w. by destruct s.
  - rewrite (bind_ok _ _ _ _ _ (route_eq v s i w Hal)). by eexists.
Qed.

Lemma map_streams_select (f : OutputStream -> prog OutputStream) src i l (w : world C T) :
  (forall s w, s ∈ l ->
     exists w', f s w = (w', Ok (with_idx s i)) /\ w_cs w' = select_cs src i (w_cs w) s) ->
  exists w', map_streams f l w = (w', Ok ((fun s => with_idx s i) <$> l)) /\
    w_cs w' = foldl (select_cs src i) (w_cs w) l.
Proof.
  revert w. induction l as [|s l IH]; intros w Hf; cbn [map_streams]; [by exists w|].
  destruct (Hf s w) as (w1 & E1 & C1); [by left|].
  destruct (IH w1) as (w2 & E2 & C2); [intros; apply Hf; by right|].
  exists w2. rewrite (bind_ok _ _ _ _ _ E1), (bind_ok _ _ _ _ _ E2). cbn. by rewrite C2, C1.
Qed.

Lemma streams_to_pipeline_eq v (w : world C T) :
  pipes_alive v -> (0 < numPipelines v)%nat ->
  exists w', streams_to_pipeline v w = (w', Ok ((fun s => with_idx s 1) <$> streams v)) /\
    w_cs w' = foldl (select_cs (source_of v 1) 1) (w_cs w) (streams v).
Proof.
  intros Hal Hn. apply map_streams_select. intros s w1 _.
  destruct (setSourceIdx_eq v s 1 w1 Hal) as (w2 & E & Ecs).
  unfold setPipelineIdx. change (wrapu 16 1) with 1. rewrite (bind_ok _ _ _ _ _ E).
  unfold numPipelines in Hn. destruct (pipelines v) as [|a l] eqn:Ep; [cbn in Hn; lia|].
  rewrite (bind_ok _ _ w2 w2 a) by done.
  unfold pipes_alive in Hal. rewrite Ep in Hal. apply Forall_cons in Hal as [[p Hp] _].
  rewrite (bind_ok _ _ w2 w2 p) by (unfold deref, lift; by rewrite Hp).
  by eexists.
Qed.

Lemma streams_to_camera_eq v k cam (w : world C T) :
  pipes_alive v -> cameras v !! k = Some cam -> Z.of_nat k < 2 ^ 15 ->
  let i := - (Z.of_nat k + 1) in
  exists w', streams_to_camera v (Z.of_nat k) w = (w', Ok ((fun s => with_idx s i) <$> streams v)) /\
    w_cs w' = foldl (select_cs (source_of v i) i) (w_cs w) (streams v).
Proof.
  intros Hal Hk Hlt i. apply map_streams_select. intros s w1 Hs.
  destruct (setSourceIdx_eq v s i w1 Hal) as (w2 & E & Ecs).
  unfold setCameraIdx. replace (wrapu 16 (Z.of_nat k + 1)) with (Z.of_nat k + 1)
    by (unfold wrapu; rewrite Z.mod_small by lia; done).
  rewrite (bind_ok _ _ _ _ _ E).
  destruct (streams v) as [|s0 l] eqn:Es; [by apply elem_of_nil in Hs|].
  rewrite (bind_ok _ _ w2 w2 s0) by done.
  rewrite (bind_ok _ _ w2 w2 cam); [by eexists|].
  unfold vec_at. destruct (Z.ltb_spec (Z.of_nat k) 0); [lia|]. by rewrite Nat2Z.id, Hk.
Qed.

Lemma active_index_small k : Z.of_nat k < 2 ^ 15 -> active_index (Some k) = Z.of_nat k.
Proof.
  intros Hk. cbn. unfold wraps. rewrite Z.mod_small by lia.
  by destruct (Z.ltb_spec (Z.of_nat k) (2 ^ (16 - 1))); [|lia].
Qed.

Lemma attached_alive v k :
  pipes_alive v -> pipes_alive (with_pipes v (attach_pipes k (pipes v) (pipelines v))).
Proof.
  intros Hal. apply Forall_forall. intros a Hin. cbn in *. rewrite (attach_pipes_lookup k _ _ a Hin).
  destruct (proj1 (Forall_forall _ _) Hal a Hin) as [p ->]. by eexists.
Qed.

Lemma attached_source v k i :
  source_of (with_pipes v (attach_pipes k (pipes v) (pipelines v))) i = source_of v i.
Proof.
  unfold source_of. destruct (i <? 0); [done|]. destruct (0 <? i); [|done].
  cbn [pipelines with_pipes pipes]. destruct (pipelines v !! Z.to_nat (i - 1)) as [a|] eqn:Ea; [|done].
  cbn. rewrite (attach_pipes_lookup k _ _ a) by (by eapply list_elem_of_lookup_2).
  by destruct (pipes v !! a).
Qed.

Lemma compensate_eq v (w : world C T) :
  pipes_alive v -> Z.of_nat (length (cameras v)) <= 2 ^ 15 ->
  match list_find (fun c => cs_IsConnected (m_handle c) (w_cs w) = true) (cameras v) with
  | Some (k, cam) =>
      let i := if (0 <? numPipelines v)%nat then 1 else - (Z.of_nat k + 1) in
      exists w', compensate v w =
          (w', Ok (with_streams (with_pipes v (attach_pipes (camera_store v, k) (pipes v) (pipelines v)))
                     ((fun s => with_idx s i) <$> streams v), true)) /\
        w_cs w' = foldl (select_cs (source_of v i) i)
          (foldl (attach_cs (m_handle cam)) (w_cs w) (ends_of (pipes v) (pipelines v))) (streams v)
  | None => exists w', compensate v w = (w', Ok (v, false)) /\ w_cs w' = w_cs w /\ w_nt w' = w_nt w
  end.
Proof.
  intros Hal Hlen. unfold compensate. rewrite (bind_ok _ _ _ _ _ (first_connected_eq 0 _ w)).
  destruct (list_find _ (cameras v)) as [[k cam]|] eqn:Ef; [|by eexists].
  apply list_find_Some in Ef as (Hk & _ & _). pose proof (lookup_lt_Some _ _ _ Hk) as Hlt.
  cbn [fmap option_fmap option_map Nat.add fst]. rewrite active_index_small by lia.
  destruct (Z.eqb_spec (Z.of_nat k + 1) 0); [lia|]. cbn [negb]. cbv zeta.
  destruct (attach_pipelines_eq v k cam (pipelines v) w Hk Hal) as (w1 & E1 & C1 & _).
  rewrite (bind_ok _ _ _ _ _ E1), <- C1.
  pose proof (attached_alive v (camera_store v, k) Hal) as Hal1.
  destruct (Nat.ltb_spec 0 (numPipelines v)) as [Hn|Hn].
  - destruct (streams_to_pipeline_eq _ w1 Hal1 Hn) as (w2 & E2 & C2).
    rewrite attached_source in C2. rewrite (bind_ok _ _ _ _ _ E2). by exists w2.
  - destruct (streams_to_camera_eq (with_pipes v (attach_pipes (camera_store v, k) (pipes v) (pipelines v))) k cam w1 Hal1 Hk ltac:(lia))
      as (w2 & E2 & C2).
    rewrite attached_source in C2. rewrite (bind_ok _ _ _ _ _ E2). by exists w2.
Qed.

(** C20. Compensation takes the first connected camera: every pipeline reads
    from it with its calibration, and every stream is set to the first pipeline,
    or to that camera when there is no pipeline.  It fails, changing nothing,
    exactly when no camera is connected. *)
Theorem compensate_spec v (w : world C T) :
  pipes_alive v -> Z.of_nat (length (cameras v)) <= 2 ^ 15 ->
  match list_find (fun c => cs_IsConnected (m_handle c) (w_cs w) = true) (cameras v) with
  | Some (k, cam) =>
      let i := if (0 <? numPipelines v)%nat then 1 else - (Z.of_nat k + 1) in
      exists w' v', compensate v w = (w', Ok (v', true)) /\
        cameras v' = cameras v /\ pipelines v' = pipelines v /\
        (forall a, a ∈ pipelines v -> pipes v' !! a = attached (camera_store v, k) <$> pipes v !! a) /\
        streams v' = (fun s => with_idx s i) <$> streams v /\
        w_cs w' = foldl (select_cs (source_of v i) i)
          (foldl (attach_cs (m_handle cam)) (w_cs w) (ends_of (pipes v) (pipelines v))) (streams v)
  | None => exists w', compensate v w = (w', Ok (v, false)) /\ w_cs w' = w_cs w /\ w_nt w' = w_nt w
  end.
Proof.
  intros Hal Hlen. pose proof (compensate_eq v w Hal Hlen) as H.
  destruct (list_find _ (cameras v)) as [[k cam]|]; [|exact H]. cbv zeta in *.
  destruct H as (w' & E & Hcs). eexists w', _. split; [exact E|]. cbn.
  do 2 (split; [done|]). split; [intros; by apply attach_pipes_lookup | done].
Qed.

(** ** Synchronising all streams *)

(** The index the entry of a stream holds. *)
Definition remote_index (t : T) (s : OutputStream) : option Z :=
  int_of_double (nt_GetDouble (entry_path (stream_table s) "Source Index") (double_of_Z 0) t).

Lemma map_streams_sync v idx l (w : world C T) :
  pipes_alive v -> (forall s, s ∈ l -> remote_index (w_nt w) s = Some (idx s)) ->
  map_streams (syncIdx v) l w =
    (World (foldl (fun c s => select_cs (source_of v (idx s)) (idx s) c s) (w_cs w) l)
       (w_nt w) (w_bufs w) (w_out w),
     Ok ((fun s => with_idx s (idx s)) <$> l)).
Proof.
  intros Hal. revert w. induction l as [|s l IH]; intros w Hl; cbn [map_streams]; [by destruct w|].
  pose proof (Hl s ltac:(by left)) as Hs. unfold remote_index in Hs.
  rewrite (bind_ok _ _ _ _ _ (syncIdx_eq v s _ _ w Hal eq_refl Hs)).
  erewrite bind_ok; [reflexivity|]. rewrite IH.
  - cbn [foldl]. unfold select_cs at 3. rewrite (Z.eqb_sym (local_idx s)). by destruct (idx s =? local_idx s).
  - intros s' Hin. rewrite <- (Hl s') by (by right). by destruct (idx s =? local_idx s).
Qed.

Lemma sync_all_eq v idx (w : world C T) :
  pipes_alive v -> (forall s, s ∈ streams v -> remote_index (w_nt w) s = Some (idx s)) ->
  sync_all v w =
    (World (foldl (fun c s => select_cs (source_of v (idx s)) (idx s) c s) (w_cs w) (streams v))
       (w_nt w) (w_bufs w) (w_out w),
     Ok (with_streams v ((fun s => with_idx s (idx s)) <$> streams v))).
Proof. intros Hal Hl. unfold sync_all. by rewrite (bind_ok _ _ _ _ _ (map_streams_sync v idx _ w Hal Hl)). Qed.

End Properties.

(** * A concrete server *)

(** An empty storage first, then twice the capacity each time. *)
Definition doubling : Capacity := fun k => match k with O => 0%nat | S k' => (2 ^ k')%nat end.
#[local] Existing Instance doubling.

Definition sample_pipe (src sink : Z) : BasePipe :=
  mkPipe "P" src sink DefaultPtr DefaultPtr "/Vision Server/Pipelines/P".
Definition sample_cam (h : Z) : VisionCamera :=
  mkCamera h JNull JNull 1 default_matrix default_distort no_mode "/Cameras/c" None None None 0 (0%nat, 0%nat).
Definition sample_stream : OutputStream := mkStream 1 "/Vision Server/Streams/s" 0.

(** Two cameras, the second one connected, and a pipeline. *)
Definition sample_cs : sim_cs :=
  mkSim [mkSource "a" no_mode false; mkSource "b" no_mode true; mkSource "P" no_mode true]
    ["s"; "P"] [1181] [].
Definition sample_world : world sim_cs sim_nt := World sample_cs empty_nt zero_bufs [].
Definition sample_server : VisionServer :=
  mkServer [sample_cam 1; sample_cam 2] [0%nat] [0%nat] [sample_stream] false false
    {[ 0%nat := sample_pipe 3 2 ]} 1 0.

Lemma sample_alive : pipes_alive sample_server.
Proof. repeat constructor. by eexists. Qed.

Lemma frozen_while_running_witness :
  addStreams (with_running sample_server true) 2 sample_world =
  (sample_world, Ok (with_running sample_server true, false)).
Proof.
  pose proof (frozen_while_running (with_running sample_server true) sample_world (sample_cam 1) []
    0%nat [] (ret (sample_pipe 1 1)) [] 0 [] 2%nat "" [] [] 0 eq_refl) as H.
  exact (proj1 (Forall_lookup _ _) H 13%nat _ eq_refl).
Defined.

Lemma pipelines_published_witness :
  exists w' v', setPipelines sample_server [7%nat] sample_world = (w', Ok (v', true)) /\
    pipelines v' = [7%nat] /\
    shows (w_nt w') (entry_path server_table "Pipelines Available") 1.
Proof.
  exact (proj1 (proj2 (proj2 (pipelines_published sample_server sample_world [7%nat] eq_refl
    (or_introl eq_refl))))).
Defined.

Lemma setSourceIdx_then_sync_witness :
  exists w', setSourceIdx sample_server sample_stream (-2) sample_world = (w', Ok (with_idx sample_stream (-2))) /\
    w_cs w' = sim_log (CallSetSource 1 2) sample_cs.
Proof.
  destruct (setSourceIdx_then_sync sample_server sample_stream (-2) sample_world sample_alive
    ltac:(lia) ltac:(discriminate) (or_introl eq_refl)) as (w' & E & Ecs & _).
  exists w'. split; [exact E | exact Ecs].
Defined.

Definition remote_world : world sim_cs sim_nt :=
  World sample_cs
    (sim_put "/Vision Server/Streams/s/Source Index" (VDouble (double_of_Z 1)) empty_nt) zero_bufs [].

Lemma syncIdx_follows_witness :
  exists w', syncIdx sample_server sample_stream remote_world = (w', Ok (with_idx sample_stream 1)) /\
    w_cs w' = sim_log (CallSetSource 1 3) sample_cs.
Proof.
  eexists. split; [|shelve].
  apply (syncIdx_follows sample_server sample_stream (double_of_Z 1) 1 remote_world);
    [exact sample_alive | reflexivity | reflexivity].
  Unshelve. reflexivity.
Defined.

Definition sample_class : M sim_cs sim_nt BasePipe := new_pipe "Q".

Lemma addPipelines_of_throws_witness :
  exists w', addPipelines_of sample_server [sample_class] sample_world = (w', Throw StdOutOfRange).
Proof.
  eexists. eapply (addPipelines_of_throws sample_server [sample_class] sample_world);
    [reflexivity | reflexivity | cbn; lia].
Defined.

Lemma setPipelines_of_order_witness :
  exists w1 v2, setPipelines_of sample_server [sample_class; sample_class] sample_world = (w1, Ok (v2, true)) /\
    pipelines v2 = [1; 2]%nat.
Proof.
  edestruct (setPipelines_of_order sample_server [sample_class; sample_class] sample_world)
    as (v2 & E & Ep & _); [reflexivity | reflexivity |].
  eexists _, v2. split; [exact E | exact Ep].
Defined.

Lemma compensate_spec_witness :
  exists w' v', compensate sample_server sample_world = (w', Ok (v', true)) /\
    streams v' = [with_idx sample_stream 1].
Proof.
  destruct (compensate_spec sample_server sample_world sample_alive ltac:(cbn; lia))
    as (w' & v' & E & _ & _ & _ & Es & _).
  exists w', v'. split; [exact E | exact Es].
Defined.
