(* ===== verification/Registry.v ===== *)
(** The registry of [vs2::VisionServer] as a system of its operations: what is
    true of every server a program can reach, and the abstract registry -
    camera handles, pipeline ends, stream routes - that it implements, with
    the connections each operation makes in the camera library. *)

From S2P Require Import Prelude Floats Json World Instances Camera Server.
Local Open Scope Z_scope.
Local Open Scope vs_scope.

(** * The connections a computation makes *)

Section Connections.

Context {C T : Type} `{CS : CsCore C} `{NT : Tables T}.
Abbreviation prog := (M C T).

(** A change of the camera library's state that connects no sink. *)
Inductive unconnecting : (C -> C) -> Prop :=
| un_id : unconnecting (fun c => c)
| un_mode h m : unconnecting (cs_SetVideoMode h m)
| un_brightness h v : unconnecting (cs_SetBrightness h v)
| un_white_auto h : unconnecting (cs_SetWhiteBalanceAuto h)
| un_white h v : unconnecting (cs_SetWhiteBalanceManual h v)
| un_exposure_auto h : unconnecting (cs_SetExposureAuto h)
| un_exposure h v : unconnecting (cs_SetExposureManual h v)
| un_source name m : unconnecting (fun c => (cs_CvSource name m c).2)
| un_sink name : unconnecting (fun c => (cs_CvSink name c).2)
| un_server name port : unconnecting (fun c => (cs_AddServer name port c).2)
| un_frame src frame : unconnecting (cs_PutFrame src frame).

(** From [c] to [c'] by calls among which the connections, of a sink to a
    source, are [l] in this order. *)
Inductive cs_calls : C -> list (Z * Z) -> C -> Prop :=
| calls_none c : cs_calls c [] c
| calls_connect c sink src l c' :
    cs_calls (cs_SetSource sink src c) l c' -> cs_calls c ((sink, src) :: l) c'
| calls_other c f l c' : unconnecting f -> cs_calls (f c) l c' -> cs_calls c l c'.

Lemma cs_calls_app c1 l1 c2 l2 c3 :
  cs_calls c1 l1 c2 -> cs_calls c2 l2 c3 -> cs_calls c1 (l1 ++ l2) c3.
Proof. induction 1; intros; cbn; eauto using cs_calls. Qed.

(** When [m] returns, it has made connections that [Q] allows with its result. *)
Definition traces {A} (m : prog A) (Q : A -> list (Z * Z) -> Prop) : Prop :=
  forall w w' a, m w = (w', Ok a) -> exists l, cs_calls (w_cs w) l (w_cs w') /\ Q a l.

(** It makes none, and its result satisfies [Q]. *)
Definition silent {A} (m : prog A) (Q : A -> Prop) : Prop := traces m (fun a l => l = [] /\ Q a).

Lemma traces_weaken {A} (m : prog A) (P Q : A -> list (Z * Z) -> Prop) :
  traces m P -> (forall a l, P a l -> Q a l) -> traces m Q.
Proof. intros Hm HPQ w w' a E. destruct (Hm _ _ _ E) as (l & Hc & HP). eauto. Qed.

Lemma traces_bind {A B} (m : prog A) (f : A -> prog B) P (Q : B -> list (Z * Z) -> Prop) :
  traces m P -> (forall a l1, P a l1 -> traces (f a) (fun b l2 => Q b (l1 ++ l2))) ->
  traces (bind m f) Q.
Proof.
  intros Hm Hf w w' b (w1 & a & E1 & E2)%bind_inv.
  destruct (Hm _ _ _ E1) as (l1 & H1 & HP). destruct (Hf _ _ HP _ _ _ E2) as (l2 & H2 & HQ).
  exists (l1 ++ l2). eauto using cs_calls_app.
Qed.

Lemma traces_silent_bind {A B} (m : prog A) (f : A -> prog B) P Q :
  silent m P -> (forall a, P a -> traces (f a) Q) -> traces (bind m f) Q.
Proof.
  intros Hm Hf. eapply traces_bind; [exact Hm|]. intros a l [-> HP]. cbn. by apply Hf.
Qed.

Lemma traces_ret {A} (a : A) (Q : A -> list (Z * Z) -> Prop) : Q a [] -> traces (ret a) Q.
Proof. intros HQ w w' b [= <- <-]. exists []. eauto using cs_calls. Qed.

Lemma silent_ret {A} (a : A) (Q : A -> Prop) : Q a -> silent (ret a) Q.
Proof. intros. by apply traces_ret. Qed.

Lemma silent_any {A} (m : prog A) :
  (forall w w' a, m w = (w', Ok a) -> w_cs w' = w_cs w) -> silent m (fun _ => True).
Proof. intros Hm w w' a E. exists []. rewrite (Hm _ _ _ E). eauto using cs_calls. Qed.

Lemma silent_other f : unconnecting f -> silent (on_cs f) (fun _ => True).
Proof. intros Hf w w' a [= <- <-]. exists []. split; [|done]. eapply calls_other; [exact Hf | constructor]. Qed.

Lemma silent_new f : unconnecting (fun c => (f c).2) -> silent (on_cs_new f) (fun _ => True).
Proof.
  intros Hf w w' a. unfold on_cs_new. destruct (f (w_cs w)) as [h c] eqn:E. intros [= <- <-].
  exists []. split; [|done]. eapply calls_other; [exact Hf|]. cbn. rewrite E. constructor.
Qed.

Lemma traces_connect sink src :
  traces (on_cs (cs_SetSource sink src)) (fun _ l => l = [(sink, src)]).
Proof. intros w w' a [= <- <-]. eexists. split; [|reflexivity]. eauto using cs_calls. Qed.

Lemma silent_ask_cs {A} (f : C -> A) : silent (ask_cs f) (fun _ => True).
Proof. apply silent_any. by intros w w' a [= <- <-]. Qed.
Lemma silent_ask_nt {A} (f : T -> A) : silent (ask_nt f) (fun _ => True).
Proof. apply silent_any. by intros w w' a [= <- <-]. Qed.
Lemma silent_on_nt f : silent (on_nt f) (fun _ => True).
Proof. apply silent_any. by intros w w' a [= <- <-]. Qed.
Lemma silent_on_nt_new f : silent (on_nt_new f) (fun _ => True).
Proof.
  apply silent_any. intros w w' a. unfold on_nt_new. destruct (f (w_nt w)). by intros [= <- <-].
Qed.
Lemma silent_print s : silent (print s) (fun _ => True).
Proof. apply silent_any. by intros w w' a [= <- <-]. Qed.
Lemma silent_lift {A} (r : res A) : silent (lift r) (fun a => r = Ok a).
Proof. intros w w' a [= <- E]. exists []. eauto using cs_calls. Qed.

Lemma silent_bind {A B} (m : prog A) (f : A -> prog B) P Q :
  silent m P -> (forall a, P a -> silent (f a) Q) -> silent (bind m f) Q.
Proof. intros Hm Hf. eapply traces_silent_bind; eauto. Qed.

Lemma silent_weaken {A} (m : prog A) (P Q : A -> Prop) :
  silent m P -> (forall a, P a -> Q a) -> silent m Q.
Proof. intros Hm HPQ. eapply traces_weaken; [exact Hm|]. intros a l [-> HP]. auto. Qed.

End Connections.

#[export] Hint Constructors unconnecting : vsdb.
#[export] Hint Resolve silent_other silent_new silent_ask_cs silent_ask_nt silent_on_nt
  silent_on_nt_new silent_print silent_lift : vsdb.

(** Step over the silent part of a computation. *)
Ltac quietly := eapply traces_silent_bind; [solve [eauto with vsdb] |]; intros ? ?.
Ltac quietly_all := repeat quietly; try (apply traces_ret || apply silent_ret).

(** * The operations of the server *)

Section Registry.

Context {C T : Type} `{CS : CsCore C} `{NT : Tables T} `{CP : Capacity}.
Abbreviation prog := (M C T).

(** What a program does to the server.  [Construct] is a pipeline that the
    program itself creates, to pass its address; [Flag] is the flag that the
    processing loops set and clear; [Select] is the index selected on the
    stream at a position; [Sync] is the streams' part of a turn of a loop. *)
Inductive Op :=
| Construct (mk : prog BasePipe)
| AddCamera (c : VisionCamera)
| AddCameras (cms : list VisionCamera)
| SetCameras (cms : list VisionCamera)
| AddPipelineOf (mk : prog BasePipe)
| AddPipeline (p : nat)
| AddPipelines (ps : list nat)
| AddPipelinesOf (mks : list (prog BasePipe))
| SetPipelinesOf (mks : list (prog BasePipe))
| SetPipelines (ps : list nat)
| AddStream
| AddStreamNamed (name : string)
| AddStreamPort (name : string) (port : Z)
| AddStreamServer (h : Z)
| AddStreams (n : nat)
| AddStreamsNamed (names : list string)
| AddStreamsPorts (l : list (string * Z))
| AddStreamsServers (hs : list Z)
| Select (k : nat) (i : Z)
| Sync
| Compensate
| Flag (b : bool).

(** A pipeline object outside the server's list of owned ones. *)
Definition construct (v : VisionServer) (mk : prog BasePipe) : prog VisionServer :=
  let* p := mk in
  ret (mkServer (cameras v) (pipelines v) (heap_allocated v) (streams v)
         (head_joinable v) (is_running v) (<[next_addr v := p]> (pipes v)) (S (next_addr v)) (camera_store v)).

Definition select_stream (v : VisionServer) (k : nat) (i : Z) : prog VisionServer :=
  match streams v !! k with
  | Some s => let* s1 := setSourceIdx v s i in ret (with_streams v (<[k := s1]> (streams v)))
  | None => lift Undefined
  end.

Definition server_of (m : prog (VisionServer * bool)) : prog VisionServer := let* r := m in ret r.1.

Definition perform (v : VisionServer) (o : Op) : prog VisionServer :=
  match o with
  | Construct mk => construct v mk
  | AddCamera c => server_of (addCamera v c)
  | AddCameras cms => server_of (addCameras v cms)
  | SetCameras cms => server_of (setCameras v cms)
  | AddPipelineOf mk => server_of (addPipeline_of v mk)
  | AddPipeline p => server_of (addPipeline v p)
  | AddPipelines ps => server_of (addPipelines v ps)
  | AddPipelinesOf mks => server_of (addPipelines_of v mks)
  | SetPipelinesOf mks => server_of (setPipelines_of v mks)
  | SetPipelines ps => server_of (setPipelines v ps)
  | AddStream => server_of (addStream v)
  | AddStreamNamed name => server_of (addStream_named v name)
  | AddStreamPort name port => server_of (addStream_port v name port)
  | AddStreamServer h => server_of (addStream_server v h)
  | AddStreams n => server_of (addStreams v n)
  | AddStreamsNamed names => server_of (addStreams_named v names)
  | AddStreamsPorts l => server_of (addStreams_ports v l)
  | AddStreamsServers hs => server_of (addStreams_servers v hs)
  | Select k i => select_stream v k i
  | Sync => sync_all v
  | Compensate => server_of (compensate v)
  | Flag b => ret (with_running v b)
  end.

(** The source index of a stream is an [int]. *)
Definition int32 (i : Z) : Prop := - 2 ^ 31 <= i <= 2 ^ 31 - 1.

Definition alive (v : VisionServer) (a : nat) : Prop := is_Some (pipes v !! a).

(** The use a program may make of an operation: it passes pointers to existing
    pipelines, to [setPipelines] - which destroys the pipelines the server owns -
    none of these, indices that are [int]s, positions of streams, and constructors
    that leave the connections alone; and it compensates at most 2^15 cameras. *)
Definition allowed (v : VisionServer) (o : Op) : Prop :=
  match o with
  | Construct mk | AddPipelineOf mk => silent mk (fun _ => True)
  | SetPipelinesOf mks => Forall (fun mk => silent mk (fun _ => True)) mks
  | AddPipeline p => alive v p
  | AddPipelines ps => Forall (alive v) ps
  | SetPipelines ps => Forall (alive v) ps /\ (isRunning v = false -> Forall (fun a => a ∉ heap_allocated v) ps)
  | Select k i => (k < numStreams v)%nat /\ int32 i
  | Compensate => Z.of_nat (numCameras v) <= 2 ^ 15
  | _ => True
  end.

(** A server as its type means it to be: every pipeline listed or owned exists,
    addresses are used once, every stream's index is an [int] and its table a
    table of the streams'. *)
Record well_formed (v : VisionServer) : Prop := {
  wf_listed : Forall (alive v) (pipelines v);
  wf_owned : Forall (alive v) (heap_allocated v);
  wf_once : NoDup (heap_allocated v);
  wf_fresh : forall a, alive v a -> (a < next_addr v)%nat;
  wf_streams : Forall (fun s => int32 (local_idx s) /\
                 exists name, stream_table s = entry_path streams_table name) (streams v)
}.

(** The servers a program reaches; anything may happen in the world between two
    operations. *)
Inductive reachable : VisionServer -> Prop :=
| reach_first (w w' : world C T) v : VisionServer_new w = (w', Ok v) -> reachable v
| reach_next v o (w w' : world C T) v' :
    reachable v -> allowed v o -> perform v o w = (w', Ok v') -> reachable v'.

(** * The abstract registry *)

(** Handles of the cameras, source and sink of every listed pipeline, handle and
    index of every stream, and whether the registry is frozen. *)
Record Reg := mkReg {
  g_cameras : list Z;
  g_pipes : list (Z * Z);
  g_streams : list (Z * Z);
  g_frozen : bool
}.

Definition pipe_ends (m : gmap nat BasePipe) (a : nat) : Z * Z :=
  match m !! a with Some p => (pipe_source p, pipe_input p) | None => (0, 0) end.

Definition abs (v : VisionServer) : Reg :=
  mkReg (m_handle <$> cameras v) (pipe_ends (pipes v) <$> pipelines v)
    ((fun s => (server_handle s, local_idx s)) <$> streams v) (is_running v).

(** What an index stands for: a camera, a pipeline's source, or nothing. *)
Definition g_source (r : Reg) (i : Z) : option Z :=
  if i <? 0 then g_cameras r !! Z.to_nat (- i - 1)
  else if 0 <? i then fst <$> g_pipes r !! Z.to_nat (i - 1)
  else None.

(** A stream moved to an index: connected when the index is new to it and
    stands for something. *)
Definition g_move (r : Reg) (s : Z * Z) (i : Z) : list (Z * Z) :=
  if s.2 =? i then [] else match g_source r i with Some x => [(s.1, x)] | None => [] end.

Inductive Act :=
| ACameras (keep : bool) (hs : list Z)
| APipes (keep : bool) (ends : list (Z * Z))
| AStreams (hs : list Z)
| ASelect (k : nat) (i : Z)
| ASync (js : list Z)
| AAttach (k : option nat)
| AFrozen (b : bool)
| ANothing.

Definition g_with_streams (r : Reg) (ss : list (Z * Z)) : Reg :=
  mkReg (g_cameras r) (g_pipes r) ss (g_frozen r).

(** The registry after an action, and the connections it makes. *)
Definition act (a : Act) (r : Reg) : Reg * list (Z * Z) :=
  match a with
  | ACameras keep hs =>
      (if g_frozen r then r
       else mkReg ((if keep then g_cameras r else []) ++ hs) (g_pipes r) (g_streams r) false, [])
  | APipes keep ends =>
      (if g_frozen r then r
       else mkReg (g_cameras r) ((if keep then g_pipes r else []) ++ ends) (g_streams r) false, [])
  | AStreams hs =>
      (if g_frozen r then r else g_with_streams r (g_streams r ++ ((fun h => (h, 0)) <$> hs)), [])
  | ASelect k i =>
      match g_streams r !! k with
      | Some s => (g_with_streams r (<[k := (s.1, i)]> (g_streams r)), g_move r s i)
      | None => (r, [])
      end
  | ASync js =>
      (g_with_streams r (zip_with (fun s i => (s.1, i)) (g_streams r) js),
       concat (zip_with (g_move r) (g_streams r) js))
  | AAttach (Some k) =>
      let i := match g_pipes r with [] => - (Z.of_nat k + 1) | _ => 1 end in
      let h := default 0 (g_cameras r !! k) in
      (g_with_streams r ((fun s => (s.1, i)) <$> g_streams r),
       ((fun p => (p.2, h)) <$> g_pipes r) ++ concat ((fun s => g_move r s i) <$> g_streams r))
  | AAttach None | ANothing => (r, [])
  | AFrozen b => (mkReg (g_cameras r) (g_pipes r) (g_streams r) b, [])
  end.

(** The action an operation stands for; handles that the camera library makes up
    are any.  [addPipelines<...>()] returns only where it is refused. *)
Definition means (v : VisionServer) (w : world C T) (o : Op) (a : Act) : Prop :=
  match o with
  | Construct _ => a = ANothing
  | AddCamera c => a = ACameras true [m_handle c]
  | AddCameras cms => a = ACameras true (m_handle <$> cms)
  | SetCameras cms => a = ACameras false (m_handle <$> cms)
  | AddPipelineOf _ => exists e, a = APipes true [e]
  | AddPipeline p => a = APipes true [pipe_ends (pipes v) p]
  | AddPipelines ps => a = APipes true (pipe_ends (pipes v) <$> ps)
  | AddPipelinesOf _ => a = ANothing
  | SetPipelinesOf mks => exists es, length es = length mks /\ a = APipes false es
  | SetPipelines ps => a = APipes false (pipe_ends (pipes v) <$> ps)
  | AddStream | AddStreamNamed _ | AddStreamPort _ _ => exists h, a = AStreams [h]
  | AddStreamServer h => a = AStreams [h]
  | AddStreams n => exists hs, length hs = n /\ a = AStreams hs
  | AddStreamsNamed names => exists hs, length hs = length names /\ a = AStreams hs
  | AddStreamsPorts l => exists hs, length hs = length l /\ a = AStreams hs
  | AddStreamsServers hs => a = AStreams hs
  | Select k i => a = ASelect k i
  | Sync => exists js, Forall2 (fun s i => remote_index (w_nt w) s = Some i) (streams v) js /\ a = ASync js
  | Compensate =>
      a = AAttach (fst <$> list_find (fun c => cs_IsConnected (m_handle c) (w_cs w) = true) (cameras v))
  | Flag b => a = AFrozen b
  end.

End Registry.

(** * What the operations do *)

Section Proofs.

Context {C T : Type} `{CS : CsCore C} `{NT : Tables T} `{CP : Capacity}.
Abbreviation prog := (M C T).

(** The claim about one operation: the server stays well formed, and the
    registry and the connections change as its action says. *)
Definition sound (v : VisionServer) (o : Op) : Prop :=
  forall (w w' : world C T) v', perform v o w = (w', Ok v') ->
  well_formed v' /\
  exists a l, means v w o a /\ act a (abs v) = (abs v', l) /\ cs_calls (w_cs w) l (w_cs w').

Lemma sound_traces v o (Q : VisionServer -> list (Z * Z) -> Prop) :
  traces (perform v o) Q ->
  (forall v' l, Q v' l -> well_formed v' /\
     exists a, (forall w, means v w o a) /\ act a (abs v) = (abs v', l)) ->
  sound v o.
Proof.
  intros Ht HQ w w' v' E. destruct (Ht _ _ _ E) as (l & Hc & (Hwf & a & Hm & Ha)%HQ). eauto 8.
Qed.

(** ** The parts of the operations *)

Lemma silent_put_number table key z : silent (put_number (C := C) (T := T) table key z) (fun _ => True).
Proof. apply silent_on_nt. Qed.

Lemma silent_entry_set e v : silent (entry_set (C := C) (T := T) e v) (fun _ => True).
Proof. destruct e as [[key d]|]; [apply silent_on_nt | by apply silent_ret]. Qed.

Local Hint Resolve silent_put_number silent_entry_set : vsdb.
Local Hint Constructors unconnecting : vsdb.

Lemma silent_setBrightness cam v : silent (setBrightness (C := C) (T := T) cam v) (fun _ => True).
Proof. unfold setBrightness, _setBrightness. eapply (silent_bind _ _ (fun _ => True)); [|eauto with vsdb]. cbv zeta. quietly_all; done. Qed.
Lemma silent_setWhiteBalance cam v : silent (setWhiteBalance (C := C) (T := T) cam v) (fun _ => True).
Proof.
  unfold setWhiteBalance, _setWhiteBalance. eapply (silent_bind _ _ (fun _ => True)); [|eauto with vsdb].
  destruct (v <? 0); quietly_all; done.
Qed.
Lemma silent_setExposure cam v : silent (setExposure (C := C) (T := T) cam v) (fun _ => True).
Proof.
  unfold setExposure, _setExposure. eapply (silent_bind _ _ (fun _ => True)); [|eauto with vsdb].
  cbv zeta. destruct (_ <? 0); quietly_all; done.
Qed.

Local Hint Resolve silent_setBrightness silent_setWhiteBalance silent_setExposure : vsdb.

Lemma silent_adopt self c : silent (adopt (C := C) (T := T) self c) (fun c' => m_handle c' = m_handle c).
Proof.
  unfold adopt. eapply silent_bind with (P := fun c' => m_handle c' = m_handle c).
  - unfold setNetworkBase. by quietly_all.
  - intros c1 H1. unfold setNetworkAdjustable. by quietly_all.
Qed.

Local Hint Resolve silent_adopt : vsdb.

Lemma silent_adopt_all st i cms :
  silent (adopt_all (C := C) (T := T) st i cms) (fun cms' => m_handle <$> cms' = m_handle <$> cms).
Proof.
  revert i. induction cms as [|c cms IH]; intros i; cbn [adopt_all]; [by apply silent_ret|].
  quietly. eapply silent_bind; [apply IH|]. intros cms1 H1. apply silent_ret. cbn. congruence.
Qed.

Lemma silent_destroy_all cms : silent (destroy_all (C := C) (T := T) cms) (fun _ => True).
Proof.
  induction cms as [|c cms IH]; cbn [destroy_all]; [by apply silent_ret|].
  unfold VisionCamera_destroy. by quietly.
Qed.

Lemma silent_OutputStream_new h :
  silent (OutputStream_new (C := C) (T := T) h)
    (fun s => server_handle s = h /\ local_idx s = 0 /\
              exists name, stream_table s = entry_path streams_table name).
Proof. unfold OutputStream_new. cbv zeta. quietly_all. cbn. eauto. Qed.

Lemma silent_named_stream name port :
  silent (named_stream (C := C) (T := T) name port)
    (fun s => local_idx s = 0 /\ exists n, stream_table s = entry_path streams_table n).
Proof.
  unfold named_stream. quietly. eapply silent_weaken; [apply silent_OutputStream_new|]. by intros s (_ & ? & ?).
Qed.

Lemma silent_new_pipe name : silent (new_pipe (C := C) (T := T) name) (fun _ => True).
Proof. unfold new_pipe. by quietly_all. Qed.

Local Hint Resolve silent_adopt_all silent_destroy_all silent_OutputStream_new
  silent_named_stream silent_new_pipe : vsdb.

(** ** Well-formedness of the changed server *)

Lemma wf_with_store v st c : well_formed v -> well_formed (with_store v st c).
Proof. intros []. by constructor. Qed.

Lemma wf_with_pipelines v ps : well_formed v -> Forall (alive v) ps -> well_formed (with_pipelines v ps).
Proof. intros [] Hps. by constructor. Qed.

Lemma wf_with_running v b : well_formed v -> well_formed (with_running v b).
Proof. intros []. by constructor. Qed.

Definition stream_ok (s : OutputStream) : Prop :=
  int32 (local_idx s) /\ exists name, stream_table s = entry_path streams_table name.

Lemma wf_with_streams v ss : well_formed v -> Forall stream_ok ss -> well_formed (with_streams v ss).
Proof. intros [] Hss. by constructor. Qed.

(** Another pipeline at the next address, owned or not. *)
Definition with_new_pipe (v : VisionServer) (p : BasePipe) (heap : list nat) : VisionServer :=
  mkServer (cameras v) (pipelines v) heap (streams v) (head_joinable v) (is_running v)
    (<[next_addr v := p]> (pipes v)) (S (next_addr v)) (camera_store v).

Lemma alive_new v p heap a : alive v a -> alive (with_new_pipe v p heap) a.
Proof.
  unfold alive. cbn. intros Ha. destruct (decide (a = next_addr v)) as [->|Hne].
  - rewrite lookup_insert_eq. by eexists.
  - by rewrite lookup_insert_ne.
Qed.

Lemma alive_next v p heap : alive (with_new_pipe v p heap) (next_addr v).
Proof. unfold alive. cbn. rewrite lookup_insert_eq. by eexists. Qed.

Lemma fresh_not_alive v : well_formed v -> ~ alive v (next_addr v).
Proof. intros [] Ha. pose proof (wf_fresh0 _ Ha). lia. Qed.

Lemma wf_new_pipe v p (owned : bool) :
  well_formed v ->
  well_formed (with_new_pipe v p (heap_allocated v ++ if owned then [next_addr v] else [])).
Proof.
  intros Hwf. pose proof (fresh_not_alive v Hwf) as Hfresh. destruct Hwf as [H1 H2 H3 H4 H5].
  assert (Hout : next_addr v ∉ heap_allocated v).
  { intros Hin. apply Hfresh. by apply (proj1 (Forall_forall _ _) H2). }
  constructor; cbn; [| | | |done].
  - eapply Forall_impl; [exact H1|]. intros a Ha. by apply alive_new.
  - apply Forall_app. split.
    + eapply Forall_impl; [exact H2|]. intros a Ha. by apply alive_new.
    + destruct owned; [|done]. constructor; [apply alive_next | done].
  - apply NoDup_app. split; [done|]. destruct owned; [|split; [set_solver | constructor]].
    split; [|apply NoDup_singleton]. intros a Ha Hin. apply list_elem_of_singleton in Hin as ->. done.
  - intros a. unfold alive. cbn. destruct (decide (a = next_addr v)) as [->|Hne]; [lia|].
    rewrite lookup_insert_ne by done. intros Ha. pose proof (H4 a Ha). lia.
Qed.

Lemma cleared_lookup (m : gmap nat BasePipe) l a : a ∉ l -> foldr delete m l !! a = m !! a.
Proof.
  intros Hn. induction l as [|b l IH]; [done|]. cbn.
  apply not_elem_of_cons in Hn as [Hne Hn]. rewrite lookup_delete_ne by congruence. by apply IH.
Qed.

Lemma alive_cleared v a : alive v a -> a ∉ heap_allocated v -> alive (clear_heap v) a.
Proof. unfold alive. cbn. intros Ha Hn. by rewrite cleared_lookup. Qed.

Lemma cleared_alive v a : alive (clear_heap v) a -> alive v a.
Proof.
  unfold alive. cbn. induction (heap_allocated v) as [|b l IH]; [done|]. cbn.
  intros [p Hp]. apply lookup_delete_Some in Hp as [_ Hp]. apply IH. by eexists.
Qed.

Lemma wf_clear v ps :
  well_formed v -> Forall (alive v) ps -> Forall (fun a => a ∉ heap_allocated v) ps ->
  well_formed (with_pipelines (clear_heap v) ps).
Proof.
  intros [H1 H2 H3 H4 H5] Ha Hn. constructor; cbn; [|constructor|constructor| |done].
  - apply Forall_forall. intros a Hin. apply alive_cleared.
    + by apply (proj1 (Forall_forall _ _) Ha).
    + by apply (proj1 (Forall_forall _ _) Hn).
  - intros a Hal. apply H4. by apply cleared_alive.
Qed.

(** ** The ends of the pipelines listed *)

Lemma pipe_ends_new v p heap a :
  well_formed v -> alive v a -> pipe_ends (pipes (with_new_pipe v p heap)) a = pipe_ends (pipes v) a.
Proof.
  intros Hwf Ha. pose proof (fresh_not_alive v Hwf) as Hn. unfold pipe_ends. cbn.
  rewrite lookup_insert_ne; [done|]. intros E. apply Hn. by rewrite E.
Qed.

Lemma ends_new v p heap ps :
  well_formed v -> Forall (alive v) ps ->
  pipe_ends (pipes (with_new_pipe v p heap)) <$> ps = pipe_ends (pipes v) <$> ps.
Proof.
  intros Hwf Hps. apply list_fmap_ext. intros i a Hi. apply pipe_ends_new; [done|].
  by apply (proj1 (Forall_lookup _ _) Hps i).
Qed.

Lemma ends_cleared v ps :
  Forall (fun a => a ∉ heap_allocated v) ps ->
  pipe_ends (pipes (clear_heap v)) <$> ps = pipe_ends (pipes v) <$> ps.
Proof.
  intros Hps. apply list_fmap_ext. intros i a Hi. apply (proj1 (Forall_lookup _ _) Hps) in Hi.
  unfold pipe_ends. cbn [pipes clear_heap]. by rewrite cleared_lookup.
Qed.

(** ** Cameras *)

Lemma g_frozen_abs v : g_frozen (abs v) = isRunning v.
Proof. done. Qed.

(** An operation that a running server refuses. *)
Lemma sound_guarded v o (m : prog (VisionServer * bool)) a0 :
  perform v o = server_of (if negb (isRunning v) then m else ret (v, false)) ->
  well_formed v ->
  (isRunning v = true -> (forall w : world C T, means v w o a0) /\ act a0 (abs v) = (abs v, [])) ->
  (isRunning v = false ->
   traces m (fun r l => well_formed r.1 /\
     exists a, (forall w : world C T, means v w o a) /\ act a (abs v) = (abs r.1, l))) ->
  sound v o.
Proof.
  intros Hp Hwf Hrun Hidle. apply (sound_traces v o (fun v' l => well_formed v' /\
     exists a, (forall w : world C T, means v w o a) /\ act a (abs v) = (abs v', l))); [|intros v' l H; exact H].
  rewrite Hp. unfold server_of. destruct (isRunning v); cbn [negb].
  - destruct (Hrun eq_refl) as [Hm Ha]. intros w w' v' [= <- <-].
    exists []. eauto using cs_calls.
  - eapply traces_bind; [by apply Hidle|]. intros r l Hr. apply traces_ret. by rewrite app_nil_r.
Qed.

Lemma act_frozen v a :
  isRunning v = true ->
  match a with ACameras _ _ | APipes _ _ | AStreams _ => True | _ => False end ->
  act a (abs v) = (abs v, []).
Proof. unfold isRunning. intros Hr Ha. destruct a; try done; cbn; by rewrite Hr. Qed.

Ltac refused := intros ?; split; [cbn; eauto | by apply act_frozen].

(** Publishing a number, then returning [r]. *)
Lemma traces_publish {A} table key z (r : A) (Q : A -> list (Z * Z) -> Prop) :
  Q r [] -> traces (put_number (C := C) (T := T) table key z ;* ret r) Q.
Proof. intros HQ. quietly. by apply traces_ret. Qed.

Lemma abs_cameras v st cms keep :
  isRunning v = false ->
  act (ACameras keep (m_handle <$> cms)) (abs v) =
  (abs (with_store v st ((if keep : bool then cameras v else []) ++ cms)), []).
Proof.
  unfold isRunning. intros Hr. cbn. unfold abs. cbn. rewrite Hr. f_equal. f_equal.
  rewrite fmap_app. by destruct keep.
Qed.

Lemma sound_AddCameras v cms : well_formed v -> sound v (AddCameras cms).
Proof.
  intros Hwf. eapply (sound_guarded v _ _ (ACameras true (m_handle <$> cms))); [done | done | refused|].
  intros Hr. eapply traces_silent_bind; [apply silent_adopt_all|]. intros cms1 Hh.
  apply traces_publish. split; [by apply wf_with_store|].
  eexists. split; [done|]. rewrite <- Hh. by apply (abs_cameras v _ cms1 true).
Qed.

Lemma sound_AddCamera v c : well_formed v -> sound v (AddCamera c).
Proof.
  intros Hwf. eapply (sound_guarded v _ _ (ACameras true [m_handle c])); [done | done | refused|].
  intros Hr. eapply traces_silent_bind; [apply silent_adopt|]. intros c1 Hh.
  apply traces_publish. split; [by apply wf_with_store|].
  eexists. split; [done|]. rewrite <- Hh. by apply (abs_cameras v _ [c1] true).
Qed.

Lemma sound_SetCameras v cms : well_formed v -> sound v (SetCameras cms).
Proof.
  intros Hwf. eapply (sound_guarded v _ _ (ACameras false (m_handle <$> cms))); [done | done | refused|].
  intros Hr. quietly. eapply traces_silent_bind; [apply silent_adopt_all|]. intros cms1 Hh.
  apply traces_publish. split; [by apply wf_with_store|].
  eexists. split; [done|]. rewrite <- Hh. by apply (abs_cameras v _ cms1 false).
Qed.

(** ** Pipelines *)

Lemma abs_pipelines v v1 ends keep :
  isRunning v = false -> is_running v1 = false ->
  cameras v1 = cameras v -> streams v1 = streams v ->
  pipe_ends (pipes v1) <$> pipelines v1 =
    (if keep : bool then pipe_ends (pipes v) <$> pipelines v else []) ++ ends ->
  act (APipes keep ends) (abs v) = (abs v1, []).
Proof.
  unfold isRunning. intros Hr Hr1 Hc Hs Hp. cbn. unfold abs. cbn. rewrite Hr, Hr1, Hc, Hs, Hp.
  by destruct keep.
Qed.

Lemma sound_AddPipelines v ps : well_formed v -> Forall (alive v) ps -> sound v (AddPipelines ps).
Proof.
  intros Hwf Hps. eapply (sound_guarded v _ _ (APipes true (pipe_ends (pipes v) <$> ps))); [done | done | refused|].
  intros Hr. apply traces_publish. split.
  - apply wf_with_pipelines; [done|]. apply Forall_app. split; [apply Hwf | done].
  - eexists. split; [done|]. apply abs_pipelines; try done. cbn. by rewrite fmap_app.
Qed.

Lemma sound_AddPipeline v p : well_formed v -> alive v p -> sound v (AddPipeline p).
Proof.
  intros Hwf Hp w w' v' E.
  destruct (sound_AddPipelines v [p] Hwf ltac:(by constructor) w w' v' E) as (H1 & a & l & -> & H2).
  split; [done|]. by exists (APipes true [pipe_ends (pipes v) p]), l.
Qed.

Lemma sound_SetPipelines v ps : well_formed v -> allowed (C := C) (T := T) v (SetPipelines ps) -> sound v (SetPipelines ps).
Proof.
  intros Hwf [Hps Hn]. eapply (sound_guarded v _ _ (APipes false (pipe_ends (pipes v) <$> ps))); [done | done | refused|].
  intros Hr. apply traces_publish. split; [by apply wf_clear; auto|].
  eexists. split; [done|]. apply abs_pipelines; try done. cbn. apply ends_cleared. auto.
Qed.

Lemma sound_Construct v (mk : prog BasePipe) : well_formed v -> silent mk (fun _ => True) -> sound v (Construct mk).
Proof.
  intros Hwf Hmk. apply (sound_traces v _ (fun v' l => l = [] /\
    exists p, v' = with_new_pipe v p (heap_allocated v ++ []))).
  - eapply traces_silent_bind; [exact Hmk|]. intros p _. apply traces_ret. split; [done|].
    exists p. by rewrite app_nil_r.
  - intros v' l (-> & p & ->). split; [by apply (wf_new_pipe v p false)|].
    exists ANothing. split; [done|]. cbn. unfold abs. cbn. f_equal. f_equal.
    symmetry. apply (ends_new v p (heap_allocated v ++ [])); [done | apply Hwf].
Qed.

(** What a heap allocation leaves. *)
Lemma silent_allocate v (mk : prog BasePipe) :
  silent mk (fun _ => True) ->
  silent (allocate v mk) (fun v' => exists p, v' = with_new_pipe v p (heap_allocated v ++ [next_addr v])).
Proof. intros Hmk. unfold allocate. eapply silent_bind; [exact Hmk|]. intros p _. apply silent_ret. eauto. Qed.

Lemma sound_AddPipelineOf v (mk : prog BasePipe) : well_formed v -> silent mk (fun _ => True) -> sound v (AddPipelineOf mk).
Proof.
  intros Hwf Hmk. eapply (sound_guarded v _ _ (APipes true [(0, 0)])); [done | done | refused|].
  intros Hr. eapply traces_silent_bind; [by apply silent_allocate|]. intros v1 [p ->].
  apply traces_ret. cbn [fst]. pose proof (wf_new_pipe v p true Hwf) as Hwf1. cbn [andb] in Hwf1.
  split.
  - apply wf_with_pipelines; [done|]. apply Forall_app. split; [apply Hwf1|].
    constructor; [|done]. apply alive_next.
  - eexists. split; [by eexists|]. apply abs_pipelines; try done. cbn [pipelines with_pipelines].
    rewrite fmap_app. f_equal. apply (ends_new v p); [done | apply Hwf].
Qed.

Lemma pipeExpander_wf v (mks : list (prog BasePipe)) :
  well_formed v -> Forall (fun mk => silent mk (fun _ => True)) mks ->
  silent (pipeExpander v mks)
    (fun r => well_formed r.1 /\ cameras r.1 = cameras v /\ streams r.1 = streams v /\
      is_running r.1 = is_running v /\ pipelines r.1 = pipelines v /\
      exists new, heap_allocated r.1 = heap_allocated v ++ new /\ length new = length mks).
Proof.
  intros Hwf Hmks. revert v Hwf.
  induction Hmks as [|mk mks Hmk _ IH]; intros v Hwf; cbn [pipeExpander].
  - apply silent_ret. cbn. repeat split; try done; try apply Hwf. exists []. by rewrite app_nil_r.
  - eapply silent_bind; [by apply silent_allocate|]. intros v1 [p ->].
    pose proof (wf_new_pipe v p true Hwf) as Hwf1.
    eapply silent_bind; [by apply IH|].
    intros r (H1 & H2 & H3 & H4 & H5 & new & H6 & H7). apply silent_ret. cbn [fst] in *.
    repeat (split; [done|]). exists (next_addr v :: new). split; [|cbn; congruence].
    rewrite H6. cbn [heap_allocated with_new_pipe]. by rewrite <- app_assoc.
Qed.

Lemma sound_AddPipelinesOf v (mks : list (prog BasePipe)) : well_formed v -> sound v (AddPipelinesOf mks).
Proof.
  intros Hwf w w' v' E. apply bind_inv in E as (w1 & r & E & Er).
  apply addPipelines_of_refused in E as (_ & -> & ->). injection Er as <- <-.
  split; [exact Hwf|]. exists ANothing, []. split; [done|]. split; [done | constructor].
Qed.

Lemma sound_SetPipelinesOf v (mks : list (prog BasePipe)) :
  well_formed v -> Forall (fun mk => silent mk (fun _ => True)) mks -> sound v (SetPipelinesOf mks).
Proof.
  intros Hwf Hmks.
  eapply (sound_guarded v _ _ (APipes false (replicate (length mks) (0, 0)))); [done | done | |].
  { intros Hr. split; [intros w; cbn; exists (replicate (length mks) (0, 0)); by rewrite length_replicate
                      | by apply act_frozen]. }
  intros Hr. eapply traces_silent_bind.
  { apply pipeExpander_wf; [|exact Hmks]. apply wf_clear; [done | constructor | constructor]. }
  intros r (H1 & H2 & H3 & H4 & H5 & new & H6 & H7). apply traces_ret. cbn [fst].
  cbn [heap_allocated with_pipelines clear_heap app] in H6. split.
  - apply wf_with_pipelines; [done | apply H1].
  - exists (APipes false (pipe_ends (pipes r.1) <$> new)).
    split; [intros w; eexists; split; [|reflexivity]; by rewrite length_fmap|].
    apply abs_pipelines; try done; cbn; [by rewrite H4 | by rewrite H6].
Qed.

(** ** Streams *)

(** Streams made by [m] for a server, as the operations make them. *)
Definition makes_stream (m : prog OutputStream) (P : Z -> Prop) : Prop :=
  silent m (fun s => P (server_handle s) /\ local_idx s = 0 /\
                     exists name, stream_table s = entry_path streams_table name).

Lemma makes_named name port : makes_stream (named_stream name port) (fun _ => True).
Proof. eapply silent_weaken; [apply silent_named_stream|]. by intros s [? ?]. Qed.
Lemma makes_server h : makes_stream (OutputStream_new h) (eq h).
Proof. eapply silent_weaken; [apply silent_OutputStream_new|]. by intros s (-> & ? & ?). Qed.

Lemma fresh_stream_ok (s : OutputStream) :
  local_idx s = 0 -> (exists name, stream_table s = entry_path streams_table name) -> stream_ok s.
Proof. intros H0 Hn. split; [rewrite H0; unfold int32; lia | done]. Qed.

Lemma wf_push v s :
  well_formed v -> stream_ok s -> well_formed (push_stream v s).
Proof.
  intros Hwf Hs. apply wf_with_streams; [done|]. apply Forall_app. split; [apply Hwf | by constructor].
Qed.

Lemma abs_push v s hs :
  isRunning v = false -> local_idx s = 0 ->
  (act (AStreams (server_handle s :: hs)) (abs v)).1 = (act (AStreams hs) (abs (push_stream v s))).1.
Proof.
  unfold isRunning. intros Hr H0. cbn. rewrite Hr. unfold g_with_streams. cbn.
  rewrite fmap_app, <- app_assoc. cbn. by rewrite H0.
Qed.

Lemma push_streams_wf v (mks : list (VisionServer -> prog OutputStream)) (Ps : list (Z -> Prop)) :
  well_formed v -> isRunning v = false ->
  Forall2 (fun mk P => forall v, makes_stream (mk v) P) mks Ps ->
  silent (push_streams v mks)
    (fun v' => well_formed v' /\ exists hs, Forall2 (fun P h => P h) Ps hs /\
       act (AStreams hs) (abs v) = (abs v', [])).
Proof.
  intros Hwf Hr Hmks. revert v Hwf Hr.
  induction Hmks as [|mk P mks Ps Hmk _ IH]; intros v Hwf Hr; cbn [push_streams].
  - apply silent_ret. split; [done|]. exists []. split; [constructor|].
    cbn. unfold isRunning in Hr. rewrite Hr, app_nil_r. unfold g_with_streams, abs. cbn. by rewrite Hr.
  - eapply silent_bind; [apply Hmk|]. intros s (HP & H0 & Hn).
    eapply silent_weaken; [apply IH; [apply wf_push; [done | by apply fresh_stream_ok] | done]|].
    intros v' (H1 & hs & H2 & H3). split; [done|]. exists (server_handle s :: hs).
    split; [by constructor|].
    pose proof (abs_push v s hs Hr H0) as Ha. rewrite H3 in Ha. cbn [fst] in Ha.
    by rewrite <- Ha.
Qed.

Lemma sound_streams v o (mks : list (VisionServer -> prog OutputStream)) (Ps : list (Z -> Prop)) (R : list Z -> Prop) :
  well_formed v -> perform v o = server_of (addStreams_with v mks) ->
  Forall2 (fun mk P => forall v, makes_stream (mk v) P) mks Ps ->
  (forall hs, Forall2 (fun P h => P h) Ps hs -> R hs) -> (exists hs, R hs) ->
  (forall hs (w : world C T), R hs -> means v w o (AStreams hs)) -> sound v o.
Proof.
  intros Hwf Hp Hmks HR [hs0 H0] Hm.
  eapply (sound_guarded v _ _ (AStreams hs0)); [exact Hp | done | |].
  { intros Hr. split; [auto | by apply act_frozen]. }
  intros Hr. eapply traces_silent_bind; [by apply push_streams_wf|].
  intros v' (H1 & hs & H2 & H3). apply traces_ret. split; [done|]. exists (AStreams hs). auto.
Qed.

Lemma sound_stream v o (mk : prog OutputStream) (P : Z -> Prop) :
  well_formed v -> perform v o = server_of (addStream_with v mk) -> makes_stream mk P ->
  (exists h, P h) -> (forall h (w : world C T), P h -> means v w o (AStreams [h])) -> sound v o.
Proof.
  intros Hwf Hp Hmk [h0 H0] Hm.
  eapply (sound_guarded v _ _ (AStreams [h0])); [exact Hp | done | |].
  { intros Hr. split; [auto | by apply act_frozen]. }
  intros Hr. eapply traces_silent_bind; [exact Hmk|]. intros s (HP & Hl & Hn).
  apply traces_ret. split; [apply wf_push; [done | by apply fresh_stream_ok]|].
  exists (AStreams [server_handle s]). split; [auto|].
  unfold isRunning in Hr. cbn. rewrite Hr. unfold g_with_streams, abs. cbn. by rewrite fmap_app, Hr, <- Hl.
Qed.

Lemma Forall2_True {A B} (l : list A) (hs : list B) :
  Forall2 (fun P (h : B) => P h) (map (fun _ => fun _ => True) l) hs -> length hs = length l.
Proof. intros H%Forall2_length. by rewrite length_map in H. Qed.

(** ** Moving streams *)

Lemma abs_source v i : well_formed v -> g_source (abs v) i = source_of v i.
Proof.
  intros Hwf. unfold g_source, source_of. cbn. destruct (i <? 0); [by rewrite list_lookup_fmap|].
  destruct (0 <? i); [|done]. rewrite list_lookup_fmap.
  destruct (pipelines v !! Z.to_nat (i - 1)) as [a|] eqn:Ea; [|done]. cbn.
  destruct (proj1 (Forall_lookup _ _) (wf_listed v Hwf) _ _ Ea) as [p Hp].
  unfold pipe_ends. by rewrite Hp.
Qed.

(** The handle and index of a stream. *)
Definition route_of (s : OutputStream) : Z * Z := (server_handle s, local_idx s).

Lemma set_source_calls h src c :
  cs_calls c (match src with Some x => [(h, x)] | None => [] end) (set_source_cs h src c).
Proof. destruct src; cbn; eauto using cs_calls. Qed.

Lemma select_calls v s i c :
  well_formed v ->
  cs_calls c (g_move (abs v) (route_of s) i) (select_cs (source_of v i) i c s).
Proof.
  intros Hwf. unfold g_move, select_cs. cbn. destruct (local_idx s =? i); [constructor|].
  rewrite abs_source by done. apply set_source_calls.
Qed.

Lemma select_all_calls v i l c :
  well_formed v ->
  cs_calls c (concat ((fun s => g_move (abs v) (route_of s) i) <$> l))
    (foldl (select_cs (source_of v i) i) c l).
Proof.
  intros Hwf. revert c. induction l as [|s l IH]; intros c; cbn; [constructor|].
  eapply cs_calls_app; [by apply select_calls | apply IH].
Qed.

Lemma attach_calls h ends c :
  cs_calls c ((fun p => (p.2, h)) <$> ends) (foldl (attach_cs h) c ends).
Proof.
  revert c. induction ends as [|p ends IH]; intros c; cbn; [constructor|].
  eapply calls_other; [apply (un_mode p.1 (cs_GetVideoMode h c))|]. apply calls_connect, IH.
Qed.

Lemma moved_ok s i : stream_ok s -> int32 i -> stream_ok (with_idx s i).
Proof. intros [_ Hn] Hi. by split. Qed.

Lemma sound_Select v k i : well_formed v -> int32 i -> sound v (Select k i).
Proof.
  intros Hwf Hi w w' v' E. cbn [perform] in E. unfold select_stream in E.
  destruct (streams v !! k) as [s|] eqn:Es; [|done].
  destruct (setSourceIdx_eq v s i w (wf_listed v Hwf)) as (w1 & E1 & C1).
  rewrite (bind_ok _ _ _ _ _ E1) in E. injection E as <- <-.
  pose proof (proj1 (Forall_lookup _ _) (wf_streams v Hwf) _ _ Es) as Hs. split.
  - apply wf_with_streams; [done|]. apply Forall_insert; [apply Hwf | by apply moved_ok].
  - exists (ASelect k i), (g_move (abs v) (route_of s) i). split; [done|]. split.
    + cbn. rewrite list_lookup_fmap, Es. cbn. unfold g_with_streams, abs. cbn.
      by rewrite list_fmap_insert.
    + rewrite C1. by apply select_calls.
Qed.

Lemma int_of_double_int32 x i : int_of_double x = Some i -> int32 i.
Proof.
  unfold int_of_double, cast_to. destruct (trunc x) as [z|]; [|done].
  destruct (Z.leb_spec (- 2 ^ 31) z), (Z.leb_spec z (2 ^ 31 - 1)); cbn [andb]; try done.
  intros [= <-]. done.
Qed.

Lemma syncIdx_calls v s (w w' : world C T) s' :
  well_formed v -> syncIdx v s w = (w', Ok s') ->
  exists i, remote_index (w_nt w) s = Some i /\ s' = with_idx s i /\ w_nt w' = w_nt w /\
    cs_calls (w_cs w) (g_move (abs v) (route_of s) i) (w_cs w').
Proof.
  intros Hwf E. destruct (remote_index (w_nt w) s) as [i|] eqn:Ei.
  - unfold remote_index in Ei. rewrite (syncIdx_eq v s _ i w (wf_listed v Hwf) eq_refl Ei) in E.
    injection E as <- <-. exists i. split; [done|]. split; [done|].
    pose proof (select_calls v s i (w_cs w) Hwf) as Hc. unfold select_cs in Hc.
    rewrite Z.eqb_sym in Hc. by destruct (i =? local_idx s).
  - unfold syncIdx, get_int, bind, ask_nt, lift in E. unfold remote_index in Ei. by rewrite Ei in E.
Qed.

Lemma map_sync_calls v l (w w' : world C T) l' :
  well_formed v -> map_streams (syncIdx v) l w = (w', Ok l') ->
  exists js, Forall2 (fun s i => remote_index (w_nt w) s = Some i) l js /\
    l' = zip_with with_idx l js /\
    cs_calls (w_cs w) (concat (zip_with (g_move (abs v)) (route_of <$> l) js)) (w_cs w').
Proof.
  intros Hwf. revert w l'. induction l as [|s l IH]; intros w l' E; cbn [map_streams] in E.
  - injection E as <- <-. exists []. split; [constructor|]. split; [done | constructor].
  - apply bind_inv in E as (w1 & s1 & E1 & E2). apply bind_inv in E2 as (w2 & l2 & E2 & E3).
    injection E3 as <- <-. apply syncIdx_calls in E1 as (i & Hi & -> & Hnt & Hc); [|done].
    apply IH in E2 as (js & Hjs & -> & Hcs). rewrite Hnt in Hjs.
    exists (i :: js). split; [by constructor|]. split; [done|]. cbn. by eapply cs_calls_app.
Qed.

Lemma sound_Sync v : well_formed v -> sound v Sync.
Proof.
  intros Hwf w w' v' E. apply bind_inv in E as (w1 & ss & E & Er). injection Er as <- <-.
  destruct (map_sync_calls v _ _ _ _ Hwf E) as (js & Hjs & -> & Hc).
  pose proof (wf_streams v Hwf) as Hs. split.
  - apply wf_with_streams; [done|]. clear E Hc. revert Hs.
    induction Hjs as [|s i l js Hi Hjs IH]; intros Hs; [constructor|].
    apply Forall_cons in Hs as [Hs1 Hs2]. cbn. constructor; [|by apply IH].
    apply moved_ok; [done|]. by eapply int_of_double_int32.
  - exists (ASync js), (concat (zip_with (g_move (abs v)) (route_of <$> streams v) js)).
    split; [by exists js|]. split; [|done]. cbn. unfold g_with_streams, abs. cbn. f_equal. f_equal.
    clear E Hc Hs. induction Hjs; cbn; [done|]. by f_equal.
Qed.

(** ** Compensation *)

Lemma attach_pipes_same {A} (f : option BasePipe -> A) k m ps b :
  (forall p, f (attached k <$> p) = f p) -> f (attach_pipes k m ps !! b) = f (m !! b).
Proof.
  intros Hf. revert m. induction ps as [|a ps IH]; intros m; [done|]. cbn.
  fold (attach_pipes k (alter (attached k) a m) ps). rewrite IH.
  destruct (decide (a = b)) as [->|Hne]; [by rewrite lookup_alter_eq, Hf | by rewrite lookup_alter_ne].
Qed.

Lemma attach_alive v k ps a :
  alive (with_pipes v (attach_pipes k (pipes v) ps)) a <-> alive v a.
Proof.
  unfold alive. cbn [pipes with_pipes].
  pose proof (attach_pipes_same (fun o => bool_decide (is_Some o)) k (pipes v) ps a) as H.
  rewrite <- (bool_decide_spec (is_Some (pipes v !! a))), <- H, bool_decide_spec; [done|].
  intros p. apply bool_decide_ext. by rewrite fmap_is_Some.
Qed.

Lemma attach_ends k m ps a : pipe_ends (attach_pipes k m ps) a = pipe_ends m a.
Proof.
  apply (attach_pipes_same (fun o => match o with Some p => (pipe_source p, pipe_input p) | None => (0, 0) end)).
  by intros [].
Qed.

Lemma wf_attached v k : well_formed v -> well_formed (with_pipes v (attach_pipes k (pipes v) (pipelines v))).
Proof.
  intros [H1 H2 H3 H4 H5]. constructor; [| |done| |done].
  - eapply Forall_impl; [exact H1|]. intros a. by apply attach_alive.
  - eapply Forall_impl; [exact H2|]. intros a. by apply attach_alive.
  - intros a Ha. apply H4. by eapply attach_alive.
Qed.

Lemma ends_of_alive m ps :
  Forall (fun a => is_Some (m !! a)) ps -> ends_of m ps = pipe_ends m <$> ps.
Proof.
  induction 1 as [|a ps [p Hp] _ IH]; [done|]. unfold ends_of, pipe_ends in *. cbn. by rewrite Hp, <- IH.
Qed.

Lemma sound_Compensate v :
  well_formed v -> Z.of_nat (numCameras v) <= 2 ^ 15 -> sound v Compensate.
Proof.
  intros Hwf Hlen w w' v' E. cbn [perform] in E. unfold server_of in E.
  pose proof (compensate_eq v w (wf_listed v Hwf) Hlen) as H. cbn [means].
  destruct (list_find _ (cameras v)) as [[k cam]|] eqn:Ef.
  - apply list_find_Some in Ef as (Hk & _ & _). pose proof (lookup_lt_Some _ _ _ Hk) as Hlt.
    cbv zeta in H. destruct H as (w1 & E1 & C1). rewrite (bind_ok _ _ _ _ _ E1) in E.
    injection E as <- <-. cbn [fst fmap option_fmap option_map].
    set (i := if (0 <? numPipelines v)%nat then 1 else - (Z.of_nat k + 1)) in *.
    split.
    + apply wf_with_streams; [by apply wf_attached|]. apply Forall_fmap.
      eapply Forall_impl; [apply (wf_streams v Hwf)|]. intros s Hs. apply moved_ok; [done|].
      unfold i, int32, numCameras in *. destruct (0 <? _)%nat; lia.
    + exists (AAttach (Some k)),
        (((fun p => (p.2, m_handle cam)) <$> (pipe_ends (pipes v) <$> pipelines v)) ++
         concat ((fun s => g_move (abs v) (route_of s) i) <$> streams v)).
      split; [done|]. split.
      * cbn [act]. assert (Hi : match g_pipes (abs v) with [] => - (Z.of_nat k + 1) | _ => 1 end = i).
        { unfold i, numPipelines. cbn. by destruct (pipelines v). }
        rewrite Hi. cbn [g_cameras abs g_streams g_pipes]. rewrite list_lookup_fmap, Hk. cbn [fmap option_fmap option_map default from_option].
        rewrite <- !list_fmap_compose. f_equal.
        unfold g_with_streams, abs. cbn. f_equal.
        -- apply list_fmap_ext. intros j a _. symmetry. apply attach_ends.
        -- by rewrite <- !list_fmap_compose.
      * rewrite C1, <- (ends_of_alive _ _ (wf_listed v Hwf)).
        eapply cs_calls_app; [apply attach_calls | by apply select_all_calls].
  - destruct H as (w1 & E1 & C1 & _). rewrite (bind_ok _ _ _ _ _ E1) in E. injection E as <- <-.
    split; [done|]. exists (AAttach None), []. split; [done|]. split; [done|]. rewrite C1. constructor.
Qed.

(** ** All operations *)

Lemma every_op_sound v o : well_formed v -> allowed v o -> sound v o.
Proof.
  intros Hwf Ha. destruct o; cbn [allowed] in Ha.
  - by apply sound_Construct.
  - by apply sound_AddCamera.
  - by apply sound_AddCameras.
  - by apply sound_SetCameras.
  - by apply sound_AddPipelineOf.
  - by apply sound_AddPipeline.
  - by apply sound_AddPipelines.
  - by apply sound_AddPipelinesOf.
  - by apply sound_SetPipelinesOf.
  - by apply sound_SetPipelines.
  - eapply sound_stream; [done | reflexivity | apply makes_named | by exists 0 | intros h w _; by exists h].
  - eapply sound_stream; [done | reflexivity | apply makes_named | by exists 0 | intros h w _; by exists h].
  - eapply sound_stream; [done | reflexivity | apply makes_named | by exists 0 | intros h0 w _; by exists h0].
  - eapply sound_stream; [done | reflexivity | apply makes_server | by eexists | by intros h0 w <-].
  - eapply (sound_streams v _ _ (replicate n (fun _ => True)) (fun hs => length hs = n));
      [done | reflexivity | | | by exists (replicate n 0); rewrite length_replicate | intros ks w Hks; by exists ks].
    + clear. induction n; cbn; constructor; [intros v; apply makes_named | done].
    + intros hs H%Forall2_length. by rewrite length_replicate in H.
  - eapply (sound_streams v _ _ (map (fun _ => fun _ => True) names) (fun hs => length hs = length names));
      [done | reflexivity | | apply Forall2_True | by exists (map (fun _ => 0) names); rewrite length_map | intros ks w Hks; by exists ks].
    clear. induction names; cbn; constructor; [intros v; apply makes_named | done].
  - eapply (sound_streams v _ _ (map (fun _ => fun _ => True) l) (fun hs => length hs = length l));
      [done | reflexivity | | apply Forall2_True | by exists (map (fun _ => 0) l); rewrite length_map | intros ks w Hks; by exists ks].
    clear. induction l; cbn; constructor; [intros v; apply makes_named | done].
  - eapply (sound_streams v _ _ (map eq hs) (eq hs));
      [done | reflexivity | | | by exists hs | by intros hs' w <-].
    + clear. induction hs; cbn; constructor; [intros v; apply makes_server | done].
    + clear. intros hs' H. induction hs as [|h hs IH] in hs', H |- *; inversion H; subst; f_equal; auto.
  - apply sound_Select; [done | apply Ha].
  - by apply sound_Sync.
  - by apply sound_Compensate.
  - intros w w' v' [= <- <-]. split; [by apply wf_with_running|].
    exists (AFrozen b), []. split; [done|]. split; [done|]. constructor.
Qed.

Lemma first_well_formed (w w' : world C T) v : VisionServer_new w = (w', Ok v) -> well_formed v.
Proof.
  intros E. assert (v = mkServer [] [] [] [] false false ∅ 0 0) as -> by (by injection E as _ <-).
  constructor; cbn; try constructor. intros a [p Hp]. done.
Qed.

Lemma reachable_wf v : reachable (C := C) (T := T) v -> well_formed v.
Proof.
  induction 1 as [w w' v E | v o w w' v' _ IH Ha E]; [by eapply first_well_formed|].
  by apply (every_op_sound v o IH Ha w w' v' E).
Qed.

(** [setPipelines] destroys the pipelines the server owns, listed again or not. *)
Lemma setPipelines_frees v ps a (w : world C T) :
  isRunning v = false -> a ∈ ps -> a ∈ heap_allocated v ->
  exists w' v', perform v (SetPipelines ps) w = (w', Ok v') /\ a ∈ pipelines v' /\ ~ alive v' a.
Proof.
  intros Hr Hps Hh. cbn [perform]. unfold server_of, setPipelines. rewrite Hr. cbn [negb].
  do 2 eexists. split; [reflexivity|]. split; [exact Hps|].
  intros [p Hp]. change (foldr delete (pipes v) (heap_allocated v) !! a = Some p) in Hp.
  revert Hp. clear Hps.
  induction (heap_allocated v) as [|b l IH]; [by apply elem_of_nil in Hh|]. cbn [foldr].
  destruct (decide (a = b)) as [->|Hne]; [by rewrite lookup_delete_eq|].
  rewrite lookup_delete_ne by congruence. apply IH. by apply elem_of_cons in Hh as [?|?].
Qed.

(** C15. Every server that a program reaches by operations that return, as long as
    it uses them as [allowed] says - above all, the pointers it passes are to
    pipelines that exist and that [setPipelines] is not about to destroy -, and whatever happens
    in the world between them, is well formed: listed and owned pipelines exist
    and none is owned twice.  So following a listed pipeline or any stream's index
    is never undefined.  The condition is needed: on every such server that is not
    running, [setPipelines] with a pipeline the server owns returns normally and
    leaves a listed pipeline that does not exist. *)
Theorem reachable_well_formed v :
  reachable (C := C) (T := T) v ->
  well_formed v /\
  (forall s i (w : world C T), exists w', route v s i w = (w', Ok tt) /\
    w_cs w' = set_source_cs (server_handle s) (source_of v i) (w_cs w)) /\
  forall ps a (w : world C T), isRunning v = false -> a ∈ ps -> a ∈ heap_allocated v ->
    exists w' v', perform v (SetPipelines ps) w = (w', Ok v') /\ a ∈ pipelines v' /\ ~ alive v' a.
Proof.
  intros Hr. pose proof (reachable_wf v Hr) as Hwf. split; [done|]. split.
  - intros s i w. rewrite (route_eq v s i w (wf_listed v Hwf)). by eexists.
  - intros ps a w. apply setPipelines_frees.
Qed.

(** C9. The server implements the abstract registry: each operation, on any
    reachable server, changes the abstract registry as its action does, and
    the connections it makes in the camera library are exactly that action's,
    in its order - none but for selecting, synchronising and compensating.  This is
    about allowed operations that return; [addPipelines<...>()] does so only when
    it is refused. *)
Theorem server_refines_registry v o (w w' : world C T) v' :
  reachable (C := C) (T := T) v -> allowed v o -> perform v o w = (w', Ok v') ->
  exists a l, means v w o a /\ act a (abs v) = (abs v', l) /\ cs_calls (w_cs w) l (w_cs w').
Proof.
  intros Hr Ha E. by apply (every_op_sound v o (reachable_wf v Hr) Ha w w' v' E).
Qed.

End Proofs.

(** * A concrete run *)

#[local] Existing Instance doubling.

(** The server after [o], in the sample world of two cameras. *)
Definition performed (v : VisionServer) (o : Op (C := sim_cs) (T := sim_nt)) : VisionServer :=
  match perform v o sample_world with (_, Ok v') => v' | _ => v end.

Definition first_server : VisionServer := mkServer [] [] [] [] false false ∅ 0 0.
Definition with_camera : VisionServer := performed first_server (AddCamera (sample_cam 2)).
Definition with_own_pipe : VisionServer := performed with_camera (Construct (new_pipe "P")).
Definition with_pipe_listed : VisionServer := performed with_own_pipe (AddPipeline 0).
Definition with_a_stream : VisionServer := performed with_pipe_listed (AddStreamNamed "s").

Lemma performed_eq v o :
  (match perform v o sample_world with (_, Ok _) => true | _ => false end) = true ->
  perform v o sample_world = ((perform v o sample_world).1, Ok (performed v o)).
Proof. unfold performed. by destruct (perform v o sample_world) as [w [v'|e|]]. Qed.

Lemma with_a_stream_reachable : reachable (C := sim_cs) (T := sim_nt) with_a_stream.
Proof.
  refine (reach_next with_pipe_listed (AddStreamNamed "s") _ _ _ _ I (performed_eq _ _ _));
    [|vm_compute; reflexivity].
  refine (reach_next with_own_pipe (AddPipeline 0) _ _ _ _ _ (performed_eq _ _ _));
    [|vm_compute; by eexists | vm_compute; reflexivity].
  refine (reach_next with_camera (Construct (new_pipe "P")) _ _ _ _ (silent_new_pipe "P") (performed_eq _ _ _));
    [|vm_compute; reflexivity].
  refine (reach_next first_server (AddCamera (sample_cam 2)) _ _ _ _ I (performed_eq _ _ _));
    [|vm_compute; reflexivity].
  exact (reach_first sample_world _ _ eq_refl).
Qed.

Definition with_owned_pipe : VisionServer := performed first_server (AddPipelineOf (new_pipe "Q")).

Lemma with_owned_pipe_reachable : reachable (C := sim_cs) (T := sim_nt) with_owned_pipe.
Proof.
  refine (reach_next first_server (AddPipelineOf (new_pipe "Q")) _ _ _ _ (silent_new_pipe "Q") (performed_eq _ _ _));
    [|vm_compute; reflexivity].
  exact (reach_first sample_world _ _ eq_refl).
Qed.

Lemma reachable_well_formed_witness :
  well_formed with_a_stream /\ length (streams with_a_stream) = 1%nat /\ pipelines with_a_stream = [0%nat] /\
  exists w' v', perform with_owned_pipe (SetPipelines [0%nat]) sample_world = (w', Ok v') /\
    0%nat ∈ pipelines v' /\ ~ alive v' 0.
Proof.
  split; [exact (proj1 (reachable_well_formed with_a_stream with_a_stream_reachable))|].
  split; [vm_compute; reflexivity|]. split; [vm_compute; reflexivity|].
  apply (proj2 (proj2 (reachable_well_formed with_owned_pipe with_owned_pipe_reachable)));
    [vm_compute; reflexivity | by left | vm_compute; by left].
Defined.

(** Compensating it connects the pipeline's sink to the camera and the stream to
    the pipeline. *)
Lemma server_refines_registry_witness :
  exists l, act (AAttach (Some 0%nat)) (abs with_a_stream) = (abs (performed with_a_stream Compensate), l) /\
    length l = 2%nat /\ cs_calls sample_cs l (w_cs (perform with_a_stream Compensate sample_world).1).
Proof.
  assert (E : perform with_a_stream Compensate sample_world =
              ((perform with_a_stream Compensate sample_world).1, Ok (performed with_a_stream Compensate)))
    by (apply performed_eq; vm_compute; reflexivity).
  assert (Hal : allowed (C := sim_cs) (T := sim_nt) with_a_stream Compensate)
    by (vm_compute; discriminate).
  destruct (server_refines_registry with_a_stream Compensate sample_world _ _
              with_a_stream_reachable Hal E)
    as (a & l & Hm & Ha & Hc).
  assert (Ea : a = AAttach (Some 0%nat)) by (rewrite Hm; vm_compute; reflexivity).
  rewrite Ea in Ha. exists l. split; [exact Ha|]. split; [|exact Hc].
  apply (f_equal (fun x => length x.2)) in Ha. cbn [snd] in Ha. rewrite <- Ha.
  vm_compute. reflexivity.
Defined.
