(* ===== verification/Runner.v ===== *)
(** The processing loops of [vs2::VisionServer] ([lib-vs/src/core/visionserver2.cpp]):
    [pipelineRunner], [run], [runSingle], [runRaw], and the life cycle of the
    thread started by [runThread], [runSingleThread] and [runRawThread] and ended
    by [stop]. *)

From stdpp Require Import relations.
From S2P Require Import Prelude Floats Json World Instances Camera Server.
Local Open Scope Z_scope.
Local Open Scope vs_scope.

(** * [std::to_string] on floating-point numbers *)

Fixpoint decimal_Z (fuel : nat) (z : Z) : string :=
  match fuel with
  | O => EmptyString
  | S f => if z <? 10 then digit (Z.to_nat z)
           else decimal_Z f (z / 10) +:+ digit (Z.to_nat (z mod 10))
  end.
Definition show_nonneg (z : Z) : string := decimal_Z (S (Z.to_nat (Z.log2 z))) z.

(** Nearest integer to [a / b], ties to even. *)
Definition div_half_even (a b : Z) : Z :=
  let q := a / b in
  let r := 2 * (a mod b) in
  if r <? b then q else if b <? r then q + 1 else if Z.even q then q else q + 1.

(** The six decimals of the format. *)
Definition six_digits (z : Z) : string :=
  fold_right (fun k s => digit (Z.to_nat ((z / 10 ^ k) mod 10)) +:+ s) EmptyString [5; 4; 3; 2; 1; 0].

Definition show_double (x : double) : string :=
  match x with
  | S754_zero s => (if s then "-" else "") +:+ "0.000000"
  | S754_infinity s => (if s then "-" else "") +:+ "inf"
  | S754_nan => "nan"
  | S754_finite s m e =>
      let micro := if 0 <=? e then Zpos m * 2 ^ e * 10 ^ 6
                   else div_half_even (Zpos m * 10 ^ 6) (2 ^ (- e)) in
      (if s then "-" else "") +:+ show_nonneg (micro / 10 ^ 6) +:+ "." +:+ six_digits (micro mod 10 ^ 6)
  end.

(** * Measurements of a turn *)

Definition billion : double := double_of_Z 1000000000.

(** [std::chrono::duration<double>(d).count()] of nanoseconds. *)
Definition seconds (ns : Z) : double := ddiv (double_of_Z ns) billion.
Definition millis (s : double) : double := dmul s (double_of_Z 1000).

(** The variables that live across the turns of a loop. *)
Record Meter := mkMeter {
  fps : double;
  init_time : double;
  proc_time : double;
  out_time : double;
  active_time : double;
  last : Z;
  fps_cap : double
}.

Definition first_meter (cap : double) : Meter :=
  mkMeter (double_of_Z 0) (double_of_Z 0) (double_of_Z 0) (double_of_Z 0) (double_of_Z 1) 0 cap.

Section Runner.

Context {C T : Type} `{CS : CsCore C} `{NT : Tables T}.
Abbreviation prog := (M C T).

(** Drawing text on a frame (the vision library's), the pipelines' virtual
    methods, and the number that the address of [numPipelines] converts to. *)
Context (putText : Z -> string -> Z * Z -> Z).
Context (pipe_init pipe_close : nat -> prog unit) (pipe_process : nat -> Z -> prog Z).
Context (numPipelines_address : Z).

(** What happens around a turn: what other threads and clients did before it,
    the clock when it is read, and the frame if the sink delivers one. *)
Record Turn := mkTurn {
  others : world C T -> world C T;
  beg_frame : Z;
  beg_proc : Z;
  end_proc : Z;
  end_frame : Z;
  grabbed : option Z
}.

Definition before_turn (t : Turn) : prog unit := fun w => (others t w, Ok tt).

Definition get_bool (table key : string) : prog bool :=
  ask_nt (nt_GetBoolean (entry_path table key) false).
Definition put_double (table key : string) (x : double) : prog unit :=
  on_nt (nt_SetDouble (entry_path table key) x).

(** The lines drawn on a frame, by verbosity. *)
Definition draw_stats (m : Meter) (verbosity frame : Z) : Z :=
  let frame := if 0 <? verbosity then putText frame (show_double (fps m)) (5, 20) else frame in
  let frame := if 1 <? verbosity then
                 putText frame ("Active: " +:+ show_double (millis (active_time m)) +:+ "ms") (5, 45)
               else frame in
  if 2 <? verbosity then
    let frame := putText frame ("Init: " +:+ show_double (millis (init_time m)) +:+ "ms") (5, 70) in
    let frame := putText frame ("Process: " +:+ show_double (millis (proc_time m)) +:+ "ms") (5, 95) in
    putText frame ("Output: " +:+ show_double (millis (out_time m)) +:+ "ms") (5, 120)
  else frame.

(** Process the frame the sink delivers when processing is enabled; the result
    says whether there was one. *)
Definition process_frame (m : Meter) (table : string) (a : nat) (p : BasePipe) (t : Turn) : prog bool :=
  let* enabled := get_bool table "Enable Processing" in
  match enabled, grabbed t with
  | true, Some frame =>
      let* frame := pipe_process a frame in
      let* verbosity := get_int table "Statistics Verbosity" in
      on_cs (cs_PutFrame (pipe_source p) (draw_stats m verbosity frame)) ;*
      ret true
  | _, _ => ret false
  end.

(** The clock readings: one for all when nothing was processed. *)
Definition measure (m : Meter) (t : Turn) (done : bool) : Meter :=
  let ep := if done then end_proc t else beg_proc t in
  let ef := if done then end_frame t else beg_proc t in
  let init := seconds (beg_proc t - beg_frame t) in
  let proc := seconds (ep - beg_proc t) in
  let out := seconds (ef - ep) in
  let full := seconds (beg_frame t - last m) in
  mkMeter (to_float (ddiv (double_of_Z 1) full)) init proc out (dadd (dadd init proc) out)
    (last m) (fps_cap m).

Definition publish_stats (table : string) (m : Meter) : prog unit :=
  let stats := entry_path table "stats" in
  put_double stats "FPS: " (fps m) ;*
  put_double stats "Active time(ms): " (millis (active_time m)) ;*
  put_double stats "Init time(ms): " (millis (init_time m)) ;*
  put_double stats "Process time(ms): " (millis (proc_time m)) ;*
  put_double stats "Output time(ms): " (millis (out_time m)).

(** [(uint64_t)(1E9 / fps_cap)]. *)
Definition period (cap : double) : prog Z :=
  lift (of_option (uint64_of_double (ddiv billion cap))).

(** Read the frame rate limit and sleep for the rest of the period. *)
Definition pace (table : string) (m : Meter) (t : Turn) : prog Meter :=
  let* x := ask_nt (nt_GetDouble (entry_path table "Max FPS") (fps_cap m)) in
  let cap := to_float x in
  period cap ;*
  ret (mkMeter (fps m) (init_time m) (proc_time m) (out_time m) (active_time m) (beg_frame t) cap).

(** ** One thread per pipeline *)

Record RunnerState := mkRunner { r_idx : Z; r_meter : Meter }.

Definition pipelineRunner_begin (a : nat) (p : BasePipe) (cap : double) : prog RunnerState :=
  put_boolean (pipe_table p) "Enable Processing" true ;*
  put_number (pipe_table p) "Source Index" 1 ;*
  put_number (pipe_table p) "Statistics Verbosity" 0 ;*
  put_double (pipe_table p) "Max FPS" cap ;*
  pipe_init a ;*
  ret (mkRunner 1 (first_meter cap)).

(** A changed index selects camera [n], or for [-n] pipeline [n]; the lower bound
    is computed from the address of [numPipelines]. *)
Definition runner_source (v : VisionServer) (a : nat) (p : BasePipe) (idx : Z) : prog VisionServer :=
  if (0 <? idx) && (idx <=? Z.of_nat (numCameras v)) then
    let* cam := vec_at (cameras v) (idx - 1) in
    let* p1 := setCamera p (camera_store v, Z.to_nat (idx - 1)) cam in
    ret (with_pipe v a p1)
  else if (idx <? 0) && (- numPipelines_address <=? idx) then
    let* b := vec_at (pipelines v) (- idx - 1) in
    let* q := deref v b in
    let* p1 := setPipeline p q in
    ret (with_pipe v a p1)
  else ret v.

Definition runner_select (v : VisionServer) (a : nat) (p : BasePipe) (idx : Z)
    : prog (VisionServer * Z) :=
  let* n := get_int (pipe_table p) "Source Index" in
  if negb (n =? idx) then let* v1 := runner_source v a p n in ret (v1, n)
  else ret (v, idx).

Definition pipelineRunner_turn (v : VisionServer) (a : nat) (s : RunnerState) (t : Turn)
    : prog (VisionServer * RunnerState) :=
  before_turn t ;*
  let* p := deref v a in
  let* r := runner_select v a p (r_idx s) in
  let* done := process_frame (r_meter s) (pipe_table p) a p t in
  let m := measure (r_meter s) t done in
  publish_stats (pipe_table p) m ;*
  let* m := pace (pipe_table p) m t in
  ret (r.1, mkRunner r.2 m).

(** The whole thread: the turns whose check of [isRunning] succeeded, then the
    end of the loop. *)
Fixpoint runner_turns (v : VisionServer) (a : nat) (s : RunnerState) (ts : list Turn)
    : prog (VisionServer * RunnerState) :=
  match ts with
  | [] => ret (v, s)
  | t :: ts' =>
      let* r := pipelineRunner_turn v a s t in runner_turns r.1 a r.2 ts'
  end.

Definition pipelineRunner (v : VisionServer) (a : nat) (cap : double) (ts : list Turn)
    : prog VisionServer :=
  let* p := deref v a in
  let* s := pipelineRunner_begin a p cap in
  let* r := runner_turns v a s ts in
  pipe_close a ;* ret r.1.

(** ** [run]: the streams' loop beside the pipelines' threads *)

(** What the threads do, in the order they do it: a thread begins, makes a turn,
    the main loop makes a turn, another thread or client acts.  Turns of
    different threads are not split. *)
Inductive Event :=
| Began (i : nat)
| RunnerTurn (i : nat) (t : Turn)
| MainTurn
| Elsewhere (f : world C T -> world C T).

Record Running := mkRunning { r_server : VisionServer; r_states : gmap nat RunnerState }.

(** The thread of the pipeline at position [i] begins. *)
Definition begin_runner (cap : double) (r : Running) (i : nat) : prog Running :=
  let* a := vec_at (pipelines (r_server r)) (Z.of_nat i) in
  let* p := deref (r_server r) a in
  let* s := pipelineRunner_begin a p cap in
  ret (mkRunning (r_server r) (<[i := s]> (r_states r))).

Definition run_event (cap : double) (r : Running) (e : Event) : prog Running :=
  match e with
  | Began i => if decide (r_states r !! i = None) then begin_runner cap r i else ret r
  | RunnerTurn i t =>
      match r_states r !! i with
      | None => ret r
      | Some s =>
          let* a := vec_at (pipelines (r_server r)) (Z.of_nat i) in
          let* x := pipelineRunner_turn (r_server r) a s t in
          ret (mkRunning x.1 (<[i := x.2]> (r_states r)))
      end
  | MainTurn =>
      let* v := sync_all (r_server r) in
      on_nt nt_Flush ;*
      ret (mkRunning v (r_states r))
  | Elsewhere f => fun w => (f w, Ok r)
  end.

Fixpoint run_events (cap : double) (r : Running) (es : list Event) : prog Running :=
  match es with
  | [] => ret r
  | e :: es' => let* r1 := run_event cap r e in run_events cap r1 es'
  end.

(** A thread that had not begun yet still does; then it leaves its loop. *)
Fixpoint join_runners (cap : double) (r : Running) (ix : list nat) : prog Running :=
  match ix with
  | [] => ret r
  | i :: ix' =>
      let* r1 := (if decide (r_states r !! i = None) then begin_runner cap r i else ret r) in
      let* a := vec_at (pipelines (r_server r1)) (Z.of_nat i) in
      pipe_close a ;*
      join_runners cap r1 ix'
  end.

(** [es] is what happens until [stop] clears the flag. *)
Definition run (v : VisionServer) (cap : double) (es : list Event) : prog (VisionServer * bool) :=
  if negb (isRunning v) && (0 <? numPipelines v)%nat then
    let v1 := with_running v true in
    put_string server_table "Status" "Running Multithreaded" ;*
    period cap ;*
    let* r := run_events cap (mkRunning v1 ∅) es in
    let* r := join_runners cap r (seq 0 (numPipelines v)) in
    put_string server_table "Status" "Offline" ;*
    ret (with_running (r_server r) false, true)
  else ret (v, false).

(** ** [runSingle]: one loop for the selected pipeline *)

Record SingleState := mkSingle { c_idx : Z; p_idx : Z; s_meter : Meter }.

(** [vector::operator\[\]]: an index outside is undefined. *)
Definition vec_index {A} (l : list A) (i : Z) : prog A :=
  lift (of_option (if i <? 0 then None else l !! Z.to_nat i)).

Definition current_pipe (v : VisionServer) (i : Z) : prog (nat * BasePipe) :=
  let* a := vec_index (pipelines v) i in
  let* p := deref v a in
  ret (a, p).

Definition single_pipeline (v : VisionServer) (p_idx : Z) : prog (VisionServer * Z) :=
  let* n := get_int server_table "Pipeline Index" in
  if negb (n =? p_idx + 1) && (0 <? n) && (n <=? Z.of_nat (numPipelines v)) then
    let* a := vec_index (pipelines v) p_idx in
    pipe_close a ;*
    let* b := vec_index (pipelines v) (n - 1) in
    pipe_init b ;*
    let* ss := map_streams (fun s => setSourceIdx v s n) (streams v) in
    ret (with_streams v ss, n - 1)
  else ret (v, p_idx).

(** The camera is taken at [c_idx], not at [c_idx - 1]. *)
Definition single_camera (v : VisionServer) (p_idx c_idx : Z) : prog (VisionServer * Z) :=
  let* n := get_int server_table "Camera Index" in
  if negb (n =? c_idx) then
    if (0 <? n) && (n <=? Z.of_nat (numCameras v)) then
      let* ap := current_pipe v p_idx in
      let* cam := vec_index (cameras v) n in
      let* p1 := setCamera ap.2 (camera_store v, Z.to_nat n) cam in
      ret (with_pipe v ap.1 p1, n)
    else ret (v, n)
  else ret (v, c_idx).

Definition single_turn (v : VisionServer) (s : SingleState) (t : Turn)
    : prog (VisionServer * SingleState) :=
  before_turn t ;*
  let* vp := single_pipeline v (p_idx s) in
  let* vc := single_camera vp.1 vp.2 (c_idx s) in
  let* v1 := sync_all vc.1 in
  let* ap := current_pipe v1 vp.2 in
  let* done := process_frame (s_meter s) server_table ap.1 ap.2 t in
  let m := measure (s_meter s) t done in
  publish_stats server_table m ;*
  on_nt nt_Flush ;*
  let* m := pace server_table m t in
  ret (v1, mkSingle vc.2 vp.2 m).

Fixpoint single_turns (v : VisionServer) (s : SingleState) (ts : list Turn)
    : prog (VisionServer * SingleState) :=
  match ts with
  | [] => ret (v, s)
  | t :: ts' => let* r := single_turn v s t in single_turns r.1 r.2 ts'
  end.

Definition runSingle (v : VisionServer) (cap : double) (ts : list Turn) : prog (VisionServer * bool) :=
  if negb (isRunning v) && (0 <? numPipelines v)%nat then
    let v1 := with_running v true in
    put_string server_table "Status" "Running Singlethreaded" ;*
    put_boolean server_table "Enable Processing" true ;*
    put_number server_table "Camera Index" 1 ;*
    put_number server_table "Pipeline Index" 1 ;*
    put_number server_table "Statistics Verbosity" 0 ;*
    put_double server_table "Max FPS" cap ;*
    let* a := vec_index (pipelines v) 0 in
    pipe_init a ;*
    let* r := single_turns v1 (mkSingle 0 0 (first_meter cap)) ts in
    let* b := vec_index (pipelines r.1) (p_idx r.2) in
    pipe_close b ;*
    put_string server_table "Status" "Offline" ;*
    ret (with_running r.1 false, true)
  else ret (v, false).

(** ** [runRaw]: the streams only *)

Fixpoint raw_turns (v : VisionServer) (ts : list Turn) : prog VisionServer :=
  match ts with
  | [] => ret v
  | t :: ts' => before_turn t ;* let* v1 := sync_all v in raw_turns v1 ts'
  end.

Definition runRaw (v : VisionServer) (ts : list Turn) : prog (VisionServer * bool) :=
  if negb (isRunning v) then
    put_string server_table "Status" "Streaming Raw" ;*
    let* v1 := raw_turns (with_running v true) ts in
    put_string server_table "Status" "Offline" ;*
    ret (with_running v1 false, true)
  else ret (v, false).

End Runner.

(** * The thread of [runThread] and [stop] *)

(** [isRunning] is read and set without a lock: the life of the flag, of the
    head thread, of the threads it starts and of the thread that controls the
    server, step by step. *)
Inductive loop_kind := Multi | Single | Raw.

(** Where the head thread is: before its test of the flag, after it, in [run]'s
    loop that starts the threads (those of the pipelines from [i] on are still to
    come), before the test of its loop, in the loop's body, in [run]'s loop that
    joins the threads (those before [i] are joined), and at its end. *)
Inductive head_state :=
| Spawned (k : loop_kind) | Checked (k : loop_kind) | Launching (i : nat)
| Looping (k : loop_kind) | Turning (k : loop_kind) | Leaving (k : loop_kind) (i : nat) | Finished.

(** Where the thread of a pipeline is: before its loop, at the loop's test, in
    its body, behind the loop, and at its end. *)
Inductive runner_state := Beginning | Testing | Processing | Closing | Ended.

(** Where [stop] is: not called, the flag cleared, waiting for the head. *)
Inductive control := Idle | Cleared | Joining.

(** [pipes_at] is the number of pipelines, which stays as it is. *)
Record Life := mkLife {
  flag : bool; head : option head_state; control_at : control; pipes_at : nat; runners : list runner_state }.

#[export] Instance loop_kind_eq : EqDecision loop_kind.
Proof. solve_decision. Defined.
#[export] Instance head_state_eq : EqDecision head_state.
Proof. solve_decision. Defined.

Definition set_head (s : Life) (h : head_state) : Life :=
  mkLife (flag s) (Some h) (control_at s) (pipes_at s) (runners s).
Definition set_flag (s : Life) (b : bool) : Life :=
  mkLife b (head s) (control_at s) (pipes_at s) (runners s).
Definition set_runners (s : Life) (rs : list runner_state) : Life :=
  mkLife (flag s) (head s) (control_at s) (pipes_at s) rs.

Definition joinable (s : Life) : bool := match head s with Some _ => true | None => false end.

(** [runThread], [runSingleThread], [runRawThread]. *)
Definition start_thread (k : loop_kind) (s : Life) : Life * bool :=
  if negb (flag s) && negb (joinable s) then (set_head s (Spawned k), true) else (s, false).
Definition runThread : Life -> Life * bool := start_thread Multi.
Definition runSingleThread : Life -> Life * bool := start_thread Single.
Definition runRawThread : Life -> Life * bool := start_thread Raw.

(** The test at the beginning of [run], [runSingle] and [runRaw]. *)
Definition may_enter (k : loop_kind) (s : Life) : bool :=
  negb (flag s) && match k with Raw => true | _ => (0 <? pipes_at s)%nat end.

(** One step of the head thread.  It sets the flag; [run] then starts a thread
    for every pipeline, and behind its loop it joins them in order, where it
    waits for a thread that has not ended.  Its vector of threads ends with it. *)
Definition head_step (s : Life) : option Life :=
  match head s with
  | Some (Spawned k) => Some (set_head s (if may_enter k s then Checked k else Finished))
  | Some (Checked k) =>
      Some (set_head (set_flag s true) match k with Multi => Launching 0 | _ => Looping k end)
  | Some (Launching i) =>
      Some (if (i <? pipes_at s)%nat then set_head (set_runners s (runners s ++ [Beginning])) (Launching (S i))
            else set_head s (Looping Multi))
  | Some (Looping k) => Some (set_head s (if flag s then Turning k else Leaving k 0))
  | Some (Turning k) => Some (set_head s (Looping k))
  | Some (Leaving k i) =>
      match runners s !! i with
      | Some Ended => Some (set_head s (Leaving k (S i)))
      | Some _ => None
      | None => Some (set_head (set_runners s []) Finished)
      end
  | Some Finished | None => None
  end.

(** One step of the thread of a pipeline, given the flag. *)
Definition runner_step (running : bool) (r : runner_state) : option runner_state :=
  match r with
  | Beginning => Some Testing
  | Testing => Some (if running then Processing else Closing)
  | Processing => Some Testing
  | Closing => Some Ended
  | Ended => None
  end.

(** [stop]: clear the flag, then join the head if there is one. *)
Definition stop_begin (s : Life) : Life := mkLife false (head s) Cleared (pipes_at s) (runners s).
Definition stop_test (s : Life) : Life :=
  mkLife (flag s) (head s) (if joinable s then Joining else Idle) (pipes_at s) (runners s).
Definition stop_end (s : Life) : Life := mkLife (flag s) None Idle (pipes_at s) (runners s).

Inductive life_step : Life -> Life -> Prop :=
| step_start k s : control_at s = Idle -> life_step s (start_thread k s).1
| step_head s s' : head_step s = Some s' -> life_step s s'
| step_runner s i r r' :
    runners s !! i = Some r -> runner_step (flag s) r = Some r' -> life_step s (set_runners s (<[i := r']> (runners s)))
| step_stop s : control_at s = Idle -> life_step s (stop_begin s)
| step_test s : control_at s = Cleared -> life_step s (stop_test s)
| step_join s : control_at s = Joining -> head s = Some Finished -> life_step s (stop_end s).

Definition life_init (pipes : nat) : Life := mkLife false None Idle pipes [].

(** On every path a state satisfying [P] is reached. *)
Inductive eventually (P : Life -> Prop) (s : Life) : Prop :=
| ev_now : P s -> eventually P s
| ev_later : (exists s', life_step s s') -> (forall s', life_step s s' -> eventually P s') ->
             eventually P s.

(** * Properties *)

(** ** The loops *)

Section Loops.

Context {C T : Type} `{CS : CsCore C} `{NT : Tables T}.
Abbreviation prog := (M C T).
Context (putText : Z -> string -> Z * Z -> Z).
Context (pipe_init pipe_close : nat -> prog unit) (pipe_process : nat -> Z -> prog Z).
Context (numPipelines_address : Z).

Definition with_cs (w : world C T) (c : C) : world C T := World c (w_nt w) (w_bufs w) (w_out w).

Lemma get_int_eq table key n (w : world C T) :
  int_of_double (nt_GetDouble (entry_path table key) (double_of_Z 0) (w_nt w)) = Some n ->
  get_int table key w = (w, Ok n).
Proof. intros H. unfold get_int, bind, ask_nt, lift, of_option. by rewrite H. Qed.

Lemma vec_at_inside {A} (l : list A) i a (w : world C T) :
  0 <= i -> l !! Z.to_nat i = Some a -> vec_at l i w = (w, Ok a).
Proof. intros Hi E. unfold vec_at. destruct (Z.ltb_spec i 0); [lia|]. by rewrite E. Qed.

Lemma setCamera_eq p i cam (w : world C T) :
  setCamera p i cam w =
  (with_cs w (attach_cs (m_handle cam) (w_cs w) (pipe_source p, pipe_input p)), Ok (attached i p)).
Proof. done. Qed.

(** The pipeline [p] attached to the pipeline [q]: it takes over the video mode
    of [q] and its pointers to a camera's matrices, and reads its source. *)
Definition attached_to (q p : BasePipe) : BasePipe :=
  mkPipe (pipe_name p) (pipe_source p) (pipe_input p) (src_matrix q) (src_distort q) (pipe_table p).

Lemma setPipeline_eq p q (w : world C T) :
  setPipeline p q w =
  (with_cs w (cs_SetSource (pipe_input p) (pipe_source q)
                (cs_SetVideoMode (pipe_source p) (cs_GetVideoMode (pipe_source q) (w_cs w)) (w_cs w))),
   Ok (attached_to q p)).
Proof. done. Qed.

Lemma bind_ok_ret {A B} (m : prog A) (b : B) x (w w' : world C T) :
  m w = (w', Ok x) -> (let* y := m in ret (y, b)) w = (w', Ok (x, b)).
Proof. intros E. by rewrite (bind_ok _ _ _ _ _ E). Qed.

Lemma runner_source_camera v a p n cam (w : world C T) :
  0 < n -> cameras v !! Z.to_nat (n - 1) = Some cam ->
  runner_source numPipelines_address v a p n w =
    (with_cs w (attach_cs (m_handle cam) (w_cs w) (pipe_source p, pipe_input p)),
     Ok (with_pipe v a (attached (camera_store v, Z.to_nat (n - 1)) p))).
Proof.
  intros Hpos Hcam. pose proof (lookup_lt_Some _ _ _ Hcam) as Hlt. unfold runner_source, numCameras.
  destruct (Z.ltb_spec 0 n); [|lia]. destruct (Z.leb_spec n (Z.of_nat (length (cameras v)))); [|lia].
  cbn [andb]. rewrite (bind_ok _ _ w w cam) by (apply vec_at_inside; [lia | done]).
  by rewrite (bind_ok _ _ _ _ _ (setCamera_eq p _ cam w)).
Qed.

Lemma runner_source_negative v a p n (w : world C T) :
  n < 0 -> - numPipelines_address <= n ->
  runner_source numPipelines_address v a p n w =
    (let* b := vec_at (pipelines v) (- n - 1) in
     let* q := deref v b in
     let* p1 := setPipeline p q in
     ret (with_pipe v a p1)) w.
Proof.
  intros Hneg Haddr. unfold runner_source. destruct (Z.ltb_spec 0 n); [lia|].
  destruct (Z.ltb_spec n 0); [|lia]. by destruct (Z.leb_spec (- numPipelines_address) n); [|lia].
Qed.

(** C31. A pipeline's thread follows its "Source Index" entry only when it
    changes (the initial 1 attaches nothing).  A new index [n] within the cameras
    attaches the pipeline to the [n]-th camera with its calibration; 0 and
    indices beyond the cameras are only remembered.  A negative index is compared
    with an address instead of the number of pipelines: one below the negated
    address is only remembered, whether or not there is such a pipeline; any other
    attaches the pipeline to the [-n]-th one, or throws when there are fewer,
    which ends the program as it is not caught in the thread. *)
Theorem runner_select_spec v a p idx n (w : world C T) :
  int_of_double (nt_GetDouble (entry_path (pipe_table p) "Source Index") (double_of_Z 0) (w_nt w)) = Some n ->
  let select := runner_select numPipelines_address v a p idx w in
  (n = idx -> select = (w, Ok (v, idx))) /\
  (n <> idx -> forall cam, 0 < n -> cameras v !! Z.to_nat (n - 1) = Some cam ->
     select = (with_cs w (attach_cs (m_handle cam) (w_cs w) (pipe_source p, pipe_input p)),
               Ok (with_pipe v a (attached (camera_store v, Z.to_nat (n - 1)) p), n))) /\
  (n <> idx -> n = 0 \/ Z.of_nat (numCameras v) < n -> select = (w, Ok (v, n))) /\
  (n <> idx -> n < 0 -> n < - numPipelines_address -> select = (w, Ok (v, n))) /\
  (n <> idx -> n < 0 -> - numPipelines_address <= n -> forall b q,
     pipelines v !! Z.to_nat (- n - 1) = Some b -> pipes v !! b = Some q ->
     select = (with_cs w (cs_SetSource (pipe_input p) (pipe_source q)
                 (cs_SetVideoMode (pipe_source p) (cs_GetVideoMode (pipe_source q) (w_cs w)) (w_cs w))),
               Ok (with_pipe v a (attached_to q p), n))) /\
  (n <> idx -> n < - Z.of_nat (numPipelines v) -> - numPipelines_address <= n ->
     select = (w, Throw StdOutOfRange)).
Proof.
  intros Hn select. unfold select, runner_select. rewrite (bind_ok _ _ _ _ _ (get_int_eq _ _ _ _ Hn)).
  clear select Hn. split; [intros ->; by rewrite Z.eqb_refl|].
  split_and!; intros Hne; rewrite (proj2 (Z.eqb_neq _ _) Hne); cbn [negb].
  - intros cam Hpos Hcam. apply bind_ok_ret. by apply runner_source_camera.
  - intros Hout. apply bind_ok_ret. unfold runner_source.
    destruct (Z.ltb_spec 0 n), (Z.leb_spec n (Z.of_nat (numCameras v))), (Z.ltb_spec n 0);
      cbn [andb]; done || lia.
  - intros Hneg Haddr. apply bind_ok_ret. unfold runner_source.
    destruct (Z.ltb_spec 0 n); [lia|]. cbn [andb].
    destruct (Z.leb_spec (- numPipelines_address) n); [lia|]. by rewrite andb_false_r.
  - intros Hneg Haddr b q Hb Hq. apply bind_ok_ret. rewrite runner_source_negative by done.
    rewrite (bind_ok _ _ w w b) by (apply vec_at_inside; [lia | done]).
    rewrite (bind_ok _ _ w w q) by (unfold deref, lift; by rewrite Hq).
    by rewrite (bind_ok _ _ _ _ _ (setPipeline_eq p q w)).
  - intros Hlow Haddr. unfold bind at 1. rewrite runner_source_negative by lia.
    unfold bind, vec_at. destruct (Z.ltb_spec (- n - 1) 0); [lia|].
    unfold numPipelines in Hlow. by rewrite lookup_ge_None_2 by lia.
Qed.

(** The single loop takes the camera after the one asked for: a new
    "Camera Index" [n] below the number of cameras attaches the current
    pipeline to the camera at position [n], which is number [n + 1], and [n]
    equal to the number of cameras reads outside the vector. *)
Theorem single_camera_off_by_one v i c n a p (w : world C T) :
  int_of_double (nt_GetDouble (entry_path server_table "Camera Index") (double_of_Z 0) (w_nt w)) = Some n ->
  0 <= i -> pipelines v !! Z.to_nat i = Some a -> pipes v !! a = Some p -> n <> c -> 0 < n ->
  (forall cam, cameras v !! Z.to_nat n = Some cam ->
     single_camera v i c w =
       (with_cs w (attach_cs (m_handle cam) (w_cs w) (pipe_source p, pipe_input p)),
        Ok (with_pipe v a (attached (camera_store v, Z.to_nat n) p), n))) /\
  (n = Z.of_nat (numCameras v) -> single_camera v i c w = (w, Undefined)).
Proof.
  intros Hn Hi Ha Hp Hne Hpos.
  unfold single_camera. rewrite (bind_ok _ _ _ _ _ (get_int_eq _ _ _ _ Hn)).
  rewrite (proj2 (Z.eqb_neq _ _) Hne). cbn [negb]. destruct (Z.ltb_spec 0 n); [|lia]. cbn [andb].
  assert (Hcur : current_pipe v i w = (w, Ok (a, p))).
  { unfold current_pipe, vec_index, deref, bind, lift. destruct (Z.ltb_spec i 0); [lia|].
    rewrite Ha. cbn. by rewrite Hp. }
  unfold numCameras. split.
  - intros cam Hcam. pose proof (lookup_lt_Some _ _ _ Hcam).
    destruct (Z.leb_spec n (Z.of_nat (length (cameras v)))); [|lia].
    rewrite (bind_ok _ _ _ _ _ Hcur). rewrite (bind_ok _ _ w w cam).
    + by rewrite (bind_ok _ _ _ _ _ (setCamera_eq p _ cam w)).
    + unfold vec_index. destruct (Z.ltb_spec n 0); [lia|]. by rewrite Hcam.
  - intros ->. rewrite Z.leb_refl, (bind_ok _ _ _ _ _ Hcur). unfold bind, vec_index.
    destruct (Z.ltb_spec (Z.of_nat (length (cameras v))) 0); [lia|].
    by rewrite Nat2Z.id, lookup_ge_None_2.
Qed.

(** A frame rate limit of 0 does not mean "unlimited": passed to [run] or
    written to the "Max FPS" entry, it makes the conversion of the period to an
    integer undefined. *)
Theorem no_frame_rate b v es table m t (w : world C T) :
  isRunning v = false -> (0 < numPipelines v)%nat ->
  nt_GetDouble (entry_path table "Max FPS") (fps_cap m) (w_nt w) = S754_zero b ->
  (exists w', run putText pipe_init pipe_close pipe_process numPipelines_address v (S754_zero b) es w
              = (w', Undefined)) /\
  pace table m t w = (w, Undefined).
Proof.
  intros Hr Hp Hz. split.
  - unfold run. rewrite Hr, (proj2 (Nat.ltb_lt _ _) Hp). cbn [negb andb].
    eexists. erewrite bind_ok by reflexivity. unfold bind. by destruct b.
  - unfold pace, bind, ask_nt. rewrite Hz. by destruct b.
Qed.

(** Nothing else happens before the turn. *)
Definition quiet (t : Turn) : Prop := forall w : world C T, others t w = w.

(** C30. Streaming without processing: however many turns the loop makes while
    the entries stay as they are, the streams end up on the sources the entries
    ask for, and the camera library sees each change once. *)
Theorem raw_turns_follow v idx ts (w : world C T) :
  pipes_alive v -> (forall s, s ∈ streams v -> remote_index (w_nt w) s = Some (idx (stream_table s))) ->
  Forall quiet ts -> ts <> [] ->
  raw_turns v ts w =
    (with_cs w (foldl (fun c s => select_cs (source_of v (idx (stream_table s))) (idx (stream_table s)) c s)
                  (w_cs w) (streams v)),
     Ok (with_streams v ((fun s => with_idx s (idx (stream_table s))) <$> streams v))).
Proof.
  intros Hal Hidx Hq Hne. destruct ts as [|t ts]; [done|]. clear Hne.
  apply Forall_cons in Hq as [Ht Hq]. cbn [raw_turns].
  rewrite (bind_ok _ _ w w tt) by (unfold before_turn; by rewrite Ht).
  rewrite (bind_ok _ _ _ _ _ (sync_all_eq v (fun s => idx (stream_table s)) w Hal Hidx)).
  set (v1 := with_streams v _). set (w1 := World _ _ _ _).
  assert (Hsame : sync_all v1 w1 = (w1, Ok v1)).
  { rewrite (sync_all_eq v1 (fun s => idx (stream_table s)) w1); [|exact Hal|].
    - unfold v1. cbn [streams with_streams]. rewrite <- list_fmap_compose.
      cut (forall l c, foldl (fun c s => select_cs (source_of v (idx (stream_table s))) (idx (stream_table s)) c s) c
                         ((fun s => with_idx s (idx (stream_table s))) <$> l) = c).
      { intros Hc. unfold source_of in *. cbn [cameras pipelines pipes with_streams]. by rewrite Hc. }
      intros l. induction l as [|s l IH]; intros c; [done|]. cbn. unfold select_cs at 2.
      cbn [local_idx with_idx stream_table]. by rewrite Z.eqb_refl, IH.
    - intros s Hs. cbn in Hs. apply list_elem_of_fmap in Hs as (s0 & -> & Hs0).
      exact (Hidx s0 Hs0). }
  change (raw_turns v1 ts w1 = (w1, Ok v1)).
  clearbody v1 w1. induction ts as [|t' ts IH]; [done|].
  apply Forall_cons in Hq as [Ht' Hq]. cbn [raw_turns].
  rewrite (bind_ok _ _ w1 w1 tt) by (unfold before_turn; by rewrite Ht').
  rewrite (bind_ok _ _ _ _ _ Hsame). exact (IH Hq).
Qed.

End Loops.

(** ** Stopping *)

(** The head has set the flag and has not found it cleared. *)
Definition in_loop (h : head_state) : Prop :=
  match h with Launching _ | Looping _ | Turning _ => True | _ => False end.

Ltac head_inside := cbn; intros; eexists; split; [reflexivity | exact I].

(** The running flag is set only while the head thread is in its loop, or about
    to begin it. *)
Theorem running_is_looping n s :
  rtc life_step (life_init n) s -> flag s = true -> exists h, head s = Some h /\ in_loop h.
Proof.
  intros Hr. remember (life_init n) as s0 eqn:E0.
  assert (Hinv : forall s s', life_step s s' ->
            (flag s = true -> exists h, head s = Some h /\ in_loop h) ->
            (flag s' = true -> exists h, head s' = Some h /\ in_loop h)).
  { intros x y Hxy Hx. destruct Hxy as [k x Hc|x y Hh|x i r r' Hi Hs|x Hc|x Hc|x Hc Hh]; cbn; [| |exact Hx|discriminate|exact Hx|].
    - unfold start_thread. destruct (flag x) eqn:Ef; [exact (fun _ => Hx eq_refl)|].
      destruct (joinable x); cbn; congruence.
    - unfold head_step in Hh. destruct (head x) as [h|]; [|discriminate].
      destruct h as [k|k|i|k|k|k i|]; [..|destruct (runners x !! i) as [[]|]|]; try discriminate; injection Hh as <-.
      all: try (intros Hf; destruct (Hx Hf) as (h & [= <-] & []); fail).
      + intros _. destruct k; head_inside.
      + destruct (i <? pipes_at x)%nat; head_inside.
      + destruct (flag x) eqn:Ef; [head_inside | cbn; congruence].
      + head_inside.
    - intros Hf. destruct (Hx Hf) as (h & E & Hl). rewrite Hh in E. by injection E as <-. }
  assert (H0 : flag s0 = true -> exists h, head s0 = Some h /\ in_loop h) by (by subst).
  clear E0. induction Hr as [x|x y z Hxy _ IH]; [exact H0|]. apply IH. by apply (Hinv x).
Qed.

(** While the flag is clear every step brings the threads nearer to their ends. *)
Definition runner_left (r : runner_state) : nat :=
  match r with Ended => 0 | Closing => 1 | Testing => 2 | Processing | Beginning => 3 end.
Definition runners_left (rs : list runner_state) : nat := sum_list_with runner_left rs.

Definition head_left (s : Life) : nat :=
  match head s with
  | None | Some Finished => 0
  | Some (Leaving _ i) => 1 + (length (runners s) - i)
  | Some (Looping _) => 2 + length (runners s)
  | Some (Turning _) => 3 + length (runners s)
  | Some (Launching i) => 3 + length (runners s) + 5 * (pipes_at s - i)
  | Some (Checked _) => 1
  | Some (Spawned _) => 2
  end.

Definition control_left (c : control) : nat := match c with Idle => 0 | Joining => 1 | Cleared => 2 end.
Definition life_left (s : Life) : nat :=
  control_left (control_at s) + head_left s + runners_left (runners s).

Lemma runners_left_step rs i r r' :
  rs !! i = Some r -> runner_step false r = Some r' ->
  (runners_left (<[i := r']> rs) < runners_left rs)%nat.
Proof.
  intros Hi Hs. revert i Hi. unfold runners_left. induction rs as [|x rs IH]; intros [|i] Hi; [done..| |].
  - injection Hi as ->. destruct r; cbn in *; simplify_eq; cbn; lia.
  - specialize (IH i Hi).
    change (runner_left x + sum_list_with runner_left (<[i := r']> rs)
            < runner_left x + sum_list_with runner_left rs)%nat. lia.
Qed.

Lemma runners_left_app rs rs' : runners_left (rs ++ rs') = (runners_left rs + runners_left rs')%nat.
Proof. apply sum_list_with_app. Qed.

#[local] Arguments runners_left : simpl never.

(** Every run that gets smaller as long as [I] holds ends in [P]. *)
Lemma eventually_below (P I : Life -> Prop) (m : Life -> nat) :
  (forall s, I s -> (exists s', life_step s s') /\
     forall s', life_step s s' -> P s' \/ I s' /\ (m s' < m s)%nat) ->
  forall s, I s -> eventually P s.
Proof.
  intros Hstep s. remember (m s) as n eqn:En. revert s En.
  induction n as [n IH] using lt_wf_ind. intros s -> Hs.
  destruct (Hstep s Hs) as [Hex Hall]. apply ev_later; [exact Hex|].
  intros s' Hs'. destruct (Hall s' Hs') as [Hp | [Hi Hlt]]; [by apply ev_now | by eapply IH].
Qed.

(** A turn of a pipeline's thread after the flag was cleared. *)
Lemma life_left_runner s i r r' :
  flag s = false -> runners s !! i = Some r -> runner_step (flag s) r = Some r' ->
  (life_left (set_runners s (<[i := r']> (runners s))) < life_left s)%nat.
Proof.
  intros Hf Hi Hs. rewrite Hf in Hs. pose proof (runners_left_step _ _ _ _ Hi Hs).
  unfold life_left, head_left. cbn [set_runners control_at head runners pipes_at].
  rewrite length_insert. destruct (head s) as [[]|]; lia.
Qed.

(** The head is told to leave its loop: the flag is clear, [stop] is at work, and
    the head is past its own setting of the flag. *)
Definition told_to_stop (s : Life) : Prop :=
  flag s = false /\ (control_at s = Cleared \/ control_at s = Joining) /\
  exists h, head s = Some h /\ forall k, h <> Spawned k /\ h <> Checked k.

Definition stopped (s : Life) : Prop := control_at s = Idle /\ head s = None.

Lemma told_progress s : told_to_stop s -> exists s', life_step s s'.
Proof.
  intros (Hf & [Hc | Hc] & h & Hh & Hne); [eexists; by apply step_test|].
  destruct h as [k|k|i|k|k|k i|]; try (eexists; apply step_head; unfold head_step; by rewrite Hh).
  - destruct (runners s !! i) as [r|] eqn:Hi.
    + destruct r; try (eexists; by eapply step_runner).
      eexists. apply step_head. unfold head_step. by rewrite Hh, Hi.
    + eexists. apply step_head. unfold head_step. by rewrite Hh, Hi.
  - eexists. by apply step_join.
Qed.

Lemma told_head_step s s' :
  told_to_stop s -> head_step s = Some s' -> told_to_stop s' /\ (life_left s' < life_left s)%nat.
Proof.
  intros (Hf & Hc & h & Hh & Hne) Hs. unfold head_step in Hs. rewrite Hh, Hf in Hs.
  unfold told_to_stop, life_left, head_left. rewrite Hh.
  destruct h as [k|k|i|k|k|k i|]; [by destruct (Hne k)|by destruct (Hne k)| | | | |discriminate].
  - injection Hs as <-. destruct (Nat.ltb_spec i (pipes_at s)); cbn.
    + split; [by eauto 10|]. rewrite runners_left_app, length_app. change (runners_left [Beginning]) with 3%nat. cbn. lia.
    + split; [by eauto 10 | lia].
  - injection Hs as <-. cbn. split; [by eauto 10 | lia].
  - injection Hs as <-. cbn. split; [by eauto 10 | lia].
  - destruct (runners s !! i) as [[]|] eqn:Hi; try discriminate; injection Hs as <-; cbn.
    + apply lookup_lt_Some in Hi. split; [by eauto 10 | lia].
    + split; [by eauto 10|]. change (runners_left []) with 0%nat. lia.
Qed.

(** C21. Stopping a running loop returns: once [stop] has cleared the flag of a
    server whose head thread has set it, on every interleaving and whatever the
    number of pipelines, the threads of the pipelines leave their loops, the head
    leaves its own and joins them, and [stop] joins the head. *)
Theorem stop_returns s : told_to_stop s -> eventually stopped s.
Proof.
  apply eventually_below with (m := life_left). clear s. intros s Ht. split; [by apply told_progress|].
  intros s' Hs. destruct Hs as [k s Hc|s s' Hh|s i r r' Hi Hs|s Hc|s Hc|s Hc Hh].
  - destruct Ht as (_ & [] & _); congruence.
  - right. by apply told_head_step.
  - right. split; [exact Ht|]. apply (life_left_runner s i r); [apply Ht | done..].
  - destruct Ht as (_ & [] & _); congruence.
  - right. destruct Ht as (Hf & _ & h & Hh & Hne). unfold stop_test, joinable. rewrite Hh. split.
    + split; [done|]. split; [by right|]. by exists h.
    + unfold life_left, head_left. cbn. rewrite Hc, Hh. cbn. destruct h; lia.
  - by left.
Qed.

(** A stop that came too early: the head will still set the flag, or has set it. *)
Definition too_early (s : Life) : Prop :=
  (exists k, head s = Some (Spawned k) /\ may_enter k s = true) \/ (exists k, head s = Some (Checked k)).
Definition overtaken (s : Life) : Prop :=
  (control_at s = Cleared \/ control_at s = Joining) /\
  (too_early s \/ flag s = true /\ exists h, head s = Some h /\ in_loop h).

Lemma too_early_head_step s s' :
  too_early s -> head_step s = Some s' ->
  control_at s' = control_at s /\
  (too_early s' /\ flag s' = flag s /\ (life_left s' < life_left s)%nat \/
   flag s' = true /\ exists h, head s' = Some h /\ in_loop h).
Proof.
  intros Hb Hs. unfold head_step in Hs.
  destruct Hb as [(k & E & He) | (k & E)]; rewrite E in Hs; injection Hs as <-.
  - rewrite He. split; [done|]. left. split; [right; by eexists|]. split; [done|].
    unfold life_left, head_left. rewrite E. cbn. lia.
  - split; [done|]. right. split; [done|]. destruct k; head_inside.
Qed.

Lemma overtaken_step s s' : overtaken s -> life_step s s' -> overtaken s'.
Proof.
  intros [Hc Hb] Hs. destruct Hs as [k s Hi|s s' Hh|s i r r' Hi Hs|s Hi|s Hi|s Hi Hh].
  - destruct Hc; congruence.
  - destruct Hb as [Hb | (Hf & h & Eh & Hl)].
    + unfold overtaken. destruct (too_early_head_step s s' Hb Hh) as [-> [(Hb' & _) | Hr]]; split; tauto.
    + unfold head_step in Hh. rewrite Eh, Hf in Hh.
      destruct h; try done; injection Hh as <-; (split; [try destruct (_ <? _)%nat; exact Hc|]); right;
        (split; [try destruct (_ <? _)%nat; exact Hf|]); try destruct (_ <? _)%nat; head_inside.
  - exact (conj Hc Hb).
  - destruct Hc; congruence.
  - split; [|exact Hb]. right. unfold stop_test, joinable. cbn.
    by destruct Hb as [[(k & -> & _) | (k & ->)] | (_ & h & -> & _)].
  - destruct Hb as [[(k & E & _) | (k & E)] | (_ & h & E & Hl)]; rewrite E in Hh; [done..|].
    by injection Hh as ->.
Qed.

(** C23. A stop that comes before the started thread has set the flag is lost: on
    every interleaving the thread sets the flag that [stop] has cleared, and
    [stop] never returns. *)
Theorem stop_lost s :
  too_early (stop_begin s) ->
  (forall s', rtc life_step (stop_begin s) s' -> control_at s' <> Idle) /\
  eventually (fun s' => flag s' = true) (stop_begin s).
Proof.
  intros Hb. split.
  - intros s' Hr. assert (Hi : overtaken (stop_begin s)) by (split; [by left | by left]).
    remember (stop_begin s) as s0 eqn:E0. clear E0 Hb s.
    induction Hr as [x|x y z Hxy _ IH]; [destruct Hi as [[]]; congruence|].
    apply IH. by eapply overtaken_step.
  - apply eventually_below with (m := life_left)
      (I := fun s => flag s = false /\ (control_at s = Cleared \/ control_at s = Joining) /\ too_early s);
      [|by split; [|split; [left|]]].
    clear s Hb. intros s (Hf & Hc & Hb). split.
    { destruct Hb as [(k & E & _) | (k & E)]; eexists; apply step_head; unfold head_step; by rewrite E. }
    intros s' Hs. destruct Hs as [k s Hi|s s' Hh|s i r r' Hi Hs|s Hi|s Hi|s Hi Hh].
    + destruct Hc; congruence.
    + destruct (too_early_head_step s s' Hb Hh) as [-> [(Hb' & -> & Hlt) | [Hr _]]]; [right | by left].
      by rewrite Hf.
    + right. split; [done|]. by apply (life_left_runner s i r).
    + destruct Hc; congruence.
    + right. unfold stop_test, joinable. cbn. split.
      * split; [done|]. split; [right | exact Hb]. by destruct Hb as [(k & -> & _) | (k & ->)].
      * unfold life_left, head_left. cbn. rewrite Hi.
        destruct Hb as [(k & -> & _) | (k & ->)]; cbn; lia.
    + by destruct Hb as [(k & E & _) | (k & E)]; rewrite E in Hh.
Qed.

Lemma running_is_looping_witness :
  exists h, head (mkLife true (Some (Looping Raw)) Idle 0 []) = Some h /\ in_loop h.
Proof.
  apply (running_is_looping 0); [|reflexivity].
  eapply rtc_l; [by apply (step_start Raw)|]. eapply rtc_l; [by apply step_head|].
  eapply rtc_l; [by apply step_head|]. apply rtc_refl.
Defined.

Lemma stop_returns_witness :
  eventually stopped (stop_begin (mkLife true (Some (Launching 1)) Idle 2 [Processing])).
Proof. apply stop_returns. split; [done|]. split; [by left|]. by eexists. Defined.

Lemma stop_lost_witness :
  (forall s', rtc life_step (stop_begin (runThread (life_init 2)).1) s' -> control_at s' <> Idle) /\
  eventually (fun s' => flag s' = true) (stop_begin (runThread (life_init 2)).1).
Proof. apply stop_lost. left. by eexists. Defined.

(** * Concrete runs *)

Example show_double_fps : show_double (to_float (ddiv (double_of_Z 1) (seconds 33333333))) = "30.000000".
Proof. vm_compute. reflexivity. Qed.
Example show_double_half : show_double (ddiv (double_of_Z (-25)) (double_of_Z 2)) = "-12.500000".
Proof. vm_compute. reflexivity. Qed.
Example period_30 : uint64_of_double (ddiv billion (float_of_Z 30)) = Some 33333333.
Proof. vm_compute. reflexivity. Qed.

Definition sim_prog : Type -> Type := M sim_cs sim_nt.
Definition no_text (frame : Z) (_ : string) (_ : Z * Z) : Z := frame.
Definition sim_init (a : nat) : sim_prog unit := print ("init " +:+ to_string a).
Definition sim_close (a : nat) : sim_prog unit := print ("close " +:+ to_string a).
Definition sim_process (a : nat) (frame : Z) : sim_prog Z := ret (frame + 100).
Definition quiet_turn (k : Z) : Turn :=
  mkTurn (fun w : world sim_cs sim_nt => w) (1000000000 * k) (1000000000 * k + 1) (1000000000 * k + 2)
    (1000000000 * k + 3) (Some k).

Definition sim_single := runSingle no_text sim_init sim_close sim_process.

(** Two turns with one pipeline and two cameras: the pipeline reads from the
    second camera, and both frames are put. *)
Example single_run :
  let '(w, r) := sim_single sample_server (float_of_Z 30) [quiet_turn 1; quiet_turn 2] sample_world in
  sim_calls (w_cs w) = [CallPutFrame 3 102; CallPutFrame 3 101; CallSetSource 2 2] /\
  w_out w = ["close 0"; "init 0"] /\
  sim_vals (w_nt w) !! "/Vision Server/Status" = Some (VStr "Offline") /\
  (exists v, r = Ok (v, true)).
Proof. vm_compute. repeat split. eexists. reflexivity. Qed.

(** The same turns on a thread of its own; the pipeline is attached to no camera. *)
Example multi_run :
  let '(w, r) := run no_text sim_init sim_close sim_process 65536 sample_server (float_of_Z 30)
                   [Began 0; MainTurn; RunnerTurn 0 (quiet_turn 1); RunnerTurn 0 (quiet_turn 2)] sample_world in
  sim_calls (w_cs w) = [CallPutFrame 3 102; CallPutFrame 3 101] /\
  w_out w = ["close 0"; "init 0"] /\ (exists v, r = Ok (v, true)).
Proof. vm_compute. repeat split. eexists. reflexivity. Qed.

Definition with_entry (key : string) (z : Z) : world sim_cs sim_nt :=
  World sample_cs (sim_put key (VDouble (double_of_Z z)) empty_nt) zero_bufs [].

Lemma runner_select_spec_witness :
  runner_select 65536 sample_server 0%nat (sample_pipe 3 2) 1
    (with_entry "/Vision Server/Pipelines/P/Source Index" (-9)) =
  (with_entry "/Vision Server/Pipelines/P/Source Index" (-9), Throw StdOutOfRange) /\
  (runner_select 65536 sample_server 0%nat (sample_pipe 3 2) 1
    (with_entry "/Vision Server/Pipelines/P/Source Index" (-1))).2 =
  Ok (with_pipe sample_server 0 (attached_to (sample_pipe 3 2) (sample_pipe 3 2)), -1).
Proof.
  split.
  - refine (proj2 (proj2 (proj2 (proj2 (proj2
      (runner_select_spec 65536 sample_server 0%nat (sample_pipe 3 2) 1 (-9)
         (with_entry "/Vision Server/Pipelines/P/Source Index" (-9)) _))))) _ _ _);
      [reflexivity | lia | cbn; lia | lia].
  - refine (f_equal snd (proj1 (proj2 (proj2 (proj2 (proj2
      (runner_select_spec 65536 sample_server 0%nat (sample_pipe 3 2) 1 (-1)
         (with_entry "/Vision Server/Pipelines/P/Source Index" (-1)) _))))) _ _ _ 0%nat (sample_pipe 3 2) _ _));
      [reflexivity | lia | lia | lia | reflexivity | reflexivity].
Defined.

Lemma single_camera_off_by_one_witness :
  single_camera sample_server 0 0 (with_entry "/Vision Server/Camera Index" 2) =
  (with_entry "/Vision Server/Camera Index" 2, Undefined).
Proof.
  refine (proj2 (single_camera_off_by_one sample_server 0 0 2 0%nat (sample_pipe 3 2)
    (with_entry "/Vision Server/Camera Index" 2) _ _ _ _ _ _) _); try reflexivity; lia.
Defined.

Lemma no_frame_rate_witness :
  exists w', run no_text sim_init sim_close sim_process 65536 sample_server (S754_zero false) [] sample_world
             = (w', Undefined).
Proof.
  refine (proj1 (no_frame_rate no_text sim_init sim_close sim_process 65536 false sample_server []
    "/Vision Server" (first_meter (S754_zero false)) (quiet_turn 0) sample_world _ _ _));
    [reflexivity | cbn; lia | reflexivity].
Defined.

Lemma raw_turns_follow_witness :
  exists w', raw_turns sample_server [quiet_turn 0; quiet_turn 1]
    (with_entry "/Vision Server/Streams/s/Source Index" (-1)) =
  (w', Ok (with_streams sample_server [with_idx sample_stream (-1)])).
Proof.
  eexists. refine (raw_turns_follow sample_server (fun _ => -1) [quiet_turn 0; quiet_turn 1]
    (with_entry "/Vision Server/Streams/s/Source Index" (-1)) sample_alive _ _ _).
  - intros s Hs. apply list_elem_of_singleton in Hs as ->. reflexivity.
  - repeat constructor.
  - discriminate.
Defined.
