(* ===== verification/Program.v ===== *)
(** The library as a program uses it: the example of [README.md], from its
    configuration to the processing loop.  The file composes Config.v, Server.v
    and Runner.v, with the connections of Registry.v, and shows which pictures
    such a program streams. *)

From S2P Require Import Prelude Floats Json World Instances Camera Config Server Registry Runner.
Local Open Scope Z_scope.
Local Open Scope vs_scope.

(** * Entries that stay as they are *)

(** The number an entry shows and its type are the same. *)
Definition untouched {T} `{Tables T} (key : string) (t t' : T) : Prop :=
  (forall d, nt_GetDouble key d t' = nt_GetDouble key d t) /\ nt_type key t' = nt_type key t.

(** The documented behaviour of the other operations: they leave the entries
    they do not name alone. *)
Class TablesFrame (T : Type) `{Tables T} := {
  keep_boolean key key' v t : key <> key' -> untouched key t (nt_SetBoolean key' v t);
  keep_string key key' v t : key <> key' -> untouched key t (nt_SetString key' v t);
  keep_integer key key' v t : key <> key' -> untouched key t (nt_SetInteger key' v t);
  keep_listen key path t : untouched key t (nt_AddListener path t).2;
  keep_unlisten key l t : untouched key t (nt_RemoveListener l t);
  keep_flush key t : untouched key t (nt_Flush t)
}.

#[export] Instance sim_TablesFrame : TablesFrame sim_nt.
Proof. split; intros; split; intros; cbn; by rewrite ?sim_put_lookup_ne. Qed.

(** ** The entries a start-up relies on *)

Definition pipe_entry (name key : string) : string :=
  entry_path (entry_path (entry_path server_table "Pipelines") name) key.
Definition stream_entry (name key : string) : string := entry_path (entry_path streams_table name) key.

(** The sources of the streams, and the three numbers of the pipeline's thread. *)
Definition watched (name key : string) : Prop :=
  (exists stream, key = stream_entry stream "Source Index") \/
  key ∈ [pipe_entry name "Source Index"; pipe_entry name "Statistics Verbosity"; pipe_entry name "Max FPS"].

(** Two paths that differ behind a common beginning. *)
Ltac distinct_paths :=
  unfold stream_entry, pipe_entry, streams_table, entry_path, server_table; rewrite ?string_app_assoc;
  let E := fresh in intros E;
  repeat (apply (inj (String.append _)) in E); discriminate E.

(** A path is not watched. *)
Ltac not_watched :=
  let H := fresh in
  intros [[? H]|H]; [|repeat (apply elem_of_cons in H as [H|H]); [..|by apply elem_of_nil in H]];
  revert H; distinct_paths.

(** * Computations that connect nothing and leave the entries alone *)

Section Steady.

Context {C T : Type} `{CS : CsCore C} `{NT : Tables T} `{NL : !TablesLaws T} `{NF : !TablesFrame T}.
Abbreviation prog := (M C T).

Context (name : string).

Definition same (t t' : T) : Prop := forall key, watched name key -> untouched key t t'.

Lemma same_refl t : same t t.
Proof. done. Qed.
Lemma same_trans t1 t2 t3 : same t1 t2 -> same t2 t3 -> same t1 t3.
Proof.
  intros H1 H2 key Hk. destruct (H1 key Hk) as [D1 T1], (H2 key Hk) as [D2 T2].
  split; [intros d; by rewrite D2 | by rewrite T2].
Qed.

(** What is known of the tables throughout; it only depends on what is watched. *)
Context (I : T -> Prop) (I_same : forall t t', same t t' -> I t -> I t').

Definition calm (w w' : world C T) : Prop := cs_calls (w_cs w) [] (w_cs w') /\ same (w_nt w) (w_nt w').

Lemma calm_refl w : calm w w.
Proof. split; [constructor | apply same_refl]. Qed.
Lemma calm_trans w1 w2 w3 : calm w1 w2 -> calm w2 w3 -> calm w1 w3.
Proof. intros [C1 S1] [C2 S2]. split; [exact (cs_calls_app _ _ _ _ _ C1 C2) | by eapply same_trans]. Qed.

(** The computation succeeds, its result satisfies [Q], and it is calm. *)
Definition steady {A} (m : prog A) (Q : A -> Prop) : Prop :=
  forall w, I (w_nt w) -> exists w' a, m w = (w', Ok a) /\ Q a /\ calm w w'.

Lemma steady_bind {A B} (m : prog A) (f : A -> prog B) P Q :
  steady m P -> (forall a, P a -> steady (f a) Q) -> steady (bind m f) Q.
Proof.
  intros Hm Hf w Hw. destruct (Hm w Hw) as (w1 & a & E1 & HP & H1).
  destruct (Hf a HP w1 (I_same _ _ (proj2 H1) Hw)) as (w2 & b & E2 & HQ & H2).
  exists w2, b. rewrite (bind_ok _ _ _ _ _ E1). eauto using calm_trans.
Qed.

Lemma steady_ret {A} (a : A) (Q : A -> Prop) : Q a -> steady (ret a) Q.
Proof. intros HQ w _. exists w, a. eauto using calm_refl. Qed.
Lemma steady_ask_cs {A} (f : C -> A) : steady (ask_cs f) (fun _ => True).
Proof. intros w _. exists w, (f (w_cs w)). eauto using calm_refl. Qed.
Lemma steady_ask_nt {A} (f : T -> A) (Q : A -> Prop) : (forall t, I t -> Q (f t)) -> steady (ask_nt f) Q.
Proof. intros HQ w Hw. exists w, (f (w_nt w)). eauto using calm_refl. Qed.
Lemma steady_print s : steady (print s) (fun _ => True).
Proof. intros w _. eexists _, tt. split; [done|]. split; [done|]. apply (calm_refl w). Qed.
Lemma steady_cs f : unconnecting f -> steady (on_cs f) (fun _ => True).
Proof.
  intros Hf w _. eexists _, tt. split; [done|]. split; [done|]. split; [|apply same_refl].
  eapply calls_other; [exact Hf | constructor].
Qed.
Lemma steady_new f : unconnecting (fun c => (f c).2) -> steady (on_cs_new f) (fun _ => True).
Proof.
  intros Hf w _. unfold on_cs_new. destruct (f (w_cs w)) as [h c] eqn:E.
  eexists _, h. split; [done|]. split; [done|]. split; [|apply same_refl].
  eapply calls_other; [exact Hf|]. cbn. rewrite E. constructor.
Qed.
Lemma steady_nt f : (forall t, same t (f t)) -> steady (on_nt f) (fun _ => True).
Proof. intros Hf w _. eexists _, tt. split; [done|]. split; [done|]. split; [constructor | apply Hf]. Qed.
Lemma steady_nt_new f : (forall t, same t (f t).2) -> steady (on_nt_new f) (fun _ => True).
Proof.
  intros Hf w _. unfold on_nt_new. specialize (Hf (w_nt w)). destruct (f (w_nt w)) as [h t].
  eexists _, h. split; [done|]. split; [done|]. split; [constructor | exact Hf].
Qed.
Lemma steady_lift {A} (r : res A) a (Q : A -> Prop) : r = Ok a -> Q a -> steady (lift r) Q.
Proof. intros -> HQ w _. exists w, a. eauto using calm_refl. Qed.
Lemma steady_weaken {A} (m : prog A) (P Q : A -> Prop) :
  (forall a, P a -> Q a) -> steady m P -> steady m Q.
Proof. intros HPQ Hm w Hw. destruct (Hm w Hw) as (w' & a & ? & ? & ?). eauto 10. Qed.

(** Setting an entry that is not watched. *)
Lemma same_double key v t : ~ watched name key -> same t (nt_SetDouble key v t).
Proof.
  intros Hn k Hk. assert (k <> key) by congruence.
  split; [intros d; by apply nt_get_set_double_ne | by apply nt_type_set_double_ne].
Qed.
Lemma same_boolean key v t : ~ watched name key -> same t (nt_SetBoolean key v t).
Proof. intros Hn k Hk. apply keep_boolean. congruence. Qed.
Lemma same_string key v t : ~ watched name key -> same t (nt_SetString key v t).
Proof. intros Hn k Hk. apply keep_string. congruence. Qed.
Lemma same_integer key v t : ~ watched name key -> same t (nt_SetInteger key v t).
Proof. intros Hn k Hk. apply keep_integer. congruence. Qed.

End Steady.

#[export] Hint Resolve steady_ask_cs steady_print steady_cs steady_new : vsdb.

(** Step through a computation, its parts by the hints. *)
Ltac steadily := eapply steady_bind; [solve [eauto with vsdb] | solve [eauto with vsdb] |]; intros ? ?.

(** * Starting up *)

Section StartUp.

Context {C T : Type} `{CS : CsCore C} `{NT : Tables T} `{NL : !TablesLaws T} `{NF : !TablesFrame T} `{CP : Capacity}.
Abbreviation prog := (M C T).

(** [Init], [addCameras], [addStream("vision")], the pipeline's construction and
    [addPipeline]. *)
Definition start_up (cams : list VisionCamera) (name : string) : prog VisionServer :=
  let* v := VisionServer_new in
  let* r := addCameras v cams in
  let* r1 := addStream_named r.1 "vision" in
  let* v1 := construct r1.1 (new_pipe name) in
  let* r2 := addPipeline v1 (last_addr v1) in
  ret r2.1.

Context (name : string).

Abbreviation calmly := (steady name (fun _ : T => True)).

Lemma calmly_number table key z :
  ~ watched name (entry_path table key) -> calmly (put_number table key z : prog unit) (fun _ => True).
Proof. intros Hn. apply steady_nt. intros t. by apply same_double. Qed.

Lemma calmly_setting f h key (v : Z) :
  ~ watched name key -> unconnecting f ->
  calmly (let* z := (on_cs f ;* ret h : prog Z) in entry_set (Some (key, v)) z) (fun _ => True).
Proof.
  intros Hn Hf. eapply steady_bind; [done | |].
  - eapply steady_bind; [done | by apply steady_cs |]. intros _ _. by apply (steady_ret _ _ _ (fun _ => True)).
  - intros z _. apply steady_nt. intros t. by apply same_integer.
Qed.

Lemma camera_entry_free n key : ~ watched name ((server_table +:+ "/Cameras/" +:+ n) +:+ "/" +:+ key).
Proof. not_watched. Qed.

Lemma calmly_adopt self c : calmly (adopt self c : prog VisionCamera) (fun _ => True).
Proof.
  unfold adopt, setNetworkBase, setNetworkAdjustable. eapply steady_bind; [done| |].
  { eapply steady_bind; [done | apply steady_ask_cs |]. intros n _.
    by apply (steady_ret _ _ _ (fun c1 => exists n, ntable c1 = server_table +:+ "/Cameras/" +:+ n)); exists n. }
  intros c1 [n Hn]. cbv zeta. rewrite Hn.
  eapply steady_bind; [done | apply (calmly_setting _ _ _ _ (camera_entry_free n "Brightness")); constructor |].
  intros _ _.
  eapply steady_bind; [done | apply (calmly_setting _ _ _ _ (camera_entry_free n "WhiteBalance")); constructor |].
  intros _ _.
  eapply steady_bind; [done | apply (calmly_setting _ _ _ _ (camera_entry_free n "Exposure")); constructor |].
  intros _ _.
  eapply steady_bind; [done | apply steady_nt; intros t k _; apply keep_unlisten |]. intros _ _.
  eapply steady_bind; [done | apply steady_nt_new; intros t k _; apply keep_listen |]. intros l _.
  by apply steady_ret.
Qed.

Lemma calmly_adopt_all st i cms : calmly (adopt_all st i cms : prog (list VisionCamera)) (fun cms1 => length cms1 = length cms).
Proof.
  revert i. induction cms as [|c cms IH]; intros i; cbn [adopt_all]; [by apply steady_ret|].
  eapply steady_bind; [done | apply calmly_adopt |]. intros c1 _.
  eapply steady_bind; [done | apply IH |]. intros cms1 Hl. apply steady_ret. cbn. by rewrite Hl.
Qed.

(** The server as the start-up leaves it, and as the loop needs it: one stream,
    at the index its entry shows, and one pipeline whose entries can be numbers. *)
Record ready (v : VisionServer) (s : OutputStream) (p : BasePipe) (t : T) : Prop := {
  ready_idle : isRunning v = false;
  ready_streams : streams v = [s];
  ready_pipelines : pipelines v = [0%nat];
  ready_pipe : pipes v !! 0%nat = Some p;
  ready_table : pipe_table p = entry_path (entry_path server_table "Pipelines") name;
  ready_stream : exists n, stream_table s = entry_path streams_table n;
  ready_index : int32 (local_idx s);
  ready_shown : shows t (entry_path (stream_table s) "Source Index") (local_idx s);
  ready_numbers key : watched name key -> nt_accepts KDouble key t
}.

Lemma same_accepts t t' key : same name t t' -> watched name key -> nt_accepts KDouble key t -> nt_accepts KDouble key t'.
Proof. intros Hs Hk. unfold nt_accepts. by rewrite (proj2 (Hs key Hk)). Qed.

Lemma double_accepts key key' v (t : T) : nt_accepts KDouble key t -> nt_accepts KDouble key (nt_SetDouble key' v t).
Proof.
  intros Ha. unfold nt_accepts. destruct (decide (key = key')) as [->|Hne].
  - right. by apply nt_type_set_double.
  - by rewrite nt_type_set_double_ne.
Qed.

Lemma addCameras_calm cams :
  calmly (addCameras (mkServer [] [] [] [] false false ∅ 0 0) cams : prog (VisionServer * bool))
    (fun r => exists cms st, length cms = length cams /\ r.1 = mkServer cms [] [] [] false false ∅ 0 st).
Proof.
  unfold addCameras. cbn [isRunning is_running negb].
  eapply steady_bind; [done | apply calmly_adopt_all |]. intros cms Hl. cbv zeta.
  eapply steady_bind; [done | apply calmly_number; not_watched |]. intros _ _.
  apply steady_ret. by eexists cms, _.
Qed.

(** The stream shows index 0. *)
Lemma addStream_start cms st (w : world C T) :
  (forall key, watched name key -> nt_accepts KDouble key (w_nt w)) ->
  exists w1 s n, addStream_named (mkServer cms [] [] [] false false ∅ 0 st) "vision" w =
      (w1, Ok (mkServer cms [] [] [s] false false ∅ 0 st, true)) /\
    stream_table s = entry_path streams_table n /\ local_idx s = 0 /\
    shows (w_nt w1) (entry_path (stream_table s) "Source Index") 0 /\
    (forall key, watched name key -> nt_accepts KDouble key (w_nt w1)) /\
    cs_calls (w_cs w) [] (w_cs w1).
Proof.
  intros Ha. unfold addStream_named, addStream_with, named_stream, OutputStream_new.
  cbn [isRunning is_running negb]. unfold bind, on_cs_new, ask_cs, put_number, on_nt, ret.
  destruct (cs_AddServer "vision" None (w_cs w)) as [h c] eqn:E. cbn.
  eexists _, _, _. split; [reflexivity|]. cbn. split; [done|]. split; [done|]. split; [|split].
  - intros d. rewrite nt_get_set_double_ne by distinct_paths.
    apply nt_get_set_double, Ha. left. by eexists.
  - intros key Hk. by apply double_accepts, double_accepts, Ha.
  - eapply calls_other; [apply (un_server "vision" None)|]. cbv beta. rewrite E. constructor.
Qed.

Lemma new_pipe_calm :
  calmly (new_pipe name : prog BasePipe)
    (fun p => pipe_table p = entry_path (entry_path server_table "Pipelines") name).
Proof.
  unfold new_pipe. eapply steady_bind; [done | apply steady_new; constructor |]. intros src _.
  eapply steady_bind; [done | apply steady_new; constructor |]. intros sink _. by apply steady_ret.
Qed.

(** The start-up succeeds and connects nothing. *)
Lemma start_up_ready cams (w : world C T) :
  (forall key, watched name key -> nt_accepts KDouble key (w_nt w)) ->
  exists w1 v s p, start_up cams name w = (w1, Ok v) /\ ready v s p (w_nt w1) /\ local_idx s = 0 /\
    length (cameras v) = length cams /\ cs_calls (w_cs w) [] (w_cs w1).
Proof.
  intros Ha. unfold start_up.
  assert (Hnew : calmly (VisionServer_new : prog VisionServer) (fun v => v = mkServer [] [] [] [] false false ∅ 0 0)).
  { unfold VisionServer_new. eapply steady_bind; [done | apply steady_print |]. intros _ _.
    eapply steady_bind; [done | apply calmly_number; not_watched |]. intros _ _.
    eapply steady_bind; [done | apply calmly_number; not_watched |]. intros _ _.
    eapply steady_bind; [done | apply steady_nt; intros t; apply same_string; not_watched |]. intros _ _.
    by apply steady_ret. }
  destruct (Hnew w Logic.I) as (w1 & v & E1 & -> & C1 & S1). rewrite (bind_ok _ _ _ _ _ E1).
  destruct (addCameras_calm cams w1 Logic.I) as (w2 & r & E2 & (cms & st & Hl & Hr) & C2 & S2).
  rewrite (bind_ok _ _ _ _ _ E2), Hr.
  destruct (addStream_start cms st w2) as (w3 & s & n & E3 & Hs & Hi & Hshow & Ha3 & C3).
  { intros key Hk. eapply same_accepts; [exact S2 | done |]. eapply same_accepts; [exact S1 | done |]. by apply Ha. }
  rewrite (bind_ok _ _ _ _ _ E3). cbn [fst].
  destruct (new_pipe_calm w3 Logic.I) as (w4 & p & E4 & Hp & C4 & S4).
  unfold construct at 1.
  rewrite (bind_ok _ _ w3 w4 (mkServer cms [] [] [s] false false {[0%nat := p]} 1 st))
    by (rewrite (bind_ok _ _ _ _ _ E4); reflexivity).
  cbn [addPipeline isRunning is_running negb last_addr next_addr pred].
  set (w5 := (put_number server_table "Pipelines Available" 1 w4).1).
  exists w5, (mkServer cms [0%nat] [] [s] false false {[0%nat := p]} 1 st), s, p.
  split; [reflexivity|].
  assert (S5 : same name (w_nt w4) (w_nt w5)) by (apply same_double; not_watched).
  split; [|split; [done|split; [done|]]].
  - split; try done.
    + by exists n.
    + by rewrite Hi.
    + intros d. rewrite Hi. assert (Hw : watched name (entry_path (stream_table s) "Source Index")) by (rewrite Hs; left; by eexists).
      by rewrite (proj1 (S5 _ Hw)), (proj1 (S4 _ Hw)).
    + intros key Hk. eapply same_accepts; [exact S5 | done |]. eapply same_accepts; [exact S4 | done | by apply Ha3].
  - pose proof (cs_calls_app _ _ _ _ _ C1 C2) as C12. pose proof (cs_calls_app _ _ _ _ _ C12 C3) as C123.
    exact (cs_calls_app _ _ _ _ _ C123 C4).
Qed.

End StartUp.

(** * Reading the configuration *)

Section Reading.

Context {C T : Type} `{CS : CsCore C} `{NT : Tables T} `{WH : What} `{FS : Files}.
Abbreviation prog := (M C T).

(** Calls that open a source. *)
Inductive opening : (C -> C) -> Prop :=
| op_usb n p : opening (fun c => (cs_UsbCamera n p c).2)
| op_config h j : opening (cs_SetConfigJson h j)
| op_keep h : opening (cs_SetConnectionKeepOpen h).

(** As [cs_calls], with calls that open sources. *)
Inductive main_calls : C -> list (Z * Z) -> C -> Prop :=
| main_none c : main_calls c [] c
| main_open c f l c' : opening f -> main_calls (f c) l c' -> main_calls c l c'
| main_later c l c1 l' c' : cs_calls c l c1 -> main_calls c1 l' c' -> main_calls c (l ++ l') c'.

Lemma main_calls_app c1 l1 c2 l2 c3 :
  main_calls c1 l1 c2 -> main_calls c2 l2 c3 -> main_calls c1 (l1 ++ l2) c3.
Proof. induction 1; intros; rewrite <- ?app_assoc; cbn; eauto using main_calls. Qed.

Lemma main_calls_of c l c' : cs_calls c l c' -> main_calls c l c'.
Proof. intros H. rewrite <- (app_nil_r l). eapply main_later; [exact H | constructor]. Qed.

(** The connection of a camera's own sink to the camera. *)
Definition own_link (cam : VisionCamera) : Z * Z := (raw cam, m_handle cam).

(** When it returns, [m] has made connections that [Q] allows with its result;
    when it throws, none. *)
Definition links {A} (m : prog A) (Q : A -> list (Z * Z) -> Prop) : Prop :=
  forall w w' r, m w = (w', r) ->
    match r with
    | Ok a => exists l, main_calls (w_cs w) l (w_cs w') /\ Q a l
    | Throw _ => main_calls (w_cs w) [] (w_cs w')
    | Undefined => True
    end.
Definition still {A} (m : prog A) : Prop := forall w, w_cs (m w).1 = w_cs w.

Lemma links_bind {A B} (m : prog A) (f : A -> prog B) Q :
  links m (fun _ l => l = []) -> (forall a, links (f a) Q) -> links (bind m f) Q.
Proof.
  intros Hm Hf w w' r. unfold bind. destruct (m w) as [w1 [a|e|]] eqn:E; [|by intros [= <- <-]; apply (Hm _ _ _ E)|by intros [= <- <-]].
  intros E2. destruct (Hm _ _ _ E) as (l1 & H1 & ->). specialize (Hf a _ _ _ E2).
  destruct r as [b|e|]; [|by apply (main_calls_app _ [] _ [] _ H1)|done].
  destruct Hf as (l & H2 & HQ). exists l. split; [by apply (main_calls_app _ [] _ l _ H1) | done].
Qed.

(** What comes after the connections returns, and makes no more. *)
Lemma links_bind_after {A B} (m : prog A) (f : A -> prog B) P Q :
  links m P ->
  (forall a l, P a l -> forall w, exists w' b, f a w = (w', Ok b) /\ w_cs w' = w_cs w /\ Q b l) ->
  links (bind m f) Q.
Proof.
  intros Hm Hf w w' r. unfold bind.
  destruct (m w) as [w1 [a|e|]] eqn:E; [|by intros [= <- <-]; apply (Hm _ _ _ E)|by intros [= <- <-]].
  destruct (Hm _ _ _ E) as (l & H1 & HP). destruct (Hf a l HP w1) as (w2 & b & -> & Ec & HQ).
  intros [= <- <-]. exists l. by rewrite Ec.
Qed.

Lemma links_catch {A} (m : prog A) h Q : links m Q -> (forall e, links (h e) Q) -> links (catch_json m h) Q.
Proof.
  intros Hm Hh w w' r. unfold catch_json. destruct (m w) as [w1 [a|e|]] eqn:E; try by intros [= <- <-]; apply (Hm _ _ _ E).
  destruct (is_json_exception e); [|by intros [= <- <-]; apply (Hm _ _ _ E)].
  intros E2. specialize (Hm _ _ _ E). specialize (Hh e _ _ _ E2). cbn in Hm.
  destruct r as [b|e'|]; [|by apply (main_calls_app _ [] _ [] _ Hm)|done].
  destruct Hh as (l & H2 & HQ). exists l. split; [by apply (main_calls_app _ [] _ l _ Hm) | done].
Qed.

Lemma links_still {A} (m : prog A) : still m -> links m (fun _ l => l = []).
Proof.
  intros Hm w w' r E. specialize (Hm w). rewrite E in Hm. cbn in Hm. rewrite Hm.
  destruct r; eauto using main_calls.
Qed.

Lemma links_open f : opening f -> links (on_cs f) (fun _ l => l = []).
Proof. intros Hf w w' r [= <- <-]. exists []. split; [|done]. eapply main_open; [exact Hf | constructor]. Qed.
Lemma links_open_new f : opening (fun c => (f c).2) -> links (on_cs_new f) (fun _ l => l = []).
Proof.
  intros Hf w w' r. unfold on_cs_new. destruct (f (w_cs w)) as [h c] eqn:E. intros [= <- <-].
  exists []. split; [|done]. eapply main_open; [exact Hf|]. cbn. rewrite E. constructor.
Qed.

(** ** What leaves the camera library alone *)

Lemma still_bind {A B} (m : prog A) (f : A -> prog B) : still m -> (forall a, still (f a)) -> still (bind m f).
Proof.
  intros Hm Hf w. specialize (Hm w). unfold bind. destruct (m w) as [w1 [a|e|]]; [|exact Hm..].
  cbn in Hm. rewrite <- Hm. apply Hf.
Qed.
Lemma still_catch {A} (m : prog A) h : still m -> (forall e, still (h e)) -> still (catch_json m h).
Proof.
  intros Hm Hf w. specialize (Hm w). unfold catch_json. destruct (m w) as [w1 [a|e|]]; [exact Hm| |exact Hm].
  cbn in Hm. destruct (is_json_exception e); [|exact Hm]. rewrite <- Hm. apply Hf.
Qed.
Lemma still_for_each {A} (f : A -> prog unit) l : (forall a, still (f a)) -> still (for_each f l).
Proof. intros Hf. induction l as [|a l IH]; cbn; [done|]. by apply still_bind. Qed.
Lemma still_write m i j x : still (mat_write m i j x : prog unit).
Proof. intros w. unfold mat_write. repeat case_match; done. Qed.

Ltac stilly :=
  repeat first [ match goal with |- forall _, _ => intro end | apply still_bind | apply still_catch | apply still_write | apply still_for_each
               | done | case_match ].

Lemma still_camera_matrix cam m : still (getJsonCameraMatrix get_float cam m : prog bool).
Proof. unfold getJsonCameraMatrix. stilly. Qed.
Lemma still_distortion cam m : still (getJsonDistortionCoefs get_float cam m : prog bool).
Proof. unfold getJsonDistortionCoefs. stilly. Qed.

Lemma still_loadJson file : still (loadJson file : prog (option json)).
Proof. unfold loadJson, config_error. stilly. Qed.
Lemma still_networktables j file : still (start_networktables j file : prog bool).
Proof. unfold start_networktables, config_error. stilly. Qed.

(** ** The cameras *)

Lemma links_usb_source cfg : links (usb_source cfg) (fun _ l => l = []).
Proof.
  unfold usb_source. apply links_bind.
  - apply links_catch; [|intros e; apply links_still; stilly].
    apply links_bind; [by apply links_still|]. intros n.
    apply links_bind; [by apply links_still|]. intros p. apply links_open_new, op_usb.
  - intros h. apply links_bind; [apply links_open, op_config|]. intros _.
    apply links_bind; [apply links_open, op_keep|]. intros _. by apply links_still.
Qed.

Lemma links_new_sink h : links (new_sink h) (fun _ l => l = []).
Proof.
  unfold new_sink. apply links_bind; [by apply links_still|]. intros name w w' r.
  unfold on_cs_new. destruct (cs_CvSink (name +:+ "_cvraw") (w_cs w)) as [s c] eqn:E. intros [= <- <-].
  exists []. split; [|done]. apply main_calls_of. eapply calls_other; [apply (un_sink (name +:+ "_cvraw"))|].
  cbv beta. rewrite E. constructor.
Qed.

(** The end of both constructors connects the camera's sink. *)
Lemma links_finish cam h sink (test : VideoMode -> bool) j :
  links (on_cs (cs_SetSource sink h) ;*
         let* mode := ask_cs (cs_GetVideoMode h) in
         let* mode' := lift (if test mode then getJsonVideoMode j else Ok mode) in
         ret (with_properties (with_source cam h sink) mode') : prog VisionCamera)
    (fun cam' l => l = [own_link cam']).
Proof.
  intros w w' r. unfold bind, on_cs, ask_cs, lift, ret.
  set (x := if test _ then _ else _).
  assert (Hx : forall e, x <> Throw e) by (intros e; unfold x; case_match; [apply getJsonVideoMode_no_throw | done]).
  destruct x as [m|e|]; [|by destruct (Hx e)|]; intros [= <- <-]; [|done].
  exists [(sink, h)]. split; [|done]. apply main_calls_of. eapply calls_connect. constructor.
Qed.

Lemma links_config cfg : links (VisionCamera_config cfg) (fun cam l => l = [own_link cam]).
Proof.
  unfold VisionCamera_config. apply links_bind; [by apply links_still|]. intros cam0.
  apply links_bind; [apply links_usb_source|]. intros h.
  apply links_bind; [apply links_new_sink|]. intros sink.
  apply (links_finish cam0 h sink (fun m => negb (mode_bool m))).
Qed.

Lemma links_calibrated cfg cal : links (VisionCamera_calibrated cfg cal) (fun cam l => l = [own_link cam]).
Proof.
  unfold VisionCamera_calibrated. apply links_bind; [by apply links_still|]. intros cam0.
  apply links_bind; [apply links_usb_source|]. intros h. cbv zeta.
  apply links_bind; [apply links_still, still_camera_matrix|]. intros _.
  apply links_bind; [apply links_still, still_distortion|]. intros _.
  apply links_bind; [apply links_new_sink|]. intros sink.
  apply (links_finish (with_source cam0 h 0) h sink mode_bool).
Qed.

(** A turn of the loader connects its camera's sink, also when it drops the
    camera as disconnected. *)
Lemma links_create_camera rd j file cams camera :
  links (create_camera rd j file cams camera : prog (list VisionCamera))
    (fun cams' l => exists cam, l = [own_link cam] /\ (cams' = cams ++ [cam] \/ rd = true /\ cams' = cams)).
Proof.
  unfold create_camera. eapply links_bind_after with (P := fun cam l => l = [own_link cam]).
  - destruct (_ && _)%bool; [|apply links_config]. apply links_catch.
    + do 3 (apply links_bind; [by apply links_still|]; intros ?). apply links_calibrated.
    + intros e. apply links_bind; [apply links_still; unfold config_error; stilly|]. intros _. apply links_config.
  - intros cam l -> w. unfold drop_if_disconnected, VisionCamera_destroy, bind, ask_cs, on_nt, ret.
    destruct (rd && _)%bool eqn:Er; (do 2 eexists; split; [reflexivity|]; split; [done|]; exists cam;
      split; [done|]); [right | by left].
    by apply andb_true_iff in Er as [-> _].
Qed.

(** The connections of the cameras [all] that were made, of which [cams] are
    left. *)
Definition made_links (rd : bool) (cams : list VisionCamera) (l : list (Z * Z)) : Prop :=
  exists all, l = own_link <$> all /\ cams `sublist_of` all /\ (rd = false -> all = cams).

Lemma links_for_cameras rd j file l cams (w w' : world C T) r :
  for_cameras (create_camera rd j file) cams l w = (w', Ok r) ->
  exists new links, r.1 = cams ++ new /\ made_links rd new links /\ main_calls (w_cs w) links (w_cs w').
Proof.
  revert cams w. induction l as [|camera l IH]; intros cams w; cbn [for_cameras].
  - intros [= <- <-]. exists [], []. rewrite app_nil_r. split; [done|]. split; [by exists [] | constructor].
  - pose proof (links_create_camera rd j file cams camera w) as Ht.
    destruct (create_camera rd j file cams camera w) as [w1 [cams1|e|]]; [| |done].
    + destruct (Ht _ _ eq_refl) as (l1 & H1 & cam & -> & Hc). intros E.
      apply IH in E as (new & l2 & Er & (all & -> & Hs & Ha) & H2).
      destruct Hc as [-> | [Hrd ->]].
      * exists (cam :: new), (own_link <$> cam :: all). rewrite Er, <- app_assoc. split; [done|].
        split; [|by apply (main_calls_app _ [own_link cam] _ _ _ H1)].
        exists (cam :: all). split; [done|]. split; [by apply sublist_skip | intros Hf; by rewrite Ha].
      * exists new, (own_link <$> cam :: all). split; [done|].
        split; [|by apply (main_calls_app _ [own_link cam] _ _ _ H1)].
        exists (cam :: all). split; [done|]. split; [by apply sublist_cons | congruence].
    + specialize (Ht _ _ eq_refl). cbn in Ht. destruct (is_json_exception e); [|done]. intros [= <- <-].
      exists [], []. rewrite app_nil_r. split; [done|]. split; [by exists [] | exact Ht].
Qed.

Lemma for_cameras_throws {A} turn (cams : list A) l (w w' : world C T) e :
  for_cameras turn cams l w = (w', Throw e) -> is_json_exception e = false.
Proof.
  revert cams w. induction l as [|camera l IH]; intros cams w; cbn [for_cameras]; [done|].
  destruct (turn cams camera w) as [w1 [cams1|e1|]]; [by apply IH| |done].
  destruct (is_json_exception e1) eqn:E1; [done|]. by intros [= _ <-].
Qed.

(** Reading the configuration connects the own sink of each camera it makes. *)
Lemma readConfig_links rd file (w w' : world C T) cams ok :
  readConfig rd [] file w = (w', Ok (cams, ok)) ->
  exists l, made_links rd cams l /\ main_calls (w_cs w) l (w_cs w').
Proof.
  assert (Hnone : forall w1 : world C T, w_cs w1 = w_cs w -> exists l, made_links rd [] l /\ main_calls (w_cs w) l (w_cs w1)).
  { intros w1 ->. exists []. split; [by exists [] | constructor]. }
  unfold readConfig. intros (w1 & oj & E1 & E)%bind_inv.
  pose proof (still_loadJson file w) as C1. rewrite E1 in C1. cbn in C1.
  destruct oj as [j|]; [|injection E as <- <- <-; by apply Hnone].
  apply bind_inv in E as (w2 & up & E2 & E).
  pose proof (still_networktables j file w1) as C2. rewrite E2 in C2. cbn in C2. rewrite C1 in C2.
  destruct up; [|injection E as <- <- <-; by apply Hnone].
  apply bind_inv in E as (w3 & cs & E3 & E). injection E as <- <- <-.
  rewrite <- C2. clear Hnone E1 E2 C1 C2 w w1. rename w2 into w. unfold read_cameras in E3.
  destruct (count j "cameras" <? 1)%nat.
  { injection E3 as <- <-. exists []. split; [by exists [] | constructor]. }
  apply bind_inv in E3 as (w4 & r & E4 & E5).
  assert (Hr : exists l, made_links rd r.1 l /\ main_calls (w_cs w) l (w_cs w4)).
  { unfold catch_json, bind, lift in E4. destruct (at_key j "cameras") as [l|e|]; [| |done].
    - destruct (for_cameras _ _ _ w) as [w5 [r'|e|]] eqn:E6; [| |done].
      + injection E4 as <- <-. apply links_for_cameras in E6 as (new & links & -> & Hm & Hc). by exists links.
      + by rewrite (for_cameras_throws _ _ _ _ _ _ E6) in E4.
    - destruct (is_json_exception e); [|done]. injection E4 as <- <-. exists []. split; [by exists [] | constructor]. }
  destruct r as [cs' [e|]]; cbn [fst snd] in *; injection E5 as <- <-; exact Hr.
Qed.

End Reading.

(** * Running *)

Section Loop.

Context {C T : Type} `{CS : CsCore C} `{NT : Tables T} `{NL : !TablesLaws T} `{NF : !TablesFrame T}.
Abbreviation prog := (M C T).

Context (putText : Z -> string -> Z * Z -> Z).
Context (pipe_init pipe_close : nat -> prog unit) (pipe_process : nat -> Z -> prog Z).
Context (numPipelines_address : Z) (name : string) (cap : double).

(** The example of [README.md]: the cameras of a configuration, the start-up, and
    the processing loop while [es] happens around it. *)
Definition readme_main (remove_disconnected : bool) `{WH : What} `{FS : Files} `{CP : Capacity} (file : string)
    (es : list (Event (C := C) (T := T))) : prog VisionServer :=
  let* c := readConfig remove_disconnected [] file in
  let* v := start_up c.1 name in
  let* r := run putText pipe_init pipe_close pipe_process numPipelines_address v cap es in
  ret r.1.

(** What happens around the loop when the rest of the program, the clients and
    the pipeline's methods connect nothing and leave the watched entries alone. *)
Definition calm_change (f : world C T -> world C T) : Prop := forall w, calm name w (f w).
Definition calm_event (e : Event (C := C) (T := T)) : Prop :=
  match e with
  | Began i => i = 0%nat
  | RunnerTurn i t => calm_change (others t)
  | MainTurn => True
  | Elsewhere f => calm_change f
  end.
Definition calm_pipeline : Prop :=
  forall a, steady name (fun _ : T => True) (pipe_init a) (fun _ => True) /\
    steady name (fun _ => True) (pipe_close a) (fun _ => True) /\
    forall frame, steady name (fun _ => True) (pipe_process a frame) (fun _ => True).

(** The frame rate is one that a turn can be paced by. *)
Definition cap_ok : Prop :=
  is_Some (uint64_of_double (ddiv billion cap)) /\ is_Some (uint64_of_double (ddiv billion (to_float cap))).

Context (Hpipe : calm_pipeline) (Hcap : cap_ok).
Context (v : VisionServer) (s : OutputStream) (p : BasePipe).
Context (Hstreams : streams v = [s]) (Hpipelines : pipelines v = [0%nat]) (Hp : pipes v !! 0%nat = Some p).
Context (Htable : pipe_table p = entry_path (entry_path server_table "Pipelines") name).
Context (Hstream : exists n, stream_table s = entry_path streams_table n) (Hindex : int32 (local_idx s)).

(** The tables before the thread has begun, and afterwards. *)
Definition waiting (t : T) : Prop :=
  shows t (entry_path (stream_table s) "Source Index") (local_idx s) /\
  forall key, watched name key -> nt_accepts KDouble key t.
Definition looping (t : T) : Prop :=
  shows t (entry_path (stream_table s) "Source Index") (local_idx s) /\
  shows t (pipe_entry name "Source Index") 1 /\ shows t (pipe_entry name "Statistics Verbosity") 0 /\
  forall d, nt_GetDouble (pipe_entry name "Max FPS") d t = cap.

Lemma stream_watched : watched name (entry_path (stream_table s) "Source Index").
Proof. destruct Hstream as [n ->]. left. by exists n. Qed.

Lemma waiting_same t t' : same name t t' -> waiting t -> waiting t'.
Proof.
  intros Hs [Hi Ha]. split; [|intros key Hk; eapply same_accepts; eauto].
  intros d. by rewrite (proj1 (Hs _ stream_watched)).
Qed.
Lemma looping_same t t' : same name t t' -> looping t -> looping t'.
Proof.
  intros Hs (Hi & H1 & H2 & H3). unfold looping, shows.
  assert (Hk : forall key, watched name key -> forall d, nt_GetDouble key d t' = nt_GetDouble key d t)
    by (intros; by apply Hs).
  repeat split; intros d; (rewrite Hk; [auto |]); [exact stream_watched | right..];
    rewrite !elem_of_cons; auto.
Qed.

(** A computation that is calm whatever is known. *)
Lemma calmly_any {A} (I : T -> Prop) (m : prog A) Q : steady name (fun _ => True) m Q -> steady name I m Q.
Proof. intros Hm w _. by apply Hm. Qed.
Lemma calmly_change I f : calm_change f -> steady name I (fun w => (f w, Ok tt) : world C T * res unit) (fun _ => True).
Proof. intros Hf w _. exists (f w), tt. split; [done|]. split; [done|]. apply Hf. Qed.

(** Stepping through the turns. *)
Ltac walk l := eapply steady_bind; [exact l | |].

Lemma steady_get_int I (I_same : forall t t' : T, same name t t' -> I t -> I t') table key z :
  int32 z -> (forall t : T, I t -> shows t (entry_path table key) z) ->
  steady name I (get_int table key : prog Z) (fun n => n = z).
Proof.
  intros Hz Hi. unfold get_int. eapply steady_bind; [exact I_same | |].
  - apply (steady_ask_nt _ _ _ (fun x => x = double_of_Z z)). intros t Ht. by apply Hi.
  - intros x ->. apply (steady_lift _ _ _ z); [by rewrite int_of_double_of_Z | done].
Qed.

(** A turn of the main loop leaves the streams as they are. *)
Lemma main_turn_steady I (I_same : forall t t' : T, same name t t' -> I t -> I t') :
  (forall t, I t -> shows t (entry_path (stream_table s) "Source Index") (local_idx s)) ->
  steady name I (let* v1 := sync_all v in on_nt nt_Flush ;* ret v1 : prog VisionServer) (fun v1 => v1 = v).
Proof.
  intros Hi. eapply steady_bind; [done | |].
  - unfold sync_all. rewrite Hstreams. cbn [map_streams]. walk I_same.
    + walk I_same.
      { instantiate (1 := fun s1 => s1 = s). unfold syncIdx.
        walk I_same; [by apply (steady_get_int _ I_same _ _ (local_idx s))|]. intros n ->. rewrite Z.eqb_refl.
        by apply steady_ret. }
      intros s1 ->. walk I_same; [by apply (steady_ret _ _ [] (fun l => l = []))|]. intros l ->.
      by apply (steady_ret _ _ _ (fun l => l = [s])).
    + intros l ->. apply (steady_ret _ _ _ (fun v1 => v1 = v)). destruct v. cbn in *. by subst.
  - intros v1 ->. walk I_same; [apply steady_nt; intros t k _; apply keep_flush|]. intros _ _. by apply steady_ret.
Qed.

(** A turn of the pipeline's thread attaches nothing. *)
Lemma runner_turn_steady st t :
  r_idx st = 1 -> calm_change (others t) ->
  steady name looping
    (pipelineRunner_turn putText pipe_process numPipelines_address v 0 st t)
    (fun r => r.1 = v /\ r_idx r.2 = 1).
Proof.
  intros Hst Ht. unfold pipelineRunner_turn.
  walk looping_same; [by apply calmly_change|]. intros _ _.
  walk looping_same; [apply (steady_lift _ _ _ p (fun q => q = p)); [by rewrite Hp | done]|]. intros ? ->.
  walk looping_same.
  { unfold runner_select. walk looping_same.
    - apply (steady_get_int _ looping_same _ _ 1); [done|]. rewrite Htable. by intros ? (_ & ? & _).
    - intros n ->. rewrite Hst. by apply (steady_ret _ _ _ (fun r => r = (v, 1))). }
  intros r ->. walk looping_same.
  { instantiate (1 := fun _ => True). unfold process_frame.
    walk looping_same; [by apply (steady_ask_nt _ _ _ (fun _ => True))|]. intros on _.
    destruct on; [|by apply steady_ret]. destruct (grabbed t) as [frame|]; [|by apply steady_ret].
    walk looping_same; [apply calmly_any, Hpipe|]. intros frame1 _.
    walk looping_same.
    - apply (steady_get_int _ looping_same _ _ 0); [done|]. rewrite Htable. by intros ? (_ & _ & ? & _).
    - intros n _. walk looping_same; [apply steady_cs; constructor|]. intros _ _. by apply steady_ret. }
  intros don _. cbv zeta. rewrite Htable. walk looping_same.
  { instantiate (1 := fun _ => True). unfold publish_stats. cbv zeta.
    repeat (walk looping_same; [apply steady_nt; intros; apply same_double; not_watched | intros _ _]).
    apply steady_nt. intros. apply same_double. not_watched. }
  intros _ _. walk looping_same.
  { instantiate (1 := fun _ => True). unfold pace.
    walk looping_same; [apply (steady_ask_nt _ _ _ (fun x => x = cap)); by intros ? (_ & _ & _ & ?)|].
    intros x ->. destruct (proj2 Hcap) as [n Hn].
    walk looping_same; [apply (steady_lift _ _ _ n (fun _ => True)); [by rewrite Hn | done]|].
    intros _ _. by apply steady_ret. }
  intros m _. by apply steady_ret.
Qed.

(** A state of the run: the server as it was, at most the one thread, and the
    tables as its state demands. *)
Definition steady_run (r : Running) (t : T) : Prop :=
  r_server r = v /\ (forall i, i <> 0%nat -> r_states r !! i = None) /\
  match r_states r !! 0%nat with
  | None => waiting t
  | Some st => r_idx st = 1 /\ looping t
  end.

Lemma steady_run_same r t t' : same name t t' -> steady_run r t -> steady_run r t'.
Proof.
  intros Hs (H1 & H2 & H3). do 2 (split; [done|]).
  destruct (r_states r !! 0%nat); [|by eapply waiting_same].
  split; [apply H3 | by eapply looping_same; [|apply H3]].
Qed.

Lemma begin_calm r (w : world C T) :
  r_states r !! 0%nat = None -> steady_run r (w_nt w) ->
  exists w1 r1, begin_runner pipe_init cap r 0 w = (w1, Ok r1) /\ steady_run r1 (w_nt w1) /\
    is_Some (r_states r1 !! 0%nat) /\ cs_calls (w_cs w) [] (w_cs w1).
Proof.
  intros Hnone (Hv & Hothers & Hw). rewrite Hnone in Hw. destruct Hw as [Hshow Hacc].
  unfold begin_runner. rewrite Hv, Hpipelines. rewrite (bind_ok _ _ w w 0%nat) by done.
  rewrite (bind_ok _ _ w w p) by (unfold deref, lift; by rewrite Hp).
  unfold pipelineRunner_begin. rewrite Htable.
  set (t1 := nt_SetBoolean (pipe_entry name "Enable Processing") true (w_nt w)).
  set (t2 := nt_SetDouble (pipe_entry name "Source Index") (double_of_Z 1) t1).
  set (t3 := nt_SetDouble (pipe_entry name "Statistics Verbosity") (double_of_Z 0) t2).
  set (t4 := nt_SetDouble (pipe_entry name "Max FPS") cap t3).
  assert (Hl : looping t4).
  { assert (Ha : forall key, watched name key -> nt_accepts KDouble key t1).
    { intros key Hk. eapply same_accepts; [|done | by apply Hacc]. apply same_boolean. not_watched. }
    assert (Hpk : forall key, key ∈ [pipe_entry name "Source Index"; pipe_entry name "Statistics Verbosity"; pipe_entry name "Max FPS"] ->
                    nt_accepts KDouble key t1) by (intros; apply Ha; by right).
    unfold t4, t3, t2. repeat split; [|intros d..].
    - intros d. destruct Hstream as [n Hn]. rewrite Hn.
      rewrite !nt_get_set_double_ne by distinct_paths.
      rewrite (proj1 (same_boolean name (pipe_entry name "Enable Processing") true (w_nt w) ltac:(not_watched)
                 _ (or_introl (ex_intro _ n eq_refl)))).
      unfold stream_entry. rewrite <- Hn. apply Hshow.
    - rewrite !nt_get_set_double_ne by distinct_paths. apply nt_get_set_double, Hpk. by left.
    - rewrite nt_get_set_double_ne by distinct_paths. apply nt_get_set_double, double_accepts, Hpk. right. by left.
    - apply nt_get_set_double. do 2 apply double_accepts. apply Hpk. do 2 right. by left. }
  destruct (proj1 (Hpipe 0%nat) (World (w_cs w) t4 (w_bufs w) (w_out w)) Logic.I) as (w1 & [] & E & _ & Hc & Hs).
  exists w1, (mkRunning v (<[0%nat := mkRunner 1 (first_meter cap)]> (r_states r))).
  split; [|split; [|split; [|exact Hc]]].
  - unfold t4, t3, t2, t1, pipe_entry in E.
    unfold bind, put_boolean, put_number, put_double, on_nt, ret. cbn [w_cs w_nt w_bufs w_out]. by rewrite E.
  - apply (steady_run_same _ t4); [exact Hs|]. split; [done|]. cbn. split.
    + intros i Hi. rewrite lookup_insert_ne by done. by apply Hothers.
    + by rewrite lookup_insert_eq.
  - cbn. rewrite lookup_insert_eq. by eexists.
Qed.

Lemma event_calm r e (w : world C T) :
  calm_event e -> steady_run r (w_nt w) ->
  exists w1 r1, run_event putText pipe_init pipe_process numPipelines_address cap r e w = (w1, Ok r1) /\
    steady_run r1 (w_nt w1) /\ cs_calls (w_cs w) [] (w_cs w1).
Proof.
  intros He Hr. destruct e as [i|i t| |f]; cbn [run_event calm_event] in *.
  - subst i. case_decide as Hn; [|exists w, r; eauto using cs_calls].
    destruct (begin_calm r w Hn Hr) as (w1 & r1 & E & H1 & _ & Hc). eauto.
  - destruct (r_states r !! i) as [st|] eqn:Est; [|exists w, r; eauto using cs_calls].
    destruct Hr as (Hv & Hothers & Hw). destruct (decide (i = 0%nat)) as [->|Hi]; [|by rewrite Hothers in Est].
    rewrite Est in Hw. destruct Hw as [Hst Hl]. rewrite Hv, Hpipelines.
    rewrite (bind_ok _ _ w w 0%nat) by done.
    destruct (runner_turn_steady st t Hst He w Hl) as (w1 & x & E & [Hx1 Hx2] & Hc & Hs).
    rewrite (bind_ok _ _ _ _ _ E), Hx1. eexists w1, _. split; [reflexivity|]. split; [|exact Hc].
    split; [done|]. cbn. rewrite lookup_insert_eq. split; [|split; [done | by eapply looping_same]].
    intros j Hj. rewrite lookup_insert_ne by done. by apply Hothers.
  - pose proof Hr as (Hv & Hothers & Hw).
    assert (Hshow : shows (w_nt w) (entry_path (stream_table s) "Source Index") (local_idx s)).
    { destruct (r_states r !! 0%nat); [apply Hw | apply Hw]. }
    set (I t := shows (T := T) t (entry_path (stream_table s) "Source Index") (local_idx s)).
    assert (I_same : forall t t', same name t t' -> I t -> I t').
    { intros t t' Hs Hi d. rewrite (proj1 (Hs _ stream_watched)). apply Hi. }
    destruct (main_turn_steady I I_same (fun t Ht => Ht) w Hshow) as (w1 & v1 & E & -> & Hc & Hs).
    rewrite Hv. exists w1, (mkRunning v (r_states r)).
    split; [|split; [|exact Hc]].
    + destruct (bind_inv _ _ _ _ _ E) as (w2 & v2 & E2 & E3). rewrite (bind_ok _ _ _ _ _ E2).
      destruct (bind_inv _ _ _ _ _ E3) as (w3 & [] & E4 & [= -> ->]). by rewrite (bind_ok _ _ _ _ _ E4).
    + eapply steady_run_same; [exact Hs|]. by split.
  - destruct (He w) as [Hc Hs]. exists (f w), r. split; [done|]. split; [|done]. by eapply steady_run_same.
Qed.

Lemma events_calm r es (w : world C T) :
  Forall calm_event es -> steady_run r (w_nt w) ->
  exists w1 r1, run_events putText pipe_init pipe_process numPipelines_address cap r es w = (w1, Ok r1) /\
    steady_run r1 (w_nt w1) /\ cs_calls (w_cs w) [] (w_cs w1).
Proof.
  intros Hes. revert r w. induction Hes as [|e es He _ IH]; intros r w Hr; cbn [run_events].
  - exists w, r. eauto using cs_calls.
  - destruct (event_calm r e w He Hr) as (w1 & r1 & E1 & H1 & C1).
    destruct (IH r1 w1 H1) as (w2 & r2 & E2 & H2 & C2).
    exists w2, r2. rewrite (bind_ok _ _ _ _ _ E1). split; [done|]. split; [done|].
    exact (cs_calls_app _ _ _ _ _ C1 C2).
Qed.

(** Joining the thread: it has begun then. *)
Lemma join_calm r (w : world C T) :
  steady_run r (w_nt w) ->
  exists w1 r1, join_runners pipe_init pipe_close cap r [0%nat] w = (w1, Ok r1) /\
    r_server r1 = v /\ looping (w_nt w1) /\ cs_calls (w_cs w) [] (w_cs w1).
Proof.
  intros Hr. cbn [join_runners].
  assert (Hbegun : exists w1 r1,
    (if decide (r_states r !! 0%nat = None) then begin_runner pipe_init cap r 0 else ret r) w = (w1, Ok r1) /\
    steady_run r1 (w_nt w1) /\ is_Some (r_states r1 !! 0%nat) /\ cs_calls (w_cs w) [] (w_cs w1)).
  { case_decide as Hn; [by apply begin_calm|]. exists w, r. repeat split; try apply Hr; [|constructor].
    by apply not_eq_None_Some. }
  destruct Hbegun as (w1 & r1 & E1 & (Hv & Ho & Hw) & [st Hst] & C1).
  rewrite (bind_ok _ _ _ _ _ E1), Hv, Hpipelines. rewrite (bind_ok _ _ w1 w1 0%nat) by done.
  rewrite Hst in Hw. destruct Hw as [_ Hl].
  destruct (proj1 (proj2 (Hpipe 0%nat)) w1 Logic.I) as (w2 & [] & E2 & _ & C2 & S2).
  exists w2, r1. rewrite (bind_ok _ _ _ _ _ E2). split; [done|]. split; [done|].
  split; [by eapply looping_same|]. exact (cs_calls_app _ _ _ _ _ C1 C2).
Qed.

End Loop.

(** * The program *)

Section Program.

Context {C T : Type} `{CS : CsCore C} `{NT : Tables T} `{NL : !TablesLaws T} `{NF : !TablesFrame T} `{CP : Capacity}.
Context (name : string).

(** Setting the only stream to the only pipeline. *)
Lemma stream_to_pipeline v s p (w : world C T) :
  streams v = [s] -> pipelines v = [0%nat] -> pipes v !! 0%nat = Some p -> local_idx s = 0 ->
  exists w', streams_to_pipeline v w = (w', Ok [with_idx s 1]) /\
    w_cs w' = cs_SetSource (server_handle s) (pipe_source p) (w_cs w) /\
    w_nt w' = nt_SetDouble (entry_path (stream_table s) "Source Index") (double_of_Z 1) (w_nt w).
Proof.
  intros Hss Hps Hp H0.
  assert (Hal : pipes_alive v) by (unfold pipes_alive; rewrite Hps; repeat constructor; by rewrite Hp).
  assert (Hsrc : source_of v 1 = Some (pipe_source p)).
  { unfold source_of. rewrite Hps. change (pipe_source <$> pipes v !! 0%nat = Some (pipe_source p)). by rewrite Hp. }
  unfold streams_to_pipeline. rewrite Hss. cbn [map_streams].
  set (w1 := World (cs_SetSource (server_handle s) (pipe_source p) (w_cs w))
               (nt_SetDouble (entry_path (stream_table s) "Source Index") (double_of_Z 1) (w_nt w))
               (w_bufs w) (w_out w)).
  assert (E1 : setPipelineIdx v s 1 w = (w1, Ok (with_idx s 1))).
  { unfold setPipelineIdx, setSourceIdx. change (wrapu 16 1) with 1. rewrite H0. cbn [Z.eqb negb].
    rewrite (bind_ok _ _ _ _ _ (route_eq v s 1 w Hal)), Hsrc. done. }
  rewrite Hps. eexists. split; [|split].
  - erewrite bind_ok; [|rewrite (bind_ok _ _ _ _ _ E1), (bind_ok _ _ w1 w1 0%nat) by done;
      rewrite (bind_ok _ _ w1 w1 p) by (unfold deref, lift; by rewrite Hp); reflexivity]. reflexivity.
  - done.
  - done.
Qed.

(** What compensation does to a server that has just been started. *)
Lemma compensate_ready v s p (w : world C T) :
  ready name v s p (w_nt w) -> local_idx s = 0 -> Z.of_nat (length (cameras v)) <= 2 ^ 15 ->
  match list_find (fun c => cs_IsConnected (m_handle c) (w_cs w) = true) (cameras v) with
  | Some (k, cam) =>
      exists w2 v2, compensate v w = (w2, Ok (v2, true)) /\
        ready name v2 (with_idx s 1) (attached (camera_store v, k) p) (w_nt w2) /\
        cs_calls (w_cs w) [(pipe_input p, m_handle cam); (server_handle s, pipe_source p)] (w_cs w2)
  | None => exists w2, compensate v w = (w2, Ok (v, false)) /\ w_cs w2 = w_cs w /\ w_nt w2 = w_nt w
  end.
Proof.
  intros [Hidle Hss Hps Hpipe Htab Hstr Hidx Hshow Hacc] H0 Hlen.
  assert (Hal : pipes_alive v) by (unfold pipes_alive; rewrite Hps; repeat constructor; by rewrite Hpipe).
  pose proof (compensate_eq v w Hal Hlen) as Hc.
  destruct (list_find _ (cameras v)) as [[k cam]|] eqn:Ef; [clear Hc|exact Hc].
  apply list_find_Some in Ef as (Hk & Hup & Hfirst). pose proof (lookup_lt_Some _ _ _ Hk) as Hlt.
  assert (Ef : list_find (fun c => cs_IsConnected (m_handle c) (w_cs w) = true) (cameras v) = Some (k, cam)).
  { by apply list_find_Some. }
  unfold compensate. rewrite (bind_ok _ _ _ _ _ (first_connected_eq 0 _ w)), Ef.
  cbn [fmap option_fmap option_map Nat.add fst]. rewrite active_index_small by lia.
  destruct (Z.eqb_spec (Z.of_nat k + 1) 0); [lia|]. cbn [negb].
  destruct (attach_pipelines_eq v k cam (pipelines v) w Hk Hal) as (w1 & E1 & C1 & N1).
  rewrite (bind_ok _ _ _ _ _ E1). unfold numPipelines. rewrite Hps. cbn [length Nat.ltb Nat.leb].
  rewrite Hps in C1. unfold ends_of in C1. cbn in C1. rewrite Hpipe in C1. cbn in C1.
  set (v1 := with_pipes v (attach_pipes (camera_store v, k) (pipes v) [0%nat])).
  assert (Hp1 : pipes v1 !! 0%nat = Some (attached (camera_store v, k) p)).
  { cbn. by rewrite lookup_alter_eq, Hpipe. }
  destruct (stream_to_pipeline v1 s (attached (camera_store v, k) p) w1) as (w3 & E2 & C3 & N3); try done.
  rewrite (bind_ok _ _ _ _ _ E2).
  eexists w3, _. split; [reflexivity|]. split.
  - split; try done.
    + intros d. rewrite N3. apply nt_get_set_double. rewrite N1. apply Hacc.
      destruct Hstr as [sn ->]. left. by exists sn.
    + intros key Hkey. rewrite N3. cbn. apply double_accepts. rewrite N1. by apply Hacc.
  - rewrite C3. cbn. rewrite C1. unfold attach_cs. cbn.
    eapply calls_other; [apply un_mode|]. do 2 apply calls_connect. constructor.
Qed.

Context (putText : Z -> string -> Z * Z -> Z).
Context (pipe_init pipe_close : nat -> M C T unit) (pipe_process : nat -> Z -> M C T Z).
Context (numPipelines_address : Z) (cap : double).
Context (Hpipe : calm_pipeline pipe_init pipe_close pipe_process name) (Hcap : cap_ok cap).

Abbreviation run_it := (run putText pipe_init pipe_close pipe_process numPipelines_address).

(** The loop connects nothing, and the stream stays where it is. *)
Lemma run_ready v s p es (w : world C T) :
  ready name v s p (w_nt w) -> Forall (calm_event name) es ->
  exists w', run_it v cap es w = (w', Ok (with_running (with_running v true) false, true)) /\
    shows (w_nt w') (entry_path (stream_table s) "Source Index") (local_idx s) /\
    shows (w_nt w') (pipe_entry name "Source Index") 1 /\
    cs_calls (w_cs w) [] (w_cs w').
Proof.
  intros [Hidle Hss Hps Hp Htab Hstr Hidx Hshow Hacc] Hes.
  set (v1 := with_running v true).
  assert (Hstatus : forall text (w : world C T), exists w', put_string server_table "Status" text w = (w', Ok tt) /\
    w_cs w' = w_cs w /\ same name (w_nt w) (w_nt w')).
  { intros. eexists. split; [reflexivity|]. split; [done|]. apply same_string. not_watched. }
  unfold run. rewrite Hidle. unfold numPipelines. rewrite Hps. cbn [negb andb length Nat.ltb Nat.leb].
  destruct (Hstatus "Running Multithreaded" w) as (w1 & E1 & C1 & S1). rewrite (bind_ok _ _ _ _ _ E1).
  destruct (proj1 Hcap) as [n Hn].
  rewrite (bind_ok _ _ w1 w1 n) by (unfold period, lift; by rewrite Hn).
  assert (Hrun : steady_run name cap v1 s (mkRunning v1 ∅) (w_nt w1)).
  { split; [done|]. split; [done|]. cbn. rewrite lookup_empty.
    eapply waiting_same; [exact Hstr | exact S1 | by split]. }
  destruct (events_calm putText pipe_init pipe_close pipe_process numPipelines_address name cap Hpipe Hcap
              v1 s p Hss Hps Hp Htab Hstr Hidx (mkRunning v1 ∅) es w1 Hes Hrun) as (w2 & r & E2 & H2 & C2).
  rewrite (bind_ok _ _ _ _ _ E2).
  destruct (join_calm pipe_init pipe_close pipe_process name cap Hpipe
              v1 s p Hps Hp Htab Hstr r w2 H2) as (w3 & r1 & E3 & Hv & (Hs & H1 & _) & C3).
  cbn [seq]. rewrite (bind_ok _ _ _ _ _ E3).
  destruct (Hstatus "Offline" w3) as (w4 & E4 & C4 & S4). rewrite (bind_ok _ _ _ _ _ E4), Hv.
  exists w4. split; [reflexivity|]. split; [|split].
  - intros d. rewrite (proj1 (S4 _ (stream_watched _ _ Hstr))). apply Hs.
  - intros d. rewrite (proj1 (S4 (pipe_entry name "Source Index") ltac:(right; by left))). apply H1.
  - rewrite C4, <- C1. exact (cs_calls_app _ _ _ _ _ C2 C3).
Qed.

(** C18. The example of README.md shows no picture.  Reading the configuration
    connects the own sink of each camera it makes to that camera, and that is all
    the program ever connects: neither the start-up nor the loop gives the stream
    or the pipeline a source, although the pipeline's entry "Source Index" says 1.  This is so as long as, once the
    configuration has been read, clients, other threads and the pipeline's methods
    connect nothing themselves and leave the watched entries alone: the streams'
    and the pipeline's "Source Index", and the pipeline's "Statistics Verbosity"
    and "Max FPS". *)
Theorem readme_shows_nothing `{WH : What} `{FS : Files} remove_disconnected file cams ok es (w0 w : world C T) :
  readConfig remove_disconnected [] file w0 = (w, Ok (cams, ok)) ->
  (forall key, watched name key -> nt_accepts KDouble key (w_nt w)) ->
  Forall (calm_event name) es ->
  exists w' v s, readme_main putText pipe_init pipe_close pipe_process numPipelines_address name cap
                   remove_disconnected file es w0 = (w', Ok v) /\
    length (cameras v) = length cams /\ streams v = [s] /\ local_idx s = 0 /\ length (pipelines v) = 1%nat /\
    shows (w_nt w') (pipe_entry name "Source Index") 1 /\
    cs_calls (w_cs w) [] (w_cs w') /\
    exists all, main_calls (w_cs w0) (own_link <$> all) (w_cs w') /\
      cams `sublist_of` all /\ (remove_disconnected = false -> all = cams).
Proof.
  intros Hread Ha Hes. unfold readme_main. rewrite (bind_ok _ _ _ _ _ Hread).
  destruct (start_up_ready name cams w Ha) as (w1 & v & s & p & E1 & Hready & H0 & Hl & C1).
  rewrite (bind_ok _ _ _ _ _ E1).
  destruct (run_ready v s p es w1 Hready Hes) as (w2 & E2 & _ & H1 & C2).
  rewrite (bind_ok _ _ _ _ _ E2). eexists w2, _, s. split; [reflexivity|].
  pose proof (cs_calls_app _ _ _ _ _ C1 C2) as C12. cbn in C12.
  destruct Hready as [_ Hss Hps _ _ _ _ _ _]. cbn. rewrite Hps. repeat (split; [done|]).
  destruct (readConfig_links _ _ _ _ _ _ Hread) as (l & (all & -> & Hs & Hall) & C0).
  exists all. split; [|by split]. rewrite <- (app_nil_r (own_link <$> all)).
  eapply main_calls_app; [exact C0 | by apply main_calls_of].
Qed.

(** C8. With [compensate] between the start-up and the loop the example works:
    the pipeline's input is connected to the first connected camera and the
    stream to the pipeline, in this order; the loop keeps both and makes no other
    connection.  Without a connected camera nothing is connected. *)
Theorem compensated_program_shows cams es (w : world C T) :
  (forall key, watched name key -> nt_accepts KDouble key (w_nt w)) ->
  Z.of_nat (length cams) <= 2 ^ 15 -> Forall (calm_event name) es ->
  exists w1 v1 s p, start_up cams name w = (w1, Ok v1) /\ cs_calls (w_cs w) [] (w_cs w1) /\
    streams v1 = [s] /\ pipes v1 !! 0%nat = Some p /\ pipelines v1 = [0%nat] /\
    exists w2 v2 w3, let found := list_find (fun c => cs_IsConnected (m_handle c) (w_cs w1) = true) (cameras v1) in
      compensate v1 w1 = (w2, Ok (v2, bool_decide (is_Some found))) /\
      run_it v2 cap es w2 = (w3, Ok (with_running (with_running v2 true) false, true)) /\
      streams v2 = [match found with Some _ => with_idx s 1 | None => s end] /\
      cs_calls (w_cs w1)
        (match found with
         | Some (k, cam) => [(pipe_input p, m_handle cam); (server_handle s, pipe_source p)]
         | None => []
         end) (w_cs w3).
Proof.
  intros Ha Hlen Hes.
  destruct (start_up_ready name cams w Ha) as (w1 & v1 & s & p & E1 & Hready & H0 & Hl & C1).
  pose proof Hready as [_ Hss Hps Hp _ _ _ _ _].
  exists w1, v1, s, p. do 5 (split; [done|]).
  pose proof (compensate_ready v1 s p w1 Hready H0 ltac:(lia)) as Hc.
  destruct (list_find _ (cameras v1)) as [[k cam]|].
  - destruct Hc as (w2 & v2 & E2 & Hready2 & C2).
    destruct (run_ready v2 _ _ es w2 Hready2 Hes) as (w3 & E3 & _ & _ & C3).
    exists w2, v2, w3. cbv zeta. split; [exact E2|]. split; [exact E3|].
    split; [apply Hready2|]. exact (cs_calls_app _ _ _ _ _ C2 C3).
  - destruct Hc as (w2 & E2 & C2 & N2).
    destruct (run_ready v1 s p es w2 ltac:(by rewrite N2) Hes) as (w3 & E3 & _ & _ & C3).
    exists w2, v1, w3. cbv zeta. split; [exact E2|]. split; [exact E3|]. split; [done|]. by rewrite <- C2.
Qed.

End Program.

(** * Concrete runs *)

#[local] Existing Instance doubling.

Definition calm_events : list (Event (C := sim_cs) (T := sim_nt)) :=
  [Began 0; MainTurn; RunnerTurn 0 (quiet_turn 1); MainTurn].

Lemma calm_events_ok name : Forall (calm_event name) calm_events.
Proof. repeat constructor; apply same_refl. Qed.

Lemma sim_pipeline_calm name : calm_pipeline sim_init sim_close sim_process name.
Proof. intros a. split; [apply steady_print|]. split; [apply steady_print|]. intros. by apply steady_ret. Qed.

Definition fifty : double := float_of_Z 50.
Lemma fifty_ok : cap_ok fifty.
Proof. split; vm_compute; by eexists. Qed.

Definition axon : string := instance_name "Axon Runner " 0.

Definition was_read : world sim_cs sim_nt * res (list VisionCamera * bool) :=
  readConfig (FS := sample_files) false [] FRC_CONFIG start_world.
Definition read_cams : list VisionCamera := match was_read.2 with Ok r => r.1 | _ => [] end.

(** Three cameras are configured, a stream and a pipeline are there, and nothing
    is connected but the cameras' own sinks. *)
Lemma readme_shows_nothing_witness :
  exists w' v, readme_main (FS := sample_files) no_text sim_init sim_close sim_process 4198400 axon fifty
                 false FRC_CONFIG calm_events start_world = (w', Ok v) /\
    length (cameras v) = 3%nat /\ cs_calls (w_cs was_read.1) [] (w_cs w') /\
    main_calls (w_cs start_world) (own_link <$> read_cams) (w_cs w').
Proof.
  destruct (readme_shows_nothing axon no_text sim_init sim_close sim_process 4198400 fifty
              (sim_pipeline_calm axon) fifty_ok (FS := sample_files) false FRC_CONFIG read_cams true calm_events
              start_world was_read.1) as (w' & v & s & E & Hl & _ & _ & _ & _ & Hc & all & Hm & _ & Hall).
  - vm_compute. reflexivity.
  - intros key _. left. change (kind_of <$> sim_vals (w_nt was_read.1) !! key = None).
    assert (Hn : sim_vals (w_nt was_read.1) = ∅) by (vm_compute; reflexivity). by rewrite Hn, lookup_empty.
  - apply calm_events_ok.
  - exists w', v. split; [exact E|]. split; [rewrite Hl; vm_compute; reflexivity|]. split; [exact Hc|]. by rewrite <- (Hall eq_refl).
Defined.

Definition plain_world : world sim_cs sim_nt := World sample_cs empty_nt zero_bufs [].

Lemma compensated_program_shows_witness :
  exists w1 v1, start_up [sample_cam 2] axon plain_world = (w1, Ok v1) /\ pipelines v1 = [0%nat] /\
    cs_calls (w_cs plain_world) [] (w_cs w1).
Proof.
  destruct (compensated_program_shows axon no_text sim_init sim_close sim_process 4198400 fifty
              (sim_pipeline_calm axon) fifty_ok [sample_cam 2] calm_events plain_world)
    as (w1 & v1 & s & p & E & Hc & _ & _ & Hp & _).
  - intros key _. by left.
  - cbn. lia.
  - apply calm_events_ok.
  - exists w1, v1. split; [exact E|]. split; [exact Hp | exact Hc].
Defined.

(** The calls of the compensated program that connect a sink, latest first: the
    stream's sink 3 shows the pipeline's source 4, whose sink 4 reads camera 2. *)
Example compensated_run :
  let prog := let* v := start_up [sample_cam 2] axon in
              let* r := compensate v in
              run no_text sim_init sim_close sim_process 4198400 r.1 fifty calm_events in
  match prog plain_world with
  | (w, Ok (v, true)) => omap (fun c => match c with CallSetSource a b => Some (a, b) | _ => None end) (sim_calls (w_cs w))
  | _ => []
  end = [(3, 4); (4, 2)].
Proof. vm_compute. reflexivity. Qed.
