(* ===== verification/Storage.v ===== *)
(** Where the cameras of [vs2::VisionServer] are, and who points at them: the
    listener of [VisionCamera::setNetworkAdjustable] keeps the address of its
    camera, a pipeline keeps the addresses of the matrices of the camera it is
    attached to ([lib-vs/src/core/visioncamera.cpp], [visionserver2.h]).  The
    cameras are elements of a vector, which moves them when it grows. *)

From S2P Require Import Prelude Floats Json World Instances Camera Config Server Registry Runner Program.
Local Open Scope Z_scope.
Local Open Scope vs_scope.

(** * Following the pointers *)

(** The camera at an address: there is none in a storage that was left. *)
Definition camera_at (v : VisionServer) (a : cam_addr) : res VisionCamera :=
  if decide (a.1 = camera_store v) then of_option (cameras v !! a.2) else Undefined.

Definition mat_header (v : VisionServer) (field : VisionCamera -> Mat_) (dflt : Mat_) (m : mat_ptr) : res Mat_ :=
  match m with DefaultPtr => Ok dflt | CameraPtr a => c ← camera_at v a; Ok (field c) end.

Definition getSrcMatrix (v : VisionServer) (p : BasePipe) : res Mat_ :=
  mat_header v camera_matrix default_matrix (src_matrix p).
Definition getSrcDistort (v : VisionServer) (p : BasePipe) : res Mat_ :=
  mat_header v distortion default_distort (src_distort p).

(** A value event for the listener of a camera of the server: it acts on the
    camera at the address the listener was created with. *)
Definition camera_event {C T} `{CS : CsCore C} (v : VisionServer) (c : VisionCamera)
    (key : string) (x : remote_value) : M C T unit :=
  let* self := lift (camera_at v (listener_self c)) in on_remote_value self key x.

(** * Live pointers *)

Definition live_ptr (v : VisionServer) (m : mat_ptr) : Prop :=
  match m with DefaultPtr => True | CameraPtr a => a.1 = camera_store v /\ (a.2 < numCameras v)%nat end.

(** Both matrices are of the same origin. *)
Definition live_pipe (v : VisionServer) (p : BasePipe) : Prop :=
  src_distort p = src_matrix p /\ live_ptr v (src_matrix p).

(** Every listener acts on the camera it belongs to, every pipeline has the
    defaults or the calibration of a camera of the server. *)
Record pointers_live (v : VisionServer) : Prop := {
  live_listeners i c : cameras v !! i = Some c -> listener_self c = (camera_store v, i);
  live_pipes a p : pipes v !! a = Some p -> live_pipe v p
}.

(** A pipeline as the constructors of [BasePipe] make it. *)
Definition default_pipe (p : BasePipe) : Prop := src_matrix p = DefaultPtr /\ src_distort p = DefaultPtr.

#[export] Instance mat_ptr_eq : EqDecision mat_ptr.
Proof. solve_decision. Defined.
#[export] Instance default_pipe_dec p : Decision (default_pipe p).
Proof. unfold default_pipe. apply _. Defined.

Section Operations.

Context {C T : Type} `{CS : CsCore C} `{NT : Tables T} `{CP : Capacity}.
Abbreviation prog := (M C T).

(** When [m] returns, its result satisfies [Q]. *)
Definition yields {A} (m : prog A) (Q : A -> Prop) : Prop := forall w w' a, m w = (w', Ok a) -> Q a.

(** The operation moves the server's cameras, or gives them up. *)
Definition moves (v : VisionServer) (o : Op (C := C) (T := T)) : bool :=
  negb (isRunning v) &&
  match o with
  | AddCamera _ => (room (camera_store v) <? numCameras v + 1)%nat
  | AddCameras cms => (room (camera_store v) <? numCameras v + length cms)%nat
  | SetCameras _ => true
  | _ => false
  end.

(** Somebody points at a camera, and still does when the operation has moved it:
    all cameras' listeners, unless the cameras are replaced, and the pipelines. *)
Definition pointed_at (v : VisionServer) (o : Op (C := C) (T := T)) : Prop :=
  match o with
  | SetCameras _ => exists a p, pipes v !! a = Some p /\ ~ default_pipe p
  | _ => cameras v <> []
  end.

(** The pipeline classes' constructors are those of [BasePipe]. *)
Definition makes_pipes (o : Op (C := C) (T := T)) : Prop :=
  match o with
  | Construct mk | AddPipelineOf mk => yields mk default_pipe
  | SetPipelinesOf mks => Forall (fun mk => yields mk default_pipe) mks
  | _ => True
  end.

End Operations.

(** * What a computation returns *)

Section Yields.

Context {C T : Type} `{CS : CsCore C} `{NT : Tables T} `{CP : Capacity}.
Abbreviation prog := (M C T).

Lemma yields_bind {A B} (m : prog A) (f : A -> prog B) P Q :
  yields m P -> (forall a, P a -> yields (f a) Q) -> yields (bind m f) Q.
Proof. intros Hm Hf w w' b (w1 & a & E1 & E2)%bind_inv. eapply Hf; [eapply Hm|]; eassumption. Qed.

Lemma yields_then {A B} (m : prog A) (f : A -> prog B) Q :
  (forall a, yields (f a) Q) -> yields (bind m f) Q.
Proof. intros Hf. eapply (yields_bind _ _ (fun _ => True)); [done | auto]. Qed.

Lemma yields_ret {A} (a : A) (Q : A -> Prop) : Q a -> yields (ret a : prog A) Q.
Proof. by intros Ha w w' b [= _ <-]. Qed.

Lemma yields_lift {A} (r : res A) : yields (lift r : prog A) (fun a => r = Ok a).
Proof. by intros w w' a (_ & ->)%lift_inv. Qed.

Lemma yields_weaken {A} (m : prog A) (P Q : A -> Prop) :
  yields m P -> (forall a, P a -> Q a) -> yields m Q.
Proof. intros Hm HPQ w w' a E. eapply HPQ, Hm, E. Qed.

Lemma yields_vec_at {A} (l : list A) i :
  yields (vec_at l i : prog A) (fun a => 0 <= i /\ l !! Z.to_nat i = Some a).
Proof.
  unfold vec_at. destruct (Z.ltb_spec i 0); [by intros ? ? ? [= _ ?]|].
  destruct (l !! Z.to_nat i) eqn:E; [|by intros ? ? ? [= _ ?]].
  apply yields_ret. by split.
Qed.

Lemma yields_vec_index {A} (l : list A) i :
  yields (vec_index l i : prog A) (fun a => 0 <= i /\ l !! Z.to_nat i = Some a).
Proof.
  unfold vec_index. eapply yields_weaken; [apply yields_lift|]. intros a.
  destruct (Z.ltb_spec i 0); [done|]. destruct (l !! Z.to_nat i); [|done]. by intros [= ->].
Qed.

Lemma yields_deref v a : yields (deref v a : prog BasePipe) (fun p => pipes v !! a = Some p).
Proof.
  unfold deref. eapply yields_weaken; [apply yields_lift|]. intros p.
  destruct (pipes v !! a); [|done]. by intros [= ->].
Qed.

End Yields.

#[export] Hint Resolve yields_vec_at yields_vec_index yields_deref : vsdb.

(** The cameras of a server and of a changed one are the same objects. *)
Ltac stays := solve [split; [done | split; [done | cbn [pipes with_pipelines with_streams with_running push_stream]; reflexivity]]].

(** Step over a computation, keeping what the hints know of its result or what
    is given. *)
Ltac yielding H := eapply yields_bind; [solve [eauto with vsdb] |]; intros ? H; cbv beta in H.
Ltac skipping := repeat (eapply yields_then; intros ?).

(** * Every operation but a move keeps the pointers live *)

Section Live.

Context {C T : Type} `{CS : CsCore C} `{NT : Tables T} `{CP : Capacity}.
Abbreviation prog := (M C T).

(** The cameras stay where they are; pipelines may go. *)
Definition still (v v' : VisionServer) : Prop :=
  cameras v' = cameras v /\ camera_store v' = camera_store v /\ pipes v' ⊆ pipes v.

Lemma live_still v v' : still v v' -> pointers_live v -> pointers_live v'.
Proof.
  intros (Hc & Hs & Hp) [Hl Hm]. split.
  - intros i c. rewrite Hc, Hs. apply Hl.
  - intros a p Ha. unfold live_pipe, live_ptr, numCameras. rewrite Hc, Hs.
    eapply Hm, lookup_weaken; eassumption.
Qed.

Lemma live_default v p : default_pipe p -> live_pipe v p.
Proof. intros [E1 E2]. unfold live_pipe. by rewrite E1, E2. Qed.

Lemma live_with_pipe v a p : pointers_live v -> live_pipe v p -> pointers_live (with_pipe v a p).
Proof.
  intros [Hl Hm] Hp. split; [done|]. intros b q. cbn.
  destruct (decide (a = b)) as [<-|]; [rewrite lookup_insert_eq; by intros [= <-] |].
  rewrite lookup_insert_ne by done. apply Hm.
Qed.

Lemma live_new_pipe v p heap : pointers_live v -> default_pipe p -> pointers_live (with_new_pipe v p heap).
Proof.
  intros [Hl Hm] Hp. split; [done|]. intros b q. cbn.
  destruct (decide (next_addr v = b)) as [<-|].
  - rewrite lookup_insert_eq. intros [= <-]. by apply live_default.
  - rewrite lookup_insert_ne by done. apply Hm.
Qed.

(** ** Cameras *)

Lemma adopt_self self c :
  yields (adopt self c : prog VisionCamera) (fun c' => listener_self c' = self).
Proof. unfold adopt, setNetworkAdjustable. cbv zeta. skipping. by apply yields_ret. Qed.

Lemma adopt_all_selves st i cms :
  yields (adopt_all st i cms : prog (list VisionCamera))
    (fun cms' => length cms' = length cms /\
       forall j c, cms' !! j = Some c -> listener_self c = (st, i + j)%nat).
Proof.
  revert i. induction cms as [|c cms IH]; intros i; cbn [adopt_all].
  { apply yields_ret. split; [done|]. by intros j c. }
  eapply yields_bind; [apply adopt_self|]. intros c1 H1.
  eapply yields_bind; [apply IH|]. intros cms1 [Hl H2]. apply yields_ret. cbn. split; [by rewrite Hl|].
  intros [|j] d; cbn; [intros [= <-]; by rewrite Nat.add_0_r, H1|].
  intros Hd. rewrite (H2 j d Hd). f_equal. lia.
Qed.

(** Cameras appended in place, or in a new storage when nothing points into the
    old one. *)
Lemma live_appended v st cms :
  pointers_live v -> st = camera_store v \/ cameras v = [] ->
  (forall j c, cms !! j = Some c -> listener_self c = (st, numCameras v + j)%nat) ->
  pointers_live (with_store v st (cameras v ++ cms)).
Proof.
  intros [Hl Hm] Hst Hnew. split.
  - cbn. intros i c Hc. apply lookup_app_Some in Hc as [Hi|[Hge Hi]].
    + destruct Hst as [->|Hnone]; [by apply Hl|]. by rewrite Hnone in Hi.
    + rewrite (Hnew _ _ Hi). unfold numCameras. f_equal. lia.
  - cbn. intros a p Ha.
    assert (Hptr : forall m, live_ptr v m -> live_ptr (with_store v st (cameras v ++ cms)) m).
    { intros [|b]; [done|]. cbn. unfold numCameras. cbn. rewrite length_app.
      destruct Hst as [-> | ->]; [|cbn; lia]. intros [-> H]. split; [done | lia]. }
    destruct (Hm a p Ha). split; auto.
Qed.

Lemma live_replaced v st cms :
  (forall a p, pipes v !! a = Some p -> default_pipe p) ->
  (forall j c, cms !! j = Some c -> listener_self c = (st, j)) ->
  pointers_live (with_store v st cms).
Proof.
  intros Hp Hnew. split; [by intros i c; apply Hnew|]. intros a p Ha. by apply live_default, (Hp a p).
Qed.

(** An operation that only an idle server performs. *)
Lemma yields_guarded (P : VisionServer -> Prop) v (m : prog (VisionServer * bool)) :
  P v -> (isRunning v = false -> yields m (fun r => P r.1)) ->
  yields (server_of (if negb (isRunning v) then m else ret (v, false))) P.
Proof.
  intros Hv Hm. unfold server_of. apply (yields_bind _ _ (fun r => P r.1)).
  - destruct (isRunning v); cbn; [by apply yields_ret | by apply Hm].
  - intros r Hr. by apply yields_ret.
Qed.

(** ** Pipelines *)

Lemma live_pipeExpander mks v :
  Forall (fun mk => yields mk default_pipe) mks -> pointers_live v ->
  yields (pipeExpander v mks : prog (VisionServer * nat)) (fun r => pointers_live r.1).
Proof.
  revert v. induction mks as [|mk mks IH]; intros v Hmks Hv; cbn [pipeExpander]; [by apply yields_ret|].
  apply Forall_cons in Hmks as [Hmk Hmks]. unfold allocate.
  eapply (yields_bind _ _ pointers_live).
  { eapply yields_bind; [exact Hmk|]. intros p Hp. apply yields_ret. by apply live_new_pipe. }
  intros v1 Hv1. eapply yields_bind; [by apply IH|]. intros r Hr. by apply yields_ret.
Qed.

Lemma live_setCamera v p i cam :
  (i < numCameras v)%nat -> yields (setCamera p (camera_store v, i) cam : prog BasePipe) (live_pipe v).
Proof. intros Hi. unfold setCamera. skipping. by apply yields_ret. Qed.

Lemma live_attach v p i cam :
  cameras v !! i = Some cam -> yields (setCamera p (camera_store v, i) cam : prog BasePipe) (live_pipe v).
Proof. intros Hi. apply live_setCamera. by eapply lookup_lt_Some. Qed.

Lemma live_setPipeline v p q : live_pipe v q -> yields (setPipeline p q : prog BasePipe) (live_pipe v).
Proof. intros Hq. unfold setPipeline. skipping. by apply yields_ret. Qed.

Lemma live_setSource v p src : yields (setSource p src : prog BasePipe) (live_pipe v).
Proof. unfold setSource. skipping. by apply yields_ret. Qed.

Lemma live_attach_pipelines active ps v :
  pointers_live v -> yields (attach_pipelines v active ps : prog VisionServer) pointers_live.
Proof.
  revert v. induction ps as [|a ps IH]; intros v Hv; cbn [attach_pipelines]; [by apply yields_ret|].
  yielding Hp. yielding Hcam. destruct Hcam as [_ Hcam].
  eapply yields_bind; [by eapply live_attach|]. intros p1 Hp1. skipping.
  apply IH. by apply live_with_pipe.
Qed.

Lemma live_compensate v :
  pointers_live v -> yields (compensate v : prog (VisionServer * bool)) (fun r => pointers_live r.1).
Proof.
  intros Hv. unfold compensate. apply yields_then. intros o. cbv zeta.
  destruct (negb _); [|skipping; by apply yields_ret].
  eapply yields_bind; [by apply live_attach_pipelines|]. intros v1 Hv1. skipping.
  apply yields_ret. apply (live_still v1); [stays | exact Hv1].
Qed.

(** ** Streams *)

Lemma still_addStream_with v mk :
  yields (server_of (addStream_with v mk) : prog VisionServer) (still v).
Proof.
  apply yields_guarded; [stays|]. intros _. skipping. apply yields_ret. stays.
Qed.

Lemma still_push_streams mks v : yields (push_streams v mks : prog VisionServer) (still v).
Proof.
  revert v. induction mks as [|mk mks IH]; intros v; cbn [push_streams]; [apply yields_ret; stays|].
  apply yields_then. intros s. apply (IH (push_stream v s)).
Qed.

Lemma still_addStreams_with v mks :
  yields (server_of (addStreams_with v mks) : prog VisionServer) (still v).
Proof.
  apply yields_guarded; [stays|]. intros _.
  eapply yields_bind; [apply still_push_streams|]. intros v1 Hv1. by apply yields_ret.
Qed.

Lemma still_sync_all v : yields (sync_all v : prog VisionServer) (still v).
Proof. unfold sync_all. skipping. apply yields_ret. stays. Qed.

Lemma still_select v k i : yields (select_stream v k i : prog VisionServer) (still v).
Proof.
  unfold select_stream. destruct (streams v !! k); [|by intros w w' v' [= _ ?]].
  skipping. by apply yields_ret.
Qed.

Lemma live_from_still v (m : prog VisionServer) : pointers_live v -> yields m (still v) -> yields m pointers_live.
Proof. intros Hv Hm. eapply yields_weaken; [exact Hm|]. intros v' Hs. by eapply live_still. Qed.

(** ** All operations *)

Lemma grown_in_place v n : (room (camera_store v) <? numCameras v + n)%nat = false -> grown_store v n = camera_store v.
Proof. unfold grown_store. by intros ->. Qed.

Lemma not_moved v n :
  isRunning v = false ->
  ~ (negb (isRunning v) && (room (camera_store v) <? numCameras v + n)%nat = true /\ cameras v <> []) ->
  grown_store v n = camera_store v \/ cameras v = [].
Proof.
  intros -> Hm. cbn in Hm. destruct (room (camera_store v) <? numCameras v + n)%nat eqn:E.
  - right. destruct (cameras v); [done|]. exfalso. by apply Hm.
  - left. by apply grown_in_place.
Qed.

Lemma cleared_still v ps : still v (with_pipelines (clear_heap v) ps).
Proof.
  repeat split. cbn. induction (heap_allocated v) as [|a l IH]; cbn; [done|].
  etrans; [apply delete_subseteq | exact IH].
Qed.

(** A list of pipelines by classes: the last ones of the owned ones. *)
Lemma live_with_pipelines v ps : pointers_live v -> pointers_live (with_pipelines v ps).
Proof. apply live_still. stays. Qed.

Lemma live_AddPipelineOf v mk :
  pointers_live v -> yields mk default_pipe -> yields (perform v (AddPipelineOf mk) : prog VisionServer) pointers_live.
Proof.
  intros Hv Hmk. apply yields_guarded; [done|]. intros _. unfold allocate.
  eapply (yields_bind _ _ pointers_live); [|intros v1 Hv1; apply yields_ret; by apply live_with_pipelines].
  eapply yields_bind; [exact Hmk|]. intros p Hp. apply yields_ret. by apply live_new_pipe.
Qed.

Lemma live_AddPipelinesOf v mks :
  pointers_live v -> yields (perform v (AddPipelinesOf mks) : prog VisionServer) pointers_live.
Proof.
  intros Hv w w' v' (w1 & r & (_ & _ & ->)%addPipelines_of_refused & E)%bind_inv.
  by injection E as _ <-.
Qed.

Lemma live_SetPipelinesOf v mks :
  pointers_live v -> Forall (fun mk => yields mk default_pipe) mks ->
  yields (perform v (SetPipelinesOf mks) : prog VisionServer) pointers_live.
Proof.
  intros Hv Hmks. apply yields_guarded; [done|]. intros _. cbv zeta.
  eapply yields_bind; [apply live_pipeExpander; [done|]; eapply live_still; [apply cleared_still | done]|].
  intros r Hr. apply yields_ret. by apply live_with_pipelines.
Qed.

Lemma live_AddCameras v cms :
  pointers_live v -> ~ (moves v (AddCameras (C := C) (T := T) cms) = true /\ cameras v <> []) ->
  yields (perform v (AddCameras cms) : prog VisionServer) pointers_live.
Proof.
  intros Hv Hm. apply yields_guarded; [done|]. intros Hr.
  pose proof (not_moved v (length cms) Hr Hm) as Hst. cbv zeta.
  eapply yields_bind; [apply adopt_all_selves|]. intros cms1 [_ Hn]. skipping. apply yields_ret.
  by apply live_appended.
Qed.

Lemma live_AddCamera v c :
  pointers_live v -> ~ (moves v (AddCamera (C := C) (T := T) c) = true /\ cameras v <> []) ->
  yields (perform v (AddCamera c) : prog VisionServer) pointers_live.
Proof.
  intros Hv Hm. apply yields_guarded; [done|]. intros Hr.
  pose proof (not_moved v 1 Hr Hm) as Hst. cbv zeta.
  eapply yields_bind; [apply adopt_self|]. intros c1 Hn. skipping. apply yields_ret.
  apply live_appended; [done | done |]. intros [|j] d; [|done]. intros [= <-]. by rewrite Nat.add_0_r, Hn.
Qed.

Lemma live_SetCameras v cms :
  pointers_live v -> ~ (moves v (SetCameras (C := C) (T := T) cms) = true /\
    exists a p, pipes v !! a = Some p /\ ~ default_pipe p) ->
  yields (perform v (SetCameras cms) : prog VisionServer) pointers_live.
Proof.
  intros Hv Hm. apply yields_guarded; [done|]. intros Hr. apply yields_then. intros _. cbv zeta.
  eapply yields_bind; [apply adopt_all_selves|]. intros cms1 [_ Hn]. skipping. apply yields_ret.
  apply live_replaced; [|exact Hn]. intros b p Hp.
  destruct (decide (default_pipe p)) as [|Hd]; [done|]. exfalso. apply Hm. unfold moves. rewrite Hr. eauto.
Qed.

(** Each operation that does not move cameras somebody points at. *)
Lemma every_op_live v o :
  pointers_live v -> makes_pipes o -> ~ (moves v o = true /\ pointed_at v o) ->
  yields (perform v o : prog VisionServer) pointers_live.
Proof.
  intros Hv Hmk Hm. destruct o; cbn [makes_pipes pointed_at] in *;
    try solve [by apply live_AddCamera | by apply live_AddCameras | by apply live_SetCameras
              | by apply live_AddPipelineOf | by apply live_AddPipelinesOf | by apply live_SetPipelinesOf
              | apply (live_from_still v _ Hv);
                first [apply still_addStream_with | apply still_addStreams_with | apply still_select | apply still_sync_all]].
  - unfold perform, construct. eapply yields_bind; [exact Hmk|]. intros p Hp. apply yields_ret. by apply live_new_pipe.
  - apply yields_guarded; [done|]. intros _. skipping. apply yields_ret. by apply live_with_pipelines.
  - apply yields_guarded; [done|]. intros _. skipping. apply yields_ret. by apply live_with_pipelines.
  - apply yields_guarded; [done|]. intros _. skipping. apply yields_ret. eapply live_still; [apply cleared_still | done].
  - unfold perform, server_of. eapply yields_bind; [by apply live_compensate|]. intros r Hr. by apply yields_ret.
  - apply yields_ret. apply (live_still v); [stays | done].
Qed.

End Live.

(** * The loops keep the pointers live *)

Section Loops.

Context {C T : Type} `{CS : CsCore C} `{NT : Tables T} `{CP : Capacity}.
Abbreviation prog := (M C T).
Context (putText : Z -> string -> Z * Z -> Z).
Context (pipe_init pipe_close : nat -> prog unit) (pipe_process : nat -> Z -> prog Z).
Context (numPipelines_address : Z).

Lemma live_runner_source v a p idx :
  pointers_live v -> yields (runner_source numPipelines_address v a p idx : prog VisionServer) pointers_live.
Proof.
  intros Hv. unfold runner_source. destruct (_ && _).
  2: destruct (_ && _).
  3: { by apply yields_ret. }
  - yielding Hcam. eapply yields_bind; [eapply live_attach, Hcam|]. intros p1 Hp1.
    apply yields_ret. by apply live_with_pipe.
  - yielding Hb. yielding Hq. eapply yields_bind; [eapply (live_setPipeline v), live_pipes; [exact Hv | exact Hq]|].
    intros p1 Hp1. apply yields_ret. by apply live_with_pipe.
Qed.

Lemma live_runner_turn v a s t :
  pointers_live v ->
  yields (pipelineRunner_turn putText pipe_process numPipelines_address v a s t) (fun r => pointers_live r.1).
Proof.
  intros Hv. unfold pipelineRunner_turn. do 2 (apply yields_then; intros ?).
  apply (yields_bind _ _ (fun r : VisionServer * Z => pointers_live r.1)).
  - unfold runner_select. skipping. destruct (negb _); [|by apply yields_ret].
    eapply yields_bind; [by apply live_runner_source|]. intros v1 Hv1. by apply yields_ret.
  - intros r Hr. cbv zeta. skipping. by apply yields_ret.
Qed.

Lemma live_begin_runner cap r i :
  pointers_live (r_server r) ->
  yields (begin_runner pipe_init cap r i) (fun r' => pointers_live (r_server r')).
Proof. intros Hr. unfold begin_runner. skipping. by apply yields_ret. Qed.

Lemma live_run_event cap r e :
  pointers_live (r_server r) ->
  yields (run_event putText pipe_init pipe_process numPipelines_address cap r e)
    (fun r' => pointers_live (r_server r')).
Proof.
  intros Hr. destruct e as [i|i t| |f]; cbn [run_event].
  - destruct (decide _); [by apply live_begin_runner | by apply yields_ret].
  - destruct (r_states r !! i) as [s|]; [|by apply yields_ret]. apply yields_then. intros a.
    eapply yields_bind; [by apply live_runner_turn|]. intros x Hx. by apply yields_ret.
  - eapply yields_bind; [apply still_sync_all|]. intros v1 Hv1. skipping.
    apply yields_ret. by eapply live_still.
  - by intros w w' r' [= _ <-].
Qed.

Lemma live_run_events cap es r :
  pointers_live (r_server r) ->
  yields (run_events putText pipe_init pipe_process numPipelines_address cap r es)
    (fun r' => pointers_live (r_server r')).
Proof.
  revert r. induction es as [|e es IH]; intros r Hr; cbn [run_events]; [by apply yields_ret|].
  eapply yields_bind; [by apply live_run_event|]. intros r1 Hr1. by apply IH.
Qed.

Lemma live_join_runners cap ix r :
  pointers_live (r_server r) ->
  yields (join_runners pipe_init pipe_close cap r ix) (fun r' => pointers_live (r_server r')).
Proof.
  revert r. induction ix as [|i ix IH]; intros r Hr; cbn [join_runners]; [by apply yields_ret|].
  apply (yields_bind _ _ (fun r' => pointers_live (r_server r'))).
  - destruct (decide _); [by apply live_begin_runner | by apply yields_ret].
  - intros r1 Hr1. skipping. by apply IH.
Qed.

Lemma live_running v b : pointers_live v -> pointers_live (with_running v b).
Proof. intros Hv. apply (live_still v); [stays | done]. Qed.

Lemma live_run v cap es :
  pointers_live v ->
  yields (run putText pipe_init pipe_close pipe_process numPipelines_address v cap es) (fun r => pointers_live r.1).
Proof.
  intros Hv. unfold run. destruct (_ && _); [|by apply yields_ret]. cbv zeta. do 2 (apply yields_then; intros ?).
  eapply yields_bind; [apply live_run_events; by apply live_running|]. intros r Hr.
  eapply yields_bind; [by apply live_join_runners|]. intros r1 Hr1. skipping.
  apply yields_ret. by apply live_running.
Qed.

Lemma live_single_turn v s t :
  pointers_live v -> yields (single_turn putText pipe_init pipe_close pipe_process v s t) (fun r => pointers_live r.1).
Proof.
  intros Hv. unfold single_turn. apply yields_then. intros _.
  apply (yields_bind _ _ (fun r : VisionServer * Z => pointers_live r.1)).
  { unfold single_pipeline. skipping. destruct (_ && _); [|by apply yields_ret]. skipping.
    apply yields_ret. apply (live_still v); [stays | done]. }
  intros vp Hvp. apply (yields_bind _ _ (fun r : VisionServer * Z => pointers_live r.1)).
  { unfold single_camera. skipping. destruct (negb _); [|by apply yields_ret].
    destruct (_ && _); [|by apply yields_ret]. apply yields_then. intros ap.
    yielding Hcam. eapply yields_bind; [eapply live_attach, Hcam|]. intros p1 Hp1.
    apply yields_ret. by apply live_with_pipe. }
  intros vc Hvc. eapply yields_bind; [apply still_sync_all|]. intros v1 Hv1. skipping.
  apply yields_ret. by eapply live_still.
Qed.

Lemma live_single_turns ts v s :
  pointers_live v -> yields (single_turns putText pipe_init pipe_close pipe_process v s ts) (fun r => pointers_live r.1).
Proof.
  revert v s. induction ts as [|t ts IH]; intros v s Hv; cbn [single_turns]; [by apply yields_ret|].
  eapply yields_bind; [by apply live_single_turn|]. intros r Hr. by apply IH.
Qed.

Lemma live_runSingle v cap ts :
  pointers_live v -> yields (runSingle putText pipe_init pipe_close pipe_process v cap ts) (fun r => pointers_live r.1).
Proof.
  intros Hv. unfold runSingle. destruct (_ && _); [|by apply yields_ret]. cbv zeta.
  do 8 (apply yields_then; intros ?).
  eapply yields_bind; [apply live_single_turns; by apply live_running|]. intros r Hr. skipping.
  apply yields_ret. by apply live_running.
Qed.

Lemma live_runRaw v ts : pointers_live v -> yields (runRaw v ts) (fun r => pointers_live r.1).
Proof.
  intros Hv. unfold runRaw. destruct (negb _); [|by apply yields_ret]. apply yields_then. intros _.
  eapply (yields_bind _ _ pointers_live); [|intros v1 Hv1; skipping; apply yields_ret; by apply live_running].
  generalize (live_running v true Hv). generalize (with_running v true). clear v Hv.
  induction ts as [|t ts IH]; intros v Hv; cbn [raw_turns]; [by apply yields_ret|]. apply yields_then. intros _.
  eapply yields_bind; [apply still_sync_all|]. intros v1 Hv1. apply IH. by eapply live_still.
Qed.

End Loops.

(** * Programs *)

Section Programs.

Context {C T : Type} `{CS : CsCore C} `{NT : Tables T} `{CP : Capacity}.
Abbreviation prog := (M C T).
Context (putText : Z -> string -> Z * Z -> Z).
Context (pipe_init pipe_close : nat -> prog unit) (pipe_process : nat -> Z -> prog Z).
Context (numPipelines_address : Z).

(** The servers of the programs that do not move cameras somebody points at, at
    any point of their lives: between two operations, or between two turns of
    the threads of [run] or of the loop of [runSingle].  Anything may happen in
    the world in between. *)
Inductive settled : VisionServer -> Prop :=
| settled_first (w w' : world C T) v : VisionServer_new w = (w', Ok v) -> settled v
| settled_op v o (w w' : world C T) v' :
    settled v -> makes_pipes o -> ~ (moves v o = true /\ pointed_at v o) ->
    perform v o w = (w', Ok v') -> settled v'
| settled_runner v a s t (w w' : world C T) r :
    settled v -> pipelineRunner_turn putText pipe_process numPipelines_address v a s t w = (w', Ok r) ->
    settled r.1
| settled_single v s t (w w' : world C T) r :
    settled v -> single_turn putText pipe_init pipe_close pipe_process v s t w = (w', Ok r) -> settled r.1.

Lemma first_live (w w' : world C T) v : VisionServer_new w = (w', Ok v) -> pointers_live v.
Proof.
  intros E. assert (v = mkServer [] [] [] [] false false ∅ 0 0) as -> by (by injection E as _ <-).
  split; [done|]. intros a p Ha. done.
Qed.

Lemma settled_live v : settled v -> pointers_live v.
Proof.
  induction 1 as [w w' v E | v o w w' v' _ IH Hmk Hm E | v a s t w w' r _ IH E | v s t w w' r _ IH E].
  - by eapply first_live.
  - by eapply every_op_live.
  - by eapply live_runner_turn.
  - by eapply live_single_turn.
Qed.

Lemma camera_at_live v i c : cameras v !! i = Some c -> camera_at v (camera_store v, i) = Ok c.
Proof. intros Hi. unfold camera_at. cbn. rewrite decide_True by done. by rewrite Hi. Qed.

Lemma camera_at_left v st i : st <> camera_store v -> camera_at v (st, i) = Undefined.
Proof. intros Hne. unfold camera_at. cbn. by rewrite decide_False. Qed.

Lemma live_event v i c key x :
  pointers_live v -> cameras v !! i = Some c ->
  camera_event v c key x = (on_remote_value c key x : prog unit).
Proof.
  intros Hv Hi. unfold camera_event. rewrite (live_listeners v Hv i c Hi), (camera_at_live v i c Hi). done.
Qed.

Lemma live_calibration v p :
  live_pipe v p ->
  (getSrcMatrix v p, getSrcDistort v p) = (Ok default_matrix, Ok default_distort) \/
  exists c, c ∈ cameras v /\ (getSrcMatrix v p, getSrcDistort v p) = (Ok (camera_matrix c), Ok (distortion c)).
Proof.
  unfold live_pipe, getSrcMatrix, getSrcDistort. intros [-> Hm]. destruct (src_matrix p) as [|[st i]]; [by left|].
  right. cbn in Hm. destruct Hm as [-> Hi]. apply lookup_lt_is_Some in Hi as [c Hc].
  exists c. split; [by eapply list_elem_of_lookup_2|]. cbn. by rewrite (camera_at_live v i c Hc).
Qed.

(** C17. As long as a program does not make the vector of cameras move once
    something points into it, then at every point of its life - between two
    operations of the server, between two turns of the pipelines' threads or of
    the single loop, and after a whole [run], [runSingle] or [runRaw] - the event
    of every camera's listener acts on that camera, and every pipeline reads the
    default matrices or both matrices of one camera of the server. *)
Theorem pointers_stay_live v :
  settled v ->
  (forall i c key x, cameras v !! i = Some c -> camera_event v c key x = (on_remote_value c key x : prog unit)) /\
  (forall a p, pipes v !! a = Some p ->
     (getSrcMatrix v p, getSrcDistort v p) = (Ok default_matrix, Ok default_distort) \/
     exists c, c ∈ cameras v /\
       (getSrcMatrix v p, getSrcDistort v p) = (Ok (camera_matrix c), Ok (distortion c))) /\
  (forall cap es ts, Forall (fun m : prog (VisionServer * bool) => yields m (fun r => pointers_live r.1))
     [run putText pipe_init pipe_close pipe_process numPipelines_address v cap es;
      runSingle putText pipe_init pipe_close pipe_process v cap ts; runRaw v ts]).
Proof.
  intros Hs. pose proof (settled_live v Hs) as Hv. split; [|split].
  - intros i c key x. by apply live_event.
  - intros a p Ha. by eapply live_calibration, live_pipes.
  - intros cap es ts. apply Forall_cons; split; [by apply live_run|].
    apply Forall_cons; split; [by apply live_runSingle|]. apply Forall_singleton. by apply live_runRaw.
Qed.

(** ** The example program *)

Lemma settled_server_of v o (m : prog (VisionServer * bool)) (w w' : world C T) r :
  settled v -> makes_pipes o -> ~ (moves v o = true /\ pointed_at v o) ->
  perform v o = server_of m -> m w = (w', Ok r) -> settled r.1.
Proof.
  intros Hv Hmk Hm Ep E. eapply settled_op; [exact Hv | exact Hmk | exact Hm |]. rewrite Ep.
  unfold server_of. rewrite (bind_ok _ _ _ _ _ E). reflexivity.
Qed.

Lemma new_pipe_default name : yields (new_pipe name : prog BasePipe) default_pipe.
Proof. unfold new_pipe. skipping. by apply yields_ret. Qed.

(** A program that registers its cameras with one call is settled, whatever the
    capacity of the vector. *)
Lemma start_up_settled cams name : yields (start_up cams name : prog VisionServer) settled.
Proof.
  intros w w' v (w0 & v0 & E0 & H)%bind_inv.
  assert (Hnone : cameras v0 = []) by (by injection E0 as _ <-).
  pose proof (settled_first w w0 v0 E0) as H0.
  apply bind_inv in H as (w1 & r1 & E1 & H).
  assert (H1 : settled r1.1).
  { eapply (settled_server_of v0 (AddCameras cams)); [done | done | by intros [_ []] | reflexivity | exact E1]. }
  apply bind_inv in H as (w2 & r2 & E2 & H).
  assert (H2 : settled r2.1).
  { eapply (settled_server_of r1.1 (AddStreamNamed "vision")); [done | done | | reflexivity | exact E2].
    unfold moves. rewrite andb_false_r. by intros [? _]. }
  apply bind_inv in H as (w3 & v3 & E3 & H).
  assert (H3 : settled v3).
  { eapply (settled_op r2.1 (Construct (new_pipe name))); [done | apply new_pipe_default | | exact E3].
    unfold moves. rewrite andb_false_r. by intros [? _]. }
  apply bind_inv in H as (w4 & r4 & E4 & H). injection H as _ <-.
  eapply (settled_server_of v3 (AddPipeline (last_addr v3))); [done | done | | reflexivity | exact E4].
  unfold moves. rewrite andb_false_r. by intros [? _].
Qed.

(** ** Moving them *)

(** What an operation that moves the cameras returns. *)
Lemma moving_result v o (w w' : world C T) v' :
  moves v o = true -> perform v o w = (w', Ok v') ->
  camera_store v' = S (camera_store v) /\ pipes v' = pipes v /\
  match o with SetCameras _ => True | _ => forall i c, cameras v !! i = Some c -> cameras v' !! i = Some c end.
Proof.
  unfold moves. intros [Hr Hm]%andb_true_iff. apply negb_true_iff in Hr.
  assert (Hres : forall v1 (m : prog (VisionServer * bool)),
    yields m (fun r => exists st cms, r.1 = with_store v st cms /\ st = S (camera_store v) /\
       match o with SetCameras _ => True | _ => exists cms', cms = cameras v ++ cms' end) ->
    server_of m w = (w', Ok v1) -> 
    camera_store v1 = S (camera_store v) /\ pipes v1 = pipes v /\
    match o with SetCameras _ => True | _ => forall i c, cameras v !! i = Some c -> cameras v1 !! i = Some c end).
  { intros v1 m Hy (w1 & r & E1 & E2)%bind_inv. destruct (Hy _ _ _ E1) as (st & cms & Er & -> & Ho).
    injection E2 as _ <-. rewrite Er. cbn. do 2 (split; [done|]).
    destruct o; try done; destruct Ho as [cms' ->]; intros i d Hi; by apply lookup_app_l_Some. }
  destruct o; try done; cbn [perform]; apply Hres; unfold addCamera, addCameras, setCameras, grown_store;
    rewrite Hr, ?Hm; cbn [negb]; cbv zeta; skipping; apply yields_ret; eauto 10.
Qed.

(** C19. An [addCamera] or [addCameras] for which the vector must grow leaves the
    listener of every camera that was already there on freed memory: its next
    event is undefined, although the camera is still registered.  The same, and
    [setCameras], hold for every pipeline that was attached to a camera: reading
    its calibration is undefined. *)
Theorem cameras_moved v o (w w' : world C T) v' :
  settled v -> moves v o = true -> perform v o w = (w', Ok v') ->
  match o with
  | SetCameras _ => True
  | _ => forall i c, cameras v !! i = Some c ->
      cameras v' !! i = Some c /\
      forall key x w1, camera_event v' c key x w1 = ((w1, Undefined) : world C T * res unit)
  end /\
  (forall a p, pipes v !! a = Some p -> ~ default_pipe p ->
     pipes v' !! a = Some p /\ getSrcMatrix v' p = Undefined /\ getSrcDistort v' p = Undefined).
Proof.
  intros Hs Hm E. pose proof (settled_live v Hs) as Hv.
  destruct (moving_result v o w w' v' Hm E) as (Est & Ep & Hc).
  assert (Hleft : forall i, camera_at v' (camera_store v, i) = Undefined)
    by (intros i; apply camera_at_left; rewrite Est; lia).
  split.
  - destruct o; try done; intros j d Hj; (split; [by apply Hc|]); intros key x w1;
      unfold camera_event; by rewrite (live_listeners v Hv j d Hj), Hleft.
  - intros a p Ha Hd. rewrite Ep. split; [done|].
    destruct (live_pipes v Hv a p Ha) as [Edist Hptr]. unfold getSrcMatrix, getSrcDistort.
    destruct (src_matrix p) as [|[st i]] eqn:Em; [exfalso; apply Hd; by split|].
    rewrite Edist. cbn in Hptr. destruct Hptr as [-> _]. cbn. by rewrite Hleft.
Qed.

End Programs.

(** * Concrete programs *)

#[local] Existing Instance doubling.

Abbreviation settled_sim := (settled no_text sim_init sim_close sim_process 4198400).

(** The program of one camera, compensated. *)
Definition started : VisionServer :=
  match start_up [sample_cam 2] axon sample_world with (_, Ok v) => v | _ => first_server end.
Definition attached_program : VisionServer := performed started Compensate.

Lemma started_settled : settled_sim started.
Proof.
  apply (start_up_settled (C := sim_cs) (T := sim_nt) no_text sim_init sim_close sim_process 4198400
           [sample_cam 2] axon sample_world
           (start_up [sample_cam 2] axon sample_world).1).
  vm_compute. reflexivity.
Qed.

Lemma attached_settled : settled_sim attached_program.
Proof.
  refine (settled_op no_text sim_init sim_close sim_process 4198400 started Compensate sample_world
            (perform started Compensate sample_world).1 _ started_settled I _ _).
  - intros [H _]. vm_compute in H. discriminate.
  - apply performed_eq. vm_compute. reflexivity.
Qed.

(** Its camera's listener acts on it and its pipeline reads its calibration. *)
Lemma pointers_stay_live_witness :
  (exists c, cameras attached_program !! 0%nat = Some c /\ forall key x,
     camera_event attached_program c key x = (on_remote_value c key x : M sim_cs sim_nt unit)) /\
  exists p, pipes attached_program !! 0%nat = Some p /\
    bool_decide (src_matrix p = CameraPtr (1, 0)%nat) = true /\
    exists m d, (getSrcMatrix attached_program p, getSrcDistort attached_program p) = (Ok m, Ok d).
Proof.
  destruct (pointers_stay_live no_text sim_init sim_close sim_process 4198400 attached_program attached_settled)
    as (He & Hp & _).
  split.
  - destruct (cameras attached_program !! 0%nat) as [c|] eqn:Ec; [|vm_compute in Ec; discriminate].
    exists c. split; [reflexivity|]. intros key x. exact (He 0%nat c key x Ec).
  - assert (Hb : forall p, pipes attached_program !! 0%nat = Some p ->
             bool_decide (src_matrix p = CameraPtr (1, 0)%nat) = true).
    { intros p Ep. vm_compute in Ep. injection Ep as <-. vm_compute. reflexivity. }
    destruct (pipes attached_program !! 0%nat) as [p|] eqn:Ep; [|vm_compute in Ep; discriminate].
    exists p. split; [reflexivity|]. split; [exact (Hb p eq_refl)|].
    destruct (Hp 0%nat p Ep) as [E|(c & _ & E)]; eexists _, _; exact E.
Defined.

(** A second camera moves the first: the capacity of the storage is one. *)
Lemma cameras_moved_witness :
  let v' := performed attached_program (AddCamera (sample_cam 1)) in
  (exists c, cameras v' !! 0%nat = Some c /\ forall key x (w1 : world sim_cs sim_nt),
     camera_event v' c key x w1 = (w1, Undefined)) /\
  exists p, pipes v' !! 0%nat = Some p /\ getSrcMatrix v' p = Undefined.
Proof.
  assert (E : perform attached_program (AddCamera (sample_cam 1)) sample_world =
    ((perform attached_program (AddCamera (sample_cam 1)) sample_world).1,
     Ok (performed attached_program (AddCamera (sample_cam 1))))) by (apply performed_eq; vm_compute; reflexivity).
  assert (Hm : moves attached_program (AddCamera (C := sim_cs) (T := sim_nt) (sample_cam 1)) = true)
    by (vm_compute; reflexivity).
  destruct (cameras_moved no_text sim_init sim_close sim_process 4198400 attached_program
              (AddCamera (sample_cam 1)) sample_world _ _ attached_settled Hm E) as [Hc Hp].
  split.
  - destruct (cameras attached_program !! 0%nat) as [c|] eqn:Ec; [|vm_compute in Ec; discriminate].
    destruct (Hc 0%nat c Ec) as [Hc' He]. exists c. split; [exact Hc' | exact He].
  - destruct (pipes attached_program !! 0%nat) as [p|] eqn:Ep; [|vm_compute in Ep; discriminate].
    destruct (Hp 0%nat p Ep) as (Hp' & Hg & _); [|exists p; split; [exact Hp' | exact Hg]].
    intros [Hd _]. revert Hd. vm_compute in Ep. injection Ep as <-. discriminate.
Defined.
