(* ===== verification/Threads.v ===== *)
(** The threads of [run] ([lib-vs/src/core/visionserver2.cpp]) together: one
    thread per pipeline, the streams' loop beside them, and clients who write
    entries in between.  The registry of Registry.v, with the pipelines'
    calibrations and the threads' indices, is what they change; every
    interleaving of their turns makes moves of it, and a pipeline's input is
    where its own thread alone would have put it. *)

From S2P Require Import Prelude Floats Json World Instances Camera Server Registry Runner.
Local Open Scope Z_scope.
Local Open Scope vs_scope.

(** * The registry while it runs *)

(** The cameras' storage, the matrices every listed pipeline points to, and the
    index every thread that has begun follows. *)
Record Routing := mkRouting {
  g_reg : Reg;
  g_store : nat;
  g_calib : list (mat_ptr * mat_ptr);
  g_index : gmap nat Z
}.

Definition calib_of (m : gmap nat BasePipe) (a : nat) : mat_ptr * mat_ptr :=
  match m !! a with Some p => (src_matrix p, src_distort p) | None => (DefaultPtr, DefaultPtr) end.

Definition routing (r : Running) : Routing :=
  let v := r_server r in
  mkRouting (abs v) (camera_store v) (calib_of (pipes v) <$> pipelines v) (r_idx <$> r_states r).

Definition with_reg (g : Routing) (r : Reg) : Routing := mkRouting r (g_store g) (g_calib g) (g_index g).
Definition with_calib (g : Routing) (i : nat) (c : mat_ptr * mat_ptr) : Routing :=
  mkRouting (g_reg g) (g_store g) (<[i := c]> (g_calib g)) (g_index g).
Definition with_index (g : Routing) (i : nat) (n : Z) : Routing :=
  mkRouting (g_reg g) (g_store g) (g_calib g) (<[i := n]> (g_index g)).

(** What a thread may attach its pipeline to: camera [n] with its matrices, or
    pipeline [-n] with the matrices that one points to at the time; [address] is
    the number [numPipelines] converts to. *)
Definition input_of (address : Z) (g : Routing) (n : Z) : option (Z * (mat_ptr * mat_ptr)) :=
  let cams := g_cameras (g_reg g) in
  if (0 <? n) && (n <=? Z.of_nat (length cams)) then
    let at_n := CameraPtr (g_store g, Z.to_nat (n - 1)) in
    (fun h => (h, (at_n, at_n))) <$> cams !! Z.to_nat (n - 1)
  else if (n <? 0) && (- address <=? n) then
    e ← g_pipes (g_reg g) !! Z.to_nat (- n - 1);
    c ← g_calib g !! Z.to_nat (- n - 1);
    Some (e.1, c)
  else None.

(** A thread begins, a thread reads [n] from its entry, the streams read [js],
    or nothing that concerns the routing. *)
Inductive Move :=
| MBegin (i : nat)
| MFollow (i : nat) (n : Z)
| MStreams (js : list Z)
| MRest.

(** The routing after a move, and the connections the move makes. *)
Definition move (address : Z) (m : Move) (g : Routing) : Routing * list (Z * Z) :=
  match m with
  | MBegin i => (match g_index g !! i with Some _ => g | None => with_index g i 1 end, [])
  | MFollow i n =>
      match g_index g !! i, g_pipes (g_reg g) !! i with
      | Some k, Some ends =>
          match (if n =? k then None else input_of address g n) with
          | Some (src, c) => (with_index (with_calib g i c) i n, [(ends.2, src)])
          | None => (with_index g i n, [])
          end
      | _, _ => (g, [])
      end
  | MStreams js => let (r, l) := act (ASync js) (g_reg g) in (with_reg g r, l)
  | MRest => (g, [])
  end.

Fixpoint move_all (address : Z) (ms : list Move) (g : Routing) : Routing * list (Z * Z) :=
  match ms with
  | [] => (g, [])
  | m :: ms' =>
      let (g1, l1) := move address m g in
      let (g2, l2) := move_all address ms' g1 in (g2, l1 ++ l2)
  end.

(** Only a thread that has begun makes turns. *)
Definition enabled (m : Move) (g : Routing) : Prop :=
  match m with MFollow i _ => is_Some (g_index g !! i) | _ => True end.

Fixpoint all_enabled (address : Z) (ms : list Move) (g : Routing) : Prop :=
  match ms with
  | [] => True
  | m :: ms' => enabled m g /\ all_enabled address ms' (move address m g).1
  end.

Lemma move_all_app address ms1 ms2 g :
  move_all address (ms1 ++ ms2) g =
  let (g1, l1) := move_all address ms1 g in
  let (g2, l2) := move_all address ms2 g1 in (g2, l1 ++ l2).
Proof.
  revert g. induction ms1 as [|m ms1 IH]; intros g; cbn; [by destruct (move_all address ms2 g)|].
  destruct (move address m g) as [g1 l1]. rewrite IH. destruct (move_all address ms1 g1) as [g2 l2].
  destruct (move_all address ms2 g2) as [g3 l3]. by rewrite app_assoc.
Qed.

(** * A thread alone *)

(** The indices that the thread of the pipeline at [i] reads. *)
Definition readings (i : nat) (ms : list Move) : list Z :=
  omap (fun m => match m with MFollow j n => if decide (j = i) then Some n else None | _ => None end) ms.

(** The cameras, by position, that a thread attaches its pipeline to when it
    stands at index [k] and reads [ns] one after the other. *)
Fixpoint followed (cams : nat) (k : Z) (ns : list Z) : list nat :=
  match ns with
  | [] => []
  | n :: ns' =>
      (if negb (n =? k) && (0 <? n) && (n <=? Z.of_nat cams) then [Z.to_nat (n - 1)] else []) ++
      followed cams n ns'
  end.

(** The matrices of the camera attached last, if any was. *)
Definition last_calib (store : nat) (c : mat_ptr * mat_ptr) (ks : list nat) : mat_ptr * mat_ptr :=
  foldl (fun _ k => (CameraPtr (store, k), CameraPtr (store, k))) c ks.

(** The sinks of the pipelines and streams. *)
Definition sinks (r : Reg) : list Z := (snd <$> g_pipes r) ++ (fst <$> g_streams r).

(** Nobody else has the sink of the pipeline at [i]. *)
Definition own_sink (r : Reg) (i : nat) (sink : Z) : Prop :=
  (forall j e, g_pipes r !! j = Some e -> j <> i -> e.2 <> sink) /\
  (forall s, s ∈ g_streams r -> s.1 <> sink).

Lemma sinks_own r i e : NoDup (sinks r) -> g_pipes r !! i = Some e -> own_sink r i e.2.
Proof.
  intros (Hp & Hd & _)%NoDup_app Hi. split.
  - intros j e' Hj Hne E. apply Hne.
    apply (NoDup_lookup _ _ _ e.2 Hp); by rewrite list_lookup_fmap, ?Hi, ?Hj; cbn; rewrite ?E.
  - intros s Hs E. apply (Hd e.2).
    + apply list_elem_of_fmap. exists e. split; [done|]. by eapply list_elem_of_lookup_2.
    + apply list_elem_of_fmap. by exists s.
Qed.

Definition to_sink (sink : Z) (x : Z * Z) : Prop := x.1 = sink.
#[export] Instance to_sink_dec sink x : Decision (to_sink sink x).
Proof. unfold to_sink. apply _. Defined.

Section Alone.

Context (address : Z) (i : nat) (sink : Z).

(** What no move changes. *)
Lemma move_keeps m g : own_sink (g_reg g) i sink ->
  let g1 := (move address m g).1 in
  g_cameras (g_reg g1) = g_cameras (g_reg g) /\ g_pipes (g_reg g1) = g_pipes (g_reg g) /\
  g_store g1 = g_store g /\ length (g_calib g1) = length (g_calib g) /\ own_sink (g_reg g1) i sink.
Proof.
  intros [Hp Hs]. destruct m as [j|j n|js|]; cbn [move].
  - by destruct (g_index g !! j).
  - destruct (g_index g !! j) as [k|]; [|done]. destruct (g_pipes (g_reg g) !! j) as [e|]; [|done].
    destruct (if n =? k then _ else _) as [[src c]|]; [|done]. cbn. by rewrite length_insert.
  - cbn. repeat split; [done|]. cbn. intros s (s0 & n & -> & Hin & _)%elem_of_zip_with. exact (Hs s0 Hin).
  - done.
Qed.

(** The streams' connections are of other sinks. *)
Lemma sync_elsewhere r ss js :
  (forall s, s ∈ ss -> s.1 <> sink) -> filter (to_sink sink) (concat (zip_with (g_move r) ss js)) = [].
Proof.
  revert js. induction ss as [|s ss IH]; intros [|n js] Hss; try done. cbn [zip_with concat].
  rewrite filter_app, IH by (intros; apply Hss; by right). rewrite app_nil_r.
  unfold g_move. destruct (s.2 =? n); [done|]. destruct (g_source r n); [|done].
  rewrite filter_cons_False; [done|]. exact (Hss s ltac:(by left)).
Qed.

(** A move of another thread, or of the streams. *)
Lemma move_elsewhere m g :
  own_sink (g_reg g) i sink -> readings i [m] = [] ->
  let (g1, l) := move address m g in
  filter (to_sink sink) l = [] /\ g_calib g1 !! i = g_calib g !! i /\
  default 1 (g_index g1 !! i) = default 1 (g_index g !! i).
Proof.
  intros [Hp Hs] Hr. destruct m as [j|j n|js|]; cbn [move].
  - destruct (g_index g !! j) as [k|] eqn:Hk; [done|]. do 2 (split; [done|]). cbn.
    destruct (decide (j = i)) as [->|Hne]; [by rewrite lookup_insert_eq, Hk | by rewrite lookup_insert_ne].
  - assert (Hne : j <> i) by (intros ->; cbn in Hr; by rewrite decide_True in Hr).
    destruct (g_index g !! j) as [k|]; [|done]. destruct (g_pipes (g_reg g) !! j) as [e|] eqn:He; [|done].
    destruct (if n =? k then _ else _) as [[src c]|]; [|cbn; by rewrite lookup_insert_ne].
    split; [rewrite filter_cons_False; [done | exact (Hp j e He Hne)]|].
    cbn. by rewrite lookup_insert_ne, list_lookup_insert_ne.
  - cbn [act]. split; [by apply sync_elsewhere | done].
  - done.
Qed.

(** A reading of its own thread that is not negative. *)
Lemma move_own n g e c k :
  g_pipes (g_reg g) !! i = Some e -> e.2 = sink -> g_calib g !! i = Some c -> g_index g !! i = Some k -> 0 <= n ->
  let cams := g_cameras (g_reg g) in
  let new := followed (length cams) k [n] in
  let (g1, l) := move address (MFollow i n) g in
  filter (to_sink sink) l = (fun j => (sink, default 0 (cams !! j))) <$> new /\
  g_calib g1 !! i = Some (last_calib (g_store g) c new) /\
  g_index g1 !! i = Some n.
Proof.
  intros He Hsink Hc Hk Hn cams new. cbn [move]. rewrite Hk, He. unfold new. cbn [followed].
  destruct (Z.eqb_spec n k) as [->|Hne]; cbn [negb andb app].
  { cbn. rewrite lookup_insert_eq. by split. }
  unfold input_of. fold cams. destruct (_ && _) eqn:E.
  - apply andb_true_iff in E as [E1 E2]. apply Z.ltb_lt in E1. apply Z.leb_le in E2.
    destruct (lookup_lt_is_Some_2 cams (Z.to_nat (n - 1)) ltac:(lia)) as [h Hh]. rewrite Hh. cbn [fmap option_fmap option_map].
    rewrite filter_cons_True by exact Hsink. cbn.
    rewrite Hh, lookup_insert_eq, list_lookup_insert_eq by (by eapply lookup_lt_Some). rewrite Hsink. by split.
  - destruct (Z.ltb_spec n 0); [lia|]. cbn. by rewrite lookup_insert_eq.
Qed.

(** All moves: those of the other threads do not matter. *)
Lemma moves_alone ms g g' l e c :
  all_enabled address ms g -> move_all address ms g = (g', l) ->
  own_sink (g_reg g) i sink -> g_pipes (g_reg g) !! i = Some e -> e.2 = sink -> g_calib g !! i = Some c ->
  Forall (Z.le 0) (readings i ms) ->
  let cams := g_cameras (g_reg g) in
  let ks := followed (length cams) (default 1 (g_index g !! i)) (readings i ms) in
  filter (to_sink sink) l = (fun k => (sink, default 0 (cams !! k))) <$> ks /\
  g_calib g' !! i = Some (last_calib (g_store g) c ks) /\
  default 1 (g_index g' !! i) = foldl (fun _ n => n) (default 1 (g_index g !! i)) (readings i ms).
Proof.
  revert g l c. induction ms as [|m ms IH]; intros g l c.
  { intros _ [= <- <-] _ _ _ Hc _. done. }
  cbn [all_enabled move_all]. intros [Hen Hens] E Hown He Hsink Hc.
  change (readings i (m :: ms)) with (readings i ([m] ++ ms)). unfold readings. rewrite omap_app. fold (readings i ms) (readings i [m]).
  intros [Hm Hms]%Forall_app.
  pose proof (move_keeps m g Hown) as (Kc & Kp & Ks & _ & Ko). cbv zeta in *.
  assert (Hstep : let (g1, l1) := move address m g in
     let ks := followed (length (g_cameras (g_reg g))) (default 1 (g_index g !! i)) (readings i [m]) in
     filter (to_sink sink) l1 = (fun k => (sink, default 0 (g_cameras (g_reg g) !! k))) <$> ks /\
     g_calib g1 !! i = Some (last_calib (g_store g) c ks) /\
     default 1 (g_index g1 !! i) = foldl (fun _ n => n) (default 1 (g_index g !! i)) (readings i [m])).
  { destruct (readings i [m]) as [|n ns] eqn:Hr.
    - pose proof (move_elsewhere m g Hown Hr) as H. destruct (move address m g) as [g1 l1]. by rewrite Hc in H.
    - destruct m as [| j n' | |]; cbn in Hr; try done. case_decide as Hj; [|done]. injection Hr as <- <-. subst j.
      destruct Hen as [k Hk]. pose proof (move_own n' g e c k He Hsink Hc Hk ltac:(by inversion Hm)) as H.
      rewrite Hk. cbv zeta in H. destruct (move address (MFollow i n') g) as [g1 l1].
      destruct H as (H1 & H2 & H3). by rewrite H3. }
  destruct (move address m g) as [g1 l1]. cbn [fst] in *. cbv zeta in Hstep.
  destruct Hstep as (H1 & H2 & H3). destruct (move_all address ms g1) as [g2 l2] eqn:E2. injection E as <- <-.
  destruct (IH g1 l2 _ Hens E2 Ko ltac:(by rewrite Kp) Hsink H2 Hms) as (I1 & I2 & I3).
  rewrite Kc, Ks, H3 in *.
  assert (Hf : forall k, followed (length (g_cameras (g_reg g))) k (readings i [m] ++ readings i ms) =
     followed (length (g_cameras (g_reg g))) k (readings i [m]) ++
     followed (length (g_cameras (g_reg g))) (foldl (fun _ n => n) k (readings i [m])) (readings i ms)).
  { intros k. destruct m as [|j n'| |]; cbn; try done. by case_decide; cbn; rewrite ?app_nil_r. }
  rewrite filter_app, H1, I1, Hf, fmap_app. split; [done|]. split.
  - rewrite I2. unfold last_calib. by rewrite foldl_app.
  - by rewrite I3, foldl_app.
Qed.

End Alone.

(** * The events of a run as moves *)

Section Meaning.

Context {C T : Type} `{CS : CsCore C} `{NT : Tables T}.
Abbreviation prog := (M C T).
Context (putText : Z -> string -> Z * Z -> Z).
Context (pipe_init pipe_close : nat -> prog unit) (pipe_process : nat -> Z -> prog Z).
Context (numPipelines_address : Z).

(** The index the entry of a pipeline holds. *)
Definition remote_source (t : T) (p : BasePipe) : option Z :=
  int_of_double (nt_GetDouble (entry_path (pipe_table p) "Source Index") (double_of_Z 0) t).

(** What the thread of the pipeline at [i] finds in its entry. *)
Definition reads (r : Running) (t : T) (i : nat) : option Z :=
  a ← pipelines (r_server r) !! i; p ← pipes (r_server r) !! a; remote_source t p.

(** The move an event is, in the world [w] before it: none when an entry cannot be
    read, which is undefined. *)
Definition meaning (r : Running) (w : world C T) (e : Event) : option Move :=
  match e with
  | Began i => Some (MBegin i)
  | RunnerTurn i t =>
      match r_states r !! i with
      | None => Some MRest
      | Some _ => MFollow i <$> reads r (w_nt (others t w)) i
      end
  | MainTurn => MStreams <$> mapM (remote_index (w_nt w)) (streams (r_server r))
  | Elsewhere _ => Some MRest
  end.

(** The moves of a sequence of events, each in the world and the state the
    events before it leave. *)
Fixpoint meanings (cap : double) (r : Running) (w : world C T) (es : list Event) : option (list Move) :=
  match es with
  | [] => Some []
  | e :: es' =>
      match run_event putText pipe_init pipe_process numPipelines_address cap r e w with
      | (w1, Ok r1) => m ← meaning r w e; ms ← meanings cap r1 w1 es'; Some (m :: ms)
      | _ => None
      end
  end.

(** Other threads and clients connect no sinks. *)
Definition connects_nothing (f : world C T -> world C T) : Prop :=
  forall w, cs_calls (w_cs w) [] (w_cs (f w)).
Definition quiet_event (e : Event (C := C) (T := T)) : Prop :=
  match e with
  | RunnerTurn _ t => connects_nothing (others t)
  | Elsewhere f => connects_nothing f
  | _ => True
  end.

(** Neither do the pipelines' methods. *)
Definition quiet_pipelines : Prop :=
  forall a, silent (pipe_init a) (fun _ => True) /\ silent (pipe_close a) (fun _ => True) /\
    forall frame, silent (pipe_process a frame) (fun _ => True).

End Meaning.

(** * Every event is a move *)

Section Refinement.

Context {C T : Type} `{CS : CsCore C} `{NT : Tables T} `{CP : Capacity}.
Abbreviation prog := (M C T).
Context (putText : Z -> string -> Z * Z -> Z).
Context (pipe_init pipe_close : nat -> prog unit) (pipe_process : nat -> Z -> prog Z).
Context (numPipelines_address : Z) (cap : double).
Context (Hpipes : quiet_pipelines pipe_init pipe_close pipe_process).

(** The server of a run is well formed, and lists its pipelines once each. *)
Context (ps : list nat) (Hps : NoDup ps).
Definition fit (v : VisionServer) : Prop := well_formed v /\ pipelines v = ps.

Lemma fit_with_pipe v a p :
  fit v -> alive v a -> fit (with_pipe v a p).
Proof.
  intros [[H1 H2 H3 H4 H5] Hn] Ha. split; [|done].
  assert (Hal : forall b, alive v b -> alive (with_pipe v a p) b).
  { intros b Hb. unfold alive. cbn. destruct (decide (a = b)) as [->|];
      [rewrite lookup_insert_eq; by eexists | by rewrite lookup_insert_ne]. }
  constructor; [by eapply Forall_impl | by eapply Forall_impl | done | | done].
  intros b. unfold alive. cbn. destruct (decide (a = b)) as [<-|]; [intros _; by apply H4|].
  rewrite lookup_insert_ne by done. apply H4.
Qed.

Lemma abs_with_pipe v a p q :
  pipes v !! a = Some p -> pipe_source q = pipe_source p -> pipe_input q = pipe_input p ->
  abs (with_pipe v a q) = abs v.
Proof.
  intros Hp Hs Hi. unfold abs. cbn. f_equal. apply list_fmap_ext. intros k b _.
  unfold pipe_ends. destruct (decide (a = b)) as [<-|];
    [by rewrite lookup_insert_eq, Hp, Hs, Hi | by rewrite lookup_insert_ne].
Qed.

Lemma calib_with_pipe m l i a q :
  NoDup l -> l !! i = Some a ->
  calib_of (<[a := q]> m) <$> l = <[i := (src_matrix q, src_distort q)]> (calib_of m <$> l).
Proof.
  intros Hn Hi. apply list_eq. intros k. rewrite list_lookup_fmap.
  destruct (decide (i = k)) as [<-|Hne].
  - rewrite list_lookup_insert_eq by (rewrite length_fmap; by eapply lookup_lt_Some).
    rewrite Hi. cbn. unfold calib_of. by rewrite lookup_insert_eq.
  - rewrite list_lookup_insert_ne, list_lookup_fmap by done.
    destruct (l !! k) as [b|] eqn:Hk; [|done]. cbn. f_equal. unfold calib_of.
    rewrite lookup_insert_ne; [done|]. intros ->. by destruct (Hne (NoDup_lookup l i k b Hn Hi Hk)).
Qed.

(** The routing when the pipeline at [i] has become [q]. *)
Lemma routing_with_pipe v st i a p q n m :
  fit v -> pipelines v !! i = Some a -> pipes v !! a = Some p ->
  pipe_source q = pipe_source p -> pipe_input q = pipe_input p ->
  routing (mkRunning (with_pipe v a q) (<[i := mkRunner n m]> st)) =
  with_index (with_calib (routing (mkRunning v st)) i (src_matrix q, src_distort q)) i n.
Proof.
  intros [_ Hl] Hi Hp Hs Hin. assert (Hn : NoDup (pipelines v)) by by rewrite Hl.
  unfold routing, with_index, with_calib. cbn [r_server r_states g_reg g_calib g_index g_store].
  rewrite (abs_with_pipe v a p q Hp Hs Hin). cbn [pipelines pipes with_pipe camera_store].
  by rewrite (calib_with_pipe _ _ i a q Hn Hi), fmap_insert.
Qed.

Lemma routing_with_index v st i n m :
  routing (mkRunning v (<[i := mkRunner n m]> st)) = with_index (routing (mkRunning v st)) i n.
Proof. unfold routing, with_index. cbn. by rewrite fmap_insert. Qed.

(** ** What a thread does about its source *)

Lemma vec_at_inv {A} (l : list A) i (w w' : world C T) a :
  vec_at l i w = (w', Ok a) -> w' = w /\ 0 <= i /\ l !! Z.to_nat i = Some a.
Proof.
  unfold vec_at. destruct (Z.ltb_spec i 0); [done|]. destruct (l !! Z.to_nat i); [|done].
  by intros [= <- <-].
Qed.

Lemma deref_inv v a (w w' : world C T) p : deref v a w = (w', Ok p) -> w' = w /\ pipes v !! a = Some p.
Proof. unfold deref. intros [-> E]%lift_inv. split; [done|]. by destruct (pipes v !! a); [injection E as ->|]. Qed.

Lemma get_int_inv table key (w w' : world C T) n :
  get_int table key w = (w', Ok n) ->
  w' = w /\ int_of_double (nt_GetDouble (entry_path table key) (double_of_Z 0) (w_nt w)) = Some n.
Proof.
  unfold get_int. intros (w1 & x & [= <- <-] & [-> E]%lift_inv)%bind_inv. split; [done|].
  by destruct (int_of_double _); [injection E as ->|].
Qed.

Lemma connected_calls sink src h (m : VideoMode) (c : C) :
  cs_calls c [(sink, src)] (cs_SetSource sink src (cs_SetVideoMode h m c)).
Proof. eapply calls_other; [apply (un_mode h m)|]. apply calls_connect. constructor. Qed.

(** Attaching, as the input of the routing says. *)
Lemma runner_source_input v st i a p n (w w' : world C T) v' :
  fit v -> pipelines v !! i = Some a -> pipes v !! a = Some p ->
  runner_source numPipelines_address v a p n w = (w', Ok v') ->
  match input_of numPipelines_address (routing (mkRunning v st)) n with
  | Some (src, c) =>
      exists q, v' = with_pipe v a q /\ pipe_source q = pipe_source p /\ pipe_input q = pipe_input p /\
        (src_matrix q, src_distort q) = c /\ cs_calls (w_cs w) [(pipe_input p, src)] (w_cs w')
  | None => v' = v /\ w' = w
  end.
Proof.
  intros [Hwf Hn] Hi Hp. unfold runner_source, input_of, numCameras. cbn [routing r_server g_reg g_cameras abs g_store].
  rewrite length_fmap. destruct (_ && _).
  { intros (w1 & cam & (-> & Hle & Hcam)%vec_at_inv & (w2 & q & E & [= <- <-])%bind_inv)%bind_inv.
    rewrite list_lookup_fmap, Hcam. cbn [fmap option_fmap option_map].
    unfold setCamera, bind, ask_cs, on_cs, ret in E. cbn in E. injection E as <- <-.
    eexists. split; [done|]. do 3 (split; [done|]). apply connected_calls. }
  destruct (_ && _); [|by intros [= <- <-]].
  intros (w1 & b & (-> & Hle & Hb)%vec_at_inv & (w2 & q & (-> & Hq)%deref_inv & (w3 & p1 & E & [= <- <-])%bind_inv)%bind_inv)%bind_inv.
  cbn [g_pipes abs g_calib routing r_server]. rewrite !list_lookup_fmap, Hb. cbn [fmap option_fmap option_map mbind option_bind].
  unfold setPipeline, bind, ask_cs, on_cs, ret in E. cbn in E. injection E as <- <-.
  unfold pipe_ends, calib_of. rewrite Hq. cbn [fst]. eexists. split; [done|]. do 3 (split; [done|]). apply connected_calls.
Qed.

Lemma runner_select_moves v st i a p s n (w w' : world C T) v' :
  fit v -> pipelines v !! i = Some a -> pipes v !! a = Some p -> st !! i = Some s ->
  runner_select numPipelines_address v a p (r_idx s) w = (w', Ok (v', n)) ->
  remote_source (w_nt w) p = Some n /\ fit v' /\
  exists l, cs_calls (w_cs w) l (w_cs w') /\
    forall m, move numPipelines_address (MFollow i n) (routing (mkRunning v st)) =
              (routing (mkRunning v' (<[i := mkRunner n m]> st)), l).
Proof.
  intros Hfit Hi Hp Hs. unfold runner_select.
  intros (w1 & n' & (-> & Hread)%get_int_inv & E)%bind_inv.
  assert (Hidx : g_index (routing (mkRunning v st)) !! i = Some (r_idx s)) by (cbn; by rewrite lookup_fmap, Hs).
  assert (Hends : g_pipes (g_reg (routing (mkRunning v st))) !! i = Some (pipe_source p, pipe_input p))
    by (cbn; rewrite list_lookup_fmap, Hi; cbn; unfold pipe_ends; by rewrite Hp).
  unfold move. rewrite Hidx, Hends. destruct (Z.eqb_spec n' (r_idx s)) as [Heq|Hne]; cbn [negb] in E.
  - injection E as <- <- <-. split; [by rewrite <- Heq|]. split; [done|]. exists []. split; [constructor|].
    intros m. rewrite Z.eqb_refl. by rewrite routing_with_index.
  - destruct (bind_inv _ _ _ _ _ E) as (w2 & v1 & E1 & [= <- <- <-]).
    split; [done|]. pose proof (runner_source_input v st i a p n' w w2 v1 Hfit Hi Hp E1) as Hin.
    rewrite (proj2 (Z.eqb_neq _ _) Hne).
    destruct (input_of _ _ n') as [[src c]|].
    + destruct Hin as (q & -> & Hq1 & Hq2 & <- & Hc). split; [apply fit_with_pipe; [done | by exists p]|].
      eexists. split; [exact Hc|]. intros m. cbn [snd]. by rewrite (routing_with_pipe v st i a p q).
    + destruct Hin as [-> ->]. split; [done|]. exists []. split; [constructor|]. intros m. by rewrite routing_with_index.
Qed.

Lemma silent_get_int table key : silent (get_int table key : prog Z) (fun _ => True).
Proof. unfold get_int. quietly. eapply silent_weaken; [apply silent_lift | done]. Qed.

Local Hint Resolve silent_get_int silent_put_number : vsdb.

Lemma silent_process_frame m table a p t : silent (process_frame putText pipe_process m table a p t) (fun _ => True).
Proof.
  unfold process_frame, get_bool. quietly. destruct (_ : bool); [|by apply silent_ret].
  destruct (grabbed t) as [f|]; [|by apply silent_ret].
  eapply silent_bind; [apply Hpipes|]. intros f1 _. quietly. quietly. by apply silent_ret.
Qed.

Lemma silent_publish_stats table m : silent (publish_stats table m : prog unit) (fun _ => True).
Proof. unfold publish_stats, put_double. cbv zeta. repeat quietly. apply silent_on_nt. Qed.

Lemma silent_pace table m t : silent (pace table m t : prog Meter) (fun _ => True).
Proof. unfold pace, period. quietly. cbv zeta. quietly. by apply silent_ret. Qed.

Lemma turn_moves v st i a s t (w w' : world C T) x :
  fit v -> pipelines v !! i = Some a -> st !! i = Some s -> connects_nothing (others t) ->
  pipelineRunner_turn putText pipe_process numPipelines_address v a s t w = (w', Ok x) ->
  fit x.1 /\
  exists n l, reads (mkRunning v st) (w_nt (others t w)) i = Some n /\
    cs_calls (w_cs w) l (w_cs w') /\
    move numPipelines_address (MFollow i n) (routing (mkRunning v st)) =
      (routing (mkRunning x.1 (<[i := x.2]> st)), l).
Proof.
  intros Hfit Hi Hs Ht. unfold pipelineRunner_turn.
  intros (w1 & [] & [= <-] & E)%bind_inv. apply bind_inv in E as (w2 & p & (-> & Hp)%deref_inv & E).
  apply bind_inv in E as (w3 & [v' n] & Esel & E).
  destruct (runner_select_moves v st i a p s n _ _ _ Hfit Hi Hp Hs Esel) as (Hread & Hfit' & l & Hc & Hmove).
  assert (Htail : silent
    (let* done := process_frame putText pipe_process (r_meter s) (pipe_table p) a p t in
     let m := measure (r_meter s) t done in
     publish_stats (pipe_table p) m ;*
     let* m := pace (pipe_table p) m t in
     ret ((v', n).1, mkRunner (v', n).2 m)) (fun x => exists m, x = (v', mkRunner n m))).
  { eapply silent_bind; [apply silent_process_frame|]. intros b _. cbv zeta.
    eapply silent_bind; [apply silent_publish_stats|]. intros _ _.
    eapply silent_bind; [apply silent_pace|]. intros m _. apply silent_ret. by eexists. }
  destruct (Htail _ _ _ E) as (l' & Hc' & -> & m & ->). split; [done|].
  exists n, l. split; [|split; [|apply Hmove]].
  - unfold reads. cbn. rewrite Hi. cbn. by rewrite Hp.
  - rewrite <- (app_nil_r l). eapply cs_calls_app; [|exact Hc'].
    exact (cs_calls_app _ [] _ l _ (Ht w) Hc).
Qed.

(** ** Events *)

Lemma begin_moves r i (w w' : world C T) r' :
  fit (r_server r) -> r_states r !! i = None ->
  begin_runner pipe_init cap r i w = (w', Ok r') ->
  r_server r' = r_server r /\ cs_calls (w_cs w) [] (w_cs w') /\
  move numPipelines_address (MBegin i) (routing r) = (routing r', []).
Proof.
  intros Hfit Hnone. unfold begin_runner.
  intros (w1 & a & (-> & _ & Ha)%vec_at_inv & (w2 & p & (-> & Hp)%deref_inv & (w3 & s & E & [= <- <-])%bind_inv)%bind_inv)%bind_inv.
  assert (Hbeg : silent (pipelineRunner_begin pipe_init a p cap) (fun s => r_idx s = 1)).
  { unfold pipelineRunner_begin, put_boolean, put_double. do 4 quietly.
    eapply silent_bind; [apply Hpipes|]. intros _ _. by apply silent_ret. }
  destruct (Hbeg _ _ _ E) as (l & Hc & -> & Hs). split; [done|]. split; [exact Hc|].
  destruct s as [k m]. cbn in Hs. subst k. unfold move. destruct r as [v st].
  cbn [r_states r_server routing g_index] in *. rewrite lookup_fmap, Hnone. cbn [fmap option_fmap option_map].
  by rewrite (routing_with_index v st i 1 m).
Qed.

Lemma begin_again r i :
  is_Some (r_states r !! i) -> move numPipelines_address (MBegin i) (routing r) = (routing r, []).
Proof. intros [s Hs]. unfold move. cbn [routing g_index]. by rewrite lookup_fmap, Hs. Qed.

(** Each event of a run is a move of the routing, with its connections. *)
Lemma event_moves r e (w w' : world C T) r' :
  fit (r_server r) -> quiet_event e ->
  run_event putText pipe_init pipe_process numPipelines_address cap r e w = (w', Ok r') ->
  fit (r_server r') /\
  exists m l, meaning r w e = Some m /\ enabled m (routing r) /\
    move numPipelines_address m (routing r) = (routing r', l) /\ cs_calls (w_cs w) l (w_cs w').
Proof.
  intros Hfit Hq. destruct e as [i|i t| |f]; cbn [run_event meaning quiet_event] in *.
  - case_decide as Hn.
    + intros E. destruct (begin_moves r i w w' r' Hfit Hn E) as (Hv & Hc & Hm).
      split; [by rewrite Hv|]. by exists (MBegin i), [].
    + intros [= <- <-]. split; [done|]. exists (MBegin i), []. do 2 (split; [done|]). split; [|constructor].
      by apply begin_again, not_eq_None_Some.
  - destruct (r_states r !! i) as [s|] eqn:Hs.
    + destruct r as [v st]. cbn [r_server r_states] in *.
      intros (w1 & a & (-> & _ & Ha)%vec_at_inv & (w2 & x & E & [= <- <-])%bind_inv)%bind_inv.
      rewrite Nat2Z.id in Ha.
      destruct (turn_moves v st i a s t w w2 x Hfit Ha Hs Hq E) as (Hfit' & n & l & Hread & Hc & Hm).
      split; [done|]. exists (MFollow i n), l. split; [by rewrite Hread|]. split; [|by split].
      cbn. rewrite lookup_fmap, Hs. by eexists.
    + intros [= <- <-]. split; [done|]. exists MRest, []. repeat split. constructor.
  - destruct r as [v st]. cbn [r_server r_states] in *.
    intros (w1 & v1 & E & (w2 & [] & [= <-] & [= <- <-])%bind_inv)%bind_inv.
    destruct (sound_Sync v (proj1 Hfit) w w1 v1 E) as (Hwf1 & a & l & (js & Hjs & ->) & Ha & Hc).
    assert (Hv1 : exists ss, v1 = with_streams v ss).
    { apply bind_inv in E as (w3 & ss & _ & [= _ <-]). by eexists. }
    destruct Hv1 as [ss ->]. split; [by split; [|apply Hfit]|]. cbn [r_server].
    exists (MStreams js), l. split; [by rewrite (mapM_Some_2 _ _ _ Hjs)|]. split; [done|]. split; [|exact Hc].
    unfold move. cbn [routing g_reg r_server]. by rewrite Ha.
  - intros [= <- <-]. split; [done|]. exists MRest, []. do 3 (split; [done|]). apply Hq.
Qed.

Lemma events_move r es (w w' : world C T) r' :
  fit (r_server r) -> Forall quiet_event es ->
  run_events putText pipe_init pipe_process numPipelines_address cap r es w = (w', Ok r') ->
  fit (r_server r') /\
  exists ms l, meanings putText pipe_init pipe_process numPipelines_address cap r w es = Some ms /\
    all_enabled numPipelines_address ms (routing r) /\
    move_all numPipelines_address ms (routing r) = (routing r', l) /\ cs_calls (w_cs w) l (w_cs w').
Proof.
  intros Hfit Hes. revert r w Hfit. induction Hes as [|e es He _ IH]; intros r w Hfit; cbn [run_events].
  - intros [= <- <-]. split; [done|]. exists [], []. repeat split. constructor.
  - intros (w1 & r1 & E1 & E2)%bind_inv.
    destruct (event_moves r e w w1 r1 Hfit He E1) as (Hfit1 & m & l1 & Hm & Hen & Hmv & Hc1).
    destruct (IH r1 w1 Hfit1 E2) as (Hfit2 & ms & l2 & Hms & Hens & Hmvs & Hc2). split; [done|].
    exists (m :: ms), (l1 ++ l2). cbn [meanings move_all all_enabled]. rewrite E1, Hm, Hmv, Hmvs. cbn [mbind option_bind]. rewrite Hms.
    split; [done|]. split; [by split|]. split; [done|]. by eapply cs_calls_app.
Qed.

Lemma join_moves r ix (w w' : world C T) r' :
  fit (r_server r) ->
  join_runners pipe_init pipe_close cap r ix w = (w', Ok r') ->
  r_server r' = r_server r /\ cs_calls (w_cs w) [] (w_cs w') /\
  move_all numPipelines_address (MBegin <$> ix) (routing r) = (routing r', []).
Proof.
  revert r w. induction ix as [|i ix IH]; intros r w Hfit; cbn [join_runners].
  - intros [= <- <-]. repeat split. constructor.
  - intros (w1 & r1 & E1 & (w2 & a & (-> & _)%vec_at_inv & (w3 & [] & E2 & E3)%bind_inv)%bind_inv)%bind_inv.
    assert (H1 : r_server r1 = r_server r /\ cs_calls (w_cs w) [] (w_cs w1) /\
                 move numPipelines_address (MBegin i) (routing r) = (routing r1, [])).
    { case_decide as Hn; [by eapply begin_moves|]. injection E1 as <- <-.
      split; [done|]. split; [constructor|]. by apply begin_again, not_eq_None_Some. }
    destruct H1 as (Hv1 & Hc1 & Hm1).
    destruct (proj1 (proj2 (Hpipes a)) _ _ _ E2) as (l2 & Hc2 & -> & _).
    destruct (IH r1 w3 ltac:(by rewrite Hv1) E3) as (Hv3 & Hc3 & Hm3).
    split; [by rewrite Hv3|]. split.
    + exact (cs_calls_app _ _ _ _ _ (cs_calls_app _ _ _ _ _ Hc1 Hc2) Hc3).
    + cbn [fmap list_fmap move_all]. by rewrite Hm1, Hm3.
Qed.

End Refinement.

(** * Runs *)

Section Runs.

Context {C T : Type} `{CS : CsCore C} `{NT : Tables T} `{CP : Capacity}.
Abbreviation prog := (M C T).
Context (putText : Z -> string -> Z * Z -> Z).
Context (pipe_init pipe_close : nat -> prog unit) (pipe_process : nat -> Z -> prog Z).
Context (numPipelines_address : Z).

Abbreviation run_it := (run putText pipe_init pipe_close pipe_process numPipelines_address).

(** The state of a run before its first event. *)
Definition started_run (v : VisionServer) : Running := mkRunning (with_running v true) ∅.

Definition status_put (w : world C T) : world C T :=
  (put_string server_table "Status" "Running Multithreaded" w).1.

(** The moves of a run: what its events mean, then the beginning of every thread
    that has not had its turn before the end. *)
Definition run_moves (v : VisionServer) (cap : double) (w : world C T) (es : list Event) : option (list Move) :=
  (fun ms => ms ++ (MBegin <$> seq 0 (numPipelines v))) <$>
  meanings putText pipe_init pipe_process numPipelines_address cap (started_run v) (status_put w) es.

Lemma all_enabled_app address ms1 ms2 g :
  all_enabled address ms1 g -> all_enabled address ms2 (move_all address ms1 g).1 ->
  all_enabled address (ms1 ++ ms2) g.
Proof.
  revert g. induction ms1 as [|m ms1 IH]; intros g; [done|]. cbn. intros [Hm H1] H2. split; [done|].
  apply IH; [done|]. destruct (move address m g) as [g1 l1]. cbn in *.
  by destruct (move_all address ms1 g1).
Qed.

Lemma begins_enabled address ix g : all_enabled address (MBegin <$> ix) g.
Proof. revert g. by induction ix as [|i ix IH]. Qed.

Lemma run_idle v cap es (w w' : world C T) v' :
  run_it v cap es w = (w', Ok (v', true)) -> isRunning v = false.
Proof. unfold run. by destruct (isRunning v). Qed.

(** The whole run in terms of the routing. *)
Lemma run_routes v cap es (w w' : world C T) v' :
  well_formed v -> NoDup (pipelines v) -> quiet_pipelines pipe_init pipe_close pipe_process -> Forall quiet_event es ->
  run_it v cap es w = (w', Ok (v', true)) ->
  exists ms g l, run_moves v cap w es = Some ms /\
    all_enabled numPipelines_address ms (routing (started_run v)) /\
    move_all numPipelines_address ms (routing (started_run v)) = (g, l) /\
    cs_calls (w_cs w) l (w_cs w') /\
    abs v' = (act (AFrozen false) (g_reg g)).1 /\ g_calib g = calib_of (pipes v') <$> pipelines v' /\
    pipelines v' = pipelines v /\ well_formed v'.
Proof.
  intros Hwf Hn Hq Hes E. pose proof (run_idle v cap es w w' v' E) as Hidle. unfold run in E. rewrite Hidle in E.
  destruct (0 <? numPipelines v)%nat; cbn [negb andb] in E; [|done].
  apply bind_inv in E as (w1 & [] & [= <-] & E). apply bind_inv in E as (w2 & z & [-> _]%lift_inv & E).
  apply bind_inv in E as (w3 & r & E1 & E). apply bind_inv in E as (w4 & r1 & E2 & E).
  apply bind_inv in E as (w5 & [] & [= <-] & [= <- <-]).
  assert (Hfit1 : fit (pipelines v) (r_server (started_run v))) by (split; [by apply wf_with_running | done]).
  destruct (events_move putText pipe_init pipe_close pipe_process numPipelines_address cap Hq _ Hn _ es _ w3 r Hfit1 Hes E1)
    as (Hfit2 & ms & l & Hms & Hen & Hmv & Hc).
  destruct (join_moves pipe_init pipe_close pipe_process numPipelines_address cap Hq _ r _ w3 w4 r1 Hfit2 E2)
    as (Hv & Hc2 & Hmv2).
  exists (ms ++ (MBegin <$> seq 0 (numPipelines v))), (routing r1), l.
  split; [unfold run_moves, status_put; cbn; by rewrite Hms|]. split.
  { apply all_enabled_app; [exact Hen | apply begins_enabled]. }
  split; [by rewrite move_all_app, Hmv, Hmv2, app_nil_r|]. split.
  { rewrite <- (app_nil_r l). exact (cs_calls_app _ _ _ _ _ Hc Hc2). }
  do 2 (split; [done|]). rewrite Hv. split; [apply Hfit2 | apply wf_with_running, Hfit2].
Qed.

(** C10. A multithreaded run implements the routing.  On a server that operations
    reach, with any number of pipelines each listed once, whatever the order in
    which the threads begin and make their turns, the streams' loop makes its
    turns, and clients write entries in between: the run is the moves its events
    mean - each thread follows the index it finds in its own entry, the streams
    those in theirs - and the connections it makes are exactly those of the
    moves, in this order. *)
Theorem run_refines_routing v cap es (w w' : world C T) v' :
  reachable (C := C) (T := T) v -> NoDup (pipelines v) ->
  quiet_pipelines pipe_init pipe_close pipe_process -> Forall quiet_event es ->
  run_it v cap es w = (w', Ok (v', true)) ->
  exists ms g l, run_moves v cap w es = Some ms /\
    move_all numPipelines_address ms (routing (started_run v)) = (g, l) /\
    cs_calls (w_cs w) l (w_cs w') /\
    abs v' = (act (AFrozen false) (g_reg g)).1 /\ g_calib g = calib_of (pipes v') <$> pipelines v'.
Proof.
  intros Hr Hn Hq Hes E.
  destruct (run_routes v cap es w w' v' (reachable_wf v Hr) Hn Hq Hes E)
    as (ms & g & l & H1 & _ & H2 & H3 & H4 & H5 & _). eauto 10.
Qed.

(** C16. The threads of a run do not disturb each other.  As long as the entry of
    a pipeline asks for cameras (or for nothing, but not for pipelines), its
    sink is connected to the cameras its thread's own readings ask for, in the
    order of the readings and to nothing else, and it ends up with the matrices
    of the last of them - however the turns of the other threads, of the streams
    and the writes of clients come in between. *)
Theorem threads_do_not_interfere v cap es ms (w w' : world C T) v' i a p :
  reachable (C := C) (T := T) v -> NoDup (pipelines v) -> NoDup (sinks (abs v)) ->
  quiet_pipelines pipe_init pipe_close pipe_process -> Forall quiet_event es ->
  pipelines v !! i = Some a -> pipes v !! a = Some p ->
  run_it v cap es w = (w', Ok (v', true)) ->
  run_moves v cap w es = Some ms -> Forall (Z.le 0) (readings i ms) ->
  let ks := followed (numCameras v) 1 (readings i ms) in
  exists l p', cs_calls (w_cs w) l (w_cs w') /\ pipes v' !! a = Some p' /\
    filter (to_sink (pipe_input p)) l =
      (fun k => (pipe_input p, default 0 (m_handle <$> cameras v !! k))) <$> ks /\
    (src_matrix p', src_distort p') = last_calib (camera_store v) (src_matrix p, src_distort p) ks.
Proof.
  intros Hr Hn Hs Hq Hes Hi Hp E Hms Hpos.
  destruct (run_routes v cap es w w' v' (reachable_wf v Hr) Hn Hq Hes E)
    as (ms1 & g & l & H1 & H2 & H3 & H4 & H5 & H6 & H7 & Hwf').
  assert (ms1 = ms) as -> by congruence.
  set (e := (pipe_source p, pipe_input p)). set (c := (src_matrix p, src_distort p)).
  assert (He : g_pipes (abs v) !! i = Some e) by (cbn; rewrite list_lookup_fmap, Hi; cbn; unfold pipe_ends; by rewrite Hp).
  assert (Hc : g_calib (routing (started_run v)) !! i = Some c)
    by (cbn; rewrite list_lookup_fmap, Hi; cbn; unfold calib_of; by rewrite Hp).
  rewrite <- H7 in Hi. destruct (proj1 (Forall_lookup _ _) (wf_listed v' Hwf') i a Hi) as [p' Hp'].
  exists l, p'. do 2 (split; [done|]).
  destruct (moves_alone numPipelines_address i (pipe_input p) ms _ g l e c H2 H3 (sinks_own _ i e Hs He) He
              eq_refl Hc Hpos) as (I1 & I2 & _).
  cbn [routing started_run r_server r_states g_index g_reg abs g_cameras with_running cameras] in I1, I2.
  rewrite fmap_empty, lookup_empty, length_fmap in I1, I2. cbn [default from_option] in I1, I2.
  split.
  - rewrite I1. apply list_fmap_ext. intros j k _. by rewrite list_lookup_fmap.
  - rewrite H6, list_lookup_fmap, Hi in I2. cbn in I2. unfold calib_of in I2. rewrite Hp' in I2. by injection I2.
Qed.

End Runs.

(** * A concrete run *)

#[local] Existing Instance doubling.

(** The world and the server after an operation. *)
Definition after (s : world sim_cs sim_nt * VisionServer) (o : Op (C := sim_cs) (T := sim_nt)) :
    world sim_cs sim_nt * VisionServer :=
  match perform s.2 o s.1 with (w, Ok v) => (w, v) | _ => s end.

Lemma after_reachable s o :
  reachable (C := sim_cs) (T := sim_nt) s.2 -> allowed s.2 o -> reachable (C := sim_cs) (T := sim_nt) (after s o).2.
Proof.
  intros Hr Ha. unfold after. destruct (perform s.2 o s.1) as [w [v|x|]] eqn:E; [|done..].
  exact (reach_next s.2 o s.1 w v Hr Ha E).
Qed.

(** Two cameras, two pipelines and a stream. *)
Definition cams_there : world sim_cs sim_nt * VisionServer :=
  after (sample_world, first_server) (AddCameras [sample_cam 1; sample_cam 2]).
Definition pipes_there : world sim_cs sim_nt * VisionServer :=
  after (after cams_there (Construct (new_pipe "P"))) (Construct (new_pipe "Q")).
Definition pipes_listed : world sim_cs sim_nt * VisionServer := after pipes_there (AddPipelines [0; 1]%nat).
Definition two_pipes : world sim_cs sim_nt * VisionServer := after pipes_listed (AddStreamNamed "s").

Lemma two_pipes_reachable : reachable (C := sim_cs) (T := sim_nt) two_pipes.2.
Proof.
  apply after_reachable; [|exact I]. apply after_reachable; [|vm_compute; repeat constructor; eexists; done].
  apply after_reachable; [|exact (silent_new_pipe "Q")]. apply after_reachable; [|exact (silent_new_pipe "P")].
  apply after_reachable; [|exact I]. exact (reach_first sample_world _ _ eq_refl).
Qed.

(** A client writes the entry of a pipeline. *)
Definition client_writes (name : string) (z : Z) : Event :=
  Elsewhere (fun w : world sim_cs sim_nt =>
    World (w_cs w) (sim_put ("/Vision Server/Pipelines/" +:+ name +:+ "/Source Index") (VDouble (double_of_Z z)) (w_nt w))
      (w_bufs w) (w_out w)).

(** Pipeline P follows the cameras 2 and 1, and Q follows P while it has camera 2. *)
Definition two_threads : list (Event (C := sim_cs) (T := sim_nt)) :=
  [Began 0; RunnerTurn 0 (quiet_turn 1); Began 1; client_writes "P" 2; client_writes "Q" (-1);
   RunnerTurn 0 (quiet_turn 2); RunnerTurn 1 (quiet_turn 3); MainTurn; client_writes "P" 1;
   RunnerTurn 1 (quiet_turn 4); RunnerTurn 0 (quiet_turn 5)].

Lemma two_threads_quiet : Forall quiet_event two_threads.
Proof. repeat constructor; intros w; constructor. Qed.

Lemma sim_pipelines_quiet : quiet_pipelines sim_init sim_close sim_process.
Proof.
  intros a. split; [apply silent_print|]. split; [apply silent_print|]. intros frame. by apply silent_ret.
Qed.

(** The server when a run has ended. *)
Definition ended (x : world sim_cs sim_nt * res (VisionServer * bool)) : VisionServer :=
  match x.2 with Ok r => r.1 | _ => first_server end.

Lemma ended_eq x : match x.2 with Ok (_, b) => b | _ => false end = true -> x = (x.1, Ok (ended x, true)).
Proof. by destruct x as [w [[v []]|e|]]. Qed.

Abbreviation two_ran :=
  (run no_text sim_init sim_close sim_process 4198400 two_pipes.2 (float_of_Z 50) two_threads two_pipes.1).

Lemma two_ran_ok : two_ran = (two_ran.1, Ok (ended two_ran, true)).
Proof. apply ended_eq. vm_compute. reflexivity. Qed.

Lemma two_listed_once : NoDup (pipelines two_pipes.2).
Proof. apply (bool_decide_unpack _). vm_compute. exact I. Qed.
Lemma P_first : pipelines two_pipes.2 !! 0%nat = Some 0%nat.
Proof. vm_compute. reflexivity. Qed.
Lemma two_sinks : NoDup (sinks (abs two_pipes.2)).
Proof. apply (bool_decide_unpack _). vm_compute. exact I. Qed.

(** The moves of [two_threads]. *)
Definition two_moves : list Move :=
  [MBegin 0; MFollow 0 1; MBegin 1; MRest; MRest; MFollow 0 2; MFollow 1 (-1); MStreams [0]; MRest;
   MFollow 1 (-1); MFollow 0 1; MBegin 0; MBegin 1].

(** Read one after the other: P's thread is at camera 1 already when it begins
    and attaches nothing, takes camera 2, then camera 1. *)
Lemma two_moves_meant :
  run_moves no_text sim_init sim_process 4198400 two_pipes.2 (float_of_Z 50) two_pipes.1 two_threads = Some two_moves.
Proof. vm_compute. reflexivity. Qed.

(** The connections of the run, in order: P to camera 2, Q to P, P to camera 1;
    Q is left with the matrices of camera 2, although P's frames are from camera
    1 now. *)
Lemma run_refines_routing_witness :
  exists g l, move_all 4198400 two_moves (routing (started_run two_pipes.2)) = (g, l) /\
    l = [(3, 2); (4, 4); (3, 1)] /\
    cs_calls (w_cs two_pipes.1) l (w_cs two_ran.1) /\
    calib_of (pipes (ended two_ran)) <$> pipelines (ended two_ran) =
      [(CameraPtr (1, 0), CameraPtr (1, 0)); (CameraPtr (1, 1), CameraPtr (1, 1))]%nat.
Proof.
  destruct (run_refines_routing no_text sim_init sim_close sim_process 4198400 two_pipes.2 (float_of_Z 50) two_threads
              two_pipes.1 two_ran.1 (ended two_ran) two_pipes_reachable
              two_listed_once sim_pipelines_quiet two_threads_quiet two_ran_ok) as (ms & g & l & Hms & Hmv & Hc & _ & Hg).
  rewrite two_moves_meant in Hms. injection Hms as <-.
  exists g, l. split; [exact Hmv|].
  assert (El : l = [(3, 2); (4, 4); (3, 1)]).
  { apply (f_equal snd) in Hmv. cbn [snd] in Hmv. rewrite <- Hmv. vm_compute. reflexivity. }
  split; [exact El|]. split; [exact Hc|]. vm_compute. reflexivity.
Defined.

Lemma P_asks_for_cameras : Forall (Z.le 0) (readings 0 two_moves).
Proof. apply (bool_decide_unpack _). vm_compute. exact I. Qed.

Lemma threads_do_not_interfere_witness :
  exists l p', cs_calls (w_cs two_pipes.1) l (w_cs two_ran.1) /\ pipes (ended two_ran) !! 0%nat = Some p' /\
    filter (to_sink 3) l = [(3, 2); (3, 1)] /\
    (src_matrix p', src_distort p') = (CameraPtr (1, 0), CameraPtr (1, 0))%nat.
Proof.
  destruct (pipes two_pipes.2 !! 0%nat) as [p|] eqn:Ep; [|vm_compute in Ep; discriminate].
  destruct (threads_do_not_interfere no_text sim_init sim_close sim_process 4198400 two_pipes.2 (float_of_Z 50) two_threads
              two_moves two_pipes.1 two_ran.1 (ended two_ran) 0%nat 0%nat p two_pipes_reachable
              two_listed_once two_sinks sim_pipelines_quiet two_threads_quiet P_first Ep
              two_ran_ok two_moves_meant P_asks_for_cameras)
    as (l & p' & Hc & Hp' & Hf & Hm).
  vm_compute in Ep. injection Ep as <-. exists l, p'. split; [exact Hc|]. split; [exact Hp'|].
  split; [exact Hf | exact Hm].
Defined.
