(* ===== verification/Survival.v ===== *)
(** [run] gets through: with any number of pipelines and in any order of the
    threads' turns, the program comes back from [run] after a stop, as long as
    the entries hold numbers the code can use ([lib-vs/src/core/visionserver2.cpp]).
    The errors that end it are in Runner.v; here is that there are no others. *)

From Stdlib Require Import Ascii.
From S2P Require Import Prelude Floats Json World Instances Camera Server Registry Runner Program Threads.
Local Open Scope Z_scope.
Local Open Scope vs_scope.

(** * The last character of a path *)

Fixpoint last_char (c : ascii) (s : string) : ascii :=
  match s with EmptyString => c | String d s' => last_char d s' end.

Lemma last_char_app c d s t : last_char c (s +:+ String d t) = last_char d t.
Proof. revert c. induction s as [|e s IH]; intros c; [done | apply IH]. Qed.

(** Entries whose names end differently are different, in whatever tables. *)
Lemma entry_path_ne table table' a k b k' :
  last_char a k <> last_char b k' -> entry_path table (String a k) <> entry_path table' (String b k').
Proof.
  intros Hne E. apply (f_equal (last_char a)) in E. revert E.
  unfold entry_path. by rewrite !string_app_cons, !last_char_app.
Qed.

(** * Total correctness *)

Section Triple.

Context {C T : Type}.
Abbreviation prog := (M C T).

(** From tables with [P] the computation succeeds, and [Q] holds of its result and
    the tables then. *)
Definition triple {A} (P : T -> Prop) (m : prog A) (Q : A -> T -> Prop) : Prop :=
  forall w, P (w_nt w) -> exists w' a, m w = (w', Ok a) /\ Q a (w_nt w').

Lemma triple_bind {A B} P (m : prog A) (f : A -> prog B) Q R :
  triple P m Q -> (forall a, triple (Q a) (f a) R) -> triple P (bind m f) R.
Proof.
  intros Hm Hf w Hw. destruct (Hm w Hw) as (w1 & a & E1 & H1). destruct (Hf a w1 H1) as (w2 & b & E2 & H2).
  exists w2, b. by rewrite (bind_ok _ _ _ _ _ E1).
Qed.

Lemma triple_ret {A} (P : T -> Prop) (a : A) (Q : A -> T -> Prop) :
  (forall t, P t -> Q a t) -> triple P (ret a) Q.
Proof. intros H w Hw. exists w, a. auto. Qed.

Lemma triple_keep {A} (P : T -> Prop) (m : prog A) (Q : A -> Prop) :
  (forall w, P (w_nt w) -> exists w' a, m w = (w', Ok a) /\ w_nt w' = w_nt w /\ Q a) ->
  triple P m (fun a t => P t /\ Q a).
Proof. intros H w Hw. destruct (H w Hw) as (w' & a & E & Et & HQ). exists w', a. by rewrite Et. Qed.

Lemma triple_lift {A} (P : T -> Prop) (r : res A) (Q : A -> T -> Prop) :
  (forall t, P t -> exists a, r = Ok a /\ Q a t) -> triple P (lift r) Q.
Proof. intros H w Hw. destruct (H _ Hw) as (a & -> & Ha). by exists w, a. Qed.

Lemma triple_on_nt (P : T -> Prop) f (Q : unit -> T -> Prop) :
  (forall t, P t -> Q tt (f t)) -> triple P (on_nt f) Q.
Proof. intros H w Hw. eexists _, tt. split; [done|]. by apply H. Qed.

Lemma triple_on_cs (P : T -> Prop) f : triple P (on_cs f) (fun _ => P).
Proof. intros w Hw. by eexists _, tt. Qed.

Lemma triple_ask_nt {A} (P : T -> Prop) (f : T -> A) (Q : A -> T -> Prop) :
  (forall t, P t -> Q (f t) t) -> triple P (ask_nt f) Q.
Proof. intros H w Hw. exists w, (f (w_nt w)). split; [done|]. by apply H. Qed.

Lemma triple_weaken {A} (P P' : T -> Prop) (m : prog A) (Q Q' : A -> T -> Prop) :
  (forall t, P' t -> P t) -> (forall a t, Q a t -> Q' a t) -> triple P m Q -> triple P' m Q'.
Proof. intros HP HQ Hm w Hw. destruct (Hm w (HP _ Hw)) as (w' & a & E & Ha). eauto. Qed.

(** A fact that does not depend on the tables. *)
Lemma triple_pure {A} (P : T -> Prop) (F : Prop) (m : prog A) Q :
  (F -> triple P m Q) -> triple (fun t => P t /\ F) m Q.
Proof. intros H w [Hw HF]. by apply H. Qed.

(** Continuations that agree where they are reached. *)
Lemma triple_bind_ext {A B} P (m : prog A) Q (f g : A -> prog B) w :
  triple P m Q -> (forall a w', Q a (w_nt w') -> f a w' = g a w') -> P (w_nt w) -> bind m f w = bind m g w.
Proof.
  intros Hm Hfg Hw. destruct (Hm w Hw) as (w' & a & E & Ha). rewrite !(bind_ok _ _ _ _ _ E). by apply Hfg.
Qed.

End Triple.

(** * The entries of a server's pipelines and streams *)

Section Entries.

Context {C T : Type} `{CS : CsCore C} `{NT : Tables T} `{NL : !TablesLaws T} `{NF : !TablesFrame T}.
Abbreviation prog := (M C T).

(** The server before the run; during the run others are like it. *)
Context (v0 : VisionServer).

Record like (v : VisionServer) : Prop := {
  like_pipelines : pipelines v = pipelines v0;
  like_alive : pipes_alive v;
  like_tables a : pipe_table <$> pipes v !! a = pipe_table <$> pipes v0 !! a;
  like_streams : stream_table <$> streams v = stream_table <$> streams v0
}.

(** [paced x]: a turn can be timed for a frame rate of [x]. *)
Definition paced (x : double) : Prop := is_Some (uint64_of_double (ddiv billion x)).

(** What a thread needs of its table: an index that converts and, if negative,
    is one of the pipelines', a verbosity that converts, a frame rate. *)
Definition usable (t : T) (table : string) : Prop :=
  (exists n, int_of_double (nt_GetDouble (entry_path table "Source Index") (double_of_Z 0) t) = Some n /\
     - Z.of_nat (numPipelines v0) <= n) /\
  is_Some (int_of_double (nt_GetDouble (entry_path table "Statistics Verbosity") (double_of_Z 0) t)) /\
  forall d, paced (to_float (nt_GetDouble (entry_path table "Max FPS") d t)).

(** Nobody has made an entry of the pipelines anything but a number. *)
Definition numeric (t : T) (table : string) : Prop :=
  nt_accepts KDouble (entry_path table "Source Index") t /\
  nt_accepts KDouble (entry_path table "Statistics Verbosity") t /\
  nt_accepts KDouble (entry_path table "Max FPS") t.

Definition stream_usable (t : T) (table : string) : Prop :=
  is_Some (int_of_double (nt_GetDouble (entry_path table "Source Index") (double_of_Z 0) t)).

(** The entries when the threads of the pipelines at [begun] have begun. *)
Definition entries_ok (begun : gset nat) (t : T) : Prop :=
  (forall i a p, pipelines v0 !! i = Some a -> pipes v0 !! a = Some p ->
     numeric t (pipe_table p) /\ (i ∈ begun -> usable t (pipe_table p))) /\
  Forall (fun s => stream_usable t (stream_table s)) (streams v0).

(** Entries that none of the three keys names. *)
Definition other_key (key : string) : Prop :=
  forall table, key <> entry_path table "Source Index" /\ key <> entry_path table "Statistics Verbosity" /\
    key <> entry_path table "Max FPS".

Lemma entries_untouched begun t t' :
  (forall table, untouched (entry_path table "Source Index") t t' /\
     untouched (entry_path table "Statistics Verbosity") t t' /\ untouched (entry_path table "Max FPS") t t') ->
  entries_ok begun t -> entries_ok begun t'.
Proof.
  intros Hu [Hp Hs]. split.
  - intros i a p Hi Ha. destruct (Hp i a p Hi Ha) as [Hn Hb].
    destruct (Hu (pipe_table p)) as ([G1 T1] & [G2 T2] & [G3 T3]). split.
    + unfold numeric, nt_accepts in *. by rewrite T1, T2, T3.
    + intros Hin. destruct (Hb Hin) as (H1 & H2 & H3). unfold usable. rewrite G1, G2.
      split; [done|]. split; [done|]. intros d. by rewrite G3.
  - eapply Forall_impl; [exact Hs|]. intros s Hst. unfold stream_usable.
    by rewrite (proj1 (proj1 (Hu (stream_table s)))).
Qed.

Lemma other_key_double begun key x t : other_key key -> entries_ok begun t -> entries_ok begun (nt_SetDouble key x t).
Proof.
  intros Hk. apply entries_untouched. intros table. destruct (Hk table) as (H1 & H2 & H3).
  split_and!; (split; [intros d; apply nt_get_set_double_ne | apply nt_type_set_double_ne]); congruence.
Qed.
Lemma other_key_boolean begun key b t : other_key key -> entries_ok begun t -> entries_ok begun (nt_SetBoolean key b t).
Proof.
  intros Hk. apply entries_untouched. intros table. destruct (Hk table) as (H1 & H2 & H3).
  split_and!; apply keep_boolean; congruence.
Qed.
Lemma other_key_string begun key x t : other_key key -> entries_ok begun t -> entries_ok begun (nt_SetString key x t).
Proof.
  intros Hk. apply entries_untouched. intros table. destruct (Hk table) as (H1 & H2 & H3).
  split_and!; apply keep_string; congruence.
Qed.
Lemma flush_entries begun t : entries_ok begun t -> entries_ok begun (nt_Flush t).
Proof. apply entries_untouched. intros table. by split_and!; apply keep_flush. Qed.

Lemma entry_other table a k :
  last_char a k <> "x"%char -> last_char a k <> "y"%char -> last_char a k <> "S"%char ->
  other_key (entry_path table (String a k)).
Proof. intros H1 H2 H3 table'. split_and!; apply entry_path_ne; done. Qed.

(** ** A thread writes its own entries *)

Lemma get_after key x (t : T) key' d :
  nt_accepts KDouble key t ->
  nt_GetDouble key' d (nt_SetDouble key x t) = if decide (key' = key) then x else nt_GetDouble key' d t.
Proof. intros Ha. case_decide as H; [subst; by apply nt_get_set_double | by apply nt_get_set_double_ne]. Qed.

Lemma numeric_after key x (t : T) table : numeric t table -> numeric (nt_SetDouble key x t) table.
Proof. intros (H1 & H2 & H3). by split_and!; apply double_accepts. Qed.

(** A number written to an entry that the threads can use there. *)
Lemma set_entries begun table a k x t :
  nt_accepts KDouble (entry_path table (String a k)) t ->
  (last_char a k = "x"%char -> exists n, int_of_double x = Some n /\ - Z.of_nat (numPipelines v0) <= n) ->
  (last_char a k = "y"%char -> is_Some (int_of_double x)) ->
  (last_char a k = "S"%char -> paced (to_float x)) ->
  entries_ok begun t -> entries_ok begun (nt_SetDouble (entry_path table (String a k)) x t).
Proof.
  intros Ha Hx Hy HS [Hp Hs].
  assert (Hends : forall table' b k', entry_path table' (String b k') = entry_path table (String a k) ->
            last_char a k = last_char b k').
  { intros table' b k' Heq. destruct (decide (last_char a k = last_char b k')) as [|Hne]; [done|].
    by destruct (entry_path_ne table table' a k b k' Hne). }
  split.
  - intros i c p Hi Hc. destruct (Hp i c p Hi Hc) as [Hn Hu]. split; [by apply numeric_after|].
    intros Hb. destruct (Hu Hb) as (H1 & H2 & H3). unfold usable.
    rewrite !get_after by done. split; [|split; [|intros d; rewrite get_after by done]];
      (case_decide as Heq; [|done || apply H3]); apply Hends in Heq; [by apply Hx | by apply Hy | by apply HS].
  - eapply Forall_impl; [exact Hs|]. intros s Hst. unfold stream_usable. rewrite get_after by done.
    case_decide as Heq; [|done]. apply Hends in Heq. destruct (Hx Heq) as (n & -> & _). by eexists.
Qed.

(** The four entries a thread writes when it begins. *)
Lemma begin_entries begun i a p cap t :
  pipelines v0 !! i = Some a -> pipes v0 !! a = Some p -> paced (to_float cap) -> entries_ok begun t ->
  let key := entry_path (pipe_table p) in
  entries_ok ({[i]} ∪ begun)
    (nt_SetDouble (key "Max FPS") cap
      (nt_SetDouble (key "Statistics Verbosity") (double_of_Z 0)
        (nt_SetDouble (key "Source Index") (double_of_Z 1) (nt_SetBoolean (key "Enable Processing") true t)))).
Proof.
  intros Hi Ha Hcap He key.
  set (t0 := nt_SetBoolean _ true t). set (t1 := nt_SetDouble _ _ t0). set (t2 := nt_SetDouble _ _ t1).
  assert (E0 : entries_ok begun t0) by (apply other_key_boolean; [by apply entry_other | done]).
  destruct (proj1 (proj1 E0 i a p Hi Ha)) as (A1 & A2 & A3).
  assert (E1 : entries_ok begun t1) by (apply set_entries; try done; intros _; exists 1; split; [done | lia]).
  destruct (proj1 (proj1 E1 i a p Hi Ha)) as (B1 & B2 & B3).
  assert (E2 : entries_ok begun t2) by (apply set_entries; try done; intros _; by eexists).
  destruct (proj1 (proj1 E2 i a p Hi Ha)) as (C1 & C2 & C3).
  assert (E3 : entries_ok begun (nt_SetDouble (key "Max FPS") cap t2)) by (by apply set_entries).
  split; [|apply E3]. intros j b q Hj Hb. destruct (proj1 E3 j b q Hj Hb) as [Hn Hu]. split; [done|].
  intros [Hij | Hin]%elem_of_union; [|by apply Hu]. apply elem_of_singleton in Hij as ->.
  assert (b = a) as -> by congruence. assert (q = p) as -> by congruence.
  assert (Hne : forall k k' c d, last_char c k <> last_char d k' -> key (String c k) <> key (String d k'))
    by (intros; by apply entry_path_ne).
  unfold usable. fold key. split; [|split].
  - exists 1. rewrite nt_get_set_double_ne by (by apply Hne). unfold t2. rewrite nt_get_set_double_ne by (by apply Hne).
    unfold t1. rewrite nt_get_set_double by done. split; [done | lia].
  - rewrite nt_get_set_double_ne by (by apply Hne). unfold t2. rewrite nt_get_set_double by done. by eexists.
  - intros d. by rewrite nt_get_set_double.
Qed.

End Entries.

(** * A run, part by part *)

Section Parts.

Context {C T : Type} `{CS : CsCore C} `{NT : Tables T} `{NL : !TablesLaws T} `{NF : !TablesFrame T}.
Abbreviation prog := (M C T).
Context (putText : Z -> string -> Z * Z -> Z).
Context (pipe_init pipe_close : nat -> prog unit) (pipe_process : nat -> Z -> prog Z).
Context (numPipelines_address : Z) (cap : double) (v0 : VisionServer).

Abbreviation E := (entries_ok v0).

(** The pipelines' methods return, and leave the entries such that the threads
    can go on; so do the clients and the other threads. *)
Definition returning {A} (m : prog A) : Prop := forall begun, triple (E begun) m (fun _ => E begun).
Definition obliging_pipelines : Prop :=
  forall a, returning (pipe_init a) /\ returning (pipe_close a) /\ forall frame, returning (pipe_process a frame).
Definition reasonable (f : world C T -> world C T) : Prop :=
  forall begun w, E begun (w_nt w) -> E begun (w_nt (f w)).
Definition reasonable_event (e : Event (C := C) (T := T)) : Prop :=
  match e with
  | Began i => (i < numPipelines v0)%nat
  | RunnerTurn _ t => reasonable (others t)
  | MainTurn => True
  | Elsewhere f => reasonable f
  end.

Context (Hpipes : obliging_pipelines) (Hcap : paced cap) (Hcap' : paced (to_float cap)).

Lemma triple_get_int P table key (Q : Z -> Prop) :
  (forall t : T, P t -> exists n, int_of_double (nt_GetDouble (entry_path table key) (double_of_Z 0) t) = Some n /\ Q n) ->
  triple P (get_int table key : prog Z) (fun n t => P t /\ Q n).
Proof.
  intros H. apply triple_keep. intros w Hw. destruct (H _ Hw) as (n & Hn & HQ).
  exists w, n. split; [by apply get_int_eq | done].
Qed.

Lemma like_deref v a : like v0 v -> a ∈ pipelines v0 -> exists p, pipes v !! a = Some p.
Proof.
  intros Hl Ha. destruct Hl as [Hps Hal _ _]. unfold pipes_alive in Hal. rewrite Hps in Hal.
  by apply (proj1 (Forall_forall _ _) Hal).
Qed.

Lemma like_table v a p : like v0 v -> pipes v !! a = Some p ->
  exists p0, pipes v0 !! a = Some p0 /\ pipe_table p0 = pipe_table p.
Proof.
  intros Hl Hp. pose proof (like_tables v0 v Hl a) as Ht. rewrite Hp in Ht.
  destruct (pipes v0 !! a) as [p0|]; [|done]. exists p0. split; [done|]. by injection Ht.
Qed.

Lemma like_with_pipe v a p q :
  like v0 v -> pipes v !! a = Some p -> pipe_table q = pipe_table p -> like v0 (with_pipe v a q).
Proof.
  intros [H1 H2 H3 H4] Hp Hq. constructor; [done | | | done].
  - eapply Forall_impl; [exact H2|]. intros b Hb. cbn. destruct (decide (a = b)) as [->|];
      [rewrite lookup_insert_eq; by eexists | by rewrite lookup_insert_ne].
  - intros b. cbn. destruct (decide (a = b)) as [<-|]; [|by rewrite lookup_insert_ne].
    rewrite lookup_insert_eq, <- H3, Hp. cbn. by rewrite Hq.
Qed.

(** A thread with a usable table. *)
Definition thread_of (v : VisionServer) (begun : gset nat) (i a : nat) (p : BasePipe) : Prop :=
  like v0 v /\ pipelines v0 !! i = Some a /\ pipes v !! a = Some p /\ i ∈ begun.

Lemma thread_usable v begun i a p t : thread_of v begun i a p -> E begun t -> usable v0 t (pipe_table p).
Proof.
  intros (Hl & Hi & Hp & Hb) [He _]. destruct (like_table v a p Hl Hp) as (p0 & Hp0 & <-).
  by apply (He i a p0 Hi Hp0).
Qed.

Lemma source_succeeds v i a p n (w : world C T) begun :
  thread_of v begun i a p -> - Z.of_nat (numPipelines v0) <= n ->
  exists w' v', runner_source numPipelines_address v a p n w = (w', Ok v') /\ w_nt w' = w_nt w /\ like v0 v'.
Proof.
  intros (Hl & Hi & Hp & _) Hn. unfold runner_source, numCameras.
  destruct (Z.ltb_spec 0 n), (Z.leb_spec n (Z.of_nat (length (cameras v)))); cbn [andb].
  1: { destruct (lookup_lt_is_Some_2 (cameras v) (Z.to_nat (n - 1)) ltac:(lia)) as [cam Hcam].
       rewrite (bind_ok _ _ w w cam) by (apply vec_at_inside; [lia | done]).
       rewrite (bind_ok _ _ _ _ _ (setCamera_eq p _ cam w)). eexists _, _. split; [reflexivity|].
       split; [done|]. by eapply like_with_pipe. }
  all: destruct (Z.ltb_spec n 0) as [Hneg|]; cbn [andb]; try (destruct (_ <=? n)); try lia; try (by exists w, v).
  all: unfold numPipelines in Hn; rewrite <- (like_pipelines v0 v Hl) in Hn;
    destruct (lookup_lt_is_Some_2 (pipelines v) (Z.to_nat (- n - 1)) ltac:(lia)) as [b Hb];
    destruct (like_deref v b Hl) as [q Hq];
    [rewrite <- (like_pipelines v0 v Hl); by eapply list_elem_of_lookup_2|];
    rewrite (bind_ok _ _ w w b) by (apply vec_at_inside; [lia | done]);
    rewrite (bind_ok _ _ w w q) by (unfold deref, lift; by rewrite Hq);
    eexists _, _; (split; [reflexivity|]); (split; [done|]); by eapply like_with_pipe.
Qed.

Lemma select_triple v begun i a p idx :
  thread_of v begun i a p ->
  triple (E begun) (runner_select numPipelines_address v a p idx : prog (VisionServer * Z))
    (fun r t => E begun t /\ like v0 r.1).
Proof.
  intros Ht. unfold runner_select.
  eapply triple_bind; [apply triple_get_int with (Q := fun n => - Z.of_nat (numPipelines v0) <= n)|].
  { intros t He. destruct (thread_usable _ _ _ _ _ t Ht He) as [(n & Hn & Hle) _]. eauto. }
  intros n. apply triple_pure. intros Hn. destruct (negb _).
  - apply triple_keep. intros w _. destruct (source_succeeds v i a p n w begun Ht Hn) as (w' & v' & Es & Et & Hl).
    rewrite (bind_ok _ _ _ _ _ Es). by eexists _, _.
  - apply triple_ret. intros t He. split; [done|]. apply Ht.
Qed.

Lemma process_triple v begun i a p m t :
  thread_of v begun i a p ->
  triple (E begun) (process_frame putText pipe_process m (pipe_table p) a p t) (fun _ => E begun).
Proof.
  intros Ht. unfold process_frame, get_bool. eapply triple_bind; [by apply triple_ask_nt with (Q := fun _ => E begun)|].
  intros on. destruct on; [|by apply triple_ret]. destruct (grabbed t) as [f|]; [|by apply triple_ret].
  eapply triple_bind; [apply Hpipes|]. intros f1.
  eapply triple_bind; [apply triple_get_int with (Q := fun _ => True)|].
  { intros t1 He. destruct (thread_usable _ _ _ _ _ t1 Ht He) as (_ & [n Hn] & _). eauto. }
  intros n. apply triple_pure. intros _. eapply triple_bind; [apply triple_on_cs|]. intros []. by apply triple_ret.
Qed.

Lemma put_other table a k x begun :
  last_char a k <> "x"%char -> last_char a k <> "y"%char -> last_char a k <> "S"%char ->
  triple (E begun) (put_double table (String a k) x : prog unit) (fun _ => E begun).
Proof. intros H1 H2 H3. apply triple_on_nt. intros t. by apply other_key_double, entry_other. Qed.

Lemma stats_triple table m begun : triple (E begun) (publish_stats table m : prog unit) (fun _ => E begun).
Proof.
  unfold publish_stats. cbv zeta.
  do 4 (eapply triple_bind; [by apply put_other | intros ?]). by apply put_other.
Qed.

Lemma pace_triple v begun i a p m t :
  thread_of v begun i a p -> triple (E begun) (pace (pipe_table p) m t : prog Meter) (fun _ => E begun).
Proof.
  intros Ht. unfold pace.
  eapply triple_bind; [apply triple_ask_nt with (Q := fun x t => E begun t /\ paced (to_float x))|].
  { intros t1 He. split; [done|]. by apply (thread_usable _ _ _ _ _ t1 Ht He). }
  intros x. cbv zeta. apply triple_pure. intros [z Hz].
  eapply triple_bind; [apply triple_lift with (Q := fun _ => E begun); intros t1 He; exists z; by rewrite Hz|].
  intros ?. by apply triple_ret.
Qed.

(** A turn of a thread that has begun. *)
Lemma turn_triple v begun i a s t :
  like v0 v -> pipelines v0 !! i = Some a -> i ∈ begun -> reasonable (others t) ->
  triple (E begun) (pipelineRunner_turn putText pipe_process numPipelines_address v a s t)
    (fun x t => E begun t /\ like v0 x.1).
Proof.
  intros Hl Hi Hb Hr. destruct (like_deref v a Hl ltac:(by eapply list_elem_of_lookup_2)) as [p Hp].
  assert (Ht : thread_of v begun i a p) by done. unfold pipelineRunner_turn.
  eapply triple_bind with (Q := fun _ => E begun); [intros w He; eexists _, tt; split; [reflexivity|]; by apply Hr|].
  intros ?. eapply triple_bind; [apply triple_lift with (Q := fun q t => E begun t /\ q = p)|].
  { intros t1 He. exists p. by rewrite Hp. }
  intros q. apply triple_pure. intros ->.
  eapply triple_bind; [by eapply select_triple|]. intros r. apply triple_pure. intros Hr1.
  eapply triple_bind; [by eapply process_triple|]. intros b. cbv zeta.
  eapply triple_bind; [apply stats_triple|]. intros ?.
  eapply triple_bind; [by eapply pace_triple|]. intros m. by apply triple_ret.
Qed.

(** The server is like the first one, the threads are its pipelines', and the
    entries are usable. *)
Definition going (r : Running) (t : T) : Prop :=
  (like v0 (r_server r) /\ forall i, i ∈ dom (r_states r) -> (i < numPipelines v0)%nat) /\ E (dom (r_states r)) t.

Lemma begin_triple r i :
  (i < numPipelines v0)%nat ->
  triple (going r) (begin_runner pipe_init cap r i)
    (fun r' t => going r' t /\ r_server r' = r_server r /\ i ∈ dom (r_states r')).
Proof.
  intros Hi w [[Hl Hd] He]. destruct (lookup_lt_is_Some_2 (pipelines v0) i Hi) as [a Ha].
  destruct (like_deref (r_server r) a Hl ltac:(by eapply list_elem_of_lookup_2)) as [p Hp].
  destruct (like_table _ a p Hl Hp) as (p0 & Hp0 & Ht).
  unfold begin_runner. rewrite (like_pipelines v0 _ Hl).
  rewrite (bind_ok _ _ w w a) by (apply vec_at_inside; [lia | by rewrite Nat2Z.id]).
  rewrite (bind_ok _ _ w w p) by (unfold deref, lift; by rewrite Hp).
  unfold pipelineRunner_begin.
  pose proof (begin_entries v0 _ i a p0 cap _ Ha Hp0 Hcap' He) as Hb. cbv zeta in Hb. rewrite Ht in Hb.
  set (t1 := nt_SetDouble _ cap _) in Hb.
  destruct (proj1 (Hpipes a) _ (World (w_cs w) t1 (w_bufs w) (w_out w)) Hb) as (w1 & [] & E1 & H1).
  eexists w1, (mkRunning (r_server r) (<[i := mkRunner 1 (first_meter cap)]> (r_states r))).
  split.
  - unfold bind, put_boolean, put_number, put_double, on_nt, ret. cbn [w_cs w_nt w_bufs w_out].
    unfold t1 in E1. by rewrite E1.
  - split; [|split; [done | cbn; rewrite dom_insert_L; by apply elem_of_union_l, elem_of_singleton]].
    unfold going. cbn. rewrite dom_insert_L. split; [|done]. split; [done|].
    intros j [->%elem_of_singleton | Hj]%elem_of_union; [done | by apply Hd].
Qed.

Lemma sync_triple v begun : like v0 v -> triple (E begun) (sync_all v : prog VisionServer) (fun v1 t => E begun t /\ like v0 v1).
Proof.
  intros Hl w He.
  assert (Hidx : forall s, s ∈ streams v -> remote_index (w_nt w) s = Some (default 0 (remote_index (w_nt w) s))).
  { intros s Hs. assert (Hst : stream_table s ∈ stream_table <$> streams v0).
    { rewrite <- (like_streams v0 v Hl). apply list_elem_of_fmap. by exists s. }
    apply list_elem_of_fmap in Hst as (s0 & Heq & Hs0).
    pose proof (proj1 (Forall_forall _ _) (proj2 He) s0 Hs0) as Hu. unfold stream_usable in Hu.
    unfold remote_index. rewrite Heq. destruct (int_of_double _); [done | by destruct Hu]. }
  rewrite (sync_all_eq v _ w (like_alive v0 v Hl) Hidx). eexists _, _. split; [reflexivity|].
  split; [exact He|]. destruct Hl as [H1 H2 H3 H4]. constructor; try done. cbn.
  rewrite <- H4, <- list_fmap_compose. by apply list_fmap_ext.
Qed.

Lemma event_triple r e :
  reasonable_event e ->
  triple (going r) (run_event putText pipe_init pipe_process numPipelines_address cap r e) going.
Proof.
  intros He. destruct e as [i|i t| |f]; cbn [run_event reasonable_event] in *.
  - case_decide; [|by apply triple_ret].
    eapply triple_weaken; [intros t Ht; exact Ht | | by apply begin_triple]. by intros r' t [? _].
  - destruct (r_states r !! i) as [s|] eqn:Hs; [|by apply triple_ret].
    intros w [[Hl Hd] Hw]. pose proof (elem_of_dom_2 _ _ _ Hs) as Hb.
    destruct (lookup_lt_is_Some_2 (pipelines v0) i (Hd i Hb)) as [a Ha].
    rewrite (like_pipelines v0 _ Hl).
    rewrite (bind_ok _ _ w w a) by (apply vec_at_inside; [lia | by rewrite Nat2Z.id]).
    destruct (turn_triple (r_server r) _ i a s t Hl Ha Hb He w Hw) as (w1 & x & E1 & H1 & H2).
    rewrite (bind_ok _ _ _ _ _ E1). eexists w1, _. split; [reflexivity|]. unfold going. cbn.
    rewrite dom_insert_lookup_L by (by eexists). done.
  - intros w [[Hl Hd] Hw]. destruct (sync_triple (r_server r) _ Hl w Hw) as (w1 & v1 & E1 & H1 & H2).
    rewrite (bind_ok _ _ _ _ _ E1). eexists _, _. split; [reflexivity|]. split; [done|]. by apply flush_entries.
  - intros w [Hl Hw]. eexists _, _. split; [reflexivity|]. split; [done|]. by apply He.
Qed.

Lemma events_triple es r :
  Forall reasonable_event es ->
  triple (going r) (run_events putText pipe_init pipe_process numPipelines_address cap r es) going.
Proof.
  intros Hes. revert r. induction Hes as [|e es He _ IH]; intros r; cbn [run_events]; [by apply triple_ret|].
  eapply triple_bind; [by apply event_triple | exact IH].
Qed.

Lemma join_triple ix r :
  Forall (fun i => (i < numPipelines v0)%nat) ix ->
  triple (going r) (join_runners pipe_init pipe_close cap r ix)
    (fun r' t => going r' t /\ r_server r' = r_server r).
Proof.
  intros Hix. revert r. induction Hix as [|i ix Hi _ IH]; intros r; cbn [join_runners]; [by apply triple_ret|].
  apply triple_bind with (Q := fun r1 t => going r1 t /\ r_server r1 = r_server r).
  { case_decide; [|by apply triple_ret].
    eapply triple_weaken; [intros t Ht; exact Ht | | by apply begin_triple]. by intros r' t (? & ? & _). }
  intros r1. apply triple_pure. intros Hr1 w [[Hl Hd] Hw].
  destruct (lookup_lt_is_Some_2 (pipelines v0) i Hi) as [a Ha]. rewrite (like_pipelines v0 _ Hl).
  rewrite (bind_ok _ _ w w a) by (apply vec_at_inside; [lia | by rewrite Nat2Z.id]).
  destruct (proj1 (proj2 (Hpipes a)) _ w Hw) as (w1 & [] & E1 & H1). rewrite (bind_ok _ _ _ _ _ E1).
  rewrite <- Hr1. by apply IH.
Qed.

End Parts.

(** A client who asks for a camera or a pipeline that is there, or for none, is
    reasonable. *)
Lemma client_reasonable {C T} `{CS : CsCore C} `{NT : Tables T} `{NL : !TablesLaws T} v0 i a p x n :
  pipelines v0 !! i = Some a -> pipes v0 !! a = Some p ->
  int_of_double x = Some n -> - Z.of_nat (numPipelines v0) <= n ->
  reasonable v0 (fun w : world C T =>
    World (w_cs w) (nt_SetDouble (entry_path (pipe_table p) "Source Index") x (w_nt w)) (w_bufs w) (w_out w)).
Proof.
  intros Hi Ha Hx Hn begun w He. cbn. apply set_entries; try done; [|by eauto].
  apply (proj1 He i a p Hi Ha).
Qed.

(** * The whole run *)

Section Survival.

Context {C T : Type} `{CS : CsCore C} `{NT : Tables T} `{NL : !TablesLaws T} `{NF : !TablesFrame T}.
Abbreviation prog := (M C T).
Context (putText : Z -> string -> Z * Z -> Z).
Context (pipe_init pipe_close : nat -> prog unit) (pipe_process : nat -> Z -> prog Z).
Context (numPipelines_address : Z).

(** C11. A multithreaded run comes back.  When its pipelines exist, their methods
    return, and the frame rate can be timed, then with any number of pipelines
    and in every order of the threads' beginnings and turns, the streams' turns
    and the writes of clients, [run] ends with the flag cleared and the same
    pipelines and streams - provided that what clients write stays usable: source
    indices and verbosities that convert to [int], no index of a pipeline below
    the last pipeline's, and a frame rate that is not 0.  So none of the accesses
    with [at], the pointers followed and the conversions in the threads and the
    streams' loop fails. *)
Theorem run_survives v cap es (w : world C T) :
  isRunning v = false -> (0 < numPipelines v)%nat -> pipes_alive v ->
  entries_ok v ∅ (w_nt w) -> paced cap -> paced (to_float cap) ->
  obliging_pipelines pipe_init pipe_close pipe_process v -> Forall (reasonable_event v) es ->
  exists w' v', run putText pipe_init pipe_close pipe_process numPipelines_address v cap es w = (w', Ok (v', true)) /\
    isRunning v' = false /\ like v v'.
Proof.
  intros Hidle Hsome Hal He Hcap Hcap' Hpipes Hes. unfold run.
  rewrite Hidle, (proj2 (Nat.ltb_lt _ _) Hsome). cbn [negb andb].
  set (w1 := (put_string server_table "Status" "Running Multithreaded" w).1).
  rewrite (bind_ok _ _ w w1 tt) by done. destruct Hcap as [z Hz].
  rewrite (bind_ok _ _ w1 w1 z) by (unfold period, lift; by rewrite Hz).
  assert (Hgo : going v (mkRunning (with_running v true) ∅) (w_nt w1)).
  { split; [split; [by constructor | cbn; intros i; rewrite dom_empty_L; by intros ?%elem_of_empty]|].
    cbn. rewrite dom_empty_L. apply other_key_string; [by apply entry_other | done]. }
  destruct (events_triple putText pipe_init pipe_close pipe_process numPipelines_address cap v Hpipes Hcap'
              es _ Hes w1 Hgo) as (w2 & r & E2 & Hgo2).
  rewrite (bind_ok _ _ _ _ _ E2).
  destruct (join_triple pipe_init pipe_close pipe_process cap v Hpipes Hcap' (seq 0 (numPipelines v)) r
              ltac:(apply Forall_forall; intros i; rewrite elem_of_seq; lia) w2 Hgo2) as (w3 & r1 & E3 & [[Hl _] _] & _).
  rewrite (bind_ok _ _ _ _ _ E3). eexists _, _. split; [reflexivity|]. split; [done|].
  destruct Hl as [H1 H2 H3 H4]. by constructor.
Qed.

End Survival.

(** * A concrete run *)

Lemma sim_obliging v : obliging_pipelines sim_init sim_close sim_process v.
Proof.
  intros a. split; [|split; [|intros frame]]; intros begun w Hw; eexists _, _; (split; [reflexivity | exact Hw]).
Qed.

Lemma two_pipes_tables i a p :
  pipelines two_pipes.2 !! i = Some a -> pipes two_pipes.2 !! a = Some p ->
  pipe_table p = "/Vision Server/Pipelines/P" \/ pipe_table p = "/Vision Server/Pipelines/Q".
Proof.
  intros Hi Ha. assert (Hl : pipelines two_pipes.2 = [0; 1]%nat) by (vm_compute; reflexivity). rewrite Hl in Hi.
  destruct i as [|[|i]]; [| | discriminate Hi]; injection Hi as <-; vm_compute in Ha; injection Ha as <-;
    [left; reflexivity | right; reflexivity].
Qed.

Lemma two_pipes_entries : entries_ok two_pipes.2 ∅ (w_nt two_pipes.1).
Proof.
  split.
  - intros i a p Hi Ha. split; [|intros Hin; destruct (not_elem_of_empty i Hin)].
    destruct (two_pipes_tables i a p Hi Ha) as [-> | ->]; unfold numeric, nt_accepts; vm_compute; tauto.
  - assert (Hs : stream_table <$> streams two_pipes.2 = ["/Vision Server/Streams/s"]) by (vm_compute; reflexivity).
    apply (proj1 (Forall_fmap stream_table (stream_usable (w_nt two_pipes.1)) (streams two_pipes.2))). rewrite Hs.
    constructor; [vm_compute; by eexists | constructor].
Qed.

(** The run of Threads.v, of which the theorem says beforehand that it returns. *)
Lemma run_survives_witness :
  exists w' v', run no_text sim_init sim_close sim_process 4198400 two_pipes.2 (float_of_Z 50) two_threads two_pipes.1 =
                (w', Ok (v', true)) /\ isRunning v' = false.
Proof.
  destruct (pipes two_pipes.2 !! 0%nat) as [p|] eqn:Hp; [|vm_compute in Hp; discriminate].
  destruct (pipes two_pipes.2 !! 1%nat) as [q|] eqn:Hq; [|vm_compute in Hq; discriminate].
  assert (Tp : pipe_table p = "/Vision Server/Pipelines/P") by (vm_compute in Hp; injection Hp as <-; reflexivity).
  assert (Tq : pipe_table q = "/Vision Server/Pipelines/Q") by (vm_compute in Hq; injection Hq as <-; reflexivity).
  pose proof (fun x n => client_reasonable two_pipes.2 0 0 p x n P_first Hp) as RP.
  pose proof (fun x n => client_reasonable two_pipes.2 1 1 q x n ltac:(vm_compute; reflexivity) Hq) as RQ.
  rewrite Tp in RP. rewrite Tq in RQ.
  destruct (run_survives no_text sim_init sim_close sim_process 4198400 two_pipes.2 (float_of_Z 50) two_threads two_pipes.1)
    as (w' & v' & E & H & _).
  - vm_compute. reflexivity.
  - vm_compute. lia.
  - unfold pipes_alive. vm_compute. repeat constructor; by eexists.
  - exact two_pipes_entries.
  - vm_compute. by eexists.
  - vm_compute. by eexists.
  - apply sim_obliging.
  - assert (N2 : numPipelines two_pipes.2 = 2%nat) by (vm_compute; reflexivity). rewrite N2 in RP, RQ.
    assert (Hsame : forall k, reasonable two_pipes.2 (others (quiet_turn k))) by (intros k begun w Hw; exact Hw).
    apply Forall_forall. unfold two_threads, client_writes. intros e.
    rewrite !elem_of_cons, elem_of_nil. intros [->|[->|[->|[->|[->|[->|[->|[->|[->|[->|[->|[]]]]]]]]]]]];
      cbn [reasonable_event]; rewrite ?N2; try exact (Hsame _); try lia; try exact I.
    + exact (RP (double_of_Z 2) 2 eq_refl ltac:(lia)).
    + exact (RQ (double_of_Z (-1)) (-1) eq_refl ltac:(lia)).
    + exact (RP (double_of_Z 1) 1 eq_refl ltac:(lia)).
  - exists w', v'. split; [exact E | exact H].
Defined.
