(* ===== verification/Geometry.v ===== *)
(** The geometric helper templates of [lib-vs/src/core/vision.h]: sizes, points,
    rescaling, centres, angular ordering and depth extension, for the number
    types the library instantiates them with ([int] and [float]). *)

From S2P Require Import Prelude Floats Json World.
From Stdlib Require Import Sorting.Permutation Sorting.Sorted.
Local Open Scope Z_scope.

(** * Numbers *)

(** The operations of an arithmetic type; signed overflow is undefined. *)
Class Num (N : Type) := {
  n_zero : N;
  n_add : N -> N -> res N;
  n_sub : N -> N -> res N;
  n_abs : N -> res N;
  n_lt : N -> N -> bool;
  n_le : N -> N -> bool;
  (* [x /= size] with a [size_t] *)
  n_div_size : N -> nat -> res N;
  (* [x /= 2] *)
  n_half : N -> res N;
  (* [x *= scale] with a [double] *)
  n_mul_double : N -> double -> res N;
  (* the argument of [atan2] *)
  n_double : N -> double
}.

Definition int_res (z : Z) : res Z :=
  if (- 2 ^ 31 <=? z) && (z <=? 2 ^ 31 - 1) then Ok z else Undefined.

(** [int] divided by a [size_t]: both operands become unsigned 64-bit, and the
    quotient is cut down to [int]. *)
Definition int_div_size (z : Z) (n : nat) : res Z :=
  if (n =? 0)%nat then Undefined else Ok (wraps 32 (wrapu 64 z / Z.of_nat n)).

#[export] Instance int_Num : Num Z := {
  n_zero := 0;
  n_add a b := int_res (a + b);
  n_sub a b := int_res (a - b);
  n_abs a := int_res (Z.abs a);
  n_lt := Z.ltb;
  n_le := Z.leb;
  n_div_size := int_div_size;
  n_half a := Ok (Z.quot a 2);
  n_mul_double a d := of_option (int_of_double (dmul (double_of_Z a) d));
  n_double := double_of_Z
}.

#[export] Instance float_Num : Num double := {
  n_zero := S754_zero false;
  n_add a b := Ok (fadd a b);
  n_sub a b := Ok (fsub a b);
  n_abs a := Ok (SFabs a);
  n_lt := SFltb;
  n_le := SFleb;
  n_div_size a n := Ok (fdiv a (float_of_Z (Z.of_nat n)));
  n_half a := Ok (fdiv a (float_of_Z 2));
  n_mul_double a d := Ok (to_float (dmul a d));
  n_double a := a
}.

Record Size (N : Type) := mkSize { s_width : N; s_height : N }.
Record Point (N : Type) := mkPoint { px : N; py : N }.
Record Point3 (N : Type) := mkPoint3 { qx : N; qy : N; qz : N }.
Record Rect (N : Type) := mkRect { rx : N; ry : N; r_width : N; r_height : N }.
Arguments mkSize {N} _ _.
Arguments s_width {N} _.
Arguments s_height {N} _.
Arguments mkPoint {N} _ _.
Arguments px {N} _.
Arguments py {N} _.
Arguments mkPoint3 {N} _ _ _.
Arguments qx {N} _.
Arguments qy {N} _.
Arguments qz {N} _.
Arguments mkRect {N} _ _ _ _.
Arguments rx {N} _.
Arguments ry {N} _.
Arguments r_width {N} _.
Arguments r_height {N} _.

(** The size of a video mode, with the height as its width. *)
Definition getResolution (vm : VideoMode) : Size Z := mkSize (height vm) (width vm).

(** * Containers *)

(** [vec.insert(vec.begin(), vec.at(idx))], then erase the source. *)
Definition reinsert {A} (vec : list A) (idx : nat) : res (list A) :=
  match vec !! idx with
  | None => Throw StdOutOfRange
  | Some a => let v1 := a :: vec in Ok (delete (idx + 1)%nat v1)
  end.

Definition swapIdx {A} (vec : list A) (i j : nat) : res (list A) :=
  match vec !! i, vec !! j with
  | Some a, Some b => Ok (<[j := a]> (<[i := b]> vec))
  | _, _ => Undefined
  end.

(** The loops that change every element in place. *)
Fixpoint each {A B} (f : A -> res B) (l : list A) : res (list B) :=
  match l with
  | [] => Ok []
  | a :: l' => b ← f a; bs ← each f l'; Ok (b :: bs)
  end.

(** [std::sort] with a comparison; the order of equivalent elements, which is
    unspecified, is the original one here. *)
Section Sort.
Context {A : Type} (less : A -> A -> bool).
Fixpoint sort_insert (a : A) (l : list A) : list A :=
  match l with
  | [] => [a]
  | b :: l' => if less b a then b :: sort_insert a l' else a :: l
  end.
Fixpoint sort (l : list A) : list A :=
  match l with [] => [] | a :: l' => sort_insert a (sort l') end.
End Sort.

Section Geometry.

Context {N : Type} `{Num N}.

Definition size_div (input : Size Z) (scale : Z) : res (Size Z) :=
  if scale =? 0 then Undefined else Ok (mkSize (Z.quot (s_width input) scale) (Z.quot (s_height input) scale)).

Definition inRange (a lower upper : N) : bool := n_le a upper && n_le lower a.
Definition sgn (val : N) : Z := (if n_lt n_zero val then 1 else 0) - (if n_lt val n_zero then 1 else 0).

Definition distance (a b : Point N) : res (Size N) :=
  dx ← (d ← n_sub (px a) (px b); n_abs d);
  dy ← (d ← n_sub (py a) (py b); n_abs d);
  Ok (mkSize dx dy).
Definition distance3 (a b : Point3 N) : res (Point3 N) :=
  dx ← (d ← n_sub (qx a) (qx b); n_abs d);
  dy ← (d ← n_sub (qy a) (qy b); n_abs d);
  dz ← (d ← n_sub (qz a) (qz b); n_abs d);
  Ok (mkPoint3 dx dy dz).

(** Sizes compare in both dimensions at once: a partial order. *)
Definition size_lt (a b : Size N) : bool := n_lt (s_width a) (s_width b) && n_lt (s_height a) (s_height b).
Definition size_le (a b : Size N) : bool := n_le (s_width a) (s_width b) && n_le (s_height a) (s_height b).
Definition size_gt (a b : Size N) : bool := n_lt (s_width b) (s_width a) && n_lt (s_height b) (s_height a).
Definition size_ge (a b : Size N) : bool := n_le (s_width b) (s_width a) && n_le (s_height b) (s_height a).

Definition point_minus_size (a : Point N) (b : Size N) : res (Point N) :=
  x ← n_sub (px a) (s_width b); y ← n_sub (py a) (s_height b); Ok (mkPoint x y).
Definition point_plus_size (a : Point N) (b : Size N) : res (Point N) :=
  x ← n_add (px a) (s_width b); y ← n_add (py a) (s_height b); Ok (mkPoint x y).
Definition size_minus_point (a : Size N) (b : Point N) : res (Size N) :=
  x ← n_sub (s_width a) (px b); y ← n_sub (s_height a) (py b); Ok (mkSize x y).
Definition size_plus_point (a : Size N) (b : Point N) : res (Size N) :=
  x ← n_add (s_width a) (px b); y ← n_add (s_height a) (py b); Ok (mkSize x y).

(** ** Rescaling *)

(** The point operators of the vision library: scaling by an [int], dividing by
    an [int], scaling by a [double]. *)
Context (point_mul_int point_div_int : Point N -> Z -> Point N)
        (point_mul : Point N -> double -> Point N).

Definition rescale_up (points : list (Point N)) (scale : Z) : list (Point N) :=
  map (fun p => point_mul_int p (wraps 32 scale)) points.
Definition _rescale (points : list (Point N)) (scale : Z) : list (Point N) :=
  map (fun p => point_div_int p (wraps 32 scale)) points.
Definition rescale (points : list (Point N)) (scale : double) : list (Point N) :=
  map (fun p => point_mul p scale) points.
Definition rescale_contours (contours : list (list (Point N))) (scale : double)
    : list (list (Point N)) :=
  map (map (fun p => point_mul p scale)) contours.
Definition rescale_rects (rects : list (Rect N)) (scale : double) : res (list (Rect N)) :=
  each (fun r => x ← n_mul_double (rx r) scale; y ← n_mul_double (ry r) scale;
                 w ← n_mul_double (r_width r) scale; h ← n_mul_double (r_height r) scale;
                 Ok (mkRect x y w h)) rects.

(** ** Centres *)

(** [for(...) { ret.x += contour[i].x; ret.y += contour[i].y; }] with the
    addition [acc] of an input number to an output number. *)
Definition add_points {I} (acc : N -> I -> res N) (contour : list (Point I)) : res (Point N) :=
  foldl (fun r p => ret ← r; x ← acc (px ret) (px p); y ← acc (py ret) (py p); Ok (mkPoint x y))
    (Ok (mkPoint n_zero n_zero)) contour.
Definition add_points3 {I} (acc : N -> I -> res N) (contour : list (Point3 I)) : res (Point3 N) :=
  foldl (fun r p => ret ← r; x ← acc (qx ret) (qx p); y ← acc (qy ret) (qy p);
                    z ← acc (qz ret) (qz p); Ok (mkPoint3 x y z))
    (Ok (mkPoint3 n_zero n_zero n_zero)) contour.

(** With an output type of its own. *)
Definition findCenter_to {I} (acc : N -> I -> res N) (contour : list (Point I)) : res (Point N) :=
  if (0 <? length contour)%nat then
    s ← add_points acc contour;
    x ← n_div_size (px s) (length contour);
    y ← n_div_size (py s) (length contour);
    Ok (mkPoint x y)
  else Ok (mkPoint n_zero n_zero).
Definition findCenter (contour : list (Point N)) : res (Point N) :=
  if (0 <? length contour)%nat then
    s ← add_points n_add contour;
    x ← n_div_size (px s) (length contour);
    y ← n_div_size (py s) (length contour);
    Ok (mkPoint x y)
  else Ok (mkPoint n_zero n_zero).

Definition findCenter3D_to {I} (acc : N -> I -> res N) (contour : list (Point3 I)) : res (Point3 N) :=
  if (0 <? length contour)%nat then
    s ← add_points3 acc contour;
    x ← n_div_size (qx s) (length contour);
    y ← n_div_size (qy s) (length contour);
    z ← n_div_size (qz s) (length contour);
    Ok (mkPoint3 x y z)
  else Ok (mkPoint3 n_zero n_zero n_zero).
Definition findCenter3D (contour : list (Point3 N)) : res (Point3 N) :=
  if (0 <? length contour)%nat then
    s ← add_points3 n_add contour;
    x ← n_div_size (qx s) (length contour);
    y ← n_div_size (qy s) (length contour);
    z ← n_div_size (qz s) (length contour);
    Ok (mkPoint3 x y z)
  else Ok (mkPoint3 n_zero n_zero n_zero).

(** The corners are the vision library's. *)
Context (tl br : Rect N -> Point N).

Definition findCenter_rect (rect : Rect N) : res (Point N) :=
  x ← n_add (px (tl rect)) (px (br rect));
  y ← n_add (py (tl rect)) (py (br rect));
  x ← n_half x; y ← n_half y;
  Ok (mkPoint x y).
Definition findCenter_rect_to {I} (conv : I -> N) (plus : I -> I -> res I)
    (tl br : Rect I -> Point I) (rect : Rect I) : res (Point N) :=
  x ← plus (px (tl rect)) (px (br rect));
  y ← plus (py (tl rect)) (py (br rect));
  x ← n_half (conv x); y ← n_half (conv y);
  Ok (mkPoint x y).

(** ** Angular order *)

(** [atan2] of the C library, and its comparison. *)
Context (atan2 : double -> double -> double).

Definition angle (center p : Point N) : res double :=
  x ← n_sub (px p) (px center); y ← n_sub (py p) (py center);
  Ok (atan2 (n_double x) (n_double y)).

Definition counter_clockwise (center a b : Point N) : bool :=
  match angle center a, angle center b with
  | Ok x, Ok y => SFltb x y
  | _, _ => false
  end.
Definition clockwise (center a b : Point N) : bool :=
  match angle center a, angle center b with
  | Ok x, Ok y => SFltb (SFopp x) (SFopp y)
  | _, _ => false
  end.

(** The differences to the centre must be representable. *)
Definition angles_defined (center : Point N) (points : list (Point N)) : bool :=
  forallb (fun p => match angle center p with Ok _ => true | _ => false end) points.

Definition reorderClockWise (points : list (Point N)) : res (list (Point N)) :=
  center ← findCenter_to n_add points;
  if angles_defined center points then Ok (sort (clockwise center) points) else Undefined.
Definition reorderCClockWise (points : list (Point N)) : res (list (Point N)) :=
  center ← findCenter_to n_add points;
  if angles_defined center points then Ok (sort (counter_clockwise center) points) else Undefined.

(** ** Depth *)

Definition lift_depth (depth : N) (p : Point N) : Point3 N := mkPoint3 (px p) (py p) depth.
Definition add_depth (depth : N) (p : Point3 N) : res (Point3 N) :=
  z ← n_add (qz p) depth; Ok (mkPoint3 (qx p) (qy p) z).

Definition array_plus_depth (base : list (Point N)) (depth : N) : list (Point3 N) :=
  map (lift_depth depth) base.
(** The function ends without a [return]. *)
Definition array3_plus_depth (base : list (Point3 N)) (depth : N) : res (list (Point3 N)) :=
  each (add_depth depth) base ≫= fun _ => Undefined.
Definition array3_extend (base : list (Point3 N)) (depth : N) : res (list (Point3 N)) :=
  each (add_depth depth) base.
(** The vector is constructed with [base.size()] elements, and as many are
    appended. *)
Definition vector_plus_depth (base : list (Point N)) (depth : N) : list (Point3 N) :=
  replicate (length base) (mkPoint3 n_zero n_zero n_zero) ++ map (lift_depth depth) base.
Definition vector3_plus_depth (base : list (Point3 N)) (depth : N) : res (list (Point3 N)) :=
  tail ← each (add_depth depth) base;
  Ok (replicate (length base) (mkPoint3 n_zero n_zero n_zero) ++ tail).

End Geometry.

(** * Properties *)

(** ** Containers *)

Lemma reinsert_spec {A} (vec : list A) idx a :
  vec !! idx = Some a ->
  reinsert vec idx = Ok (a :: delete idx vec) /\ Permutation vec (a :: delete idx vec).
Proof.
  intros E. unfold reinsert. rewrite E. replace (idx + 1)%nat with (S idx) by lia. split; [done|].
  by apply delete_Permutation.
Qed.

Lemma size_lt_irrefl (a : Size Z) : size_lt a a = false.
Proof. unfold size_lt. cbn. by rewrite Z.ltb_irrefl. Qed.
Lemma size_lt_trans (a b c : Size Z) : size_lt a b = true -> size_lt b c = true -> size_lt a c = true.
Proof.
  unfold size_lt. cbn. rewrite !andb_true_iff, !Z.ltb_lt. lia.
Qed.

(** Neither larger nor smaller, nor equal: the comparison of sizes is partial. *)
Example sizes_incomparable :
  size_lt (mkSize 1 2) (mkSize 2 1) = false /\ size_ge (mkSize 1 2) (mkSize 2 1) = false.
Proof. done. Qed.

(** The video mode's size has its sides exchanged. *)
Example getResolution_swaps : getResolution (mkMode kMJPEG 640 480 30) = mkSize 480 640.
Proof. done. Qed.

(** ** The sorted contour *)

Section SortSpec.
Context {A : Type} (less : A -> A -> bool).

Lemma sort_insert_perm a l : Permutation (a :: l) (sort_insert less a l).
Proof.
  induction l as [|b l IH]; [done|]. cbn. destruct (less b a); [|done].
  rewrite perm_swap. by constructor.
Qed.
Lemma sort_perm l : Permutation l (sort less l).
Proof.
  induction l as [|a l IH]; [done|]. cbn. rewrite <- sort_insert_perm. by constructor.
Qed.

Definition ordered (l : list A) : Prop := Sorted (fun a b => less b a = false) l.

Lemma sort_insert_sorted a l :
  (forall x y, less x y = true -> less y x = false) -> ordered l -> ordered (sort_insert less a l).
Proof.
  intros Hasym Hl. induction Hl as [|b l Hl IH Hb]; [by repeat constructor|].
  cbn. destruct (less b a) eqn:E; [|by repeat constructor].
  constructor; [exact IH|]. destruct l as [|c l]; cbn; [by constructor; auto|].
  apply HdRel_inv in Hb. destruct (less c a); constructor; auto.
Qed.
Lemma sort_sorted l :
  (forall x y, less x y = true -> less y x = false) -> ordered (sort less l).
Proof.
  intros Hasym. induction l as [|a l IH]; [constructor|]. by apply sort_insert_sorted.
Qed.
End SortSpec.

(** Reordering counter-clockwise keeps the points and orders neighbours by
    their angle around the centre of the points. *)
Theorem reorderCClockWise_ordered {N} `{Num N} atan2 (points result : list (Point N)) :
  reorderCClockWise atan2 points = Ok result ->
  exists center, findCenter_to n_add points = Ok center /\ Permutation points result /\
    ordered (counter_clockwise atan2 center) result.
Proof.
  unfold reorderCClockWise. destruct (findCenter_to n_add points) as [c|e|]; cbn; try discriminate.
  destruct (angles_defined atan2 c points); [|discriminate]. intros [= <-]. exists c.
  split; [done|]. split; [apply sort_perm|]. apply sort_sorted.
  intros a b. unfold counter_clockwise.
  destruct (angle atan2 c a), (angle atan2 c b); try done. apply SFltb_asym.
Qed.

(** Sorting by the first argument of the angle. *)
Lemma reorderCClockWise_ordered_witness :
  exists center : Point Z, ordered (counter_clockwise (fun y _ => y) center)
    [mkPoint 0 4; mkPoint 3 5; mkPoint 6 0].
Proof.
  destruct (reorderCClockWise_ordered (H := int_Num) (fun y _ => y) [mkPoint 3 5; mkPoint 6 0; mkPoint 0 4]
              [mkPoint 0 4; mkPoint 3 5; mkPoint 6 0] eq_refl) as (c & _ & _ & Ho).
  exists c. exact Ho.
Defined.

(** ** Centres of integer contours *)

Definition sum (l : list Z) : Z := foldr Z.add 0 l.

Definition within (b : Z) (p : Point Z) : Prop := - b <= px p <= b /\ - b <= py p <= b.

Lemma int_res_ok z : - 2 ^ 31 <= z <= 2 ^ 31 - 1 -> int_res z = Ok z.
Proof.
  intros Hz. unfold int_res. by destruct (Z.leb_spec (- 2 ^ 31) z), (Z.leb_spec z (2 ^ 31 - 1)); try lia.
Qed.

Lemma add_points_from b l x y :
  0 <= b -> Forall (within b) l ->
  Z.abs x + Z.of_nat (length l) * b <= 2 ^ 31 - 1 -> Z.abs y + Z.of_nat (length l) * b <= 2 ^ 31 - 1 ->
  foldl (fun r p => ret ← r; x ← n_add (px ret) (px p); y ← n_add (py ret) (py p); Ok (mkPoint x y))
    (Ok (mkPoint x y)) l = Ok (mkPoint (x + sum (map px l)) (y + sum (map py l))).
Proof.
  intros Hb Hl. revert x y. induction Hl as [|p l [Hpx Hpy] Hl IH]; intros x y Hx Hy.
  - cbn. by rewrite !Z.add_0_r.
  - cbn [length] in Hx, Hy. cbn [foldl mbind res_bind px py n_add int_Num map].
    rewrite !int_res_ok by lia. cbn [mbind res_bind]. rewrite IH by lia.
    cbn [sum foldr]. by rewrite !Z.add_assoc.
Qed.

(** What dividing a sum by the number of points gives. *)
Definition int_mean (s : Z) (n : nat) : Z := wraps 32 (wrapu 64 s / Z.of_nat n).

Lemma wraps_small z : - 2 ^ 31 <= z < 2 ^ 31 -> wraps 32 z = z.
Proof.
  intros Hz. unfold wraps. change (32 - 1) with 31. destruct (Z.lt_ge_cases z 0).
  - rewrite <- (Z_mod_plus_full z 1), Z.mod_small by lia. destruct (Z.ltb_spec (z + 1 * 2 ^ 32) (2 ^ 31)); lia.
  - rewrite Z.mod_small by lia. destruct (Z.ltb_spec z (2 ^ 31)); lia.
Qed.
Lemma wraps_plus z k : wraps 32 (z + k * 2 ^ 32) = wraps 32 z.
Proof. unfold wraps. by rewrite Z_mod_plus_full. Qed.

Lemma int_mean_nonneg s n : 0 <= s < 2 ^ 31 -> (0 < n)%nat -> int_mean s n = s / Z.of_nat n.
Proof.
  intros Hs Hn. unfold int_mean, wrapu. rewrite (Z.mod_small s) by lia.
  apply wraps_small. pose proof (Z.div_pos s (Z.of_nat n)). pose proof (Z.div_le_upper_bound s (Z.of_nat n) s). nia.
Qed.

Lemma int_mean_pow2 s k n :
  - 2 ^ 31 < s < 2 ^ 31 -> 0 <= k <= 32 -> Z.of_nat n = 2 ^ k -> int_mean s n = s / Z.of_nat n.
Proof.
  intros Hs Hk Hn. assert (0 < 2 ^ k) by (apply Z.pow_pos_nonneg; lia).
  destruct (Z.lt_ge_cases s 0); [|by apply int_mean_nonneg; lia].
  unfold int_mean, wrapu. rewrite Hn.
  rewrite <- (Z_mod_plus_full s 1), Z.mod_small by lia.
  replace (s + 1 * 2 ^ 64) with (s + 2 ^ (32 - k) * 2 ^ 32 * 2 ^ k)
    by (rewrite <- Z.mul_assoc, (Z.mul_comm (2 ^ 32)), Z.mul_assoc, <- Z.pow_add_r by lia;
        replace (32 - k + k) with 32 by lia; lia).
  rewrite Z.div_add, wraps_plus by lia. apply wraps_small.
  pose proof (Z.div_lt_upper_bound s (2 ^ k) (2 ^ 31)). pose proof (Z.div_le_lower_bound s (2 ^ k) (- 2 ^ 31)). nia.
Qed.

(** C34. The centre of an integer contour whose sums fit: each coordinate is the
    sum divided as an unsigned 64-bit number and cut down to [int].  That is the
    mean (rounded down) when the sum is not negative or the number of points is
    a power of two; a negative sum over any other number of points gives an
    unrelated number. *)
Theorem findCenter_mean (contour : list (Point Z)) b :
  contour <> [] -> Forall (within b) contour -> Z.of_nat (length contour) * b <= 2 ^ 31 - 1 ->
  let n := length contour in
  let mean s := int_mean s n in
  let sx := sum (map px contour) in
  let sy := sum (map py contour) in
  findCenter contour = Ok (mkPoint (mean sx) (mean sy)) /\
  (forall s, 0 <= s < 2 ^ 31 -> mean s = s / Z.of_nat n) /\
  (forall s k, - 2 ^ 31 < s < 2 ^ 31 -> 0 <= k <= 32 -> Z.of_nat n = 2 ^ k -> mean s = s / Z.of_nat n).
Proof.
  intros Hne Hb Hlen n mean sx sy.
  assert (Hn : (0 < n)%nat) by (destruct contour; [done | cbn in n; lia]).
  assert (Hb0 : 0 <= b).
  { destruct contour as [|p l]; [done|]. apply Forall_cons in Hb as [[? ?] _]. lia. }
  split; [|split].
  - unfold findCenter, add_points. rewrite (proj2 (Nat.ltb_lt 0 (length contour)) Hn).
    cbn [n_zero int_Num]. rewrite (add_points_from b contour 0 0) by (done || lia).
    cbn [mbind res_bind px py n_div_size int_Num]. unfold int_div_size, mean, int_mean.
    destruct (Nat.eqb_spec (length contour) 0); [lia|]. cbn [mbind res_bind]. by rewrite !Z.add_0_l.
  - intros s Hs. by apply int_mean_nonneg.
  - intros s k. apply int_mean_pow2.
Qed.

(** Three points at [(-1, 3)]: the first coordinate of their centre. *)
Lemma findCenter_mean_witness :
  findCenter (replicate 3 (mkPoint (-1) 3)) = Ok (mkPoint 1431655764 3).
Proof.
  refine (proj1 (findCenter_mean (replicate 3 (mkPoint (-1) 3)) 3 _ _ _)).
  - discriminate.
  - repeat constructor; cbn; lia.
  - cbn. lia.
Defined.

(** ** Depth *)

(** Extending a vector of points yields twice as many points, the first half of
    them at the origin. *)
Theorem vector_plus_depth_length {N} `{Num N} (base : list (Point N)) depth :
  length (vector_plus_depth base depth) = (2 * length base)%nat /\
  take (length base) (vector_plus_depth base depth) =
    replicate (length base) (mkPoint3 n_zero n_zero n_zero).
Proof.
  unfold vector_plus_depth. split.
  - rewrite length_app, length_replicate, length_map. lia.
  - rewrite take_app_le by (rewrite length_replicate; lia).
    by rewrite take_ge by (rewrite length_replicate; lia).
Qed.

(** Extending an array of points in space never returns a value. *)
Theorem array3_plus_depth_undefined {N} `{Num N} (base : list (Point3 N)) depth l :
  array3_plus_depth base depth <> Ok l.
Proof. unfold array3_plus_depth. by destruct (each _ base). Qed.
