(* ===== verification/TfModel.v ===== *)
(** TensorFlow models in pipelines ([lib-vs/src/core/tfmodel.h], [tfmodel.cpp]):
    the label file reader, the choice among model files, and the object and pose
    detectors' output handling. *)

From S2P Require Import Prelude Floats Json Geometry Runner World.
Local Open Scope Z_scope.

(** * Label files *)

Definition newline : Ascii.ascii := Ascii.ascii_of_nat 10.
Definition quote : Ascii.ascii := Ascii.ascii_of_nat 34.

(** The lines successive [std::getline]s extract: none from an exhausted stream,
    and the last one need not be terminated. *)
Fixpoint getlines_from (cur : string) (s : string) : list string :=
  match s with
  | EmptyString => match cur with EmptyString => [] | _ => [cur] end
  | String c s' =>
      if Ascii.eqb c newline then cur :: getlines_from EmptyString s'
      else getlines_from (cur +:+ String c EmptyString) s'
  end.
Definition getlines : string -> list string := getlines_from EmptyString.

(** The loop over a line with its [start] and [end]; [i] is the position. *)
Fixpoint scan_quotes (i start : Z) (s : string) : Z * Z :=
  match s with
  | EmptyString => (start, -1)
  | String c s' =>
      if Ascii.eqb c quote then
        if start <? 0 then scan_quotes (i + 1) (i + 1) s' else (start, i)
      else scan_quotes (i + 1) start s'
  end.

Definition quoted (line : string) : option string :=
  let '(start, end_) := scan_quotes 0 (-1) line in
  if (0 <=? start) && (0 <=? end_)
  then Some (String.substring (Z.to_nat start) (Z.to_nat (end_ - start)) line)
  else None.

(** [objs] is cleared first; a file that cannot be opened reads as empty. *)
Definition loadObjectLabels (file : option string) : list string :=
  match getlines (default EmptyString file) with
  | [] => [EmptyString]
  | line :: lines =>
      if String.eqb line "item {" then omap quoted lines else line :: lines
  end.

(** * Choosing a model *)

Inductive Optimization := DEFAULT | EDGETPU.
Definition is_edgetpu (o : Optimization) : bool := match o with EDGETPU => true | DEFAULT => false end.

(** The inference library: model files, interpreters, their tensors, and the
    accelerators present. *)
Class TfLite (FM I : Type) := {
  BuildFromFile : option string -> option FM;
  tpusAvailable : nat;
  BuildInterpreter : FM -> bool -> Z -> option I;   (* with the accelerator's operations; threads *)
  num_inputs : I -> nat;
  input_dims : I -> list Z;
  input_uint8 : I -> bool;
  num_outputs : I -> nat;
  (* the float data of the outputs after running on a frame *)
  Invoke : I -> Z -> nat -> list double
}.

Section TfModel.

Context {FM I : Type} `{TfLite FM I}.

Record TfModel := mkTf {
  file_map : option FM;
  model : option I;
  edgetpu_context : bool;
  input_tensor : bool;        (* whether the input buffer is set up *)
  input_size : Size Z
}.

Definition isValid (m : TfModel) : bool :=
  match file_map m, model m with Some _, Some _ => true | _, _ => false end.
Definition isValidBuffer (m : TfModel) : bool := input_tensor m.

Definition no_model : TfModel := mkTf None None false false (mkSize 0 0).

(** One model file: the accelerator's context is set through the interpreter
    without testing that there is one. *)
Definition try_model (st : TfModel) (item : option string * Optimization) (th : Z) : res TfModel :=
  match BuildFromFile item.1 with
  | None => Ok (mkTf None (model st) (edgetpu_context st) false (input_size st))
  | Some fm =>
      if is_edgetpu item.2 && (0 <? tpusAvailable)%nat then
        match BuildInterpreter fm true th with
        | Some i => Ok (mkTf (Some fm) (Some i) true false (input_size st))
        | None => Undefined
        end
      else Ok (mkTf (Some fm) (BuildInterpreter fm false th) (edgetpu_context st) false (input_size st))
  end.

(** The loop: [break] only after a file that could be mapped. *)
Fixpoint try_models (st : TfModel) (models : list (option string * Optimization)) (th : Z) : res TfModel :=
  match models with
  | [] => Ok st
  | item :: models' =>
      st1 ← try_model st item th;
      if isValid st1 then Ok st1 else try_models st1 models' th
  end.

Definition dim (l : list Z) (i : nat) : res Z := of_option (l !! i).

Definition set_input (st : TfModel) (i : I) : res TfModel :=
  if (num_inputs i =? 1)%nat then
    let dims := input_dims i in
    w ← dim dims 1; h ← dim dims 2; c ← dim dims 3;
    Ok (mkTf (file_map st) (model st) (edgetpu_context st) ((c =? 3) && input_uint8 i) (mkSize w h))
  else Ok (mkTf (file_map st) (model st) (edgetpu_context st) (input_tensor st) (mkSize (-1) (-1))).

Definition TfModel_new (models : list (option string * Optimization)) (th : Z) : res TfModel :=
  st ← try_models no_model models th;
  match file_map st, model st with
  | Some _, Some i => set_input st i
  | _, _ => Ok st
  end.
Definition TfModel_pair (def edge : option string) (th : Z) : res TfModel :=
  TfModel_new [(def, DEFAULT); (edge, EDGETPU)] th.
Definition TfModel_single (m : option string) (t : Z) : res TfModel := TfModel_pair m None t.

(** * Object detection *)

(** The four output arrays; unset, and then not initialised, when the model does
    not have the expected shape. *)
Record AxonRunner := mkAxon {
  axon_model : TfModel;
  obj_labels : list string;
  axon_outputs : option I
}.

Definition AxonRunner_new (options : list (option string * Optimization)) (map : option string) (th : Z)
    : res AxonRunner :=
  m ← TfModel_new options th;
  let labels := loadObjectLabels map in
  match model m with
  | Some i => Ok (mkAxon m labels (if isValidBuffer m && (num_outputs i =? 4)%nat then Some i else None))
  | None => Ok (mkAxon m labels None)
  end.

(** The other constructors, with the files of the class. *)
Definition axon_default_model : string := "unoptimized.tflite".
Definition axon_edgetpu_model : string := "model.tflite".
Definition axon_default_labels : string := "map.pbtxt".

(** [read] is the file system, as the label reader uses it. *)
Definition AxonRunner_default (read : string -> option string) (th : Z) : res AxonRunner :=
  AxonRunner_new [(Some axon_default_model, DEFAULT); (Some axon_edgetpu_model, EDGETPU)]
    (read axon_default_labels) th.
Definition AxonRunner_file (read : string -> option string) (file : option string) (opt : Optimization)
    (map : string) (th : Z) : res AxonRunner :=
  AxonRunner_new [(file, opt)] (read map) th.

(** The pointers tested are not initialised when they were not set. *)
Definition axon_isValidOutput (a : AxonRunner) : res bool :=
  match axon_outputs a with Some _ => Ok true | None => Undefined end.

(** Reading element [i] of output [k] after running on [frame]. *)
Definition output_at (o : option I) (frame : Z) (k i : nat) : res double :=
  match o with
  | Some m => of_option (Invoke m frame k !! i)
  | None => Undefined
  end.

Definition getX1 (a : AxonRunner) frame idx := output_at (axon_outputs a) frame 0 (idx * 4 + 1).
Definition getY1 (a : AxonRunner) frame idx := output_at (axon_outputs a) frame 0 (idx * 4).
Definition getX2 (a : AxonRunner) frame idx := output_at (axon_outputs a) frame 0 (idx * 4 + 3).
Definition getY2 (a : AxonRunner) frame idx := output_at (axon_outputs a) frame 0 (idx * 4 + 2).

Definition getLabel (a : AxonRunner) (frame : Z) (idx : nat) : res string :=
  x ← output_at (axon_outputs a) frame 1 idx;
  i ← of_option (uint64_of_double x);
  match obj_labels a !! Z.to_nat i with Some s => Ok s | None => Throw StdOutOfRange end.

Definition getConfidence (a : AxonRunner) (frame : Z) (idx : nat) : res Z :=
  x ← output_at (axon_outputs a) frame 2 idx;
  of_option (uint_of_double (fmul x (float_of_Z 100))).

Definition getDetections (a : AxonRunner) (frame : Z) : res Z :=
  x ← output_at (axon_outputs a) frame 3 0;
  of_option (uint64_of_double x).

Definition axon_isValidIdx (a : AxonRunner) (frame : Z) (idx : Z) : res bool :=
  n ← getDetections a frame; Ok ((0 <=? idx) && (idx <? n)).

(** What is drawn on a frame. *)
Inductive Drawing :=
| DrawBox (p1 p2 : Point double)
| DrawLabel (text : string) (at_ : Point Z)
| DrawCircle (p : Point double)
| DrawLine (p q : Point double).

Context (rect_tl : Point double -> Point double -> Point double).

(** A coordinate relative to the frame in pixels. *)
Definition scaled (x : double) (extent : Z) : double := fmul x (float_of_Z extent).

Definition axon_box (a : AxonRunner) (frame : Z) (size : Size Z) (i : nat) : res (list Drawing) :=
  x1 ← getX1 a frame i; y1 ← getY1 a frame i; x2 ← getX2 a frame i; y2 ← getY2 a frame i;
  let p1 := mkPoint (scaled x1 (s_width size)) (scaled y1 (s_height size)) in
  let p2 := mkPoint (scaled x2 (s_width size)) (scaled y2 (s_height size)) in
  label ← getLabel a frame i;
  conf ← getConfidence a frame i;
  let tl := rect_tl p1 p2 in
  x ← of_option (int_of_double (px tl));
  y ← of_option (int_of_double (fsub (py tl) (float_of_Z 10)));
  Ok [DrawBox p1 p2; DrawLabel (label +:+ ": " +:+ show_nonneg conf +:+ "%") (mkPoint x y)].

Definition axon_process (a : AxonRunner) (frame : Z) (size : Size Z) : res (list Drawing) :=
  if isValidBuffer (axon_model a) then
    n ← getDetections a frame;
    ds ← each (axon_box a frame size) (seq 0 (Z.to_nat n));
    Ok (concat ds)
  else Ok [].

(** * Pose estimation *)

Inductive Output :=
| NOSE | L_EYE | R_EYE | L_EAR | R_EAR | L_SHOULDER | R_SHOULDER | L_ELBOW | R_ELBOW
| L_WRIST | R_WRIST | L_HIP | R_HIP | L_KNEE | R_KNEE | L_ANKLE | R_ANKLE.

Definition index_of (e : Output) : nat :=
  match e with
  | NOSE => 0 | L_EYE => 1 | R_EYE => 2 | L_EAR => 3 | R_EAR => 4 | L_SHOULDER => 5
  | R_SHOULDER => 6 | L_ELBOW => 7 | R_ELBOW => 8 | L_WRIST => 9 | R_WRIST => 10 | L_HIP => 11
  | R_HIP => 12 | L_KNEE => 13 | R_KNEE => 14 | L_ANKLE => 15 | R_ANKLE => 16
  end.
Definition TOTAL : nat := 17.

Definition confid_thresh : double := to_float (ddiv (double_of_Z 3) (double_of_Z 10)).

Definition names : list string :=
  ["nose"; "left eye"; "right eye"; "left ear"; "right ear"; "left shoulder"; "right shoulder";
   "left elbow"; "right elbow"; "left wrist"; "right wrist"; "left hip"; "right hip";
   "left knee"; "right knee"; "left ankle"; "right ankle"].

Definition connections : list (Output * Output) :=
  [(L_SHOULDER, R_SHOULDER); (L_SHOULDER, L_ELBOW); (L_ELBOW, L_WRIST); (R_SHOULDER, R_ELBOW);
   (R_ELBOW, R_WRIST); (L_HIP, R_HIP); (L_SHOULDER, L_HIP); (R_SHOULDER, R_HIP);
   (L_HIP, L_KNEE); (R_HIP, R_KNEE); (L_ANKLE, L_KNEE); (R_ANKLE, R_KNEE)].

Record MoveNet := mkMoveNet { move_model : TfModel; move_output : option I }.

(** The interpreter is used without testing that there is one. *)
Definition MoveNet_new (ops : list (option string * Optimization)) (th : Z) : res MoveNet :=
  m ← TfModel_new ops th;
  match model m with
  | None => Undefined
  | Some i => Ok (mkMoveNet m (if (num_outputs i =? 1)%nat then Some i else None))
  end.

Definition movenet_default_model : string := "lite-model_movenet_singlepose_lightning_tflite_int8_4.tflite".
Definition MoveNet_default (th : Z) : res MoveNet := MoveNet_new [(Some movenet_default_model, DEFAULT)] th.
Definition MoveNet_file (file : option string) (opt : Optimization) (th : Z) : res MoveNet :=
  MoveNet_new [(file, opt)] th.

(** The pointer tested is not initialised unless the model has one output. *)
Definition move_isValidOutput (m : MoveNet) : res bool :=
  match move_output m with Some _ => Ok true | None => Undefined end.
Definition move_isValidIdx (idx : Z) : bool := (0 <=? idx) && (idx <? Z.of_nat TOTAL).

Definition move_x (m : MoveNet) frame idx := output_at (move_output m) frame 0 (idx * 3 + 1).
Definition move_y (m : MoveNet) frame idx := output_at (move_output m) frame 0 (idx * 3).
Definition move_confidence (m : MoveNet) frame idx := output_at (move_output m) frame 0 (idx * 3 + 2).

Definition move_point (m : MoveNet) (frame : Z) (size : Size Z) (i : nat) : res (Point double * double) :=
  x ← move_x m frame i; y ← move_y m frame i; c ← move_confidence m frame i;
  Ok (mkPoint (scaled x (s_width size)) (scaled y (s_height size)), c).

Definition confident (c : double) : bool := SFltb confid_thresh c.

Definition connection_lines (ps : list (Point double * double)) (c : Output * Output) : list Drawing :=
  match ps !! index_of c.1, ps !! index_of c.2 with
  | Some (p, cp), Some (q, cq) => if confident cp && confident cq then [DrawLine p q] else []
  | _, _ => []
  end.

Definition move_process (m : MoveNet) (frame : Z) (size : Size Z) : res (list Drawing) :=
  if isValidBuffer (move_model m) then
    valid ← move_isValidOutput m;
    if (valid : bool) then
      ps ← each (move_point m frame size) (seq 0 TOTAL);
      Ok (flat_map (fun pc => if confident pc.2 then [DrawCircle pc.1] else []) ps
          ++ flat_map (connection_lines ps) connections)
    else Ok []
  else Ok [].

End TfModel.
Arguments TfModel _ _ : clear implicits.

(** * Properties *)

(** ** Label files *)

Fixpoint free_of (c : Ascii.ascii) (s : string) : bool :=
  match s with
  | EmptyString => true
  | String d s' => negb (Ascii.eqb d c) && free_of c s'
  end.

Lemma getlines_line cur a s :
  free_of newline a = true ->
  getlines_from cur (a +:+ String newline s) = (cur +:+ a) :: getlines_from "" s.
Proof.
  revert cur. induction a as [|c a IH]; intros cur Ha.
  - cbn. by rewrite string_app_nil.
  - cbn in Ha. apply andb_true_iff in Ha as [Hc Ha]. apply negb_true_iff in Hc.
    change (String c a +:+ String newline s) with (String c (a +:+ String newline s)).
    cbn [getlines_from]. rewrite Hc, IH by done. by rewrite string_app_assoc.
Qed.

(** Each line terminated. *)
Fixpoint unlines (l : list string) : string :=
  match l with [] => "" | a :: l' => a +:+ String newline (unlines l') end.

Lemma getlines_unlines l :
  Forall (fun a => free_of newline a = true) l -> getlines (unlines l) = l.
Proof.
  induction 1 as [|a l Ha Hl IH]; [done|]. unfold getlines in *. cbn [unlines].
  rewrite getlines_line by done. by rewrite IH.
Qed.

Lemma scan_first i a s :
  free_of quote a = true ->
  scan_quotes i (-1) (a +:+ String quote s) =
  scan_quotes (i + Z.of_nat (String.length a) + 1) (i + Z.of_nat (String.length a) + 1) s \/ i < 0.
Proof.
  revert i. induction a as [|c a IH]; intros i Ha.
  - left. cbn. by rewrite Z.add_0_r.
  - cbn in Ha. apply andb_true_iff in Ha as [Hc Ha]. apply negb_true_iff in Hc.
    change (String c a +:+ String quote s) with (String c (a +:+ String quote s)).
    cbn [scan_quotes String.length]. rewrite Hc.
    destruct (IH (i + 1) Ha) as [-> | Hi]; [left | right; lia].
    f_equal; lia.
Qed.

Lemma scan_second i start b s :
  free_of quote b = true -> 0 <= start ->
  scan_quotes i start (b +:+ String quote s) = (start, i + Z.of_nat (String.length b)).
Proof.
  intros Hb Hs. revert i Hb. induction b as [|c b IH]; intros i Hb.
  - change ("" +:+ String quote s) with (String quote s). cbn [scan_quotes String.length Z.of_nat].
    change (Ascii.eqb quote quote) with true. cbv iota.
    destruct (Z.ltb_spec start 0); [lia|]. by rewrite Z.add_0_r.
  - cbn in Hb. apply andb_true_iff in Hb as [Hc Hb]. apply negb_true_iff in Hc.
    change (String c b +:+ String quote s) with (String c (b +:+ String quote s)).
    cbn [scan_quotes String.length]. rewrite Hc, IH by done. f_equal. lia.
Qed.

Lemma quoted_between a b c :
  free_of quote a = true -> free_of quote b = true ->
  quoted (a +:+ String quote (b +:+ String quote c)) = Some b.
Proof.
  intros Ha Hb. unfold quoted.
  destruct (scan_first 0 a (b +:+ String quote c) Ha) as [-> | ?]; [|lia].
  rewrite scan_second by (done || lia).
  destruct (Z.leb_spec 0 (0 + Z.of_nat (String.length a) + 1)); [|lia].
  destruct (Z.leb_spec 0 (0 + Z.of_nat (String.length a) + 1 + Z.of_nat (String.length b))); [|lia].
  cbn [andb]. f_equal.
  replace (Z.to_nat (0 + Z.of_nat (String.length a) + 1)) with (String.length (a +:+ String quote "") + 0)%nat
    by (rewrite string_length_app; cbn; lia).
  replace (Z.to_nat _) with (String.length b) by lia.
  replace (a +:+ String quote (b +:+ String quote c))
    with ((a +:+ String quote "") +:+ (b +:+ String quote c)) by (by rewrite string_app_assoc).
  by rewrite substring_app_r, substring_app_l.
Qed.

Lemma scan_none i s : free_of quote s = true -> scan_quotes i (-1) s = (-1, -1).
Proof.
  revert i. induction s as [|c s IH]; intros i Hs; [done|].
  cbn in Hs. apply andb_true_iff in Hs as [Hc Hs]. apply negb_true_iff in Hc. cbn. by rewrite Hc, IH.
Qed.

(** A label map with one item per name. *)
Definition name_line (n : string) : string := "  name: " +:+ String quote (n +:+ String quote "").
Definition label_map (names : list string) : list string :=
  concat (map (fun n => ["item {"; "  id: 1"; name_line n; "}"]) names).

Definition label_ok (n : string) : Prop := free_of quote n = true /\ free_of newline n = true.

Lemma free_of_app c a b : free_of c (a +:+ b) = free_of c a && free_of c b.
Proof.
  induction a as [|d a IH]; [done|]. change (String d a +:+ b) with (String d (a +:+ b)).
  cbn [free_of]. by rewrite IH, andb_assoc.
Qed.

Lemma name_line_free n : label_ok n -> free_of newline (name_line n) = true.
Proof.
  intros [_ Hn]. unfold name_line.
  change (String quote (n +:+ String quote "")) with (String quote "" +:+ (n +:+ String quote "")).
  by rewrite !free_of_app, Hn.
Qed.

(** C35. Reading a label file back: a label map with one named item per label,
    and a plain file with one label per line, both load as exactly the labels in
    order; a missing or empty file loads as one empty label. *)
Theorem labels_roundtrip (labels : list string) :
  labels <> [] -> Forall label_ok labels ->
  loadObjectLabels (Some (unlines (label_map labels))) = labels /\
  (hd_error labels <> Some "item {" -> loadObjectLabels (Some (unlines labels)) = labels) /\
  loadObjectLabels None = [""].
Proof.
  intros Hne Hl. unfold loadObjectLabels. cbn [default from_option id]. split; [|split; [|done]].
  - rewrite getlines_unlines.
    + destruct labels as [|n labels]; [done|]. cbn [label_map map concat app].
      change (String.eqb "item {" "item {") with true. cbn iota.
      assert (Ho : forall l, Forall label_ok l -> omap quoted (label_map l) = l).
      { clear. induction 1 as [|n l [Hq _] Hl IH]; [done|].
        change (label_map (n :: l)) with (["item {"; "  id: 1"; name_line n; "}"] ++ label_map l).
        rewrite omap_app, IH. cbn. unfold name_line.
        rewrite (quoted_between "  name: " n "") by done. done. }
      exact (Ho (n :: labels) Hl).
    + clear Hne. unfold label_map. induction Hl as [|n l Hn Hl IH]; [constructor|].
      cbn [map concat]. apply Forall_app. split; [|exact IH].
      repeat constructor. by apply name_line_free.
  - intros Hh. rewrite getlines_unlines.
    + destruct labels as [|n labels]; [done|]. cbn in Hh.
      destruct (String.eqb_spec n "item {") as [->|]; [done|]. done.
    + eapply Forall_impl; [exact Hl|]. by intros n [].
Qed.

Lemma labels_roundtrip_witness :
  loadObjectLabels (Some (unlines (label_map ["cargo"; "hub"]))) = ["cargo"; "hub"].
Proof. refine (proj1 (labels_roundtrip ["cargo"; "hub"] _ _)); [discriminate | repeat constructor]. Defined.

(** ** The model chosen *)

Section Choice.
Context {FM I : Type} `{TfLite FM I}.

(** Whether the accelerator's operations are used for an option. *)
Definition uses_edge (o : Optimization) : bool := is_edgetpu o && (0 <? tpusAvailable)%nat.

(** A file that gives no interpreter, and does not touch a missing one. *)
Definition skipped (th : Z) (item : option string * Optimization) : Prop :=
  BuildFromFile item.1 = None \/
  exists fm, BuildFromFile item.1 = Some fm /\ uses_edge item.2 = false /\
    BuildInterpreter fm false th = None.

(** Nothing is loaded yet. *)
Definition fresh (st : TfModel FM I) : Prop :=
  model st = None /\ edgetpu_context st = false /\ input_tensor st = false /\ input_size st = mkSize 0 0.

Lemma try_models_skip th pre rest st :
  Forall (skipped th) pre -> fresh st ->
  exists st', try_models st (pre ++ rest) th = try_models st' rest th /\ fresh st'.
Proof.
  intros Hpre. revert st. induction Hpre as [|item pre Hi Hpre IH]; intros st (Hm & He & Ht & Hs).
  - exists st. repeat split; done.
  - cbn [app try_models]. unfold try_model. destruct Hi as [-> | (fm & -> & Hu & Hb)].
    + cbn. rewrite Hm. apply IH. by repeat split.
    + unfold uses_edge in Hu. rewrite Hu, Hb. cbn. apply IH. by repeat split.
Qed.

(** The model chosen: files that cannot be mapped, or from which no
    interpreter can be built, are passed over, and the first one that works is
    used, with the accelerator's operations if they are asked for and available,
    whatever comes after it.  If none works the object has no model. *)
Theorem TfModel_first_usable th pre item post fm i :
  Forall (skipped th) pre ->
  (BuildFromFile item.1 = Some fm -> BuildInterpreter fm (uses_edge item.2) th = Some i ->
   TfModel_new (pre ++ item :: post) th =
     set_input (mkTf (Some fm) (Some i) (uses_edge item.2) false (mkSize 0 0)) i) /\
  (exists st, TfModel_new pre th = Ok st /\ isValid st = false /\ isValidBuffer st = false /\ model st = None).
Proof.
  intros Hpre. split.
  - intros Hf Hb. unfold TfModel_new.
    destruct (try_models_skip th pre (item :: post) no_model Hpre) as (st & -> & Hm & He & Ht & Hs);
      [by repeat split|].
    cbn [try_models]. unfold try_model. rewrite Hf. unfold uses_edge in *.
    destruct (is_edgetpu item.2 && (0 <? tpusAvailable)%nat); rewrite Hb; cbn; by rewrite ?He, ?Hs.
  - destruct (try_models_skip th pre [] no_model Hpre) as (st & E & Hm & He & Ht & Hs);
      [by repeat split|].
    unfold TfModel_new. rewrite app_nil_r in E. rewrite E. cbn. exists st. rewrite Hm.
    unfold isValid, isValidBuffer. rewrite Hm. by destruct (file_map st).
Qed.

(** Without a usable file the object detector is constructed and draws nothing;
    the pose detector's constructor uses the missing interpreter. *)
Theorem no_model_runners th options labels rect_tl frame size :
  Forall (skipped th) options ->
  (exists a, AxonRunner_new options labels th = Ok a /\ axon_process rect_tl a frame size = Ok []) /\
  MoveNet_new options th = Undefined.
Proof.
  intros Ho. unfold AxonRunner_new, MoveNet_new, TfModel_new.
  destruct (try_models_skip th options [] no_model Ho) as (st & E & Hm & He & Ht & Hs);
    [by repeat split|].
  rewrite app_nil_r in E. rewrite E. cbn. rewrite Hm.
  destruct (file_map st); cbn; rewrite Hm; split; try done;
    (eexists; split; [reflexivity|]; unfold axon_process, isValidBuffer; cbn; by rewrite Ht).
Qed.

End Choice.

(** A library that maps only the file "good". *)
#[export] Instance sim_TfLite : TfLite string nat := {
  BuildFromFile p := match p with Some f => if String.eqb f "good" then Some f else None | None => None end;
  tpusAvailable := 1;
  BuildInterpreter f edge th := Some (String.length f);
  num_inputs i := 1%nat;
  input_dims i := [1; 320; 240; 3];
  input_uint8 i := true;
  num_outputs i := 4%nat;
  Invoke i frame k :=
    match k with
    | 0%nat => map float_of_Z [0; 0; 1; 1]
    | 1%nat => [float_of_Z 1]
    | 2%nat => [to_float (ddiv (double_of_Z 3) (double_of_Z 4))]
    | _ => [float_of_Z 1]
    end
}.

Lemma TfModel_first_usable_witness :
  TfModel_new [(Some "bad", DEFAULT); (Some "good", EDGETPU); (None, DEFAULT)] 2 =
  Ok (mkTf (Some "good") (Some 4%nat) true true (mkSize 320 240)).
Proof.
  refine (proj1 (TfModel_first_usable 2 [(Some "bad", DEFAULT)] (Some "good", EDGETPU) [(None, DEFAULT)]
    "good" 4%nat _) _ _); [|reflexivity | reflexivity].
  constructor; [by left | constructor].
Defined.

(** One detection over the whole frame. *)
Example axon_run :
  (a ← AxonRunner_new [(Some "good", EDGETPU)] (Some (unlines ["red"; "blue"])) 2;
   axon_process (fun p q => p) a 0 (mkSize 640 480)) =
  Ok [DrawBox (mkPoint (float_of_Z 0) (float_of_Z 0)) (mkPoint (float_of_Z 640) (float_of_Z 480));
      DrawLabel "blue: 75%" (mkPoint 0 (-10))].
Proof. vm_compute. reflexivity. Qed.
