(* ===== verification/Sequential.v ===== *)
(** Pipelines made of pipelines ([SequentialPipeline] of
    [lib-vs/src/core/visionserver2.h]) and the network-table targets they report
    ([lib-vs/src/core/target.h]). *)

From S2P Require Import Prelude Floats Json World Instances Server.
Local Open Scope Z_scope.
Local Open Scope vs_scope.

(** * Sequential pipelines *)

(** [std::stringstream s(base); s << text]: the stream opens at the beginning, so
    what is written replaces the initial text from its first character. *)
Fixpoint overwrite (base text : string) : string :=
  match text, base with
  | EmptyString, _ => base
  | String c text', String _ base' => String c (overwrite base' text')
  | String c text', EmptyString => text
  end.

(** The names written after the first, each after a comma. *)
Definition joined (names : list string) : string :=
  foldr (fun n s => ", " +:+ n +:+ s) EmptyString names.

(** The name of the constructed pipelines; there are none without template
    arguments. *)
Definition Construct (names : list string) : string :=
  match names with
  | [] => "void"
  | n :: rest => overwrite n (joined rest)
  end.

Record SequentialPipeline := mkSeq {
  seq_base : BasePipe;
  seq_pipelines : list nat;
  seq_heap : list nat
}.

Section Sequential.

Context {C T : Type} `{CS : CsCore C} `{NT : Tables T}.
Abbreviation prog := (M C T).

(** [n] is the number the instance counter gives.  [Construct] fills a member
    before it is constructed, which is undefined unless there is nothing to
    construct. *)
Definition SequentialPipeline_new (mks : list (prog BasePipe)) (n : nat) : prog SequentialPipeline :=
  match mks with
  | [] =>
      let* p := new_pipe (instance_name_moved ("SequentialPipeline<" +:+ Construct [] +:+ "> ") n) in
      ret (mkSeq p [] [])
  | _ => lift Undefined
  end.

Definition seq_addPipeline (s : SequentialPipeline) (p : nat) : SequentialPipeline :=
  mkSeq (seq_base s) (seq_pipelines s ++ [p]) (seq_heap s).
Definition seq_addPipelines (s : SequentialPipeline) (ps : list nat) : SequentialPipeline :=
  mkSeq (seq_base s) (seq_pipelines s ++ ps) (seq_heap s).

(** The pipelines' virtual method. *)
Context (pipe_process : nat -> Z -> prog Z).

Fixpoint process_all (ps : list nat) (frame : Z) : prog Z :=
  match ps with
  | [] => ret frame
  | p :: ps' => let* frame := pipe_process p frame in process_all ps' frame
  end.
Definition seq_process (s : SequentialPipeline) (frame : Z) : prog Z :=
  process_all (seq_pipelines s) frame.

Lemma process_all_app ps qs frame (w : world C T) :
  process_all (ps ++ qs) frame w = (let* f := process_all ps frame in process_all qs f) w.
Proof.
  revert frame w. induction ps as [|p ps IH]; intros frame w; [done|]. cbn. unfold bind.
  destruct (pipe_process p frame w) as [w1 [f|e|]]; [|done..]. by rewrite IH.
Qed.

(** Pipelines added later process what the earlier ones have produced. *)
Theorem seq_process_added s ps frame (w : world C T) :
  seq_process (seq_addPipelines s ps) frame w =
  (let* f := seq_process s frame in process_all ps f) w.
Proof. apply process_all_app. Qed.

End Sequential.

Lemma overwrite_longer base text :
  (String.length base <= String.length text)%nat -> overwrite base text = text.
Proof.
  revert text. induction base as [|c base IH]; intros [|d text]; cbn; intros Hl; try done; [lia|].
  by rewrite IH by lia.
Qed.

(** The first name is lost as soon as what follows is as long. *)
Theorem Construct_loses_first a names :
  (String.length a <= String.length (joined names))%nat -> Construct (a :: names) = joined names.
Proof. apply overwrite_longer. Qed.

Example Construct_two : Construct ["Red/Instance 1"; "Blue/Instance 1"] = ", Blue/Instance 1".
Proof. reflexivity. Qed.

(** * Targets *)

Inductive Status := INVALID | EXPIRED | VALID.
Definition status_code (s : Status) : Z := match s with INVALID => -1 | EXPIRED => 0 | VALID => 1 end.

Record Target := mkTarget { target_name : string; target_table : string }.

Definition targets_table : string := entry_path server_table "Targets".

Section Targets.

Context {C T : Type} `{CS : CsCore C} `{NT : Tables T}.
Abbreviation prog := (M C T).

Definition put_real (table key : string) (x : double) : prog unit :=
  on_nt (nt_SetDouble (entry_path table key) x).

Definition put_status (t : Target) (s : Status) : prog unit :=
  put_number (target_table t) "Status" (status_code s).

Definition Target_new (n : string) : prog Target :=
  let t := mkTarget n (entry_path targets_table n) in
  put_status t EXPIRED ;* ret t.
(** Copying shares the table. *)
Definition Target_copy (t : Target) : Target := mkTarget (target_name t) (target_table t).
Definition Target_destroy (t : Target) : prog unit := put_status t INVALID.

(** The [n]-th instance of a target class. *)
Definition UniqueTarget_new (name : string) (n : nat) : prog Target :=
  Target_new (name +:+ "/Detection " +:+ to_string n).

Definition setPos (t : Target) (x y z : double) : prog unit :=
  put_real (target_table t) "x" x ;*
  put_real (target_table t) "y" y ;*
  put_real (target_table t) "z" z.
Definition setAngle (t : Target) (ud lr : double) : prog unit :=
  put_real (target_table t) "up-down" ud ;*
  put_real (target_table t) "left-right" lr.
Definition setDist (t : Target) (d : double) : prog unit := put_real (target_table t) "distance" d.
Definition setExpired (t : Target) : prog unit := put_status t EXPIRED.
Definition setValid (t : Target) : prog unit := put_status t VALID.

End Targets.

Section TargetProperties.

Context {C T : Type} `{CS : CsCore C} `{NT : Tables T} `{NL : !TablesLaws T}.

(** Destroying a copy marks the target as invalid although the original is still
    in use. *)
Theorem copy_destroyed_invalidates n (w : world C T) :
  nt_accepts KDouble (entry_path (entry_path targets_table n) "Status") (w_nt w) ->
  exists t w', (let* t := Target_new n in setValid t ;* Target_destroy (Target_copy t) ;* ret t) w
                 = (w', Ok t) /\ shows (w_nt w') (entry_path (target_table t) "Status") (-1).
Proof.
  intros Ha. eexists _, _. split; [reflexivity|]. intros d. cbn [w_nt target_table target_name Target_copy].
  apply nt_get_set_double. right. apply nt_type_set_double. right. by apply nt_type_set_double.
Qed.

End TargetProperties.
