(* ===== verification/Vs1Camera.v ===== *)
(** The camera of the first framework
    ([lib-vs/src/vs1-legacy/visioncamera.h], [visioncamera.cpp]): construction,
    calibration data, settings of small integer types, and their network-table
    entries. *)

From S2P Require Import Prelude Floats Json World Instances Camera.
Local Open Scope Z_scope.
Local Open Scope vs_scope.

(** [brightness] and [exposure] are of 8, [whitebalance] is of 16 bits. *)
Record LegacyCamera := mkLegacy {
  c_handle : Z;
  c_config : json;
  c_calibration : json;
  c_sink : Z;
  c_matrix : Mat_;
  c_distortion : Mat_;
  c_properties : VideoMode;
  c_table : string;
  brightness : Z;
  exposure : Z;
  whitebalance : Z
}.

Definition with_settings (cam : LegacyCamera) (b e wb : Z) : LegacyCamera :=
  mkLegacy (c_handle cam) (c_config cam) (c_calibration cam) (c_sink cam) (c_matrix cam)
    (c_distortion cam) (c_properties cam) (c_table cam) b e wb.

Section LegacyCamera.

Context {C T : Type} `{CS : CsCore C} `{NT : Tables T} `{WH : What}.
Abbreviation prog := (M C T).

(** ** Calibration data *)

Definition getJsonCameraMatrix (get : json -> res double) (cam : LegacyCamera) (array : Mat_)
    : prog bool :=
  if is_object (c_calibration cam) then
    catch_json
      (let* matx := lift (at_key (c_calibration cam) "camera_matrix") in
       for_each (store_element get matx array) (positions 3 3))
      (fun e => print ("Failed to parse camera matrix: " +:+ what e)) ;*
    ret true
  else ret false.

Definition getJsonDistortionCoefs (get : json -> res double) (cam : LegacyCamera) (array : Mat_)
    : prog bool :=
  if is_object (c_calibration cam) then
    catch_json
      (let* matx := lift (at_key (c_calibration cam) "distortion") in
       for_each (store_element get matx array) (positions 1 5))
      (fun e => print ("Failed to parse camera matrix: " +:+ what e)) ;*
    ret true
  else ret false.

(** ** Construction *)

(** The sink the camera server keeps for the source, set up from the stream
    member. *)
Definition getVideo (h : Z) (config : json) : prog Z :=
  let* video := on_cs_new (cs_GetVideo h) in
  (if (0 <? count config "stream")%nat then
     let* j := lift (at_key config "stream") in on_cs (cs_SetSinkConfigJson video j)
   else ret tt) ;*
  ret video.

Definition initial (h : Z) (config cal : json) (w : world C T) : LegacyCamera :=
  mkLegacy h config cal 0 default_matrix default_distort no_mode
    ("/Cameras/" +:+ cs_GetName h (w_cs w)) 50 (-1) (-1).
Definition initial_members (h : Z) (config cal : json) : prog LegacyCamera :=
  fun w => (w, Ok (initial h config cal w)).

Definition with_video (cam : LegacyCamera) (h sink : Z) (mode : VideoMode) : LegacyCamera :=
  mkLegacy h (c_config cam) (c_calibration cam) sink (c_matrix cam) (c_distortion cam) mode
    (c_table cam) (brightness cam) (exposure cam) (whitebalance cam).

Definition LegacyCamera_handle (h : Z) : prog LegacyCamera :=
  let* cam := initial_members h JNull JNull in
  let* sink := getVideo h JNull in
  let* mode := ask_cs (cs_GetVideoMode h) in
  ret (with_video cam h sink mode).

Definition LegacyCamera_source (h : Z) (config : json) : prog LegacyCamera :=
  let* cam := initial_members h config JNull in
  let* sink := getVideo h config in
  let* mode := ask_cs (cs_GetVideoMode h) in
  let* mode' := lift (if mode_bool mode then getJsonVideoMode config else Ok mode) in
  ret (with_video cam h sink mode').

(** The table is named before the source is opened. *)
Definition LegacyCamera_calibrated (source_config cal : json) : prog LegacyCamera :=
  let* cam := initial_members 0 source_config cal in
  let* h := usb_source source_config in
  getJsonCameraMatrix get_float cam (c_matrix cam) ;*
  getJsonDistortionCoefs get_float cam (c_distortion cam) ;*
  let* sink := getVideo h source_config in
  let* mode := ask_cs (cs_GetVideoMode h) in
  let* mode' := lift (if mode_bool mode then getJsonVideoMode source_config else Ok mode) in
  ret (with_video cam h sink mode').

Definition LegacyCamera_config (source_config : json) : prog LegacyCamera :=
  let* cam := initial_members 0 source_config JNull in
  let* h := usb_source source_config in
  let* sink := getVideo h source_config in
  let* mode := ask_cs (cs_GetVideoMode h) in
  let* mode' := lift (if negb (mode_bool mode) then getJsonVideoMode source_config else Ok mode) in
  ret (with_video cam h sink mode').

(** ** Accessors *)

Definition isValidJson (cam : LegacyCamera) : bool := is_object (c_config cam).
Definition isValidStreamJson (cam : LegacyCamera) : bool := (0 <? count (c_config cam) "stream")%nat.
Definition getStreamJson (cam : LegacyCamera) : res json :=
  if (0 <? count (c_config cam) "stream")%nat then at_key (c_config cam) "stream" else Ok JNull.

Definition getResolution (cam : LegacyCamera) : Z * Z :=
  (width (c_properties cam), height (c_properties cam)).
Definition getPixels (cam : LegacyCamera) : Z :=
  wraps 32 (width (c_properties cam) * height (c_properties cam)).

(** What a grab asks for; a blank frame of the configured size when the camera
    is not connected. *)
Definition getFrame (cam : LegacyCamera) (timeout : double) (w : world C T) : Frame :=
  if cs_IsConnected (c_handle cam) (w_cs w) then Grabbed (c_sink cam) (Some timeout)
  else Zeros (getResolution cam).
Definition getFrameNoTmO (cam : LegacyCamera) (w : world C T) : Frame :=
  if cs_IsConnected (c_handle cam) (w_cs w) then Grabbed (c_sink cam) None
  else Zeros (getResolution cam).

Definition generateServer (cam : LegacyCamera) : prog Z :=
  let* name := ask_cs (cs_GetName (c_handle cam)) in
  on_cs_new (cs_PutVideo ("Camera stream: " +:+ name) (width (c_properties cam)) (height (c_properties cam))).

(** ** Settings *)

Definition setBrightness (cam : LegacyCamera) (val : Z) : prog LegacyCamera :=
  let b := if 100 <? val then 100 else if val <? 0 then 0 else val in
  on_cs (cs_SetBrightness (c_handle cam) b) ;*
  ret (with_settings cam b (exposure cam) (whitebalance cam)).
Definition setWhiteBalance (cam : LegacyCamera) (val : Z) : prog LegacyCamera :=
  (if val <? 0 then on_cs (cs_SetWhiteBalanceAuto (c_handle cam))
   else on_cs (cs_SetWhiteBalanceManual (c_handle cam) val)) ;*
  ret (with_settings cam (brightness cam) (exposure cam) val).
Definition setExposure (cam : LegacyCamera) (val : Z) : prog LegacyCamera :=
  (if val <? 0 then on_cs (cs_SetExposureAuto (c_handle cam))
   else on_cs (cs_SetExposureManual (c_handle cam) (if 100 <? val then 100 else val))) ;*
  ret (with_settings cam (brightness cam) (if 100 <? val then 100 else val) (whitebalance cam)).

(** ** Network tables *)

Definition path (cam : LegacyCamera) (key : string) : string := c_table cam +:+ "/" +:+ key.

Definition setNetworkBase (cam : LegacyCamera) (table : string) : prog LegacyCamera :=
  let* name := ask_cs (cs_GetName (c_handle cam)) in
  ret (mkLegacy (c_handle cam) (c_config cam) (c_calibration cam) (c_sink cam) (c_matrix cam)
         (c_distortion cam) (c_properties cam) (table +:+ "/Cameras/" +:+ name)
         (brightness cam) (exposure cam) (whitebalance cam)).

(** Publish a setting and listen to its entry. *)
Definition publish (cam : LegacyCamera) (key : string) (val : Z) : prog unit :=
  on_nt (nt_SetDouble (path cam key) (double_of_Z val)) ;*
  on_nt_new (nt_AddListener (path cam key)) ;* ret tt.
Definition setBrightnessAdjustable (cam : LegacyCamera) : prog unit :=
  publish cam "Brightness" (brightness cam).
Definition setWhiteBalanceAdjustable (cam : LegacyCamera) : prog unit :=
  publish cam "WhiteBalance" (whitebalance cam).
Definition setExposureAdjustable (cam : LegacyCamera) : prog unit :=
  publish cam "Exposure" (exposure cam).
Definition setNetworkAdjustable (cam : LegacyCamera) : prog unit :=
  setBrightnessAdjustable cam ;* setWhiteBalanceAdjustable cam ;* setExposureAdjustable cam.

Definition deleteEntries (cam : LegacyCamera) : prog unit :=
  on_nt (nt_Delete (path cam "Brightness")) ;*
  on_nt (nt_Delete (path cam "WhiteBalance")) ;*
  on_nt (nt_Delete (path cam "Exposure")).
Definition LegacyCamera_destroy (cam : LegacyCamera) : prog unit := deleteEntries cam.

(** A value event of an entry, as the listeners see it: numbers are converted to
    the parameter's type, anything else is ignored. *)
Inductive nt_event := EDouble (x : double) | EOther.

Definition int8_of (x : double) : option Z := cast_to (- 2 ^ 7) (2 ^ 7 - 1) x.
Definition int16_of (x : double) : option Z := cast_to (- 2 ^ 15) (2 ^ 15 - 1) x.

Definition on_event (convert : double -> option Z) (set : LegacyCamera -> Z -> prog LegacyCamera)
    (cam : LegacyCamera) (e : nt_event) : prog LegacyCamera :=
  match e with
  | EDouble x => let* v := lift (of_option (convert x)) in set cam v
  | EOther => ret cam
  end.
Definition on_brightness : LegacyCamera -> nt_event -> prog LegacyCamera := on_event int8_of setBrightness.
Definition on_whitebalance : LegacyCamera -> nt_event -> prog LegacyCamera := on_event int16_of setWhiteBalance.
Definition on_exposure : LegacyCamera -> nt_event -> prog LegacyCamera := on_event int8_of setExposure.

End LegacyCamera.

(** * Properties *)

(** The settings a camera can hold. *)
Definition settings_ok (cam : LegacyCamera) : Prop :=
  0 <= brightness cam <= 100 /\ -128 <= exposure cam <= 100 /\ - 2 ^ 15 <= whitebalance cam < 2 ^ 15.

Section Properties.

Context {C T : Type} `{CS : CsCore C} `{NT : Tables T} `{WH : What}.

Lemma cast_to_range lo hi x v : cast_to lo hi x = Some v -> lo <= v <= hi.
Proof.
  unfold cast_to. destruct (trunc x) as [z|]; [|done].
  destruct (Z.leb_spec lo z); [|done]. destruct (Z.leb_spec z hi); [|done]. intros [= <-]. lia.
Qed.

(** C38. Whatever value is written to an entry, a change that takes effect leaves
    the camera with settings its types and limits allow: brightness 0 to 100,
    exposure at most 100, white balance any 16-bit number. *)
Theorem on_event_settings cam e (w w' : world C T) cam' :
  settings_ok cam ->
  on_brightness cam e w = (w', Ok cam') \/ on_whitebalance cam e w = (w', Ok cam') \/
  on_exposure cam e w = (w', Ok cam') ->
  settings_ok cam'.
Proof.
  intros (Hb & He & Hw) Hrun. destruct e as [x|].
  2:{ destruct Hrun as [H|[H|H]]; injection H as _ <-; unfold settings_ok; lia. }
  unfold on_brightness, on_whitebalance, on_exposure, on_event, int8_of, int16_of in Hrun.
  unfold settings_ok. destruct Hrun as [H|[H|H]].
  - unfold bind, lift in H. destruct (cast_to _ _ x) as [v|] eqn:E; [|done].
    apply cast_to_range in E. injection H as _ <-. cbn.
    destruct (Z.ltb_spec 100 v), (Z.ltb_spec v 0); repeat split; lia.
  - unfold bind, lift in H. destruct (cast_to _ _ x) as [v|] eqn:E; [|done].
    apply cast_to_range in E. cbn in H. unfold setWhiteBalance, bind in H.
    destruct (v <? 0); cbn in H; injection H as _ <-; cbn; repeat split; lia.
  - unfold bind, lift in H. destruct (cast_to _ _ x) as [v|] eqn:E; [|done].
    apply cast_to_range in E. cbn in H. unfold setExposure, bind in H.
    destruct (v <? 0); cbn in H; injection H as _ <-; cbn; destruct (Z.ltb_spec 100 v); repeat split; lia.
Qed.

End Properties.

Definition legacy_camera : LegacyCamera :=
  mkLegacy 1 JNull JNull 1 default_matrix default_distort no_mode "/Cameras/c" 50 (-1) (-1).

Lemma on_event_settings_witness :
  exists w' cam', on_brightness legacy_camera (EDouble (double_of_Z 120)) start_world = (w', Ok cam') /\
    settings_ok cam'.
Proof.
  eexists _, _. split; [reflexivity|].
  apply (on_event_settings legacy_camera (EDouble (double_of_Z 120)) start_world
           (World (sim_log (CallBrightness 1 100) empty_cs) empty_nt zero_bufs [])).
  - unfold settings_ok. cbn. lia.
  - by left.
Defined.
