(* ===== verification/Vs1Config.v ===== *)
(** Configuration and camera switching in the first framework
    ([lib-vs/src/vs1-legacy/vision.h], [vision.cpp]): cameras read from a
    configuration file, and the sink that follows a camera index entry.  The
    steps that [visionserver.cpp] repeats are shared with [Vs1Server.v]. *)

From S2P Require Import Prelude Floats Json World Instances Camera Config Server Runner Vs1Camera.
Local Open Scope Z_scope.
Local Open Scope vs_scope.

Section Vs1Config.

Context {C T : Type} `{CS : CsCore C} `{NT : Tables T} `{WH : What} `{FS : Files}.
Abbreviation prog := (M C T).

(** ** Network tables *)

(** Start the tables as the ["ntmode"] member says; false when the team of a
    client cannot be read. *)
Definition start_mode (j : json) (file : string) : prog bool :=
  catch_json
    (let* str := lift (v ← at_key j "ntmode"; get_string v) in
     if equals_lower str "client" then
       print "Setting up NetworkTables in CLIENT mode" ;*
       catch_json
         (let* team := lift (v ← at_key j "team"; get_uint v) in
          on_nt (nt_StartClientTeam team) ;*
          on_nt nt_StartDSClient ;*
          ret true)
         (fun e => config_error file ("could not read team number: " +:+ what e) ;* ret false)
     else if equals_lower str "server" then
       print "Setting up NetworkTables in SERVER mode" ;*
       on_nt nt_StartServer ;*
       ret true
     else
       print ("Setting up NetworkTables for SIMULATION mode - host: " +:+ str) ;*
       on_nt (nt_StartClientHost str) ;*
       ret true)
    (fun e => config_error file ("coud not read ntmode: " +:+ what e) ;* ret true).

(** ** Cameras *)

(** The build option [REMOVE_DISCONNECTED_CAMERAS], and whether appending to a
    vector of a given size moves its elements: they are copied and the originals
    destroyed, because the camera class declares a destructor. *)
Context (remove_disconnected : bool) (reallocates : nat -> bool).

Definition emplace_back (cs : list LegacyCamera) (cam : LegacyCamera) : prog (list LegacyCamera) :=
  (if reallocates (length cs) then for_each LegacyCamera_destroy cs else ret tt) ;*
  ret (cs ++ [cam]).

(** The camera of an entry, with its calibration if it names one that is there. *)
Definition entry_camera (j : json) (file : string) (camera : json) : prog LegacyCamera :=
  if ((0 <? count camera "calibration") && (0 <? count j "calibrations"))%nat then
    catch_json
      (let* cals := lift (at_key j "calibrations") in
       let* name := lift (v ← at_key camera "calibration"; get_string v) in
       let* cal := lift (at_key cals name) in
       LegacyCamera_calibrated camera cal)
      (fun e => config_error file ("failed to get configuration object: " +:+ what e) ;*
                LegacyCamera_config camera)
  else LegacyCamera_config camera.

(** One turn of a loop over ["cameras"]: the camera is appended first, then taken
    off again if it is not connected, or else [adopt]ed. *)
Definition append_camera (adopt : LegacyCamera -> prog LegacyCamera) (j : json) (file : string)
    (cs : list LegacyCamera) (camera : json) : prog (list LegacyCamera) :=
  let* cam := entry_camera j file camera in
  let* cs1 := emplace_back cs cam in
  let* up := ask_cs (cs_IsConnected (c_handle cam)) in
  if remove_disconnected && negb up then LegacyCamera_destroy cam ;* ret (removelast cs1)
  else
    let* cam1 := adopt cam in
    ret (<[length cs := cam1]> cs1).

(** [cameras] are those the caller's vector had. *)
Definition readConfig (cameras : list LegacyCamera) (file : string) : prog (list LegacyCamera * bool) :=
  let* oj := loadJson file in
  match oj with
  | None => ret (cameras, false)
  | Some j =>
      let* up := if (count j "ntmode" =? 0)%nat then ret true else start_mode j file in
      if negb up then ret (cameras, false)
      else
        let* cams := read_cameras (append_camera ret j file) j file cameras in
        ret (cams, true)
  end.

(** ** The switched camera *)

Definition contains_key (table key : string) : prog bool :=
  ask_nt (fun t => match nt_type (entry_path table key) t with Some _ => true | None => false end).

(** The table used when none is given. *)
Definition vision_table : string := "/Vision".

(** [source] is the function's static sink; the listener keeps the vector by
    reference. *)
Definition switchedCameraVision (cameras : list LegacyCamera) (table : string) (source : Z) : prog Z :=
  let* index := contains_key table "Camera Index" in
  (if (index : bool) then ret tt else put_number table "Camera Index" 0) ;*
  let* available := contains_key table "Cameras Available" in
  (if (available : bool) then ret tt
   else put_number table "Cameras Available" (Z.of_nat (length cameras))) ;*
  let source1 := match cameras with cam :: _ => c_sink cam | [] => source end in
  on_nt_new (nt_AddListener (entry_path table "Camera Index")) ;*
  ret source1.

(** Its listener; [cameras] is the vector at the time of the event. *)
Definition on_switch (cameras : list LegacyCamera) (source : Z) (e : nt_event) : prog unit :=
  match e with
  | EDouble x =>
      let* idx := lift (of_option (uint64_of_double x)) in
      if (0 <=? idx) && (idx <? Z.of_nat (length cameras)) then
        let* cam := vec_index cameras idx in
        on_cs (cs_SetSource source (c_handle cam)) ;*
        let* j := lift (getStreamJson cam) in
        on_cs (cs_SetSinkConfigJson source j)
      else ret tt
  | EOther => ret tt
  end.

End Vs1Config.

(** * Properties *)

(** The documented behaviour of deleting an entry: it has no value afterwards,
    and other entries are not affected. *)
Class DeleteLaws (T : Type) `{Tables T} := {
  nt_type_delete key t : nt_type key (nt_Delete key t) = None;
  nt_type_delete_ne key key' t : key <> key' -> nt_type key (nt_Delete key' t) = nt_type key t
}.

#[export] Instance sim_DeleteLaws : DeleteLaws sim_nt.
Proof.
  split; intros; cbn.
  - by rewrite lookup_delete_eq.
  - by rewrite lookup_delete_ne.
Qed.

Section Properties.

Context {C T : Type} `{CS : CsCore C} `{NT : Tables T} `{WH : What} `{FS : Files}.
Abbreviation prog := (M C T).

(** ** Every entry becomes a camera *)

Lemma total_get_video h cfg : total (getVideo h cfg : prog Z) (fun _ => True).
Proof.
  unfold getVideo. eapply total_bind; [apply total_cs, cs_only_new|]. intros video _.
  eapply total_bind with (P := fun _ => True); [|intros; by apply total_ret].
  destruct (Nat.ltb_spec 0 (count cfg "stream")) as [Hc|]; [|by apply total_ret].
  destruct (proj1 (count_at_key cfg "stream") Hc) as [v ->].
  eapply total_bind with (P := fun _ => True); [by apply (total_ret v)|].
  intros j _. apply total_cs, cs_only_on.
Qed.

(** The last steps of the constructors. *)
Lemma total_video_mode cam h cfg (test : VideoMode -> bool) :
  mode_defined cfg ->
  total (let* sink := (getVideo h cfg : prog Z) in
         let* mode := ask_cs (cs_GetVideoMode h) in
         let* mode' := lift (if test mode then getJsonVideoMode cfg else Ok mode) in
         ret (with_video cam h sink mode'))
    (fun c => c_config c = c_config cam).
Proof.
  intros Hd. eapply total_bind; [apply total_get_video|]. intros sink _.
  eapply total_bind; [apply total_cs, cs_only_ask|]. intros mode _.
  destruct (mode_ok (test mode) cfg mode Hd) as [m' ->].
  eapply total_bind with (P := fun _ => True); [by apply (total_ret m')|]. intros. by apply total_ret.
Qed.

Lemma total_legacy_config cfg :
  mode_defined cfg -> total (LegacyCamera_config cfg : prog LegacyCamera) (fun c => c_config c = cfg).
Proof.
  intros Hd. unfold LegacyCamera_config.
  eapply total_bind with (P := fun c => c_config c = cfg); [intros w Hw; by eexists w, _|].
  intros c <-. eapply total_bind; [apply total_cs, usb_source_ok|]. intros h _.
  by apply (total_video_mode c h _ (fun mode => negb (mode_bool mode))).
Qed.

Lemma total_legacy_calibrated cfg cal :
  mode_defined cfg -> total (LegacyCamera_calibrated cfg cal : prog LegacyCamera) (fun c => c_config c = cfg).
Proof.
  intros Hd. unfold LegacyCamera_calibrated.
  eapply total_bind with (P := fun c => c_config c = cfg /\ c_matrix c = default_matrix /\
                                        c_distortion c = default_distort); [intros w Hw; by eexists w, _|].
  intros c (<- & -> & ->). eapply total_bind; [apply total_cs, usb_source_ok|]. intros h _.
  eapply total_bind; [apply total_fill; [by left | repeat constructor; cbn; lia]|]. intros _ _.
  eapply total_bind; [apply total_fill; [by right | repeat constructor; cbn; lia]|]. intros _ _.
  by apply (total_video_mode c h _ mode_bool).
Qed.

Lemma total_entry_camera j file camera :
  mode_defined camera -> total (entry_camera j file camera : prog LegacyCamera) (fun c => c_config c = camera).
Proof.
  intros Hd. unfold entry_camera.
  destruct ((0 <? count camera "calibration") && (0 <? count j "calibrations"))%nat;
    [|by apply total_legacy_config].
  apply total_catch.
  - eapply safe_bind; [apply safe_at_key|]. intros cals _.
    eapply safe_bind; [apply safe_get_member|]. intros name _.
    eapply safe_bind; [apply safe_at_key|]. intros cal _.
    apply total_safe. by apply total_legacy_calibrated.
  - intros e. eapply total_bind; [apply total_error|]. intros. by apply total_legacy_config.
Qed.

Lemma total_destroy cam : total (LegacyCamera_destroy cam : prog unit) (fun _ => True).
Proof.
  unfold LegacyCamera_destroy, deleteEntries.
  repeat (eapply total_bind; [apply total_nt | intros _ _]). apply total_nt.
Qed.

Lemma total_destroy_all cs : total (for_each LegacyCamera_destroy cs : prog unit) (fun _ => True).
Proof.
  induction cs as [|c cs IH]; cbn [for_each]; [by apply total_ret|].
  eapply total_bind; [apply total_destroy|]. auto.
Qed.

(** The entries of destroyed cameras are gone. *)
Definition setting_keys : list string := ["Brightness"; "WhiteBalance"; "Exposure"].

Lemma deleted_stays `{DL : !DeleteLaws T} key key' (t : T) :
  nt_type key t = None -> nt_type key (nt_Delete key' t) = None.
Proof.
  intros Hn. destruct (decide (key = key')) as [->|Hne]; [apply nt_type_delete|].
  by rewrite nt_type_delete_ne.
Qed.

Lemma destroy_all_deletes `{DL : !DeleteLaws T} cs (w : world C T) :
  exists w', for_each LegacyCamera_destroy cs w = (w', Ok tt) /\
    (forall key, nt_type key (w_nt w) = None -> nt_type key (w_nt w') = None) /\
    (forall cam key, cam ∈ cs -> key ∈ setting_keys -> nt_type (path cam key) (w_nt w') = None).
Proof.
  revert w. induction cs as [|c cs IH]; intros w; cbn [for_each].
  - exists w. repeat split; [done|]. intros cam key Hc. by apply elem_of_nil in Hc.
  - set (w1 := (LegacyCamera_destroy c w).1).
    destruct (IH w1) as (w' & E & Hkeep & Hall). exists w'. split; [by rewrite <- E|].
    split; [intros key Hn; apply Hkeep; cbn; by repeat apply deleted_stays|].
    intros cam key Hc Hkey. apply elem_of_cons in Hc as [->|Hc]; [|by apply Hall].
    apply Hkeep. cbn. repeat (apply elem_of_cons in Hkey as [->|Hkey]); [..|by apply elem_of_nil in Hkey];
      repeat (apply nt_type_delete || apply deleted_stays).
Qed.

Context (remove_disconnected : bool) (reallocates : nat -> bool).

Lemma total_append adopt j file cameras camera :
  (forall c, total (adopt c) (fun c1 => c_config c1 = c_config c)) -> mode_defined camera ->
  total (append_camera remove_disconnected reallocates adopt j file cameras camera)
    (turn_result remove_disconnected c_config cameras camera).
Proof.
  intros Hadopt Hd. unfold append_camera.
  eapply total_bind; [by apply total_entry_camera|]. intros cam Hc.
  eapply total_bind with (P := fun cs1 => cs1 = cameras ++ [cam]).
  { unfold emplace_back. eapply total_bind with (P := fun _ => True); [|intros; by apply total_ret].
    destruct (reallocates _); [apply total_destroy_all | by apply total_ret]. }
  intros ? ->. eapply total_bind; [apply total_cs, cs_only_ask|]. intros up _.
  assert (Hadd : total (let* cam1 := adopt cam in ret (<[length cameras := cam1]> (cameras ++ [cam])))
                   (turn_result remove_disconnected c_config cameras camera)).
  { eapply total_bind; [apply Hadopt|]. intros cam1 Hc1. apply total_ret. left. exists cam1.
    rewrite insert_app_r_alt, Nat.sub_diag by done. cbn. split; [done | congruence]. }
  destruct remove_disconnected eqn:Er; [|done]. cbn [andb].
  destruct up; cbn [negb]; [done|].
  eapply total_bind; [apply total_destroy|]. intros _ _. apply total_ret. right.
  by rewrite removelast_last.
Qed.

(** ** Network tables *)

(** False for a client whose team cannot be read. *)
Definition mode_readable (j : json) : bool :=
  match (v ← at_key j "ntmode"; get_string v) with
  | Ok s => negb (equals_lower s "client") ||
            match (v ← at_key j "team"; get_uint v) with Ok _ => true | _ => false end
  | _ => true
  end.

Lemma get_uint_throws j key e : (v ← at_key j key; get_uint v) = Throw e -> is_json_exception e = true.
Proof.
  destruct (at_key j key) as [v|e'|] eqn:E; cbn [mbind res_bind]; [| |done].
  - destruct v as [| | | |x| | |]; cbn; try done; try (by intros [= <-]).
    by destruct (uint_of_double x).
  - intros [= <-]. by eapply at_key_json_exception.
Qed.

Lemma total_start_mode j file :
  (v ← at_key j "team"; get_uint v) <> Undefined ->
  total (start_mode j file : prog bool) (fun up => up = mode_readable j).
Proof.
  intros Hu. unfold start_mode, mode_readable.
  intros w Hw. unfold catch_json, config_error, bind, lift, on_nt, print, ret.
  destruct (string_member j "ntmode") as [[s ->]|(e & -> & He)];
    [|rewrite He; by eexists (World _ _ _ _), true].
  destruct (equals_lower s "client"); cbn [negb orb].
  - pose proof (get_uint_throws j "team") as Ht.
    destruct (v ← at_key j "team"; get_uint v) as [n|e|]; [by eexists (World _ _ _ _), true | | done].
    rewrite (Ht e eq_refl). by eexists (World _ _ _ _), false.
  - destruct (equals_lower s "server"); by eexists (World _ _ _ _), true.
Qed.

(** The start as the loaders make it: only when there is such a member. *)
Lemma total_start j file (w : world C T) :
  (v ← at_key j "team"; get_uint v) <> Undefined -> defaults_ok w ->
  exists w1, defaults_ok w1 /\
    (if (count j "ntmode" =? 0)%nat then ret true else start_mode j file) w = (w1, Ok (mode_readable j)).
Proof.
  intros Hu Hw. destruct (Nat.eqb_spec (count j "ntmode") 0) as [Hn|_].
  - exists w. split; [done|]. unfold mode_readable, ret. do 2 f_equal.
    destruct (at_key j "ntmode") as [v| |] eqn:E; [|done..].
    pose proof (proj2 (count_at_key j "ntmode") (ex_intro _ v E)). lia.
  - destruct (total_start_mode j file Hu w Hw) as (w1 & up & H1 & E1 & ->). eauto.
Qed.

(** Reading a configuration: a client without a readable team ends it with
    false and the cameras there were; otherwise every entry of "cameras" becomes
    one camera, in order and behind those there were, whatever the entries and
    calibrations look like (with the build option that removes disconnected
    cameras, a subsequence of them). *)
Theorem readConfig_one_per_entry cameras file j l (w : world C T) :
  parse_file file = Some (Ok j) -> is_object j = true -> at_key j "cameras" = Ok l ->
  (v ← at_key j "team"; get_uint v) <> Undefined ->
  Forall mode_defined (elements l) -> defaults_ok w ->
  exists w' cams, readConfig remove_disconnected reallocates cameras file w =
      (w', Ok (cameras ++ cams, mode_readable j)) /\
    (if mode_readable j then made_from remove_disconnected c_config cams (elements l) else cams = []).
Proof.
  intros Hp Ho Hk Hu Hd Hw. rewrite Forall_forall in Hd.
  unfold readConfig. rewrite (bind_ok _ _ w w (Some j)) by (unfold loadJson; by rewrite Hp, Ho).
  destruct (total_start j file w Hu Hw) as (w1 & H1 & E1). rewrite (bind_ok _ _ _ _ _ E1).
  destruct (mode_readable j); cbn [negb]; [|exists w1, []; by rewrite app_nil_r].
  destruct (total_read_cameras remove_disconnected c_config
              (append_camera remove_disconnected reallocates ret j file) j file cameras l Hk
              ltac:(intros; apply total_append; [intros; by apply total_ret | auto]) w1 H1)
    as (w' & r & _ & E & cams & -> & Hm).
  exists w', cams. by rewrite (bind_ok _ _ _ _ _ E).
Qed.

(** ** The switched camera *)

Lemma switched_sink cameras table source (w : world C T) :
  exists w1, switchedCameraVision cameras table source w =
    (w1, Ok (match cameras with cam :: _ => c_sink cam | [] => source end)) /\ w_cs w1 = w_cs w.
Proof.
  unfold switchedCameraVision, contains_key, put_number, bind, ask_nt, on_nt, on_nt_new, ret.
  destruct (nt_type (entry_path table "Camera Index") (w_nt w)); cbn;
    destruct (nt_type (entry_path table "Cameras Available") _); cbn;
    destruct (nt_AddListener _ _) as [l t]; by eexists (World _ _ _ _).
Qed.

(** C37. The sink handed out is the first camera's own: a number written to the
    index that names a camera makes that sink, and with it every later frame of
    the first camera, show the camera named; other numbers that fit, and other
    values, change nothing, and a number that does not fit a [size_t] is
    undefined behaviour. *)
Theorem switched_camera_takes_first cam0 cams table source x timeout (w : world C T) :
  let cameras := cam0 :: cams in
  exists w1, switchedCameraVision cameras table source w = (w1, Ok (c_sink cam0)) /\ w_cs w1 = w_cs w /\
  (forall i cam j, uint64_of_double x = Some (Z.of_nat i) -> cameras !! i = Some cam ->
     getStreamJson cam = Ok j ->
     exists w2, on_switch cameras (c_sink cam0) (EDouble x) w1 = (w2, Ok tt) /\
       w_cs w2 = cs_SetSinkConfigJson (c_sink cam0) j (cs_SetSource (c_sink cam0) (c_handle cam) (w_cs w1)) /\
       (cs_IsConnected (c_handle cam0) (w_cs w2) = true ->
        getFrame cam0 timeout w2 = Grabbed (c_sink cam0) (Some timeout))) /\
  (forall i, uint64_of_double x = Some i -> Z.of_nat (length cameras) <= i ->
     on_switch cameras (c_sink cam0) (EDouble x) w1 = (w1, Ok tt)) /\
  on_switch cameras (c_sink cam0) EOther w1 = (w1, Ok tt) /\
  (uint64_of_double x = None -> on_switch cameras (c_sink cam0) (EDouble x) w1 = (w1, Undefined)).
Proof.
  intros cameras.
  destruct (switched_sink cameras table source w) as (w1 & E & Hcs). exists w1.
  split; [done|]. split; [done|]. unfold on_switch. repeat split.
  - intros i cam j Hx Hi Hj. assert (i < length cameras)%nat by by eapply lookup_lt_Some.
    unfold bind, lift, vec_index. rewrite Hx. cbn [of_option].
    rewrite (proj2 (Z.leb_le 0 _)), (proj2 (Z.ltb_lt _ _)), (proj2 (Z.ltb_ge _ 0)), Nat2Z.id, Hi by lia.
    cbn. rewrite Hj. eexists. split; [reflexivity|]. split; [done|].
    intros Hup. unfold getFrame. cbn in *. by rewrite Hup.
  - intros i Hx Hi. unfold bind, lift. rewrite Hx. cbn [of_option].
    by rewrite (proj2 (Z.ltb_ge _ _)), andb_false_r by done.
  - intros Hx. unfold bind, lift. by rewrite Hx.
Qed.

End Properties.

(** * Concrete runs *)

Lemma readConfig_one_per_entry_witness :
  exists w' cams,
    readConfig (FS := sample_files) false (fun _ => true) [] FRC_CONFIG start_world = (w', Ok (cams, true)) /\
    map c_config cams = [sample_camera; second_camera; JNull].
Proof.
  destruct (readConfig_one_per_entry (FS := sample_files) false (fun _ => true) [] FRC_CONFIG sample_config
              (JArray [sample_camera; second_camera; JNull]) start_world
              eq_refl eq_refl eq_refl ltac:(vm_compute; discriminate)
              ltac:(repeat constructor; unfold mode_defined; vm_compute; discriminate)
              start_defaults_ok) as (w' & cams & E & Hm).
  exists w', cams. split; [exact E | exact (proj2 Hm eq_refl)].
Defined.

Definition named_camera (h sink : Z) : LegacyCamera :=
  mkLegacy h (JObject [("stream", JNull)]) JNull sink default_matrix default_distort no_mode "/Cameras/c" 50 (-1) (-1).

(** After the index 1 is written the first camera's sink, 5, has source 2. *)
Lemma switched_camera_takes_first_witness :
  exists w1 w2, switchedCameraVision [named_camera 1 5; named_camera 2 6] vision_table 0 sample_world = (w1, Ok 5) /\
    on_switch [named_camera 1 5; named_camera 2 6] 5 (EDouble (double_of_Z 1)) w1 = (w2, Ok tt) /\
    sim_calls (w_cs w2) = CallConfig 5 :: CallSetSource 5 2 :: sim_calls (w_cs sample_world).
Proof.
  destruct (switched_camera_takes_first (named_camera 1 5) [named_camera 2 6] vision_table 0 (double_of_Z 1)
              (double_of_Z 0) sample_world) as (w1 & E1 & Hcs & Hswitch & _).
  destruct (Hswitch 1%nat (named_camera 2 6) JNull eq_refl eq_refl eq_refl) as (w2 & E2 & Hw2 & _).
  exists w1, w2. split; [exact E1|]. split; [exact E2|]. rewrite Hw2, Hcs. reflexivity.
Defined.
