(* ===== verification/Vs1Server.v ===== *)
(** The server of the first framework ([lib-vs/src/vs1-legacy/visionserver.h],
    [visionserver.inc], [visionserver.cpp]): its configuration, the camera
    selection, the processing workers with their statistics, and the active
    target. *)

From S2P Require Import Prelude Floats Json World Instances Camera Config Server Runner Geometry Vs1Camera Vs1Config.
Local Open Scope Z_scope.
Local Open Scope vs_scope.

(** * State *)

(** The counters and times of the statistics. *)
Record Stats := mkStats {
  total_frames : Z;
  sec1_frames : Z;
  total_time : double;
  frame_time : double;
  loop_time : double;
  sec1_time : double;
  fps_1s : double;
  vs1_fps : double;
  t_start : Z;
  t_last : Z
}.

Definition zero : double := S754_zero false.
Definition no_stats : Stats := mkStats 0 0 zero zero zero zero zero zero 0 0.

(** [selected] is a pointer into [cams]; [target_last] is when a target was
    last reported. *)
Record Vs1 := mkVs1 {
  cams : list LegacyCamera;
  selected : option nat;
  output : Z;
  stream : Z;
  runloop : bool;
  launched : bool;
  stats : Stats;
  target_last : Z
}.

Definition with_runloop (v : Vs1) (b : bool) : Vs1 :=
  mkVs1 (cams v) (selected v) (output v) (stream v) b (launched v) (stats v) (target_last v).
Definition with_launched (v : Vs1) (b : bool) : Vs1 :=
  mkVs1 (cams v) (selected v) (output v) (stream v) (runloop v) b (stats v) (target_last v).
Definition with_stats (v : Vs1) (s : Stats) : Vs1 :=
  mkVs1 (cams v) (selected v) (output v) (stream v) (runloop v) (launched v) s (target_last v).
Definition with_selected (v : Vs1) (i : nat) : Vs1 :=
  mkVs1 (cams v) (Some i) (output v) (stream v) (runloop v) (launched v) (stats v) (target_last v).
Definition with_cams (v : Vs1) (cs : list LegacyCamera) : Vs1 :=
  mkVs1 cs (selected v) (output v) (stream v) (runloop v) (launched v) (stats v) (target_last v).

(** A vector with storage of its own: a pointer there was points to none of its
    cameras. *)
Definition with_new_cams (v : Vs1) (cs : list LegacyCamera) : Vs1 :=
  mkVs1 cs (const (length cs) <$> selected v) (output v) (stream v) (runloop v) (launched v) (stats v)
    (target_last v).

(** The pointer to the selected camera is followed unchecked. *)
Definition getCurrentCamera (v : Vs1) : res LegacyCamera :=
  of_option (i ← selected v; cams v !! i).

(** The members before a constructor's body.  The pointer to the selected camera
    has no initialiser; it is [None] until every constructor sets it. *)
Definition vs1_members : Vs1 := mkVs1 [] None 0 0 true false no_stats 0.

Definition vision : string := "/Vision Server".

Section Vs1.

Context {C T : Type} `{CS : CsCore C} `{NT : Tables T} `{WH : What} `{FS : Files}.
Abbreviation prog := (M C T).

Definition delete_entry (table key : string) : prog unit := on_nt (nt_Delete (entry_path table key)).

(** ** Configuration *)

(** The ["ntmode"] member, looked at unless the tables are connected. *)
Definition start_legacy (j : json) (file : string) : prog bool :=
  let* connected := ask_nt nt_IsConnected in
  if (count j "ntmode" =? 0)%nat || connected then ret true else start_mode j file.

Context (remove_disconnected : bool) (reallocates : nat -> bool).

(** A camera of the configuration gets its entries when it is appended. *)
Definition adopt_camera (cam : LegacyCamera) : prog LegacyCamera :=
  let* cam1 := setNetworkBase cam vision in
  setNetworkAdjustable cam1 ;*
  ret cam1.
Definition legacy_turn (j : json) (file : string) (cs : list LegacyCamera) (camera : json)
    : prog (list LegacyCamera) :=
  append_camera remove_disconnected reallocates adopt_camera j file cs camera.

(** The cameras there were are kept when the new ones cannot be read. *)
Definition updateFromConfig (v : Vs1) (file : string) : prog (Vs1 * bool) :=
  let* oj := loadJson file in
  match oj with
  | None => ret (v, false)
  | Some j =>
      let* up := start_legacy j file in
      if negb up then ret (v, false)
      else if (count j "cameras" <? 1)%nat then
        config_error file "no camera configs found, this program requires cameras to function" ;*
        ret (v, true)
      else
        let* r := catch_json
          (let* l := lift (at_key j "cameras") in for_cameras (legacy_turn j file) [] (elements l))
          (fun e => ret ([], Some e)) in
        match r.2 with
        | Some e =>
            config_error file ("could not read cameras: " +:+ what e) ;*
            for_each LegacyCamera_destroy r.1 ;*
            ret (v, true)
        | None =>
            put_number vision "Cameras Available" (Z.of_nat (length r.1)) ;*
            for_each LegacyCamera_destroy (cams v) ;*
            ret (with_new_cams v r.1, true)
        end
  end.

(** ** Construction *)

(** From the first camera on; the vectors' [operator\[\]] is not checked. *)
Definition open_stream (v : Vs1) (available : bool) : prog Vs1 :=
  put_number vision "Camera Index" 0 ;*
  let* cam := vec_index (cams v) 0 in
  let* name := ask_cs (cs_GetName (c_handle cam)) in
  put_string vision "Camera Name" name ;*
  (if available then put_number vision "Cameras Available" (Z.of_nat (length (cams v))) else ret tt) ;*
  let* mode := ask_cs (cs_GetVideoMode (c_handle cam)) in
  let* out := on_cs_new (cs_CvSource "Vision Stream" mode) in
  let* str := on_cs_new (cs_AddServer "Vision Output" None) in
  on_cs (cs_SetSource str out) ;*
  on_nt_new (nt_AddListener (entry_path vision "Camera Index")) ;*
  ret (mkVs1 (cams v) (Some 0%nat) out str (runloop v) (launched v) (stats v) (target_last v)).

Definition Vs1_file (file : string) : prog Vs1 :=
  let* r := updateFromConfig vs1_members file in
  open_stream r.1 false.

Fixpoint adopt_cameras (cs : list LegacyCamera) : prog (list LegacyCamera) :=
  match cs with
  | [] => ret []
  | c :: cs' =>
      let* c1 := adopt_camera c in
      let* cs1 := adopt_cameras cs' in ret (c1 :: cs1)
  end.
Definition Vs1_cameras (cs : list LegacyCamera) : prog Vs1 :=
  let* cs1 := adopt_cameras cs in
  open_stream (with_cams vs1_members cs1) true.

Definition Vs1_destroy : prog unit :=
  delete_entry vision "Camera Index" ;*
  delete_entry vision "Camera Name" ;*
  delete_entry vision "Cameras Available".

(** The listener of "Camera Index". *)
Definition on_camera_index (v : Vs1) (e : nt_event) : prog Vs1 :=
  match e with
  | EDouble x =>
      let* idx := lift (of_option (uint64_of_double x)) in
      if idx <? Z.of_nat (length (cams v)) then
        let* cam := vec_at (cams v) idx in
        let* name := ask_cs (cs_GetName (c_handle cam)) in
        put_string vision "Camera Name" name ;*
        ret (with_selected v (Z.to_nat idx))
      else ret v
  | EOther => ret v
  end.

Definition validIndexes (v : Vs1) : nat := length (cams v).
Definition getCurrentIndex : prog Z :=
  let* x := ask_nt (nt_GetDouble (entry_path vision "Camera Index") (double_of_Z 0)) in
  lift (of_option (uint64_of_double x)).
Definition getCurrentResolution (v : Vs1) : res (Z * Z) :=
  match selected v with
  | Some i => of_option (getResolution <$> cams v !! i)
  | None => Ok (0, 0)
  end.

(** The selection itself is left to the listener. *)
Definition setCamera (v : Vs1) (idx : nat) : prog bool :=
  if (idx <? validIndexes v)%nat then
    let* kind := ask_nt (nt_type (entry_path vision "Camera Index")) in
    put_number vision "Camera Index" (Z.of_nat idx) ;*
    ret (match kind with None | Some KDouble => true | _ => false end)
  else ret false.

Definition setCompression (v : Vs1) (quality : Z) : prog unit :=
  on_cs (cs_SetCompression (stream v)
    (if 100 <? quality then 100 else if quality <? -1 then -1 else quality)).

(** ** The active target *)

Definition setTarget (v : Vs1) (target : string) (now : Z) : prog Vs1 :=
  put_string vision "Active Target" target ;*
  ret (mkVs1 (cams v) (selected v) (output v) (stream v) (runloop v) (launched v) (stats v) now).

Definition target_update (v : Vs1) (ltime : double) (now : Z) : prog bool :=
  if SFltb ltime (seconds (now - target_last v)) then
    put_string vision "Active Target" "none" ;* ret true
  else ret false.

(** ** Statistics *)

Definition full_second (s : Stats) : res bool :=
  a ← of_option (int_of_double (total_time s));
  b ← of_option (int_of_double (sec1_time s));
  Ok (b <? a).

(** The times of a frame processed between [beg] and [end_]. *)
Definition take_times (s : Stats) (beg end_ : Z) : Stats :=
  mkStats (wrapu 64 (total_frames s + 1)) (sec1_frames s)
    (seconds (end_ - t_start s)) (seconds (end_ - beg)) (seconds (end_ - t_last s))
    (sec1_time s) (fps_1s s) (vs1_fps s) (t_start s) end_.

(** The rates: of this frame, and of the last second when one is full. *)
Definition take_rates (s : Stats) : res Stats :=
  let fps := ddiv (double_of_Z 1) (loop_time s) in
  full ← full_second s;
  Ok (if full : bool then
        mkStats (total_frames s) (total_frames s) (total_time s) (frame_time s) (loop_time s)
          (total_time s)
          (ddiv (double_of_Z (wrapu 64 (total_frames s - sec1_frames s)))
             (dsub (total_time s) (sec1_time s)))
          fps (t_start s) (t_last s)
      else
        mkStats (total_frames s) (sec1_frames s) (total_time s) (frame_time s) (loop_time s)
          (sec1_time s) (fps_1s s) fps (t_start s) (t_last s)).

(** Drawing text (the vision library's), and the machine's load and temperature
    (the tool library's). *)
Context (putText : Z -> string -> Z * Z -> Z).

Definition putStats (s : Stats) (frame : Z) : Z :=
  let frame := putText frame ("FPS(1F): " +:+ show_double (vs1_fps s)) (5, 20) in
  let frame := putText frame ("FPS(1S): " +:+ show_double (fps_1s s)) (5, 45) in
  let frame := putText frame ("Ltime: " +:+ show_double (millis (loop_time s)) +:+ "ms") (5, 70) in
  putText frame ("Ftime: " +:+ show_double (millis (frame_time s)) +:+ "ms") (5, 95).

Definition updateStats (s : Stats) (cpu temp : double) : prog unit :=
  let table := entry_path vision "stats" in
  put_double table "CPU Utilization(%-1F)" (fmul cpu (float_of_Z 100)) ;*
  put_double table "CPU Temp(*C)" temp ;*
  put_double table "Frametime(ms)" (millis (frame_time s)) ;*
  put_double table "Looptime(ms)" (millis (loop_time s)) ;*
  put_double table "FPS(1F)" (vs1_fps s) ;*
  put_double table "FPS(1s)" (fps_1s s) ;*
  put_double table "Frames" (double_of_Z (total_frames s)).

(** ** Workers *)

(** What happens around a turn: other threads and clients before it, the events of
    "Camera Index" and of the pipelines' settings that the listeners' thread has
    handled by then, the frame that comes of what the camera is asked for, the clock before and after processing,
    when a pipeline reports a target and when the target is checked, and the
    machine's load and temperature. *)
Record Vs1Turn := mkVs1Turn {
  elsewhere : world C T -> world C T;
  selections : list nt_event;
  changes : list (string * nt_event);
  frame_in : Frame -> Z;
  t_beg : Z;
  t_report : Z;
  t_end : Z;
  t_now : Z;
  cpu_load : double;
  cpu_temp : double
}.

Fixpoint on_camera_indexes (v : Vs1) (es : list nt_event) : prog Vs1 :=
  match es with
  | [] => ret v
  | e :: es' => let* v1 := on_camera_index v e in on_camera_indexes v1 es'
  end.

Definition before (v : Vs1) (t : Vs1Turn) : prog Vs1 :=
  (fun w => (elsewhere t w, Ok tt)) ;* on_camera_indexes v (selections t).

(** The default timeout of [getFrame], 0.225. *)
Definition frame_timeout : double := ddiv (double_of_Z 225) (double_of_Z 1000).

(** [server.getCurrentCamera().getFrame(frame)]. *)
Definition next_frame (v : Vs1) (t : Vs1Turn) : prog Z :=
  let* cam := lift (getCurrentCamera v) in
  fun w => (w, Ok (frame_in t (getFrame cam frame_timeout w))).

(** The second half of a turn, the same in every worker; some flush the tables. *)
Definition finish_turn (v : Vs1) (t : Vs1Turn) (frame end_ : Z) (flush : bool) : prog Vs1 :=
  let s := take_times (stats v) (t_beg t) end_ in
  target_update v (loop_time s) (t_now t) ;*
  let* s := lift (take_rates s) in
  let* show := get_bool vision "Show Statistics" in
  let frame := if (show : bool) then putStats s frame else frame in
  updateStats s (cpu_load t) (cpu_temp t) ;*
  on_cs (cs_PutFrame (output v) frame) ;*
  (if flush then on_nt nt_Flush else ret tt) ;*
  ret (with_stats v s).

(** The pipelines' classes: the constructor of the class at a position gets the
    server, [process] the object, the server, a frame and the time of a report,
    and changes the first three; then the destructor, and what its listeners do
    with the event of an entry. *)
Context {P : Type}.
Context (pipe_new : nat -> Vs1 -> prog P) (pipe_delete : P -> prog unit).
Context (pipe_hear : P -> string -> nt_event -> res P).
Context (pipe_process : P -> Vs1 -> Z -> Z -> prog (Vs1 * P * Z)).

(** Every object has listeners of its own, also for an entry that several share. *)
Definition hear_one (ps : list P) (change : string * nt_event) : res (list P) :=
  each (fun p => pipe_hear p change.1 change.2) ps.
Fixpoint hear (ps : list P) (changes : list (string * nt_event)) : res (list P) :=
  match changes with
  | [] => Ok ps
  | c :: cs => ps1 ← hear_one ps c; hear ps1 cs
  end.

Fixpoint pipeExpansion (v : Vs1) (i n : nat) : prog (list P) :=
  match n with
  | O => ret []
  | S n' => let* p := pipe_new i v in let* ps := pipeExpansion v (S i) n' in ret (p :: ps)
  end.

Definition set_quality (v : Vs1) (quality : Z) : prog unit :=
  on_cs (cs_SetCompression (stream v) quality) ;*
  on_cs (cs_SetDefaultCompression (stream v) quality).

Definition enabled : prog bool :=
  ask_nt (nt_GetBoolean (entry_path vision "Enable Processing") true).

(** [enabled * ((int8_t) index + 1)], the value the workers of two and three
    pipelines switch on. *)
Definition switch_index : prog Z :=
  let* on := enabled in
  let* x := ask_nt (nt_GetDouble (entry_path vision "Pipeline Index") (double_of_Z (-1))) in
  let* n := lift (of_option (int8_of x)) in
  ret (if (on : bool) then n + 1 else 0).

Definition select_2 : prog (option nat) :=
  let* k := switch_index in
  ret (if k =? 1 then Some 0%nat else if k =? 2 then Some 1%nat else None).
Definition select_3 : prog (option nat) :=
  let* k := switch_index in
  ret (if k =? 1 then Some 0%nat else if k =? 2 then Some 1%nat
       else if k =? 3 then Some 2%nat else None).

(** With any number of pipelines the index is an [int], and adding one to it can
    overflow. *)
Definition select_all (n : nat) : prog (option nat) :=
  let* on := enabled in
  let* x := ask_nt (nt_GetDouble (entry_path vision "Pipeline Index") (double_of_Z (-1))) in
  let* i := lift (of_option (int_of_double x)) in
  if i =? 2 ^ 31 - 1 then lift Undefined
  else
    let idx := if (on : bool) then i + 1 else 0 in
    ret (if (0 <? idx) && (idx <=? Z.of_nat n) then Some (Z.to_nat (idx - 1)) else None).

(** The only pipeline, when processing is enabled: the clock is read twice in
    either case. *)
Definition select_1 : prog (option nat) :=
  let* on := enabled in ret (if (on : bool) then Some 0%nat else None).

(** A frame for the pipeline at a position: the server, the pipelines, the frame. *)
Definition process_at (k : nat) (v : Vs1) (ps : list P) (frame now : Z) : prog (Vs1 * list P * Z) :=
  let* p := vec_index ps (Z.of_nat k) in
  let* r := pipe_process p v frame now in
  ret (r.1.1, <[k := r.1.2]> ps, r.2).

(** A turn with a selected pipeline, or with none; [idle_end] is the second
    reading of the clock then. *)
Definition selected_turn (select : prog (option nat)) (idle_end : Vs1Turn -> Z)
    (s : Vs1 * list P) (t : Vs1Turn) : prog (Vs1 * list P) :=
  let* v := before s.1 t in
  let* ps := lift (hear s.2 (changes t)) in
  let* frame := next_frame v t in
  let* o := select in
  match o with
  | Some k =>
      let* r := process_at k v ps frame (t_report t) in
      let* v1 := finish_turn r.1.1 t r.2 (t_end t) true in
      ret (v1, r.1.2)
  | None => let* v1 := finish_turn v t frame (idle_end t) true in ret (v1, ps)
  end.

Definition plain_turn (v : Vs1) (t : Vs1Turn) : prog Vs1 :=
  let* v := before v t in let* frame := next_frame v t in finish_turn v t frame (t_beg t) false.

(** The first frame's size, from the selected camera. *)
Definition make_frame (v : Vs1) : prog unit := lift (getCurrentResolution v) ;* ret tt.

(** [while(server.runloop)]: [ts] are the turns until [stopVision] clears the
    flag; none when it is clear at the start. *)
Fixpoint loop_turns {S} (turn : S -> Vs1Turn -> prog S) (s : S) (ts : list Vs1Turn) : prog S :=
  match ts with
  | [] => ret s
  | t :: ts' => let* s1 := turn s t in loop_turns turn s1 ts'
  end.
Definition worker_loop {S} (runs : bool) (turn : S -> Vs1Turn -> prog S) (s : S) (ts : list Vs1Turn) : prog S :=
  if runs then loop_turns turn s ts else ret s.

Definition started (v : Vs1) (now : Z) : Vs1 :=
  with_stats v (mkStats (total_frames (stats v)) (sec1_frames (stats v)) (total_time (stats v))
    (frame_time (stats v)) (loop_time (stats v)) (sec1_time (stats v)) (fps_1s (stats v))
    (vs1_fps (stats v)) now (t_last (stats v))).

Definition visionWorker (v : Vs1) (quality : Z) (ts : list Vs1Turn) : prog Vs1 :=
  set_quality v quality ;*
  put_boolean vision "Show Statistics" false ;*
  make_frame v ;*
  let* v1 := worker_loop (runloop v) plain_turn v ts in
  delete_entry vision "Show Statistics" ;*
  ret (with_runloop v1 true).

Definition visionWorker_S1 (v : Vs1) (quality : Z) (start : Z) (ts : list Vs1Turn) : prog Vs1 :=
  set_quality v quality ;*
  put_boolean vision "Show Statistics" false ;*
  put_boolean vision "Enable Processing" true ;*
  make_frame v ;*
  let* p := pipe_new 0 v in
  let* s := worker_loop (runloop v) (selected_turn select_1 t_end) (started v start, [p]) ts in
  delete_entry vision "Show Statistics" ;*
  delete_entry vision "Enable Processing" ;*
  for_each pipe_delete (reverse s.2) ;*
  ret (with_runloop s.1 true).

(** The entries of the workers that switch between pipelines; the one deleted is
    not the one published. *)
Definition open_entries (available : nat) : prog unit :=
  put_number vision "Pipeline Index" 0 ;*
  put_number vision "Pipelines Available" (Z.of_nat available) ;*
  put_boolean vision "Show Statistics" false ;*
  put_boolean vision "Enable Processing" true.
Definition close_entries : prog unit :=
  delete_entry vision "Pipeline Index" ;*
  delete_entry vision "Piplines Available" ;*
  delete_entry vision "Show Statistics" ;*
  delete_entry vision "Enable Processing".

(** Local variables are destroyed in the reverse order of their construction, a
    vector's elements from the front. *)
Definition visionWorker_S2 (v : Vs1) (quality : Z) (start : Z) (ts : list Vs1Turn) : prog Vs1 :=
  set_quality v quality ;*
  open_entries 2 ;*
  make_frame v ;*
  let* p1 := pipe_new 0 v in let* p2 := pipe_new 1 v in
  let* s := worker_loop (runloop v) (selected_turn select_2 t_beg) (started v start, [p1; p2]) ts in
  close_entries ;*
  for_each pipe_delete (reverse s.2) ;*
  ret (with_runloop s.1 true).

Definition visionWorker_S3 (v : Vs1) (quality : Z) (start : Z) (ts : list Vs1Turn) : prog Vs1 :=
  set_quality v quality ;*
  open_entries 3 ;*
  make_frame v ;*
  let* p1 := pipe_new 0 v in let* p2 := pipe_new 1 v in let* p3 := pipe_new 2 v in
  let* s := worker_loop (runloop v) (selected_turn select_3 t_beg) (started v start, [p1; p2; p3]) ts in
  close_entries ;*
  for_each pipe_delete (reverse s.2) ;*
  ret (with_runloop s.1 true).

Definition visionWorker_all (n : nat) (v : Vs1) (quality : Z) (start : Z) (ts : list Vs1Turn) : prog Vs1 :=
  let* ps := pipeExpansion v 0 n in
  set_quality v quality ;*
  open_entries n ;*
  make_frame v ;*
  let* s := worker_loop (runloop v) (selected_turn (select_all n) t_beg) (started v start, ps) ts in
  close_entries ;*
  for_each pipe_delete s.2 ;*
  ret (with_runloop s.1 true).

(** ** The worker thread *)

Definition runVisionThread (v : Vs1) : Vs1 * bool :=
  if negb (launched v) then (with_launched v true, true) else (v, false).

(** Clear the flag and wait for the thread.  Its worker sets the flag again when it
    ends: [late] if it still has to when the flag is cleared, and not if it did
    so before. *)
Definition stopVision (late : bool) (v : Vs1) : Vs1 * bool :=
  let v1 := with_runloop v false in
  if launched v1 then (with_runloop (with_launched v1 false) late, true) else (v1, false).

End Vs1.

(** * Properties *)

(** ** Configuration *)

Section Reload.

Context {C T : Type} `{CS : CsCore C} `{NT : Tables T} `{WH : What} `{FS : Files} `{DL : !DeleteLaws T}.
Abbreviation prog := (M C T).
Context (remove_disconnected : bool) (reallocates : nat -> bool).

Lemma total_adopt cam : total (adopt_camera cam : prog LegacyCamera) (fun c => c_config c = c_config cam).
Proof.
  intros w Hw. unfold adopt_camera, setNetworkAdjustable, setBrightnessAdjustable,
    setWhiteBalanceAdjustable, setExposureAdjustable, publish, setNetworkBase, bind, ask_cs, on_nt,
    on_nt_new, ret. cbn.
  do 3 (destruct (nt_AddListener _ _)). by eexists (World _ _ _ _), _.
Qed.

Lemma total_start_legacy j file (w : world C T) :
  (v ← at_key j "team"; get_uint v) <> Undefined -> is_object j = true -> defaults_ok w ->
  exists w1, defaults_ok w1 /\
    start_legacy j file w = (w1, Ok (nt_IsConnected (w_nt w) || mode_readable j)).
Proof.
  intros Hu Ho Hw. unfold start_legacy. rewrite (bind_ok _ _ w w (nt_IsConnected (w_nt w))) by done.
  destruct (nt_IsConnected (w_nt w)); [rewrite orb_true_r; by exists w|]. rewrite orb_false_r. cbn [orb].
  by apply total_start.
Qed.

(** C36. Reading the configuration again replaces the cameras, one per entry and
    in order; a client without a readable team keeps the old ones.  The old
    cameras are destroyed last and delete their entries by name, so a camera
    that is still in the configuration has lost its settings' entries, and the
    pointer to the selected camera is left dangling. *)
Theorem reload_deletes_settings v file j l (w : world C T) :
  parse_file file = Some (Ok j) -> is_object j = true -> at_key j "cameras" = Ok l ->
  (v ← at_key j "team"; get_uint v) <> Undefined ->
  Forall mode_defined (elements l) -> defaults_ok w ->
  if nt_IsConnected (w_nt w) || mode_readable j then
    exists w' v', updateFromConfig remove_disconnected reallocates v file w = (w', Ok (v', true)) /\
      made_from remove_disconnected c_config (cams v') (elements l) /\
      (forall cam old key, cam ∈ cams v' -> old ∈ cams v -> c_table cam = c_table old ->
         key ∈ setting_keys -> nt_type (path cam key) (w_nt w') = None) /\
      getCurrentCamera v' = Undefined
  else exists w', updateFromConfig remove_disconnected reallocates v file w = (w', Ok (v, false)).
Proof.
  intros Hp Ho Hk Hu Hd Hw. rewrite Forall_forall in Hd.
  unfold updateFromConfig. rewrite (bind_ok _ _ w w (Some j)) by (unfold loadJson; by rewrite Hp, Ho).
  destruct (total_start_legacy j file w Hu Ho Hw) as (w1 & H1 & E1).
  rewrite (bind_ok _ _ _ _ _ E1).
  destruct (nt_IsConnected (w_nt w) || mode_readable j); cbn [negb]; [|by exists w1].
  assert ((count j "cameras" <? 1)%nat = false) as ->.
  { apply Nat.ltb_ge. pose proof (proj2 (count_at_key j "cameras") (ex_intro _ l Hk)). lia. }
  destruct (total_for_cameras remove_disconnected c_config
              (legacy_turn remove_disconnected reallocates j file) [] (elements l)
              ltac:(intros; apply total_append; [apply total_adopt | auto]) w1 H1)
    as (w2 & [cs e] & H2 & E2 & Hn & cams' & Er & Hm). cbn in Hn, Er. subst e cs.
  rewrite (bind_ok _ _ w1 w2 (cams', None)) by (rewrite Hk; unfold catch_json; by rewrite (bind_ok _ _ w1 w1 l), E2).
  cbn [fst snd].
  set (w3 := (put_number vision "Cameras Available" (Z.of_nat (length cams')) w2).1).
  rewrite (bind_ok _ _ w2 w3 tt) by done.
  destruct (destroy_all_deletes (cams v) w3) as (w4 & E4 & _ & Hall).
  rewrite (bind_ok _ _ _ _ _ E4). eexists w4, _. split; [reflexivity|]. split; [done|].
  split; [intros cam old key _ Hold Ht Hkey; unfold path; rewrite Ht; by apply Hall|].
  unfold getCurrentCamera. cbn. destruct (selected v); [|done]. cbn. by rewrite lookup_ge_None_2.
Qed.

End Reload.

Section Properties.

Context {C T : Type} `{CS : CsCore C} `{NT : Tables T} `{WH : What}.
Abbreviation prog := (M C T).

(** Pipeline [i] of [n], when processing is enabled. *)
Definition selection (n : nat) (on : bool) (i : Z) : option nat :=
  if on && (0 <=? i) && (i <? Z.of_nat n) then Some (Z.to_nat i) else None.

Definition index_entry (w : world C T) : double :=
  nt_GetDouble (entry_path vision "Pipeline Index") (double_of_Z (-1)) (w_nt w).
Definition enabled_entry (w : world C T) : bool :=
  nt_GetBoolean (entry_path vision "Enable Processing") true (w_nt w).

Lemma switch_index_eq i (w : world C T) :
  int8_of (index_entry w) = Some i ->
  switch_index w = (w, Ok (if enabled_entry w then i + 1 else 0)).
Proof.
  intros Hi. unfold switch_index, enabled, bind, ask_nt, lift. unfold index_entry in Hi.
  by rewrite Hi.
Qed.

(** The workers select the same pipeline: with processing enabled, the one
    whose position the "Pipeline Index" entry holds, and none for an index
    outside or with processing disabled.  The workers of two and three pipelines
    do so for indices of eight bits, the general one for any [int] whose
    successor is an [int]. *)
Theorem pipeline_selection n i (w : world C T) :
  (int8_of (index_entry w) = Some i ->
     select_2 w = (w, Ok (selection 2 (enabled_entry w) i)) /\
     select_3 w = (w, Ok (selection 3 (enabled_entry w) i))) /\
  (int_of_double (index_entry w) = Some i -> i < 2 ^ 31 - 1 ->
     select_all n w = (w, Ok (selection n (enabled_entry w) i))).
Proof.
  split.
  - intros Hi. unfold select_2, select_3, selection.
    rewrite !(bind_ok _ _ _ _ _ (switch_index_eq i w Hi)).
    destruct (enabled_entry w); [|done]. cbn [andb].
    destruct (Z.leb_spec 0 i), (Z.ltb_spec i (Z.of_nat 2)), (Z.ltb_spec i (Z.of_nat 3)),
      (Z.eqb_spec (i + 1) 1), (Z.eqb_spec (i + 1) 2), (Z.eqb_spec (i + 1) 3);
      try lia; cbn [andb]; try done; unfold ret; split; try done; do 3 f_equal; lia.
  - intros Hi Hmax. unfold select_all, selection, enabled, enabled_entry, bind, ask_nt, lift.
    unfold index_entry in Hi. rewrite Hi. cbn [of_option].
    destruct (Z.eqb_spec i (2 ^ 31 - 1)); [lia|].
    destruct (nt_GetBoolean _ _ _); [|done]. cbn [andb].
    destruct (Z.ltb_spec 0 (i + 1)), (Z.leb_spec 0 i), (Z.leb_spec (i + 1) (Z.of_nat n)),
      (Z.ltb_spec i (Z.of_nat n)); try lia; cbn [andb]; try done.
    unfold ret. do 3 f_equal. lia.
Qed.

(** For an [int] that does not fit in eight bits the workers differ: the fixed ones
    convert it with undefined behaviour, the general one selects no pipeline, but
    for the largest [int]. *)
Lemma selection_outside n i (w : world C T) :
  int_of_double (index_entry w) = Some i -> i < - 2 ^ 7 \/ 2 ^ 7 <= i -> i < 2 ^ 31 - 1 ->
  (Z.of_nat n <= 2 ^ 7) ->
  select_2 w = (w, Undefined) /\ select_3 w = (w, Undefined) /\ select_all n w = (w, Ok None).
Proof.
  intros Hi Hout Hmax Hn.
  assert (H8 : int8_of (index_entry w) = None).
  { revert Hi. unfold int_of_double, int8_of, cast_to. destruct (trunc _) as [z|]; [|done].
    destruct (_ && _); [|done]. intros [= ->].
    destruct (Z.leb_spec (- 2 ^ 7) i), (Z.leb_spec i (2 ^ 7 - 1)); cbn [andb]; done || lia. }
  assert (Hs : switch_index w = (w, Undefined)).
  { unfold switch_index, enabled, bind, ask_nt, lift. unfold index_entry in H8. by rewrite H8. }
  unfold select_2, select_3. unfold bind at 1 2. rewrite Hs. split; [done|]. split; [done|].
  rewrite (proj2 (pipeline_selection n i w) Hi Hmax). unfold selection.
  destruct (Z.leb_spec 0 i), (Z.ltb_spec i (Z.of_nat n)); rewrite ?andb_false_r; done || lia.
Qed.

(** A reported target stays while it is reported at least once a frame: the
    entry is reset exactly when more than the given time has passed. *)
Theorem target_update_spec v ltime now (w : world C T) :
  target_update v ltime now w =
  if SFltb ltime (seconds (now - target_last v))
  then (World (w_cs w) (nt_SetString (entry_path vision "Active Target") "none" (w_nt w)) (w_bufs w) (w_out w),
        Ok true)
  else (w, Ok false).
Proof. unfold target_update. by destruct (SFltb _ _). Qed.

End Properties.

(** * Concrete runs *)

Definition back_camera : json := JObject [("name", JString "Back"); ("path", JString "/dev/video1")].

#[export] Instance two_cameras : Files := {
  parse_file f := Some (Ok (JObject [("cameras", JArray [sample_camera; back_camera])]));
  open_error f := "not found"
}.

(** Vectors grow when the first camera is already there: its entries are deleted
    when the second one is added. *)
Example second_camera_deletes_entries :
  let '(w, r) := Vs1_file false (fun n => Nat.eqb n 1) "/boot/frc.json" start_world in
  (exists v, r = Ok v) /\
  sim_vals (w_nt w) !! "/Vision Server/Cameras/Front/Brightness" = None /\
  sim_vals (w_nt w) !! "/Vision Server/Cameras/Back/Brightness" = Some (VDouble (double_of_Z 50)).
Proof. vm_compute. repeat split. eexists. reflexivity. Qed.

Definition vs1_turn (frame : Z) : Vs1Turn :=
  mkVs1Turn (fun w : world sim_cs sim_nt => w) [] [] (fun _ => frame) (frame * 1000000000 + 10) (frame * 1000000000 + 15)
    (frame * 1000000000 + 20)
    (frame * 1000000000 + 30) (float_of_Z 0) (float_of_Z 0).
Definition sim_vs1 : Vs1 := mkVs1 [legacy_camera] (Some 0%nat) 1 1 true false no_stats 0.
(** A pipeline that only marks the frames it sees. *)
Definition deaf (p : nat) (_ : string) (_ : nt_event) : res nat := Ok p.
Definition passing (p : nat) (v : Vs1) (frame now : Z) : sim_prog (Vs1 * nat * Z) := ret (v, p, frame + 100).
Definition sim_worker (v : Vs1) :=
  visionWorker_S2 no_text (fun i _ => ret i) (fun _ => ret tt) deaf passing v 50 0 [vs1_turn 1; vs1_turn 2].

(** Two frames go through the first pipeline; afterwards the entry that tells
    the number of pipelines is still there. *)
Example worker_run :
  let '(w, r) := sim_worker sim_vs1 sample_world in
  (exists v, r = Ok v /\ total_frames (stats v) = 2 /\ runloop v = true) /\
  sim_calls (w_cs w) = [CallPutFrame 1 102; CallPutFrame 1 101; CallDefaultCompression 1 50;
                        CallCompression 1 50] /\
  sim_vals (w_nt w) !! "/Vision Server/Pipelines Available" = Some (VDouble (double_of_Z 2)) /\
  sim_vals (w_nt w) !! "/Vision Server/Pipeline Index" = None.
Proof. vm_compute. split; [eexists; repeat split | by repeat split]. Qed.

Definition index_world (z : Z) : world sim_cs sim_nt :=
  World sample_cs (sim_put "/Vision Server/Pipeline Index" (VDouble (double_of_Z z)) empty_nt) zero_bufs [].

Lemma pipeline_selection_witness :
  select_3 (index_world 2) = (index_world 2, Ok (Some 2%nat)) /\
  select_all 7 (index_world 9) = (index_world 9, Ok None).
Proof.
  split.
  - refine (proj2 (proj1 (pipeline_selection 0 2 (index_world 2)) _)). reflexivity.
  - refine (proj2 (pipeline_selection 7 9 (index_world 9)) _ _); [reflexivity | lia].
Defined.

(** Reading the same file twice: both cameras of the second reading are without
    their entries. *)
Definition reread : world sim_cs sim_nt * res (Vs1 * bool) :=
  let '(w, r) := updateFromConfig false (fun _ => false) vs1_members "/boot/frc.json" start_world in
  match r with
  | Ok (v, _) => updateFromConfig false (fun _ => false) v "/boot/frc.json" w
  | _ => (w, Undefined)
  end.

Example reread_loses_entries :
  match reread with
  | (w, Ok (v, true)) =>
      map c_config (cams v) = [sample_camera; back_camera] /\
      map (fun c => nt_type (path c "Exposure") (w_nt w)) (cams v) = [None; None]
  | _ => False
  end.
Proof. vm_compute. by split. Qed.

Definition old_vs1 : Vs1 := with_cams vs1_members [legacy_camera].

Lemma reload_deletes_settings_witness :
  exists w' v', updateFromConfig false (fun _ => false) old_vs1 "/boot/frc.json" start_world = (w', Ok (v', true)) /\
    map c_config (cams v') = [sample_camera; back_camera].
Proof.
  destruct (reload_deletes_settings (FS := two_cameras) false (fun _ => false) old_vs1 "/boot/frc.json"
              (JObject [("cameras", JArray [sample_camera; back_camera])])
              (JArray [sample_camera; back_camera]) start_world
              eq_refl eq_refl eq_refl ltac:(vm_compute; discriminate)
              ltac:(repeat constructor; unfold mode_defined; vm_compute; discriminate)
              start_defaults_ok) as (w' & v' & E & Hm & _).
  exists w', v'. split; [exact E | exact (proj2 Hm eq_refl)].
Defined.
