(* ===== verification/Vs1Contours.v ===== *)
(** Finding targets in the first framework: the largest contour
    ([lib-vs/src/vs1-legacy/processing.h], [processing.cpp]), the weighted
    subtraction of colour channels ([weightedsubtraction.h], [.inc]), variables
    bound to entries ([vision.inc], [vision.cpp]), and targets with known world
    points ([target.h], [target.inc]). *)

From S2P Require Import Prelude Floats Json World Geometry Server Runner Vs1Camera Vs1Config.
Local Open Scope Z_scope.
Local Open Scope vs_scope.

(** * Contours *)

Definition contour : Type := list (Point Z).

(** [target_idx] is of 16 bits. *)
Record Contours := mkContours {
  contours : list contour;
  area_largest : double;
  area_buff : double;
  target_idx : Z
}.

Section Contours.

(** The vision library: the area of a contour, and the contours of a frame for a
    mode and a method. *)
Context {Mat : Type} (contourArea : contour -> double) (find_in : Mat -> Z -> Z -> list contour).

Definition findContours (c : Contours) (frame : Mat) (mode method : Z) : Contours * nat :=
  let found := find_in frame mode method in
  (mkContours found (area_largest c) (area_buff c) (target_idx c), length found).

(** The loop over the contours from position [i] on; only areas that pass [ok]
    are considered. *)
Fixpoint scan_largest (ok : double -> bool) (i : nat) (l : list contour) (c : Contours) : Contours :=
  match l with
  | [] => c
  | x :: l' =>
      let area := contourArea x in
      scan_largest ok (S i) l'
        (if ok area && SFltb (area_largest c) area
         then mkContours (contours c) area area (wraps 16 (Z.of_nat i))
         else mkContours (contours c) (area_largest c) area (target_idx c))
  end.

Definition reset (c : Contours) : Contours :=
  mkContours (contours c) (S754_zero false) (area_buff c) (-1).

(** The index is returned as a [size_t]. *)
Definition findLargest (c : Contours) (frame : Mat) (mode method : Z) : Contours * Z :=
  let c1 := (findContours (reset c) frame mode method).1 in
  let c2 := scan_largest (fun _ => true) 0 (contours c1) c1 in
  (c2, wrapu 64 (target_idx c2)).

Definition findLargestThreshold (c : Contours) (frame : Mat) (area : double) (mode method : Z)
    : Contours * Z :=
  let c1 := (findContours (reset c) frame mode method).1 in
  let c2 := scan_largest (fun a => SFltb area a) 0 (contours c1) c1 in
  (c2, wrapu 64 (target_idx c2)).

Definition validTarget (c : Contours) : bool := 0 <=? target_idx c.
Definition getTarget (c : Contours) : res contour :=
  of_option (if target_idx c <? 0 then None else contours c !! Z.to_nat (target_idx c)).

(** ** The largest contour *)

(** [x] at position [k] of [l] is the first of the largest that pass [ok]. *)
Definition first_largest (ok : double -> bool) (l : list contour) (k : nat) (x : contour) : Prop :=
  l !! k = Some x /\ ok (contourArea x) = true /\
  (forall j y, l !! j = Some y -> ok (contourArea y) = true ->
     SFltb (contourArea x) (contourArea y) = false) /\
  (forall j y, (j < k)%nat -> l !! j = Some y -> ok (contourArea y) = true ->
     SFltb (contourArea y) (contourArea x) = true).

Lemma first_largest_cons_new ok x l k z :
  ok (contourArea x) = true -> SFltb (contourArea x) (contourArea z) = true ->
  first_largest ok l k z -> first_largest ok (x :: l) (S k) z.
Proof.
  intros Hx Hlt (Hk & Hok & Hmax & Hfirst). split; [done|]. split; [done|]. split.
  - intros [|j] y; cbn; [intros [= <-] _; by apply SFltb_asym | apply Hmax].
  - intros [|j] y Hj; cbn; [by intros [= <-] _ | apply Hfirst; lia].
Qed.

Lemma scan_largest_spec ok l i c :
  (forall x, x ∈ l -> contourArea x <> S754_nan) ->
  let c' := scan_largest ok i l c in
  contours c' = contours c /\
  ((target_idx c' = target_idx c /\ area_largest c' = area_largest c /\
    forall x, x ∈ l -> ok (contourArea x) = true -> SFltb (area_largest c) (contourArea x) = false) \/
   exists k x, first_largest ok l k x /\ SFltb (area_largest c) (contourArea x) = true /\
     target_idx c' = wraps 16 (Z.of_nat (i + k))).
Proof.
  intros Hnan. revert i c. induction l as [|x l IH]; intros i c; cbn zeta.
  - split; [done|]. left. split; [done|]. split; [done|]. by intros x Hx%elem_of_nil.
  - cbn [scan_largest]. assert (Hl : forall y, y ∈ l -> contourArea y <> S754_nan)
      by (intros; apply Hnan; by right).
    specialize (Hnan x ltac:(by left)).
    destruct (ok (contourArea x)) eqn:Ho; cbn [andb];
      [destruct (SFltb (area_largest c) (contourArea x)) eqn:Ea|].
    + destruct (IH Hl (S i) (mkContours (contours c) (contourArea x) (contourArea x) (wraps 16 (Z.of_nat i))))
        as (Hc & [(Ht & _ & Hmax)|(k & z & Hz & Hlt & Ht)]); split; try done; right; cbn in Hlt || cbn in Hmax.
      * exists 0%nat, x. rewrite Ht. cbn [target_idx]. rewrite Nat.add_0_r. split; [|done].
        split; [done|]. split; [done|]. split; [|intros; lia].
        intros [|j] y; cbn; [intros [= <-] _; apply SFltb_irrefl|].
        intros Hj. apply Hmax. by eapply list_elem_of_lookup_2.
      * exists (S k), z. split; [by apply first_largest_cons_new|].
        split; [by eapply SFltb_trans|]. rewrite Ht. do 2 f_equal. lia.
    + destruct (IH Hl (S i) (mkContours (contours c) (area_largest c) (contourArea x) (target_idx c)))
        as (Hc & [(Ht & Hla & Hmax)|(k & z & Hz & Hlt & Ht)]); split; try done; cbn in *.
      * left. split; [done|]. split; [done|]. intros y [->|Hy]%elem_of_cons; auto.
      * right. exists (S k), z. split; [|split; [done | rewrite Ht; do 2 f_equal; lia]].
        apply first_largest_cons_new; [done | | done]. by eapply SFltb_not_lt.
    + destruct (IH Hl (S i) (mkContours (contours c) (area_largest c) (contourArea x) (target_idx c)))
        as (Hc & [(Ht & Hla & Hmax)|(k & z & (Hk & Hok & Hm & Hf) & Hlt & Ht)]); split; try done; cbn in *.
      * left. split; [done|]. split; [done|]. intros y [->|Hy]%elem_of_cons; [congruence | auto].
      * right. exists (S k), z. split; [|split; [done | rewrite Ht; do 2 f_equal; lia]].
        split; [done|]. split; [done|]. split.
        -- intros [|j] y; cbn; [intros [= <-]; congruence | apply Hm].
        -- intros [|j] y Hj; cbn; [intros [= <-]; congruence | apply Hf; lia].
Qed.

(** What the search leaves behind: the index of the first largest contour of a
    positive area that passes [ok], or -1 when there is none. *)
Definition found_largest (ok : double -> bool) (l : list contour) (r : Contours * Z) : Prop :=
  contours r.1 = l /\
  ((target_idx r.1 = -1 /\ r.2 = 2 ^ 64 - 1 /\
    forall x, x ∈ l -> ok (contourArea x) = true -> SFltb (S754_zero false) (contourArea x) = false) \/
   exists k x, target_idx r.1 = Z.of_nat k /\ r.2 = Z.of_nat k /\ first_largest ok l k x /\
     SFltb (S754_zero false) (contourArea x) = true).

Lemma search_largest ok c frame mode method :
  let l := find_in frame mode method in
  (forall x, x ∈ l -> contourArea x <> S754_nan) -> Z.of_nat (length l) <= 2 ^ 15 ->
  let c1 := (findContours (reset c) frame mode method).1 in
  let c2 := scan_largest ok 0 (contours c1) c1 in
  found_largest ok l (c2, wrapu 64 (target_idx c2)).
Proof.
  intros l Hnan Hlen c1 c2.
  destruct (scan_largest_spec ok l 0 c1 Hnan) as (Hc & Hr). change (scan_largest ok 0 l c1) with c2 in *.
  split; [done|]. cbn [fst snd]. destruct Hr as [(Ht & _ & Hmax)|(k & x & Hx & Hlt & Ht)].
  - left. rewrite Ht. split; [done|]. split; [done|]. exact Hmax.
  - right. exists k, x. destruct Hx as (Hk & Hx). pose proof (lookup_lt_Some _ _ _ Hk) as Hlt'.
    assert (E : target_idx c2 = Z.of_nat k).
    { rewrite Ht. cbn [Nat.add]. unfold wraps. rewrite Z.mod_small by lia.
      by destruct (Z.ltb_spec (Z.of_nat k) (2 ^ (16 - 1))); [|lia]. }
    rewrite E. split; [done|]. split; [|done]. unfold wrapu. rewrite Z.mod_small by lia. done.
Qed.

(** C39. Searching for the largest contour, with and without a least area: the
    contours are those of the frame, and the index is that of the first one whose
    area no other exceeds, if an area is positive (and above the least one);
    otherwise it is -1, returned as the largest [size_t].  The frame must not
    have more contours than a 16-bit index can name. *)
Theorem findLargest_spec c frame area mode method :
  let l := find_in frame mode method in
  (forall x, x ∈ l -> contourArea x <> S754_nan) -> Z.of_nat (length l) <= 2 ^ 15 ->
  found_largest (fun _ => true) l (findLargest c frame mode method) /\
  found_largest (fun a => SFltb area a) l (findLargestThreshold c frame area mode method).
Proof. intros l Hnan Hlen. split; by apply search_largest. Qed.

End Contours.

(** Two contours of the frame share the largest area, here the number of points. *)
Lemma findLargest_spec_witness :
  let area c := double_of_Z (Z.of_nat (length c)) in
  let p := mkPoint 1 1 in
  let c := mkContours [] (S754_zero false) (S754_zero false) 7 in
  (findLargest area (fun (_ : Z) _ _ => [[p]; [p; p]; [p; p]]) c 0 0 2).2 = 1 /\
  found_largest area (fun _ => true) [[p]; [p; p]; [p; p]]
    (findLargest area (fun (_ : Z) _ _ => [[p]; [p; p]; [p; p]]) c 0 0 2).
Proof.
  intros area p c. split; [vm_compute; reflexivity|].
  refine (proj1 (findLargest_spec area (fun (_ : Z) _ _ => [[p]; [p; p]; [p; p]]) c 0 (S754_zero false) 0 2 _ _)).
  - intros x Hx. repeat (apply elem_of_cons in Hx as [->|Hx]; [by vm_compute|]).
    by apply elem_of_nil in Hx.
  - by vm_compute.
Defined.

(** * Variables bound to entries *)

Section Variables.

Context {C T : Type} `{CS : CsCore C} `{NT : Tables T}.
Abbreviation prog := (M C T).

(** A number: its value is published unless the entry exists, and the entry is
    listened to. *)
Definition addNetTableVar (var : double) (name table : string) : prog unit :=
  let* there := contains_key table name in
  (if (there : bool) then ret tt else put_double table name var) ;*
  on_nt_new (nt_AddListener (entry_path table name)) ;* ret tt.
Definition addNetTableVar_bool (var : bool) (name table : string) : prog unit :=
  let* there := contains_key table name in
  (if (there : bool) then ret tt else put_boolean table name var) ;*
  on_nt_new (nt_AddListener (entry_path table name)) ;* ret tt.

(** What the listeners store in the variable, by the conversion to its type. *)
Definition on_number {A} (convert : double -> option A) (var : A) (e : nt_event) : res A :=
  match e with EDouble x => of_option (convert x) | EOther => Ok var end.

End Variables.

(** * Weighted subtraction *)

(** The colours by their channel, and the two other channels of each. *)
Inductive LED := BLUE | GREEN | RED.
Definition led_value (c : LED) : nat := match c with BLUE => 0 | GREEN => 1 | RED => 2 end.
Definition weighted_array (c : LED) : LED * LED :=
  match c with BLUE => (GREEN, RED) | GREEN => (BLUE, RED) | RED => (BLUE, GREEN) end.

(** [int] divided by the [size_t] scale, in both dimensions. *)
Definition size_over (size : Size Z) (scale : Z) : res (Size Z) :=
  w ← int_div_size (s_width size) (Z.to_nat scale);
  h ← int_div_size (s_height size) (Z.to_nat scale);
  Ok (mkSize w h).

Definition half : double := ddiv (double_of_Z 1) (double_of_Z 2).

Section Weighted.

(** Frames, and what the vision library and the binary threshold routine do with
    them: their size, a new frame, resizing by factors (interpolating, or to the
    nearest pixel), the channels, weighted sums, differences, thresholding, the
    conversion of a binary frame, scaled sizes, and the frame of no size. *)
Context {Mat : Type} (mat_size : Mat -> Size Z) (new_frame : Size Z -> nat -> Mat)
        (resize_by resize_nearest : Mat -> double -> double -> Mat) (split : Mat -> nat -> Mat)
        (addWeighted : Mat -> double -> Mat -> double -> double -> Mat)
        (subtract : Mat -> Mat -> Mat) (threshold_binary : Mat -> Z -> Mat)
        (gray2bgr : Mat -> Mat) (size_times : Size Z -> Z -> Size Z) (empty_frame : Mat).

Record WeightedSubtraction := mkWS {
  ws_color : LED;
  ws_buffer : Mat;
  ws_binary : Mat;
  ws_channels : nat -> Mat;
  ws_alpha : double;
  ws_beta : double;
  ws_gamma : double;
  ws_thresh : Z;
  ws_scale : Z
}.

Definition resizeBuffers (f : WeightedSubtraction) (size : Size Z) : res WeightedSubtraction :=
  s ← size_over size (ws_scale f);
  Ok (mkWS (ws_color f) (new_frame s 3) (new_frame s 1) (fun _ => new_frame s 1)
        (ws_alpha f) (ws_beta f) (ws_gamma f) (ws_thresh f) (ws_scale f)).

(** The members as their declarations initialise them, and the constructor for a
    server's current resolution. *)
Definition ws_members (color : LED) : WeightedSubtraction :=
  mkWS color empty_frame empty_frame (fun _ => empty_frame) half half (double_of_Z 0) 50 1.
Definition WeightedSubtraction_new (color : LED) (resolution : Size Z) : res WeightedSubtraction :=
  resizeBuffers (ws_members color) resolution.

Definition size_eqb (a b : Size Z) : bool :=
  (s_width a =? s_width b) && (s_height a =? s_height b).

Definition inverse (scale : Z) : double := ddiv (double_of_Z 1) (double_of_Z scale).

Definition threshold (f : WeightedSubtraction) (frame : Mat) : res WeightedSubtraction :=
  f1 ← (if size_eqb (mat_size frame) (size_times (mat_size (ws_buffer f)) (wraps 32 (ws_scale f)))
        then Ok f else resizeBuffers f (mat_size frame));
  let buffer := resize_by frame (inverse (ws_scale f1)) (inverse (ws_scale f1)) in
  let channels := split buffer in
  let '(a, b) := weighted_array (ws_color f1) in
  let sum := addWeighted (channels (led_value a)) (ws_alpha f1) (channels (led_value b)) (ws_beta f1)
               (ws_gamma f1) in
  let binary := threshold_binary (subtract (channels (led_value (ws_color f1))) sum) (ws_thresh f1) in
  Ok (mkWS (ws_color f1) buffer binary channels (ws_alpha f1) (ws_beta f1) (ws_gamma f1)
        (ws_thresh f1) (ws_scale f1)).

(** The binary frame in colour and at full size; the buffer is written though the
    method is [const]. *)
Definition fromBinary (f : WeightedSubtraction) : WeightedSubtraction * Mat :=
  let buffer := gray2bgr (ws_binary f) in
  (mkWS (ws_color f) buffer (ws_binary f) (ws_channels f) (ws_alpha f) (ws_beta f) (ws_gamma f)
     (ws_thresh f) (ws_scale f),
   resize_nearest buffer (double_of_Z (ws_scale f)) (double_of_Z (ws_scale f))).

Definition getScale (f : WeightedSubtraction) : Z := ws_scale f.
Definition getThresh (f : WeightedSubtraction) : Z := ws_thresh f.
Definition setThresh (f : WeightedSubtraction) (t : Z) : WeightedSubtraction :=
  mkWS (ws_color f) (ws_buffer f) (ws_binary f) (ws_channels f) (ws_alpha f) (ws_beta f)
    (ws_gamma f) (wrapu 8 t) (ws_scale f).

(** A frame is thresholded whatever the scale, except by a scale of 0, which the
    "Scaling" entry can set and which divides by zero. *)
Theorem zero_scale_undefined f frame :
  ws_scale f = 0 ->
  size_eqb (mat_size frame) (size_times (mat_size (ws_buffer f)) (wraps 32 0)) = false ->
  threshold f frame = Undefined.
Proof. intros Hs He. unfold threshold, resizeBuffers, size_over. by rewrite Hs, He. Qed.

End Weighted.

(** * Targets with known world points *)

Section Solving.

Context {C T : Type} `{CS : CsCore C} `{NT : Tables T}.
Abbreviation prog := (M C T).

(** The library functions: [atan2] of floats, [pow], and the pose of world points that
    appear at image points, for given camera matrices, flags and use of the
    guess; the scaling of a point. *)
Context (atan2 pow : double -> double -> double)
        (solvePnP : list (Point3 double) -> list (Point double) -> Mat_ -> Mat_ -> Z -> bool ->
                    Point3 double * Point3 double)
        (point_mul : Point double -> double -> Point double).

Record CvTarget := mkCvTarget {
  corner_points : list (Point double);
  world_points : list (Point3 double);
  center : Point double;
  cv_name : string;
  cv_table : string
}.

Definition CvTarget_named (corners : nat) (world_pts : list (Point3 double)) (name : string) : CvTarget :=
  mkCvTarget (replicate corners (mkPoint n_zero n_zero)) world_pts (mkPoint n_zero n_zero) name
    ("/Targets/" +:+ name).
Definition CvTarget_unnamed (corners : nat) (world_pts : list (Point3 double)) : CvTarget :=
  CvTarget_named corners world_pts ("Unnamed " +:+ to_string corners +:+ "-pt target").

Definition compatible (t : CvTarget) (c : contour) : bool := (length c =? length (corner_points t))%nat.

Definition float_point (p : Point Z) : Point double := mkPoint (float_of_Z (px p)) (float_of_Z (py p)).
Definition float_acc (x : double) (z : Z) : res double := Ok (fadd x (float_of_Z z)).

(** As many points as there are corners are taken over, the other corners stay;
    then all are ordered clockwise around the contour's centre. *)
Definition sort_corners (t : CvTarget) (c : contour) : res CvTarget :=
  ctr ← findCenter_to float_acc c;
  let corners := length (corner_points t) in
  let limit := if (length c <? corners)%nat then length c else corners in
  let pts := map float_point (take limit c) ++ drop limit (corner_points t) in
  Ok (mkCvTarget (sort (clockwise atan2 ctr) pts) (world_points t) ctr (cv_name t) (cv_table t)).

Definition rescale_corners (t : CvTarget) (scale : double) : CvTarget :=
  mkCvTarget (map (fun p => point_mul p scale) (corner_points t)) (world_points t) (center t)
    (cv_name t) (cv_table t).
Definition getRescaled (t : CvTarget) (scale : double) : list (Point double) :=
  map (fun p => point_mul p scale) (corner_points t).

(** [M_PI], and the square root of the C library. *)
Definition M_PI : double := S754_finite false 7074237752028440 (-51).
Definition dsqrt (x : double) : double := SFsqrt 53 1024 x.
Definition square (x : double) : double := pow (to_double x) (double_of_Z 2).

Definition solvePerspective (t : CvTarget) (camera_matrix camera_coeffs : Mat_) (flags : Z)
    (ext_guess : bool) : prog (Point3 double * Point3 double) :=
  let (rvec, tvec) := solvePnP (world_points t) (corner_points t) camera_matrix camera_coeffs flags ext_guess in
  let x := qx tvec in let y := qy tvec in let z := qz tvec in
  put_double (cv_table t) "x" (to_double x) ;*
  put_double (cv_table t) "y" (to_double y) ;*
  put_double (cv_table t) "z" (to_double z) ;*
  put_double (cv_table t) "distance" (dsqrt (dadd (dadd (square x) (square y)) (square z))) ;*
  put_double (cv_table t) "up-down" (ddiv (fmul (atan2 y z) (float_of_Z (-180))) M_PI) ;*
  put_double (cv_table t) "left-right" (ddiv (fmul (atan2 x z) (float_of_Z 180)) M_PI) ;*
  ret (tvec, rvec).

(** Sorting keeps the corners' number, and for a compatible contour the corners
    become exactly its points, whichever they were before. *)
Theorem sort_corners_spec t c t' :
  sort_corners t c = Ok t' ->
  length (corner_points t') = length (corner_points t) /\
  (compatible t c = true -> Permutation (corner_points t') (map float_point c)).
Proof.
  unfold sort_corners. destruct (findCenter_to float_acc c) as [ctr|e|]; cbn -[Nat.ltb]; try discriminate.
  intros [= <-]. cbn [corner_points]. rewrite <- (Permutation_length (sort_perm _ _)).
  split.
  - destruct (Nat.ltb_spec (length c) (length (corner_points t)));
      rewrite length_app, length_map, length_take, length_drop; lia.
  - unfold compatible. intros E%Nat.eqb_eq. rewrite <- sort_perm, E, Nat.ltb_irrefl.
    by rewrite drop_all, app_nil_r, <- E, firstn_all.
Qed.

End Solving.
