(* ===== verification/Vs1Pipelines.v ===== *)
(** Pipelines of the first framework: the base class ([visionserver.cpp]), the
    target solver ([target.h], [target.inc]) and the test pipelines of 2021
    ([2021/testing.h], [2021/testing.cpp]).  The vision library is the interface
    [Vision]. *)

From S2P Require Import Prelude Floats Json World Instances Geometry Server Runner Vs1Camera Vs1Server Vs1Contours.
From Stdlib Require Import Sorting.Permutation.
Local Open Scope Z_scope.
Local Open Scope vs_scope.

(** * The vision library *)

Definition Scalar : Type := Z * Z * Z.

(** Where something is drawn: the library rounds points of [float]. *)
Inductive Position := At (p : Point Z) | Near (p : Point double).

(** What is drawn on a frame. *)
Inductive Mark :=
  | MText (text : string) (p : Position) (size : double) (color : Scalar) (thickness : Z)
  | MCircle (center : Position) (radius : double) (color : Scalar) (thickness : Z)
  | MLine (a b : Position) (color : Scalar) (thickness : Z)
  | MRectangle (a b : Point Z) (color : Scalar) (thickness : Z)
  | MContour (contours : list contour) (i : nat) (color : Scalar).

Abbreviation pose := (Point3 double * Point3 double)%type.

(** The functions the pipelines call on frames and contours.  [v_threshold] and
    [v_threshold_binary] are the routines of [mem.S], for a frame's pixels.
    Poses are a rotation and a translation. *)
Class Vision (Mat : Type) := {
  v_size : Mat -> Size Z;
  v_new : Size Z -> nat -> Mat;
  v_zeros : Size Z -> Mat;
  v_empty : Mat;
  v_resize : Mat -> double -> double -> Mat;
  v_resize_nearest : Mat -> double -> double -> Mat;
  v_split : Mat -> nat -> Mat;
  v_addWeighted : Mat -> double -> Mat -> double -> double -> Mat;
  v_subtract : Mat -> Mat -> Mat;
  v_bitwise_or : Mat -> Mat -> Mat;
  v_gray2bgr : Mat -> Mat;
  v_size_times : Size Z -> Z -> Size Z;
  v_max : Mat -> double;
  v_threshold : Mat -> Z -> Mat;
  v_threshold_binary : Mat -> Z -> Mat;
  v_draw : Mark -> Mat -> Mat;
  v_findContours : Mat -> Z -> Z -> list contour;
  v_contourArea : contour -> double;
  v_arcLength : contour -> bool -> double;
  v_convexHull : contour -> contour;
  v_approxPolyDP : contour -> double -> bool -> contour;
  v_boundingRect : contour -> Rect Z;
  v_minEnclosingCircle : contour -> Point double * double;
  v_tl : Rect Z -> Point Z;
  v_br : Rect Z -> Point Z;
  v_point_times : Point Z -> Z -> Point Z;
  v_fpoint_times : Point double -> Z -> Point double;
  v_solvePnP : list (Point3 double) -> list (Point double) -> Mat_ -> Mat_ -> Z -> bool -> pose;
  v_solvePnPGeneric : list (Point3 double) -> list (Point double) -> Mat_ -> Mat_ -> bool -> pose * pose;
  v_solvePnPRefineLM : list (Point3 double) -> list (Point double) -> Mat_ -> Mat_ -> pose -> pose;
  v_projectPoints : list (Point3 double) -> pose -> Mat_ -> Mat_ -> list (Point double)
}.

(** The C library. *)
Class CMath := {
  m_atan2 : double -> double -> double;
  m_pow : double -> double -> double;
  m_acos : double -> double
}.

Definition RETR_EXTERNAL : Z := 0.
Definition CHAIN_APPROX_SIMPLE : Z := 2.

Definition draw_all {Mat} `{Vision Mat} (ms : list Mark) (frame : Mat) : Mat :=
  foldl (fun f m => v_draw m f) frame ms.

(** * Pipelines *)

Record VPipeline := mkVPipeline { vp_name : string; vp_table : string }.

Definition VPipeline_new (name : string) : VPipeline :=
  mkVPipeline name (entry_path (entry_path vision "Pipelines") name).
Definition VPipeline_unnamed : VPipeline := VPipeline_new "Unnamed Pipeline".
(** The table is a constant pointer, so it is copied; the name is not. *)
Definition VPipeline_move (other : VPipeline) : VPipeline := mkVPipeline "" (vp_table other).
Definition DefaultPipeline_new : VPipeline := VPipeline_new "Default Pipeline".

Section Pipelines.

Context {C T : Type} `{CS : CsCore C} `{NT : Tables T} {Mat : Type} `{VI : Vision Mat} `{CM : CMath}.
Abbreviation prog := (M C T).
Abbreviation WS := (WeightedSubtraction (Mat := Mat)).

Definition updateTarget (v : Vs1) (target : string) (now : Z) : prog Vs1 := setTarget v target now.

(** ** Parts of several pipelines *)

Definition find_largest : Contours -> Mat -> Z -> Z -> Contours * Z :=
  findLargest v_contourArea v_findContours.

Definition do_threshold : WS -> Mat -> res WS :=
  threshold v_size v_new v_resize v_split v_addWeighted v_subtract v_threshold_binary v_size_times.

(** A threshold with its settings bound to entries. *)
Definition WeightedSubtraction_bound (color : LED) (resolution : Size Z) (table : string) : prog WS :=
  let f := ws_members v_empty color in
  addNetTableVar (double_of_Z (ws_thresh f)) "Threshold" table ;*
  addNetTableVar (double_of_Z (ws_scale f)) "Scaling" table ;*
  lift (resizeBuffers v_new f resolution).

(** The listeners of the two settings. *)
Definition on_threshold (f : WS) (e : nt_event) : res WS :=
  t ← on_number (cast_to 0 255) (ws_thresh f) e; Ok (setThresh f t).
Definition on_scaling (f : WS) (e : nt_event) : res WS :=
  s ← on_number uint64_of_double (ws_scale f) e;
  Ok (mkWS (ws_color f) (ws_buffer f) (ws_binary f) (ws_channels f) (ws_alpha f) (ws_beta f)
        (ws_gamma f) (ws_thresh f) s).

(** Both, for the event of an entry. *)
Definition WeightedSubtraction_hear (f : WS) (table path : string) (e : nt_event) : res WS :=
  if String.eqb path (entry_path table "Threshold") then on_threshold f e
  else if String.eqb path (entry_path table "Scaling") then on_scaling f e
  else Ok f.

(** The corners of a contour at full size. *)
Definition target_corners (c : contour) (scale : Z) : contour :=
  let hull := v_convexHull c in
  let eps := dmul (ddiv (double_of_Z 1) (double_of_Z 10)) (v_arcLength c false) in
  rescale_up v_point_times (v_approxPolyDP hull eps true) scale.

(** Every point with its number. *)
Definition numbered {P} (where_ : P -> Position) (size : double) (color : Scalar) (thickness : Z)
    (points : list P) : list Mark :=
  imap (fun i p => MText (to_string i) (where_ p) size color thickness) points.

Definition tenths (z : Z) : double := ddiv (double_of_Z z) (double_of_Z 10).
Definition no_target_sign : string := "NO TARGETS DETECTED".

(** The note that nothing was found, left of the middle of the frame. *)
Definition no_targets (frame : Mat) : res Mark :=
  x ← of_option (int_of_double (dsub (dmul (double_of_Z (s_width (v_size frame))) half) (double_of_Z 192)));
  y ← of_option (int_of_double (dmul (double_of_Z (s_height (v_size frame))) half));
  Ok (MText no_target_sign (At (mkPoint x y)) (double_of_Z 1) (0, 0, 255) 2).

(** ** The target solver *)

Record TargetSolver := mkSolver {
  so_pipe : VPipeline;
  so_ws : WS;
  so_contours : Contours;
  so_points : contour;
  so_reference : CvTarget;
  so_pose : pose;
  so_pose2D : list (Point double)
}.

Definition no_contours : Contours := mkContours [] (S754_zero false) (S754_zero false) (-1).
Definition no_pose : pose :=
  (mkPoint3 (S754_zero false) (S754_zero false) (S754_zero false),
   mkPoint3 (S754_zero false) (S754_zero false) (S754_zero false)).

Definition TargetSolver_new (color : LED) (reference : CvTarget) (resolution : Size Z)
    : prog TargetSolver :=
  let p := VPipeline_new "TargetSolver Pipeline" in
  let* ws := WeightedSubtraction_bound color resolution (vp_table p) in
  put_boolean (vp_table p) "Show Thresholded" false ;*
  put_boolean (vp_table p) "Debug" false ;*
  ret (mkSolver p ws no_contours [] reference no_pose [mkPoint (S754_zero false) (S754_zero false)]).

Definition TargetSolver_destroy (s : TargetSolver) : prog unit :=
  on_nt (nt_Delete (entry_path (vp_table (so_pipe s)) "Show Thresholded")) ;*
  on_nt (nt_Delete (entry_path (vp_table (so_pipe s)) "Debug")).

Definition TargetSolver_hear (s : TargetSolver) (path : string) (e : nt_event) : res TargetSolver :=
  ws ← WeightedSubtraction_hear (so_ws s) (vp_table (so_pipe s)) path e;
  Ok (mkSolver (so_pipe s) ws (so_contours s) (so_points s) (so_reference s) (so_pose s) (so_pose2D s)).

Definition pose3D : list (Point3 double) :=
  [mkPoint3 (S754_zero false) (S754_zero false) (ddiv (double_of_Z 1) (double_of_Z 4))].

(** The pose of a target whose corners were found, published in its entries. *)
Definition solve (v : Vs1) (t : CvTarget) : prog (pose * LegacyCamera) :=
  let* cam := lift (getCurrentCamera v) in
  let* p := solvePerspective m_atan2 m_pow v_solvePnP t (c_matrix cam) (c_distortion cam) 0 false in
  ret ((p.2, p.1), cam).

Definition with_found (s : TargetSolver) (ws : WS) (c : Contours) (points : contour) : TargetSolver :=
  mkSolver (so_pipe s) ws c points (so_reference s) (so_pose s) (so_pose2D s).

Definition TargetSolver_process (v : Vs1) (s : TargetSolver) (io_frame : Mat) (now : Z)
    : prog (Vs1 * TargetSolver * Mat) :=
  let table := vp_table (so_pipe s) in
  let* ws := lift (do_threshold (so_ws s) io_frame) in
  let c := (find_largest (so_contours s) (ws_binary ws) RETR_EXTERNAL CHAIN_APPROX_SIMPLE).1 in
  let* show := get_bool table "Show Thresholded" in
  let (ws, frame) := if show : bool then fromBinary v_resize_nearest v_gray2bgr ws else (ws, io_frame) in
  if validTarget c then
    let* t := lift (getTarget c) in
    let points := target_corners t (getScale ws) in
    let s1 := with_found s ws c points in
    if compatible (so_reference s) points then
      let* ref := lift (sort_corners m_atan2 (so_reference s) points) in
      let* r := solve v ref in
      let* v1 := updateTarget v (cv_name ref) now in
      let s2 := mkSolver (so_pipe s) ws c points ref r.1 (so_pose2D s) in
      let* debug := get_bool table "Debug" in
      if debug : bool then
        let pose2D := v_projectPoints pose3D r.1 (c_matrix r.2) (c_distortion r.2) in
        let* first := lift (of_option (pose2D !! 0%nat)) in
        ret (v1, mkSolver (so_pipe s) ws c points ref r.1 pose2D,
             draw_all (MLine (Near (center ref)) (Near first) (255, 0, 0) 2
                       :: numbered Near (tenths 7) (255, 0, 0) 1 (corner_points ref)) frame)
      else ret (v1, s2, frame)
    else
      let* debug := get_bool table "Debug" in
      if debug : bool then
        let* ctr := lift (findCenter points) in
        ret (v, s1,
             draw_all (numbered At (tenths 7) (255, 0, 0) 1 points
                       ++ [MCircle (At ctr) (double_of_Z 1) (255, 255, 0) 2]) frame)
      else ret (v, s1, frame)
  else ret (v, with_found s ws c (so_points s), frame).

(** ** Test pipelines of 2021 *)

(** A bounding box around the largest contour. *)
Record BBoxDemo := mkBBox { bb_pipe : VPipeline; bb_ws : WS; bb_contours : Contours; bb_box : Rect Z }.

Definition BBoxDemo_new (resolution : Size Z) : prog BBoxDemo :=
  let p := VPipeline_new "BoundingBox Demo Pipeline" in
  let* ws := WeightedSubtraction_bound BLUE resolution (vp_table p) in
  ret (mkBBox p ws no_contours (mkRect 0 0 0 0)).

Definition BBoxDemo_process (s : BBoxDemo) (io_frame : Mat) : res (BBoxDemo * Mat) :=
  ws ← do_threshold (bb_ws s) io_frame;
  let c := (find_largest (bb_contours s) (ws_binary ws) RETR_EXTERNAL CHAIN_APPROX_SIMPLE).1 in
  if validTarget c then
    t ← getTarget c;
    let box := v_boundingRect t in
    let corner p := v_point_times p (wraps 32 (ws_scale ws)) in
    Ok (mkBBox (bb_pipe s) ws c box,
        v_draw (MRectangle (corner (v_tl box)) (corner (v_br box)) (255, 0, 0) 2) io_frame)
  else
    note ← no_targets io_frame;
    Ok (mkBBox (bb_pipe s) ws c (bb_box s), v_draw note io_frame).

(** World points of half a foot, clockwise, and the points drawn above them. *)
Definition quarter : double := ddiv (double_of_Z 1) (double_of_Z 4).
Definition square_points (z : double) : list (Point3 double) :=
  [mkPoint3 quarter quarter z; mkPoint3 quarter (SFopp quarter) z;
   mkPoint3 (SFopp quarter) (SFopp quarter) z; mkPoint3 (SFopp quarter) quarter z].
Definition Test6x6 : CvTarget :=
  CvTarget_named 4 (square_points (S754_zero false)) "Test Retroreflective Square".

Record SquareTargetPNP := mkSquare {
  sq_pipe : VPipeline;
  sq_ws : WS;
  sq_contours : Contours;
  sq_points : contour;
  sq_reference : CvTarget;
  sq_pose : pose;
  sq_projection2d : list (Point double)
}.

Definition SquareTargetPNP_new (resolution : Size Z) : prog SquareTargetPNP :=
  let p := VPipeline_new "Square Target Pipeline" in
  let* ws := WeightedSubtraction_bound BLUE resolution (vp_table p) in
  ret (mkSquare p ws no_contours [] Test6x6 no_pose []).

Definition red_line (a b : Point double) : Mark := MLine (Near a) (Near b) (255, 0, 0) 1.

(** From every projected point to its corner; then around the first four. *)
Definition projection_lines (projected corners : list (Point double)) : res (list Mark) :=
  up ← each (fun ip => b ← of_option (corners !! ip.1); Ok (red_line ip.2 b)) (imap pair projected);
  match projected with
  | a :: b :: c :: d :: _ =>
      Ok (up ++ [red_line a b; red_line b c; red_line c d; red_line d a])
  | _ => Undefined
  end.

Definition SquareTargetPNP_process (v : Vs1) (s : SquareTargetPNP) (io_frame : Mat) (now : Z)
    : prog (Vs1 * SquareTargetPNP * Mat) :=
  let* ws := lift (do_threshold (sq_ws s) io_frame) in
  let c := (find_largest (sq_contours s) (ws_binary ws) RETR_EXTERNAL CHAIN_APPROX_SIMPLE).1 in
  if validTarget c then
    let* t := lift (getTarget c) in
    let points := target_corners t (ws_scale ws) in
    let* r :=
      if compatible (sq_reference s) points then
        let* ref := lift (sort_corners m_atan2 (sq_reference s) points) in
        let* r := solve v ref in
        let* v1 := updateTarget v (cv_name ref) now in
        let projected := v_projectPoints (square_points quarter) r.1 (c_matrix r.2) (c_distortion r.2) in
        let* lines := lift (projection_lines projected (corner_points ref)) in
        ret (v1, mkSquare (sq_pipe s) ws c points ref r.1 projected,
             lines ++ numbered Near half (255, 0, 0) 2 (corner_points ref))
      else
        ret (v, mkSquare (sq_pipe s) ws c points (sq_reference s) (sq_pose s) (sq_projection2d s),
             numbered At half (0, 0, 255) 2 points) in
    let* ctr := lift (findCenter points) in
    ret (r.1.1, r.1.2,
         draw_all (r.2 ++ [MCircle (At ctr) (double_of_Z 1) (255, 255, 0) 2]) io_frame)
  else
    let* note := lift (no_targets io_frame) in
    ret (v, mkSquare (sq_pipe s) ws c (sq_points s) (sq_reference s) (sq_pose s) (sq_projection2d s),
         v_draw note io_frame).

(** ** What the target solver reports *)

(** The entries of a solved target. *)
Definition pose_entries (tvec : Point3 double) : list (string * double) :=
  let x := qx tvec in let y := qy tvec in let z := qz tvec in
  let sq a := m_pow (to_double a) (double_of_Z 2) in
  [("x", to_double x); ("y", to_double y); ("z", to_double z);
   ("distance", dsqrt (dadd (dadd (sq x) (sq y)) (sq z)));
   ("up-down", ddiv (fmul (m_atan2 y z) (float_of_Z (-180))) M_PI);
   ("left-right", ddiv (fmul (m_atan2 x z) (float_of_Z 180)) M_PI)].
Definition put_entries (table : string) (l : list (string * double)) (t : T) : T :=
  foldl (fun t kv => nt_SetDouble (entry_path table kv.1) kv.2 t) t l.
Definition with_nt (w : world C T) (t : T) : world C T := World (w_cs w) t (w_bufs w) (w_out w).

(** The corners of the target a frame shows, if its largest contour has as many
    as the reference. *)
Definition shown_corners (s : TargetSolver) (io_frame : Mat) : option contour :=
  match do_threshold (so_ws s) io_frame with
  | Ok ws =>
      let c := (find_largest (so_contours s) (ws_binary ws) RETR_EXTERNAL CHAIN_APPROX_SIMPLE).1 in
      match getTarget c with
      | Ok t =>
          let points := target_corners t (ws_scale ws) in
          if compatible (so_reference s) points then Some points else None
      | _ => None
      end
  | _ => None
  end.

Lemma solve_writes v t w w' r :
  solve v t w = (w', Ok r) ->
  getCurrentCamera v = Ok r.2 /\
  r.1 = v_solvePnP (world_points t) (corner_points t) (c_matrix r.2) (c_distortion r.2) 0 false /\
  w' = with_nt w (put_entries (cv_table t) (pose_entries r.1.2) (w_nt w)).
Proof.
  unfold solve, bind, lift. destruct (getCurrentCamera v) as [cam|e|]; [|done..].
  unfold solvePerspective.
  destruct (v_solvePnP (world_points t) (corner_points t) (c_matrix cam) (c_distortion cam) 0 false)
    as [rv tv] eqn:E. cbn.
  intros [= <- <-]. cbn. by rewrite E.
Qed.

(** C28. One frame of the target solver: when the largest contour has as many
    corners as the reference, they become the reference's, its pose is solved for
    the selected camera and published in its six entries, and the reference is the
    active target from now on; otherwise no entry, no target time and no reference
    changes.  Drawing and the "Debug" and "Show Thresholded" entries make no
    difference to that. *)
Theorem TargetSolver_reports v s io_frame now w w' v' s' frame :
  TargetSolver_process v s io_frame now w = (w', Ok (v', s', frame)) ->
  match shown_corners s io_frame with
  | Some points =>
      exists ref p cam,
        sort_corners m_atan2 (so_reference s) points = Ok ref /\
        Permutation (corner_points ref) (map float_point points) /\
        so_reference s' = ref /\ so_pose s' = p /\
        getCurrentCamera v = Ok cam /\
        p = v_solvePnP (world_points ref) (corner_points ref) (c_matrix cam) (c_distortion cam) 0 false /\
        w' = with_nt w (nt_SetString (entry_path vision "Active Target") (cv_name ref)
                          (put_entries (cv_table ref) (pose_entries p.2) (w_nt w))) /\
        target_last v' = now
  | None => w' = w /\ v' = v /\ so_reference s' = so_reference s /\ so_pose s' = so_pose s
  end.
Proof.
  unfold TargetSolver_process, shown_corners.
  destruct (do_threshold (so_ws s) io_frame) as [ws|e|]; [|done..].
  unfold bind at 1, lift at 1. unfold bind at 1, get_bool at 1, ask_nt at 1.
  set (c := (find_largest _ _ _ _).1). set (show := nt_GetBoolean _ _ _).
  destruct (if show then _ else _) as [ws1 fr] eqn:Ews.
  assert (Hsc : getScale ws1 = ws_scale ws) by (destruct show; by injection Ews as <- _).
  rewrite Hsc. clear Ews Hsc show.
  destruct (validTarget c) eqn:Hv.
  2:{ unfold getTarget. unfold validTarget in Hv. destruct (Z.ltb_spec (target_idx c) 0); [|lia].
      by intros [= <- <- <- _]. }
  destruct (getTarget c) as [t|e|]; [|done..]. unfold bind at 1, lift at 1.
  set (points := target_corners t (ws_scale ws)).
  destruct (compatible (so_reference s) points) eqn:Hc.
  - intros (? & ref & [-> Hs]%lift_inv & (w2 & r & Hr & (w3 & v1 & Hu & (w4 & d & Hd & H)%bind_inv)%bind_inv)%bind_inv)%bind_inv.
    destruct (solve_writes _ _ _ _ _ Hr) as (Hcam & Hp & ->).
    injection Hu as <- <-. injection Hd as <- <-.
    exists ref, r.1, r.2. destruct (sort_corners_spec _ _ _ _ Hs) as (_ & Hperm).
    assert (Hres : w' = with_nt w (nt_SetString (entry_path vision "Active Target") (cv_name ref)
                          (put_entries (cv_table ref) (pose_entries r.1.2) (w_nt w)))
              /\ so_reference s' = ref /\ so_pose s' = r.1 /\ target_last v' = now).
    { destruct (nt_GetBoolean _ _ _).
      - apply bind_inv in H as (? & first & [-> _]%lift_inv & H). by injection H as <- <- <- _.
      - by injection H as <- <- <- _. }
    destruct Hres as (-> & Href & Hpose & Hlast). repeat (split; [by auto|]). done.
  - intros (? & d & [= <- <-] & H)%bind_inv. destruct (nt_GetBoolean _ _ _).
    + apply bind_inv in H as (? & ctr & [-> _]%lift_inv & H). by injection H as <- <- <- _.
    + by injection H as <- <- <- _.
Qed.

End Pipelines.

(** * A vision library for evaluation *)

(** A frame that knows the contours in it and what was drawn on it. *)
Record Shot := mkShot { shot_contours : list contour; shot_marks : list Mark }.

Definition bounding (c : contour) : Rect Z :=
  match c with
  | [] => mkRect 0 0 0 0
  | p :: c' =>
      let lo f := foldl (fun m q => Z.min m (f q)) (f p) c' in
      let hi f := foldl (fun m q => Z.max m (f q)) (f p) c' in
      mkRect (lo px) (lo py) (hi px - lo px) (hi py - lo py)
  end.

#[export] Instance sim_Vision : Vision Shot := {
  v_size _ := mkSize 640 480;
  v_new _ _ := mkShot [] [];
  v_zeros _ := mkShot [] [];
  v_empty := mkShot [] [];
  v_resize m _ _ := m;
  v_resize_nearest m _ _ := m;
  v_split m _ := m;
  v_addWeighted m _ _ _ _ := m;
  v_subtract m _ := m;
  v_bitwise_or m _ := m;
  v_gray2bgr m := m;
  v_size_times s k := mkSize (s_width s * k) (s_height s * k);
  v_max _ := double_of_Z 255;
  v_threshold m _ := m;
  v_threshold_binary m _ := m;
  v_draw m f := mkShot (shot_contours f) (m :: shot_marks f);
  v_findContours m _ _ := shot_contours m;
  v_contourArea c := double_of_Z (r_width (bounding c) * r_height (bounding c));
  v_arcLength c _ := double_of_Z (Z.of_nat (length c));
  v_convexHull c := c;
  v_approxPolyDP c _ _ := c;
  v_boundingRect := bounding;
  v_minEnclosingCircle c :=
    (mkPoint (double_of_Z (rx (bounding c))) (double_of_Z (ry (bounding c))), double_of_Z 2);
  v_tl r := mkPoint (rx r) (ry r);
  v_br r := mkPoint (rx r + r_width r) (ry r + r_height r);
  v_point_times p k := mkPoint (px p * k) (py p * k);
  v_fpoint_times p k := mkPoint (fmul (px p) (float_of_Z k)) (fmul (py p) (float_of_Z k));
  v_solvePnP _ c _ _ _ _ :=
    let z := double_of_Z (Z.of_nat (length c)) in (mkPoint3 z z z, mkPoint3 z z z);
  v_solvePnPGeneric _ c _ _ _ :=
    let z := double_of_Z (Z.of_nat (length c)) in
    ((mkPoint3 z z z, mkPoint3 z z z), (mkPoint3 z z z, mkPoint3 z (dadd z z) z));
  v_solvePnPRefineLM _ _ _ _ p := p;
  v_projectPoints w _ _ _ := map (fun p => mkPoint (qx p) (qy p)) w
}.
#[export] Instance sim_CMath : CMath := { m_atan2 y _ := y; m_pow x _ := dmul x x; m_acos x := x }.

Definition a_camera : LegacyCamera :=
  mkLegacy 1 JNull JNull 0 default_matrix default_distort no_mode "" 50 50 50.
(** A server with one camera, which is selected. *)
Definition a_server : Vs1 := mkVs1 [a_camera] (Some 0%nat) 0 0 true true no_stats 0.

Definition a_threshold : WeightedSubtraction :=
  mkWS GREEN (mkShot [] []) (mkShot [] []) (fun _ => mkShot [] []) half half (double_of_Z 0) 50 1.
Definition a_solver : TargetSolver :=
  mkSolver (VPipeline_new "Solver") a_threshold no_contours [] Test6x6 no_pose
    [mkPoint (S754_zero false) (S754_zero false)].
Definition square_shot : Shot :=
  mkShot [[mkPoint 1 1; mkPoint 1 2]; [mkPoint 0 0; mkPoint 8 0; mkPoint 8 8; mkPoint 0 8]] [].

Definition solver_run : world sim_cs sim_nt * res (Vs1 * TargetSolver * Shot) :=
  TargetSolver_process a_server a_solver square_shot 17 start_world.

Lemma TargetSolver_reports_witness :
  shown_corners a_solver square_shot = Some [mkPoint 0 0; mkPoint 8 0; mkPoint 8 8; mkPoint 0 8] /\
  match solver_run with
  | (w', Ok (v', s', _)) => target_last v' = 17 /\ length (corner_points (so_reference s')) = 4%nat
  | _ => False
  end.
Proof.
  split; [vm_compute; reflexivity|].
  assert (Hok : match solver_run with (_, Ok _) => True | _ => False end) by (vm_compute; exact I).
  destruct solver_run as [w' [[[v' s'] f]|e|]] eqn:E; [|done..].
  pose proof (TargetSolver_reports _ _ _ _ _ _ _ _ _ E) as H.
  assert (Hs : shown_corners a_solver square_shot = Some [mkPoint 0 0; mkPoint 8 0; mkPoint 8 8; mkPoint 0 8])
    by (vm_compute; reflexivity).
  rewrite Hs in H. destruct H as (ref & p & cam & _ & Hp & -> & _ & _ & _ & _ & Ht).
  split; [exact Ht|]. by rewrite Hp.
Defined.
