(* ===== verification/Vs1Strips.v ===== *)
(** The upper hub of 2022 ([2022/rapidreact.h], [rapidreact.inc],
    [rapidreact.cpp]): its strips of tape, the points and world points of a
    sighting, and the pipeline that searches a frame for the strips. *)

From Stdlib Require Import Sorting.Permutation Sorting.Sorted.
From S2P Require Import Prelude Floats Json World Instances Geometry Server Runner Vs1Camera Vs1Server Vs1Contours Vs1Pipelines.
Local Open Scope Z_scope.
Local Open Scope vs_scope.

(** * The hub *)

(** A decimal literal of type [float]: the quotient, rounded once. *)
Definition exact (z : Z) : double :=
  match z with
  | Z0 => S754_zero false
  | Zpos p => S754_finite false p 0
  | Zneg p => S754_finite true p 0
  end.
Definition float_literal (n d : Z) : double := fdiv (exact n) (exact d).
Definition hub_literal (n : Z) : double := float_literal n (10 ^ 8).

(** The strips' middles, from left to right, in inches. *)
Definition hub_point (x z : Z) : Point3 double :=
  mkPoint3 (hub_literal x) (float_of_Z 103) (hub_literal z).
Definition hub_world : list (Point3 double) :=
  [hub_point 0 2673803044; hub_point 1023220126 2470271906; hub_point 1890664264 1890664264;
   hub_point 2470271906 1023220126; hub_point 2673803044 0; hub_point 2470271906 (-1023220126)].

Record UpperHub := mkHub {
  hub_target : CvTarget;
  hub_points : list (Point double);
  hub_match : list (Point3 double);
  hub_poses : pose * pose
}.

Definition fzero : double := S754_zero false.
Definition UpperHub_new : UpperHub :=
  mkHub (CvTarget_named 0 [] "Upper-Hub") (replicate 6 (mkPoint fzero fzero))
    (replicate 6 (mkPoint3 fzero fzero fzero)) (no_pose, no_pose).

Definition with_points (h : UpperHub) (ps : list (Point double)) : UpperHub :=
  mkHub (hub_target h) ps (hub_match h) (hub_poses h).
Definition with_match (h : UpperHub) (ws : list (Point3 double)) : UpperHub :=
  mkHub (hub_target h) (hub_points h) ws (hub_poses h).

Definition hub_size (h : UpperHub) : nat := length (hub_points h).
Definition hub_add (h : UpperHub) (p : Point double) : UpperHub := with_points h (hub_points h ++ [p]).
Definition resetPoints (h : UpperHub) : UpperHub := with_points h [].
Definition hub_compatible (h : UpperHub) : bool :=
  inRange (Z.of_nat (length (hub_points h))) 3 6.
Definition hub_compatible_with (c : contour) : bool := inRange (Z.of_nat (length c)) 3 6.

Definition left_of (a b : Point double) : bool := SFltb (px a) (px b).

(** A world point for every point; the array of six is indexed unchecked. *)
Definition matchWorld (h : UpperHub) : res UpperHub :=
  ws ← each (fun i => of_option (hub_world !! i)) (seq 0 (hub_size h));
  Ok (with_match h ws).

Definition hub_sort (h : UpperHub) : res UpperHub :=
  matchWorld (with_points h (sort left_of (hub_points h))).
Definition hub_sort_contour (h : UpperHub) (c : contour) : res UpperHub :=
  let limit := if (length c <? 6)%nat then length c else 6%nat in
  matchWorld (with_points h (sort left_of (map float_point (take limit c)))).

(** With gaps: the world point advances by the distance to the next point in
    strip widths, rounded.  [rest] holds the points from number [i] on, and
    [world_match[i-1]] is written unchecked. *)
Fixpoint match_gaps (width : Z) (i world_idx : nat) (prev : Point double) (rest : list (Point double))
    (match_ : list (Point3 double)) : res (list (Point3 double)) :=
  if (world_idx <? 6)%nat then
    w ← of_option (hub_world !! world_idx);
    m ← of_option (if (i - 1 <? length match_)%nat then Some (<[(i - 1)%nat := w]> match_) else None);
    match rest with
    | [] => Ok m
    | p :: rest' =>
        let gap := fadd (fdiv (SFabs (fsub (px p) (px prev))) (float_of_Z width)) half in
        k ← of_option (uint64_of_double gap);
        match_gaps width (S i) (Z.to_nat (wrapu 64 (Z.of_nat world_idx + k))) p rest' m
    end
  else Ok match_.

Definition int_plus (a b : Z) : res Z := int_res (a + b).

Section Hub.

Context {C T : Type} `{CS : CsCore C} `{NT : Tables T} {Mat : Type} `{VI : Vision Mat} `{CM : CMath}.
Abbreviation prog := (M C T).
Abbreviation WS := (WeightedSubtraction (Mat := Mat)).

(** [findCenter<float, int>]. *)
Definition rect_center (r : Rect Z) : res (Point double) :=
  findCenter_rect_to float_of_Z int_plus v_tl v_br r.

Definition hub_sort_rects (h : UpperHub) (c : list (Rect Z)) : res UpperHub :=
  let sorted := sort (fun a b => rx a <? rx b) c in
  ps ← each rect_center sorted;
  width ← int_res (foldl (fun m r => if m <? r_width r then r_width r else m) 0 sorted * 2);
  match ps with
  | [] => Ok (with_points h [])
  | p :: ps' =>
      m ← match_gaps width 1 0 p ps' (hub_match h);
      Ok (with_match (with_points h ps) m)
  end.

(** Of two poses, the one higher up (and turned further); refined with the
    numbers cut to [float]. *)
Definition grade (p : pose) : double := dadd (qy p.2) (qx p.1).
Definition float3 (p : Point3 double) : Point3 double :=
  mkPoint3 (to_float (qx p)) (to_float (qy p)) (to_float (qz p)).
Definition best_pose (ps : pose * pose) : pose :=
  let p := if SFltb (grade ps.2) (grade ps.1) then ps.1 else ps.2 in
  (float3 p.1, float3 p.2).

Definition hub_solve (h : UpperHub) (camera_matrix camera_coeffs : Mat_) (ext_guess : bool)
    : prog (UpperHub * pose) :=
  let ps := v_solvePnPGeneric (hub_match h) (hub_points h) camera_matrix camera_coeffs ext_guess in
  let p := v_solvePnPRefineLM (hub_match h) (hub_points h) camera_matrix camera_coeffs (best_pose ps) in
  let x := qx p.2 in let y := qy p.2 in let z := qz p.2 in
  let sq a := m_pow (to_double a) (double_of_Z 2) in
  let table := cv_table (hub_target h) in
  let turn := dmul (ddiv (dmul (m_acos (ddiv (to_double z) (dsqrt (dadd (sq x) (sq z))))) (double_of_Z 180)) M_PI)
                (double_of_Z (sgn x)) in
  put_double table "x" (to_double x) ;*
  put_double table "y" (to_double y) ;*
  put_double table "z" (to_double z) ;*
  put_double table "distance" (dsqrt (dadd (dadd (sq x) (sq y)) (sq z))) ;*
  put_double table "left-right" turn ;*
  ret (mkHub (hub_target h) (hub_points h) (hub_match h) ps, p).

(** ** The search for strips *)

Record Scan := mkScan {
  sc_contours : list contour;
  in_range : list (Rect Z);
  reinserted : nat;
  rect_buffer : Rect Z;
  range : Size Z;
  sc_marks : list Mark
}.

Definition mark (m : Mark) (s : Scan) : Scan :=
  mkScan (sc_contours s) (in_range s) (reinserted s) (rect_buffer s) (range s) (sc_marks s ++ [m]).
Definition mark_rect (r : Rect Z) (color : Scalar) (s : Scan) : Scan :=
  mark (MRectangle (v_tl r) (v_br r) color 1) s.

Definition ratio (r : Rect Z) : double := fdiv (float_of_Z (r_width r)) (float_of_Z (r_height r)).
Definition rect_area (r : Rect Z) : res Z := int_res (r_width r * r_height r).
Definition quarters (z : Z) : double := fdiv (float_of_Z z) (float_of_Z 4).
Definition tape_shaped (r : Rect Z) : bool := inRange (ratio r) (quarters 7) (quarters 11).
Definition nearly_tape_shaped (r : Rect Z) : bool := inRange (ratio r) (quarters 3) (quarters 12).

(** The two tests of a contour in reach of the first strip; areas are only
    computed for rectangles of the right shape. *)
Definition larger_strip (r first : Rect Z) : res bool :=
  if tape_shaped r then a ← rect_area r; b ← rect_area first; Ok (b <? a) else Ok false.
Definition similar_strip (r first : Rect Z) : res bool :=
  if nearly_tape_shaped r then
    a ← rect_area r; b ← rect_area first;
    Ok (inRange (float_of_Z a) (fmul half (float_of_Z b)) (fmul (float_of_Z 2) (float_of_Z b)))
  else Ok false.
Definition reach (r : Rect Z) (w h : Z) : res (Size Z) :=
  x ← int_res (r_width r * w); y ← int_res (r_height r * h); Ok (mkSize x y).

(** The contour at [n] looked at in the inner loop. *)
Definition near_strip (s : Scan) (n : nat) : res Scan :=
  c ← of_option (sc_contours s !! n);
  let r := v_boundingRect c in
  let s0 := mkScan (sc_contours s) (in_range s) (reinserted s) r (range s) (sc_marks s) in
  first ← of_option (in_range s !! 0%nat);
  d ← distance (v_tl r) (v_tl first);
  if size_le d (range s) then
    larger ← larger_strip r first;
    if larger : bool then
      rg ← reach r 6 3;
      cs ← swapIdx (sc_contours s) (reinserted s) n;
      Ok (mark_rect r (0, 255, 0) (mkScan cs (r :: in_range s) (S (reinserted s)) r rg (sc_marks s)))
    else
      similar ← similar_strip r first;
      if similar : bool then
        Ok (mark_rect r (255, 255, 0)
              (mkScan (sc_contours s) (in_range s ++ [r]) (reinserted s) r (range s) (sc_marks s)))
      else Ok s0
  else Ok s0.

Fixpoint near_strips (ns : list nat) (s : Scan) : res Scan :=
  match ns with
  | [] => Ok s
  | n :: ns' => s1 ← near_strip s n; near_strips ns' s1
  end.

(** The first strip, the contour at [i], and all strips near it. *)
Definition strips_around (s : Scan) (i : nat) (r : Rect Z) : res Scan :=
  rg ← reach r 7 4;
  cs ← swapIdx (sc_contours s) (reinserted s) i;
  let s1 := mark_rect r (0, 255, 255)
              (mkScan cs (in_range s ++ [r]) (S (reinserted s)) r rg (sc_marks s)) in
  near_strips (seq (reinserted s1) (length cs - reinserted s1)) s1.

Definition enough_strips (s : Scan) : bool := inRange (Z.of_nat (length (in_range s))) 4 6.
Definition clear_strips (s : Scan) : Scan :=
  mkScan (sc_contours s) [] (reinserted s) (rect_buffer s) (range s) (sc_marks s).

(** The outer loop from [i] on, with whether it ended in a sighting; no result
    when the fuel runs out. *)
Fixpoint strip_scan (fuel i : nat) (s : Scan) : option (res (Scan * bool)) :=
  if (i <? length (sc_contours s))%nat then
    match fuel with
    | O => None
    | S fuel' =>
        let i := if (i <? reinserted s)%nat then reinserted s else i in
        match sc_contours s !! i with
        | None => Some Undefined
        | Some c =>
            let r := v_boundingRect c in
            if tape_shaped r then
              match strips_around s i r with
              | Ok s1 =>
                  if enough_strips s1 then Some (Ok (s1, true))
                  else strip_scan fuel' (S i) (clear_strips s1)
              | Throw e => Some (Throw e)
              | Undefined => Some Undefined
              end
            else
              strip_scan fuel' (S i)
                (mark_rect r (0, 0, 255)
                   (mkScan (sc_contours s) (in_range s) (reinserted s) r (range s) (sc_marks s)))
        end
    end
  else Some (Ok (s, false)).

(** ** The pipeline *)

Record StripFinder := mkStripFinder {
  sf_pipe : VPipeline;
  sf_ws : WS;
  sf_contours : Contours;
  sf_in_range : list (Rect Z);
  sf_rect : Rect Z;
  sf_range : Size Z;
  sf_target : UpperHub;
  sf_pose : pose;
  sf_pose2D : list (Point double)
}.

Definition StripFinder_new (color : LED) (resolution : Size Z) : prog StripFinder :=
  let p := VPipeline_new "Upper-Hub Pipeline" in
  let* ws := WeightedSubtraction_bound color resolution (vp_table p) in
  put_boolean (vp_table p) "Show Thresholded" false ;*
  ret (mkStripFinder p ws no_contours [] (mkRect 0 0 0 0) (mkSize 0 0) UpperHub_new no_pose
         (replicate 4 (mkPoint fzero fzero))).

(** The axes drawn from the hub's middle. *)
Definition hub_pose3D : list (Point3 double) :=
  [mkPoint3 fzero fzero fzero; mkPoint3 fzero (float_of_Z 103) fzero;
   mkPoint3 (float_of_Z 50) (float_of_Z 103) fzero; mkPoint3 fzero (float_of_Z 103) (float_of_Z 50)].
Definition hub_axes (p : list (Point double)) : res (list Mark) :=
  match p with
  | a :: b :: c :: d :: _ =>
      let line x y := MLine (Near x) (Near y) (0, 255, 0) 1 in Ok [line a b; line b c; line b d]
  | _ => Undefined
  end.

Definition point_marks (ps : list (Point double)) : list Mark :=
  concat (imap (fun i p => [MText (to_string i) (Near p) (ddiv (double_of_Z 3) (double_of_Z 4)) (255, 0, 255) 1;
                            MCircle (Near p) (double_of_Z 0) (255, 255, 0) 2]) ps).

(** A sighting of four to six strips. *)
Definition hub_seen (h : UpperHub) (strips : list (Rect Z)) : res UpperHub :=
  ps ← each rect_center strips;
  hub_sort (foldl hub_add (resetPoints h) ps).

Definition report_hub (v : Vs1) (h : UpperHub) (now : Z) : prog (Vs1 * UpperHub * pose * list (Point double)) :=
  let* cam := lift (getCurrentCamera v) in
  let* r := hub_solve h (c_matrix cam) (c_distortion cam) false in
  let* v1 := updateTarget v (cv_name (hub_target h)) now in
  ret (v1, r.1, r.2, v_projectPoints hub_pose3D r.2 (c_matrix cam) (c_distortion cam)).

Definition StripFinder_process (v : Vs1) (f : StripFinder) (io_frame : Mat) (now : Z)
    : prog (Vs1 * StripFinder * Mat) :=
  let* ws := lift (do_threshold (sf_ws f) io_frame) in
  let c := (findContours v_findContours (sf_contours f) (ws_binary ws) RETR_EXTERNAL CHAIN_APPROX_SIMPLE).1 in
  let* show := get_bool (vp_table (sf_pipe f)) "Show Thresholded" in
  let (ws, frame) := if show : bool then fromBinary v_resize_nearest v_gray2bgr ws else (ws, io_frame) in
  let cs := map (fun l => rescale_up v_point_times l (getScale ws)) (contours c) in
  let s0 := mkScan cs [] 0 (sf_rect f) (sf_range f) [] in
  let* r := lift (default Undefined (strip_scan (length cs) 0 s0)) in
  let s := r.1 in
  let c1 := mkContours (sc_contours s) (area_largest c) (area_buff c) (target_idx c) in
  if r.2 : bool then
    let* h := lift (hub_seen (sf_target f) (in_range s)) in
    let* q := report_hub v h now in
    let* axes := lift (hub_axes q.2) in
    ret (q.1.1.1,
         mkStripFinder (sf_pipe f) ws c1 (in_range s) (rect_buffer s) (range s) q.1.1.2 q.1.2 q.2,
         draw_all (sc_marks s ++ point_marks (hub_points h) ++ axes) frame)
  else
    ret (v,
         mkStripFinder (sf_pipe f) ws c1 (in_range s) (rect_buffer s) (range s) (sf_target f) (sf_pose f)
           (sf_pose2D f),
         draw_all (sc_marks s) frame).

(** ** Properties of the search *)

#[local] Arguments distance : simpl never.
#[local] Arguments larger_strip : simpl never.
#[local] Arguments similar_strip : simpl never.
#[local] Arguments reach : simpl never.
#[local] Arguments swapIdx : simpl never.
#[local] Arguments near_strip : simpl never.

Lemma swapIdx_spec {A} (l l' : list A) i j :
  swapIdx l i j = Ok l' ->
  exists a b, l !! i = Some a /\ l !! j = Some b /\ l' = <[j := a]> (<[i := b]> l).
Proof.
  unfold swapIdx. destruct (l !! i) as [a|] eqn:Ea, (l !! j) as [b|] eqn:Eb; try done.
  intros [= <-]. by exists a, b.
Qed.

Lemma swapIdx_perm {A} (l l' : list A) i j : swapIdx l i j = Ok l' -> l' ≡ₚ l.
Proof. intros (a & b & Ha & Hb & ->)%swapIdx_spec. by apply Permutation_insert_swap. Qed.

(** A swap below [k] keeps the first [k] elements together. *)
Lemma swapIdx_take {A} (l l' : list A) i j k :
  swapIdx l i j = Ok l' -> (i <= j)%nat -> (j < k)%nat -> take k l' ≡ₚ take k l.
Proof.
  intros (a & b & Ha & Hb & ->)%swapIdx_spec Hij Hjk.
  rewrite !take_insert_lt by lia. apply Permutation_insert_swap; by rewrite lookup_take_lt by lia.
Qed.

Definition shaped (r : Rect Z) : bool := tape_shaped r || nearly_tape_shaped r.

(** The strips found so far are rectangles around different contours, of the
    first [n], and of a strip's shape. *)
Definition counted (s : Scan) (n : nat) : Prop :=
  (exists L, in_range s ≡ₚ map v_boundingRect L /\ L ⊆+ take n (sc_contours s)) /\
  Forall (fun r => shaped r = true) (in_range s).

Lemma larger_shaped r first : larger_strip r first = Ok true -> shaped r = true.
Proof. unfold larger_strip, shaped. by destruct (tape_shaped r). Qed.
Lemma similar_shaped r first : similar_strip r first = Ok true -> shaped r = true.
Proof. unfold similar_strip, shaped. destruct (nearly_tape_shaped r); [by rewrite orb_true_r | done]. Qed.

Lemma take_submseteq_S {A} n (l : list A) : take n l ⊆+ take (S n) l.
Proof.
  revert n. induction l as [|a l IH]; intros [|n]; cbn; [done..| |].
  - apply submseteq_nil_l.
  - by apply submseteq_skip.
Qed.

(** One more contour looked at, taken as a strip or not. *)
Lemma counted_skip s n cs rs r rg ms :
  counted s n -> take (S n) cs ≡ₚ take (S n) (sc_contours s) ->
  counted (mkScan cs (in_range s) rs r rg ms) (S n).
Proof.
  intros [(L & HL & Hsub) Hsh] Hp. split; [|done]. exists L. split; [done|]. cbn [sc_contours].
  rewrite Hp. etrans; [exact Hsub | apply take_submseteq_S].
Qed.

Lemma counted_take s n c cs rs rg ms found :
  counted s n -> sc_contours s !! n = Some c -> take (S n) cs ≡ₚ take (S n) (sc_contours s) ->
  shaped (v_boundingRect c) = true -> found ≡ₚ v_boundingRect c :: in_range s ->
  counted (mkScan cs found rs (v_boundingRect c) rg ms) (S n).
Proof.
  intros [(L & HL & Hsub) Hsh] Hc Hp Hr Hf. split.
  - exists (L ++ [c]). cbn [sc_contours in_range]. rewrite Hf, HL, map_app, Hp, (take_S_r _ _ _ Hc).
    split; [by rewrite Permutation_app_comm | by apply submseteq_skips_r].
  - cbn [in_range]. rewrite Hf. by constructor.
Qed.

Lemma near_strip_counted s n s' :
  near_strip s n = Ok s' ->
  sc_contours s' ≡ₚ sc_contours s /\
  ((reinserted s <= n)%nat -> counted s n -> (reinserted s' <= S n)%nat /\ counted s' (S n)).
Proof.
  unfold near_strip. destruct (sc_contours s !! n) as [c|] eqn:Hc; cbn; [|done].
  destruct (in_range s !! 0%nat) as [first|]; cbn; [|done].
  destruct (distance (v_tl (v_boundingRect c)) (v_tl first)) as [d|e|]; cbn; [|done..].
  destruct (size_le d (range s)).
  2:{ intros [= <-]. split; [done|]. intros; split; [cbn; lia|]. by apply counted_skip. }
  destruct (larger_strip (v_boundingRect c) first) as [[]|e|] eqn:Hl; cbn; [| |done..].
  - destruct (reach _ 6 3) as [rg|e|]; cbn; [|done..].
    destruct (swapIdx _ _ _) as [cs|e|] eqn:Hs; cbn; [|done..]. intros [= <-].
    split; [exact (swapIdx_perm _ _ _ _ Hs)|]. intros Hr Hcnt. split; [cbn; lia|].
    apply (counted_take s n c); [done|done| |by eapply larger_shaped|done].
    eapply swapIdx_take; [done|lia..].
  - destruct (similar_strip (v_boundingRect c) first) as [[]|e|] eqn:Hsim; cbn; [| |done..]; intros [= <-];
      (split; [done|]); intros Hr Hcnt; (split; [cbn; lia|]).
    + apply (counted_take s n c); [done|done|done|by eapply similar_shaped|].
      apply (Permutation_app_comm _ [_]).
    + by apply counted_skip.
Qed.

Lemma near_strips_counted k n s s' :
  near_strips (seq n k) s = Ok s' ->
  sc_contours s' ≡ₚ sc_contours s /\
  ((reinserted s <= n)%nat -> counted s n -> counted s' (n + k)).
Proof.
  revert n s. induction k as [|k IH]; intros n s; cbn.
  - intros [= <-]. split; [done|]. intros _. by rewrite Nat.add_0_r.
  - destruct (near_strip s n) as [s1|e|] eqn:E; cbn; [|done..]. intros H.
    destruct (near_strip_counted _ _ _ E) as [Hp1 Hc1], (IH _ _ H) as [Hp Hc].
    split; [by rewrite Hp|]. intros Hr Hcnt. destruct (Hc1 Hr Hcnt) as [Hr1 Hcnt1].
    rewrite Nat.add_succ_r, <- Nat.add_succ_l. by apply Hc.
Qed.

Lemma strips_around_counted s i c s' :
  strips_around s i (v_boundingRect c) = Ok s' -> in_range s = [] ->
  sc_contours s !! i = Some c -> tape_shaped (v_boundingRect c) = true -> (reinserted s <= i)%nat ->
  sc_contours s' ≡ₚ sc_contours s /\ counted s' (length (sc_contours s')).
Proof.
  unfold strips_around. intros H Hin Hc Ht Hr. revert H.
  destruct (reach _ 7 4) as [rg|e|]; cbn; [|done..].
  destruct (swapIdx _ _ _) as [cs|e|] eqn:Hs; cbn; [|done..].
  pose proof (swapIdx_perm _ _ _ _ Hs) as Hperm. pose proof (Permutation_length Hperm) as Hlen.
  intros [Hp Hcnt]%near_strips_counted. cbn in Hp, Hcnt. split; [by rewrite Hp|].
  pose proof (lookup_lt_Some _ _ _ Hc) as Hi.
  rewrite (Permutation_length Hp). replace (length cs) with (S (reinserted s) + (length cs - S (reinserted s)))%nat by lia.
  apply Hcnt; [done|]. split; cbn [in_range sc_contours mark_rect mark reinserted].
  - exists [c]. split; [by rewrite Hin|].
    apply swapIdx_spec in Hs as (a & b & Ha & Hb & ->). assert (b = c) as -> by congruence.
    rewrite take_insert. apply singleton_submseteq_l.
    destruct (decide (i < S (reinserted s))%nat).
    + assert (i = reinserted s) as -> by lia. assert (a = c) as -> by congruence.
      apply list_elem_of_lookup. exists (reinserted s).
      rewrite list_lookup_insert_eq; [done|]. rewrite length_take, length_insert. lia.
    + apply list_elem_of_lookup. exists (reinserted s). rewrite lookup_take_lt by lia.
      apply list_lookup_insert_eq. lia.
  - rewrite Hin. constructor; [|done]. unfold shaped. by rewrite Ht.
Qed.

Lemma strip_scan_counted fuel i s s' b :
  strip_scan fuel i s = Some (Ok (s', b)) -> in_range s = [] ->
  sc_contours s' ≡ₚ sc_contours s /\
  (b = true -> enough_strips s' = true /\ counted s' (length (sc_contours s'))).
Proof.
  revert i s. induction fuel as [|fuel IH]; intros i s; cbn [strip_scan];
    destruct (i <? length (sc_contours s))%nat; try done.
  1, 3: by intros [= <- <-].
  set (j := if (i <? reinserted s)%nat then _ else _).
  assert (Hj : (reinserted s <= j)%nat) by (unfold j; destruct (Nat.ltb_spec i (reinserted s)); lia).
  destruct (sc_contours s !! j) as [c|] eqn:Hc; [|done].
  destruct (tape_shaped (v_boundingRect c)) eqn:Ht.
  - destruct (strips_around s j _) as [s1|e|] eqn:E; [|done..]. intros H Hin.
    destruct (strips_around_counted _ _ _ _ E Hin Hc Ht Hj) as [Hp Hcnt]. revert H.
    destruct (enough_strips s1) eqn:He; [by intros [= <- <-]|].
    intros H. destruct (IH _ _ H) as [Hp' Hb]; [done|]. split; [|done]. by rewrite Hp'.
  - intros H Hin. exact (IH _ _ H Hin).
Qed.

(** Every turn of the outer loop moves on, so as many turns as there are
    contours are enough. *)
Lemma strips_around_length s i r s' :
  strips_around s i r = Ok s' -> length (sc_contours s') = length (sc_contours s).
Proof.
  unfold strips_around. destruct (reach _ 7 4) as [rg|e|]; cbn; [|done..].
  destruct (swapIdx _ _ _) as [cs|e|] eqn:Hs; cbn; [|done..].
  intros [Hp _]%near_strips_counted. cbn in Hp.
  by rewrite (Permutation_length Hp), (Permutation_length (swapIdx_perm _ _ _ _ Hs)).
Qed.

Lemma strip_scan_total fuel i s : (length (sc_contours s) - i <= fuel)%nat -> strip_scan fuel i s <> None.
Proof.
  revert i s. induction fuel as [|fuel IH]; intros i s Hf; cbn [strip_scan];
    destruct (Nat.ltb_spec i (length (sc_contours s))); try done; [lia|].
  set (j := if (i <? reinserted s)%nat then _ else _).
  assert (Hj : (i <= j)%nat) by (unfold j; destruct (Nat.ltb_spec i (reinserted s)); lia).
  destruct (sc_contours s !! j) as [c|]; [|done].
  destruct (tape_shaped (v_boundingRect c)).
  - destruct (strips_around s j _) as [s1|e|] eqn:E; [|done..].
    destruct (enough_strips s1); [done|]. apply IH. cbn [clear_strips sc_contours].
    rewrite (strips_around_length _ _ _ _ E). lia.
  - apply IH. cbn [mark_rect mark sc_contours]. lia.
Qed.

Lemma strip_scan_more fuel k i s r :
  strip_scan fuel i s = Some r -> strip_scan (fuel + k) i s = Some r.
Proof.
  revert i s. induction fuel as [|fuel IH]; intros i s; cbn [strip_scan Nat.add].
  - destruct (i <? length (sc_contours s))%nat eqn:E; [done|].
    intros <-. destruct k; cbn [strip_scan]; by rewrite E.
  - destruct (i <? length (sc_contours s))%nat; [|done]. cbv zeta.
    destruct (sc_contours s !! _) as [c|]; [|done]. destruct (tape_shaped _); [|apply IH].
    destruct (strips_around s _ _) as [s1|e|]; try done. destruct (enough_strips s1); [done | apply IH].
Qed.

(** C25. The search for strips ends: from any contours - and although a strip found
    earlier moves contours to the front and its index forward - it makes at most
    one turn per contour, and what it returns does not depend on how long it
    was allowed to run. *)
Theorem strip_scan_terminates s :
  exists r, forall k, strip_scan (length (sc_contours s) + k) 0 s = Some r.
Proof.
  destruct (strip_scan (length (sc_contours s)) 0 s) as [r|] eqn:E.
  - exists r. intros k. by apply strip_scan_more.
  - destruct (strip_scan_total (length (sc_contours s)) 0 s ltac:(lia) E).
Qed.

(** ** The points of a sighting *)

Lemma each_length {A B} (f : A -> res B) l l' : each f l = Ok l' -> length l' = length l.
Proof.
  revert l'. induction l as [|a l IH]; intros l'; cbn; [by intros [= <-]|].
  destruct (f a) as [b|e|]; cbn; [|done..]. destruct (each f l) as [bs|e|]; cbn; [|done..].
  intros [= <-]. cbn. by rewrite (IH bs).
Qed.

Lemma each_lookup {A} (l : list A) k n :
  each (fun i => of_option (l !! i)) (seq k n) =
  if (n =? 0)%nat || (k + n <=? length l)%nat then Ok (take n (drop k l)) else Undefined.
Proof.
  revert k. induction n as [|n IH]; intros k; cbn [seq each]; [done|]. rewrite IH. cbn [Nat.eqb orb].
  destruct (l !! k) as [a|] eqn:Ha.
  - rewrite (drop_S _ _ _ Ha). cbn [of_option mbind res_bind take]. pose proof (lookup_lt_Some _ _ _ Ha).
    destruct (Nat.eqb_spec n 0) as [En|]; cbn [orb].
    + rewrite En. by destruct (Nat.leb_spec (k + 1) (length l)); [|lia].
    + rewrite Nat.add_succ_r, <- Nat.add_succ_l. by destruct (S k + n <=? length l)%nat.
  - apply lookup_ge_None in Ha. by destruct (Nat.leb_spec (k + S n) (length l)); [lia|].
Qed.

Lemma hub_adds h ps : foldl hub_add h ps = with_points h (hub_points h ++ ps).
Proof.
  revert h. induction ps as [|p ps IH]; intros h; cbn; [by destruct h; cbn; rewrite app_nil_r|].
  rewrite IH. cbn. by rewrite <- app_assoc.
Qed.

(** The points become the strips' centres from left to right, with the leftmost
    world points for them; the six world points bound the strips. *)
Lemma hub_seen_spec h strips ps :
  each rect_center strips = Ok ps ->
  hub_seen h strips =
  if (length strips <=? 6)%nat
  then Ok (with_match (with_points h (sort left_of ps)) (take (length strips) hub_world))
  else Undefined.
Proof.
  intros Hps. unfold hub_seen. rewrite Hps. cbn [mbind res_bind]. rewrite hub_adds.
  unfold hub_sort, matchWorld. cbn [resetPoints with_points hub_points hub_target hub_match hub_poses hub_size app].
  rewrite each_lookup. unfold hub_size. cbn [hub_points].
  cbn [with_points resetPoints hub_points].
  rewrite <- (Permutation_length (sort_perm left_of ps)), (each_length _ _ _ Hps).
  change (length hub_world) with 6%nat. cbn [Nat.add drop].
  destruct (Nat.eqb_spec (length strips) 0) as [->|]; [done|]. cbn [orb].
  by destruct (length strips <=? 6)%nat.
Qed.

(** ** What the pipeline reports *)

Definition hub_entries (tvec : Point3 double) : list (string * double) :=
  let x := qx tvec in let y := qy tvec in let z := qz tvec in
  let sq a := m_pow (to_double a) (double_of_Z 2) in
  [("x", to_double x); ("y", to_double y); ("z", to_double z);
   ("distance", dsqrt (dadd (dadd (sq x) (sq y)) (sq z)));
   ("left-right",
     dmul (ddiv (dmul (m_acos (ddiv (to_double z) (dsqrt (dadd (sq x) (sq z))))) (double_of_Z 180)) M_PI)
       (double_of_Z (sgn x)))].

Lemma report_hub_writes v h now w w' q :
  report_hub v h now w = (w', Ok q) ->
  exists cam, getCurrentCamera v = Ok cam /\
    q.1.2 = v_solvePnPRefineLM (hub_match h) (hub_points h) (c_matrix cam) (c_distortion cam)
              (best_pose (v_solvePnPGeneric (hub_match h) (hub_points h) (c_matrix cam) (c_distortion cam) false)) /\
    w' = with_nt w (nt_SetString (entry_path vision "Active Target") (cv_name (hub_target h))
                      (put_entries (cv_table (hub_target h)) (hub_entries q.1.2.2) (w_nt w))) /\
    target_last q.1.1.1 = now /\
    hub_points q.1.1.2 = hub_points h /\ hub_match q.1.1.2 = hub_match h /\
    hub_target q.1.1.2 = hub_target h.
Proof.
  unfold report_hub, bind at 1, lift at 1. destruct (getCurrentCamera v) as [cam|e|]; [|done..].
  intros H. exists cam. split; [done|]. revert H. unfold hub_solve.
  set (p := v_solvePnPRefineLM _ _ _ _ _). clearbody p. cbn. by intros [= <- <-].
Qed.

(** C22. One frame of the hub's pipeline, if it ends: either four to six strips are
    found, which are the rectangles around as many different contours of the
    frame and have a strip's shape, the hub's points are their centres from left
    to right with the leftmost world points for them, the pose is the one that
    solving and refining gives for these points and the matrices of the current
    camera, and it is published and the hub is the active target; or nothing but
    the frame, the buffers and the contours' order changes. *)
Theorem StripFinder_reports v f io_frame now w w' v' f' frame :
  StripFinder_process v f io_frame now w = (w', Ok (v', f', frame)) ->
  (exists L ps cam,
     let found := hub_points (sf_target f') in
     let known := hub_match (sf_target f') in
     let p := v_solvePnPRefineLM known found (c_matrix cam) (c_distortion cam)
                (best_pose (v_solvePnPGeneric known found (c_matrix cam) (c_distortion cam) false)) in
     sf_in_range f' ≡ₚ map v_boundingRect L /\ L ⊆+ contours (sf_contours f') /\
     (4 <= length L <= 6)%nat /\ Forall (fun r => shaped r = true) (sf_in_range f') /\
     each rect_center (sf_in_range f') = Ok ps /\
     found ≡ₚ ps /\ ordered left_of found /\ known = take (length L) hub_world /\
     getCurrentCamera v = Ok cam /\ sf_pose f' = p /\
     w' = with_nt w (nt_SetString (entry_path vision "Active Target") (cv_name (hub_target (sf_target f)))
                       (put_entries (cv_table (hub_target (sf_target f))) (hub_entries p.2) (w_nt w))) /\
     target_last v' = now) \/
  (w' = w /\ v' = v /\ sf_target f' = sf_target f /\ sf_pose f' = sf_pose f).
Proof.
  unfold StripFinder_process. intros (w1 & ws & [-> Hws]%lift_inv & H)%bind_inv. cbn zeta in H.
  apply bind_inv in H as (w2 & show & [= <- <-] & H).
  destruct (if nt_GetBoolean _ _ _ then _ else _) as [ws1 fr].
  apply bind_inv in H as (w2 & [s b] & [-> Hr]%lift_inv & H). cbn [fst snd] in H.
  set (s0 := mkScan _ [] 0 _ _ []) in Hr.
  destruct (strip_scan (length (map (fun l => rescale_up v_point_times l (getScale ws1)) _)) 0 s0)
    as [r|] eqn:Escan; [|done]. change (r = Ok (s, b)) in Hr. subst r.
  destruct (strip_scan_counted _ _ _ _ _ Escan eq_refl) as [_ Hfound].
  destruct b; [|right; by injection H as <- <- <- _].
  destruct (Hfound eq_refl) as [Hmany [(L & HL & Hsub) Hshaped]]. left.
  apply bind_inv in H as (w2 & h & [-> Hh]%lift_inv & H).
  apply bind_inv in H as (w3 & q & Hq & H).
  apply bind_inv in H as (w4 & axes & [-> _]%lift_inv & H). injection H as <- <- <- _.
  cbn [sf_in_range sf_contours sf_target sf_pose contours].
  destruct (each rect_center (in_range s)) as [ps|e|] eqn:Hps;
    [| unfold hub_seen in Hh; by rewrite Hps in Hh..].
  assert (Hlen : length (in_range s) = length L) by (by rewrite HL, length_map).
  assert (Hn : (4 <= length L <= 6)%nat).
  { unfold enough_strips, inRange in Hmany. cbn in Hmany. rewrite Hlen, andb_true_iff, !Z.leb_le in Hmany. lia. }
  rewrite (hub_seen_spec _ _ _ Hps), Hlen in Hh. destruct (Nat.leb_spec (length L) 6); [|lia].
  injection Hh as <-.
  destruct (report_hub_writes _ _ _ _ _ _ Hq) as (cam & Hcam & Hpose & -> & Ht & Hp & Hm & _).
  cbn [sf_target] in Hp, Hm. exists L, ps, cam. cbv zeta. rewrite take_ge in Hsub by done. rewrite Hp, Hm, <- Hpose.
  repeat (split; [done|]). split; [symmetry; apply sort_perm|].
  split; [apply sort_sorted; intros a b; apply SFltb_asym|].
  repeat (split; [done|]). done.
Qed.

(** ** The search can leave the contours *)

(** Rectangles whose sizes and positions do not overflow the products. *)
Definition small (r : Rect Z) : Prop :=
  0 <= r_width r <= 2 ^ 13 /\ 0 <= r_height r <= 2 ^ 13 /\
  0 <= px (v_tl r) <= 2 ^ 13 /\ 0 <= py (v_tl r) <= 2 ^ 13.

(** [r'] is a strip, larger than [r] and in its reach. *)
Definition outgrows (r r' : Rect Z) : Prop :=
  tape_shaped r' = true /\ r_width r * r_height r < r_width r' * r_height r' /\
  Z.abs (px (v_tl r') - px (v_tl r)) <= r_width r * 6 /\
  Z.abs (py (v_tl r') - py (v_tl r)) <= r_height r * 3.

(** Every contour's rectangle outgrows the one before. *)
Fixpoint growing (r : Rect Z) (l : list contour) : Prop :=
  match l with
  | [] => True
  | c :: l' => outgrows r (v_boundingRect c) /\ small (v_boundingRect c) /\ growing (v_boundingRect c) l'
  end.

Lemma int_res_in z : - 2 ^ 31 <= z < 2 ^ 31 -> int_res z = Ok z.
Proof.
  intros H. unfold int_res. destruct (Z.leb_spec (- 2 ^ 31) z), (Z.leb_spec z (2 ^ 31 - 1)); done || lia.
Qed.

Lemma reach_small r w h : small r -> 0 <= w <= 7 -> 0 <= h <= 7 ->
  reach r w h = Ok (mkSize (r_width r * w) (r_height r * h)).
Proof. unfold small, reach. intros Hr Hw Hh. rewrite !int_res_in by nia. done. Qed.
Lemma rect_area_small r : small r -> rect_area r = Ok (r_width r * r_height r).
Proof. unfold small, rect_area. intros Hr. by rewrite int_res_in by nia. Qed.

Lemma larger_outgrows r r' : small r -> small r' -> outgrows r r' -> larger_strip r' r = Ok true.
Proof.
  intros Hr Hr' (Ht & Ha & _). unfold larger_strip. rewrite Ht, !rect_area_small by done. cbn.
  by destruct (Z.ltb_spec (r_width r * r_height r) (r_width r' * r_height r')); [|lia].
Qed.

Lemma distance_small r r' : small r -> small r' ->
  distance (v_tl r') (v_tl r) =
  Ok (mkSize (Z.abs (px (v_tl r') - px (v_tl r))) (Z.abs (py (v_tl r') - py (v_tl r)))).
Proof.
  intros Hr Hr'. unfold small in *. unfold distance. cbn [n_sub n_abs int_Num].
  repeat (rewrite int_res_in by lia; cbn [mbind res_bind]). done.
Qed.

(** The loop takes a growing sequence of strips as a whole and moves each one
    to where it is. *)
Lemma near_strips_growing l s n r rest :
  drop n (sc_contours s) = l -> reinserted s = n -> in_range s = r :: rest -> small r ->
  r_width r * 6 <= s_width (range s) -> r_height r * 3 <= s_height (range s) -> growing r l ->
  exists s', near_strips (seq n (length l)) s = Ok s' /\ sc_contours s' = sc_contours s /\
    reinserted s' = (n + length l)%nat /\ length (in_range s') = (length (in_range s) + length l)%nat.
Proof.
  revert s n r rest. induction l as [|c l IH]; intros s n r rest Hd Hn Hin Hr Hw Hh Hg.
  - exists s. rewrite !Nat.add_0_r. done.
  - destruct Hg as (Ho & Hc & Hg). cbn [length seq near_strips].
    assert (Hlook : sc_contours s !! n = Some c) by (by rewrite <- (Nat.add_0_r n), <- lookup_drop, Hd).
    set (r' := v_boundingRect c) in *.
    set (s1 := mark_rect r' (0, 255, 0)
        (mkScan (sc_contours s) (r' :: in_range s) (S n) r' (mkSize (r_width r' * 6) (r_height r' * 3)) (sc_marks s))).
    assert (E : near_strip s n = Ok s1).
    { unfold near_strip. rewrite Hlook. cbn [of_option mbind res_bind]. rewrite Hin. cbn [lookup list_lookup].
      cbn [of_option mbind res_bind]. fold r'. rewrite (distance_small r r' Hr Hc). cbn [mbind res_bind].
      pose proof Ho as (_ & _ & Hx & Hy). unfold size_le. cbn [s_width s_height n_le int_Num].
      destruct (Z.leb_spec (Z.abs (px (v_tl r') - px (v_tl r))) (s_width (range s))); [|lia].
      destruct (Z.leb_spec (Z.abs (py (v_tl r') - py (v_tl r))) (s_height (range s))); [|lia].
      cbn [andb]. rewrite larger_outgrows by done. cbn [mbind res_bind].
      rewrite reach_small by done || lia. cbn [mbind res_bind]. unfold swapIdx. rewrite Hn, Hlook.
      rewrite list_insert_insert_eq, list_insert_id by done. cbn [mbind res_bind].
      unfold s1. by rewrite Hin. }
    rewrite E. cbn [mbind res_bind].
    destruct (IH s1 (S n) r' (in_range s)) as (s' & Hs' & Hcs & Hre & Hlen); try done.
    { cbn. by rewrite (drop_S _ _ _ Hlook) in Hd; injection Hd. }
    exists s'. split; [exact Hs'|]. split; [exact Hcs|]. rewrite Hre, Hlen. cbn. lia.
Qed.

(** C24. A frame in which strips outgrow each other, each in reach of the one
    before, and which are too few or too many for the hub: the search puts all of
    them behind it, goes on at their end and reads outside the contours. *)
Theorem strips_overrun c l r0 rg0 :
  let cs := c :: l in
  tape_shaped (v_boundingRect c) = true -> small (v_boundingRect c) -> growing (v_boundingRect c) l ->
  (2 <= length cs < 4 \/ 6 < length cs)%nat ->
  strip_scan (length cs) 0 (mkScan cs [] 0 r0 rg0 []) = Some Undefined.
Proof.
  intros cs Ht Hs Hg Hn. set (r := v_boundingRect c) in *.
  set (s1 := mark_rect r (0, 255, 255) (mkScan cs ([] ++ [r]) 1 r (mkSize (r_width r * 7) (r_height r * 4)) [])).
  destruct (near_strips_growing l s1 1 r []) as (s' & Hs' & Hcs & Hre & Hlen); try done;
    try (cbn; unfold small in Hs; lia).
  assert (E : strips_around (mkScan cs [] 0 r0 rg0 []) 0 r = Ok s').
  { unfold strips_around. rewrite reach_small by done || lia. cbn [mbind res_bind sc_contours reinserted in_range sc_marks].
    unfold swapIdx at 1. cbn [lookup list_lookup cs mbind res_bind]. fold cs.
    change (<[0%nat:=c]> (<[0%nat:=c]> cs)) with cs. fold s1.
    change (reinserted s1) with 1%nat. by replace (length cs - 1)%nat with (length l) by (cbn; lia). }
  cbn [strip_scan length cs sc_contours reinserted]. cbn [Nat.ltb Nat.leb lookup list_lookup]. fold cs. fold r.
  change (cs !! 0%nat) with (Some c). cbv iota beta zeta. fold r. rewrite Ht, E.
  assert (Hmany : enough_strips s' = false).
  { unfold enough_strips, inRange. rewrite Hlen. change (length (in_range s1)) with 1%nat.
    change (length cs) with (S (length l)) in Hn. cbn [n_le int_Num]. rewrite andb_false_iff, !Z.leb_gt. lia. }
  rewrite Hmany. destruct l as [|c' l]; [cbn in Hn; lia|].
  cbn [strip_scan length clear_strips sc_contours reinserted]. rewrite Hcs, Hre.
  change (sc_contours s1) with cs. cbn [length cs Nat.ltb Nat.leb Nat.add].
  by rewrite lookup_ge_None_2 by (cbn; lia).
Qed.

End Hub.

(** * Evaluation *)

Definition box (x y w h : Z) : contour := [mkPoint x y; mkPoint (x + w) (y + h)].
Definition first_scan (cs : list contour) : Scan := mkScan cs [] 0 (mkRect 0 0 0 0) (mkSize 0 0) [].

(** Two strips in a frame: the second is larger and close to the first. *)
Lemma strips_overrun_witness :
  strip_scan (Mat := Shot) 2 0 (first_scan [box 0 0 8 4; box 10 2 10 5]) = Some Undefined.
Proof.
  refine (strips_overrun (Mat := Shot) (box 0 0 8 4) [box 10 2 10 5] _ _ _ _ _ _);
    [vm_compute; reflexivity | unfold small; cbn; lia | | cbn; lia].
  split; [|split; [unfold small; cbn; lia | exact I]].
  split; [vm_compute; reflexivity|]. cbn. lia.
Defined.

(** Four strips, the first of which is the largest. *)
Definition hub_shot : Shot := mkShot [box 40 10 12 6; box 20 11 10 5; box 60 12 10 5; box 80 14 10 5; box 300 300 9 9] [].
Definition a_strip_finder : StripFinder :=
  mkStripFinder (VPipeline_new "Upper-Hub Pipeline") a_threshold no_contours [] (mkRect 0 0 0 0) (mkSize 0 0)
    UpperHub_new no_pose [].
Definition strip_run : world sim_cs sim_nt * res (Vs1 * StripFinder * Shot) :=
  StripFinder_process a_server a_strip_finder hub_shot 23 start_world.

Example hub_shot_points :
  match strip_run.2 with
  | Ok (_, f, _) => map px (hub_points (sf_target f)) = map float_of_Z [25; 46; 65; 85]
  | _ => False
  end.
Proof. vm_compute. reflexivity. Qed.

Lemma StripFinder_reports_witness :
  match strip_run with
  | (_, Ok (v', f', _)) => target_last v' = 23 /\ ordered left_of (hub_points (sf_target f')) /\
                           (4 <= length (sf_in_range f') <= 6)%nat
  | _ => False
  end.
Proof.
  assert (Hok : match strip_run with (_, Ok (v', _, _)) => target_last v' = 23 | _ => False end)
    by (vm_compute; reflexivity).
  destruct strip_run as [w' [[[v' f'] s]|e|]] eqn:E; [|done..].
  destruct (StripFinder_reports _ _ _ _ _ _ _ _ _ E)
    as [(L & ps & cam & HL & _ & Hn & _ & _ & _ & Ho & _ & _ & _ & _ & Ht)|(_ & -> & _)]; [|done].
  split; [exact Ht|]. split; [exact Ho|]. rewrite HL, length_map. exact Hn.
Defined.

(** Strips with a gap between the second and the third. *)
Example gap_match :
  match hub_sort_rects (Mat := Shot) UpperHub_new [mkRect 60 0 10 5; mkRect 0 0 10 5; mkRect 20 0 10 5] with
  | Ok h => take 3 (hub_match h) = [hub_point 0 2673803044; hub_point 1023220126 2470271906; hub_point 2470271906 1023220126]
  | _ => False
  end.
Proof. vm_compute. reflexivity. Qed.
