(* ===== verification/Vs1Cargo.v ===== *)
(** The balls of 2022 ([2022/rapidreact.h], [rapidreact.inc],
    [rapidreact.cpp]): outlines found in a frame by a filter per colour, the two
    filters running in threads of their own, and the pipeline that reports the
    largest ball of each colour. *)

From Stdlib Require Import Sorting.Permutation.
From S2P Require Import Prelude Floats Json World Instances Geometry Server Runner Vs1Camera Vs1Server Vs1Contours Vs1Pipelines.
Local Open Scope Z_scope.
Local Open Scope vs_scope.

(** * Balls *)

Inductive CargoColor := CARGO_NONE | CARGO_RED | CARGO_BLUE | CARGO_BOTH.
Definition cargo_value (c : CargoColor) : nat :=
  match c with CARGO_NONE => 0 | CARGO_RED => 1 | CARGO_BLUE => 2 | CARGO_BOTH => 3 end.

Record CargoOutline := mkOutline { ol_center : Point double; ol_radius : double; ol_color : CargoColor }.
Definition no_outline : CargoOutline :=
  mkOutline (mkPoint (S754_zero false) (S754_zero false)) (S754_zero false) CARGO_NONE.

(** A target with the four points of a ball of 9.5 inches. *)
Definition cargo_radius : double := fdiv (float_of_Z 19) (float_of_Z 4).
Definition cargo_world : list (Point3 double) :=
  let z := S754_zero false in
  [mkPoint3 (SFopp cargo_radius) z z; mkPoint3 z cargo_radius z;
   mkPoint3 cargo_radius z z; mkPoint3 z (SFopp cargo_radius) z].
Definition Cargo_new (ball_idx : nat) (color : CargoColor) : CvTarget :=
  CvTarget_named 4 cargo_world
    ("Cargo-" +:+ to_string ball_idx +:+ (if (cargo_value color =? 1)%nat then "r" else "b")).

Definition cargo_sort (t : CvTarget) (o : CargoOutline) : CvTarget :=
  let x := px (ol_center o) in let y := py (ol_center o) in let r := ol_radius o in
  mkCvTarget [mkPoint (fsub x r) y; mkPoint x (fsub y r); mkPoint (fadd x r) y; mkPoint x (fadd y r)]
    (world_points t) (center t) (cv_name t) (cv_table t).

(** The colours things are marked in, by the channel and the use. *)
Definition markup_map (c : LED) : list Scalar :=
  match c with
  | BLUE => [(255, 0, 0); (255, 127, 0); (255, 255, 0)]
  | GREEN => [(0, 255, 0); (0, 255, 127); (0, 255, 255)]
  | RED => [(0, 0, 255); (127, 0, 255); (255, 0, 255)]
  end.
Definition markup (c : LED) (i : nat) : Scalar := nth i (markup_map c) (0, 0, 0).

Section Cargo.

Context {C T : Type} `{CS : CsCore C} `{NT : Tables T} {Mat : Type} `{VI : Vision Mat} `{CM : CMath}.
Abbreviation prog := (M C T).
Abbreviation WS := (WeightedSubtraction (Mat := Mat)).

(** ** The filter of a colour *)

(** [bf_worker] holds the channels a running thread works on. *)
Record BallFilter := mkFilter {
  bf_ws : WS;
  bf_contours : Contours;
  bf_filtered : list CargoOutline;
  bf_outline : CargoOutline;
  bf_max : double;
  bf_worker : option (nat -> Mat)
}.

Definition with_ws (f : BallFilter) (ws : WS) : BallFilter :=
  mkFilter ws (bf_contours f) (bf_filtered f) (bf_outline f) (bf_max f) (bf_worker f).
Definition with_worker (f : BallFilter) (w : option (nat -> Mat)) : BallFilter :=
  mkFilter (bf_ws f) (bf_contours f) (bf_filtered f) (bf_outline f) (bf_max f) w.

Definition ws_with_buffer (f : WS) (b : Mat) : WS :=
  mkWS (ws_color f) b (ws_binary f) (ws_channels f) (ws_alpha f) (ws_beta f) (ws_gamma f) (ws_thresh f) (ws_scale f).
Definition ws_with_binary (f : WS) (b : Mat) : WS :=
  mkWS (ws_color f) (ws_buffer f) b (ws_channels f) (ws_alpha f) (ws_beta f) (ws_gamma f) (ws_thresh f) (ws_scale f).
Definition ws_with_channels (f : WS) (c : nat -> Mat) : WS :=
  mkWS (ws_color f) (ws_buffer f) (ws_binary f) c (ws_alpha f) (ws_beta f) (ws_gamma f) (ws_thresh f) (ws_scale f).
Definition ws_with_scale (f : WS) (s : Z) : WS :=
  mkWS (ws_color f) (ws_buffer f) (ws_binary f) (ws_channels f) (ws_alpha f) (ws_beta f) (ws_gamma f) (ws_thresh f) s.

Definition hundredths (z : Z) : double := ddiv (double_of_Z z) (double_of_Z 100).

Definition BallFilter_new (primary : LED) (alpha beta thresh_percent : Z) (resolution : Size Z) : res BallFilter :=
  f ← WeightedSubtraction_new v_new v_empty primary resolution;
  Ok (mkFilter
        (mkWS (ws_color f) (ws_buffer f) (ws_binary f) (ws_channels f) (hundredths alpha) (hundredths beta)
           (hundredths thresh_percent) (ws_thresh f) (ws_scale f))
        no_contours [] no_outline (S754_zero false) None).

Definition resetTargetIdx (f : BallFilter) : BallFilter :=
  let c := bf_contours f in
  mkFilter (bf_ws f) (mkContours (contours c) (area_largest c) (area_buff c) (-1)) (bf_filtered f)
    (bf_outline f) (bf_max f) (bf_worker f).

(** The state of the loop over the contours. *)
Record Balls := mkBalls {
  ba_contours : list contour;
  ba_filtered : list CargoOutline;
  ba_outline : CargoOutline;
  ba_largest : double;
  ba_idx : Z;
  ba_marks : list Mark
}.

Definition cargo_color (primary : LED) : CargoColor :=
  match primary with BLUE => CARGO_BLUE | RED => CARGO_RED | GREEN => CARGO_NONE end.

(** A contour whose hull fills four fifths of its circle is a ball. *)
Definition roundness (c : contour) (radius : double) : double :=
  ddiv (v_contourArea (v_convexHull c)) (dmul M_PI (m_pow (to_double radius) (double_of_Z 2))).
Definition is_ball (c : contour) (radius : double) : bool :=
  SFltb (ddiv (double_of_Z 4) (double_of_Z 5)) (roundness c radius).

Definition add_ball (primary : LED) (scale : Z) (s : Balls) (p : Point double) (radius : double) : res Balls :=
  let o := mkOutline (v_fpoint_times p (wraps 32 scale)) (fmul radius (float_of_Z scale)) (cargo_color primary) in
  let filtered := ba_filtered s ++ [o] in
  let larger := SFltb (ba_largest s) (to_double (ol_radius o)) in
  r ← of_option (int_of_double (ol_radius o));
  Ok (mkBalls (ba_contours s) filtered o
        (if larger then to_double (ol_radius o) else ba_largest s)
        (if larger then wraps 16 (Z.of_nat (length filtered) - 1) else ba_idx s)
        (ba_marks s ++ [MCircle (Near (ol_center o)) (double_of_Z r) (markup primary 0) 3])).

Definition ball_turn (primary : LED) (scale : Z) (least : double) (show_contours : bool) (s : Balls) (i : nat)
    : res Balls :=
  c ← of_option (ba_contours s !! i);
  if SFltb least (v_contourArea c) then
    let (p, radius) := v_minEnclosingCircle c in
    let s1 := mkBalls (ba_contours s) (ba_filtered s) (mkOutline p radius (ol_color (ba_outline s)))
                (ba_largest s) (ba_idx s) (ba_marks s) in
    s2 ← (if is_ball c radius then add_ball primary scale s1 p radius else Ok s1);
    if show_contours then
      let cs := <[i := rescale_up v_point_times c scale]> (ba_contours s2) in
      Ok (mkBalls cs (ba_filtered s2) (ba_outline s2) (ba_largest s2) (ba_idx s2)
            (ba_marks s2 ++ [MContour cs i (markup primary 1)]))
    else Ok s2
  else Ok s.

Fixpoint ball_turns (primary : LED) (scale : Z) (least : double) (show_contours : bool) (is_ : list nat) (s : Balls)
    : res Balls :=
  match is_ with
  | [] => Ok s
  | i :: is_' => s1 ← ball_turn primary scale least show_contours s i;
                 ball_turns primary scale least show_contours is_' s1
  end.

(** The body of a filter's thread: the state it leaves and what it draws. *)
Definition BallFilter_threshold (f : BallFilter) (channels : nat -> Mat) (show_bin show_contours : bool)
    : res (BallFilter * list Mark) :=
  let ws := bf_ws f in
  let primary := ws_color ws in
  let '(a, b) := weighted_array primary in
  let sum := v_addWeighted (channels (led_value a)) (ws_alpha ws) (channels (led_value b)) (ws_beta ws)
               (double_of_Z 0) in
  let diff := v_subtract (channels (led_value primary)) sum in
  let max_val := v_max diff in
  least ← of_option (int_of_double (dmul max_val (ws_gamma ws)));
  let binary := v_threshold diff least in
  let ws1 := ws_with_binary ws binary in
  let ws2 := if show_bin then
               let r := fromBinary v_resize_nearest v_gray2bgr ws1 in ws_with_buffer r.1 r.2
             else ws1 in
  let c := (findContours v_findContours (bf_contours f) binary RETR_EXTERNAL CHAIN_APPROX_SIMPLE).1 in
  area ← int_res (s_width (v_size binary) * s_height (v_size binary));
  s ← ball_turns primary (ws_scale ws) (ddiv (double_of_Z area) (double_of_Z 500)) show_contours
        (seq 0 (length (contours c)))
        (mkBalls (contours c) [] (bf_outline f) (S754_zero false) (-1) []);
  Ok (mkFilter ws2 (mkContours (ba_contours s) (ba_largest s) (area_buff c) (ba_idx s)) (ba_filtered s)
        (ba_outline s) max_val (bf_worker f),
      ba_marks s).

(** A thread is started unless one is still to be joined. *)
Definition launchThresholding (f : BallFilter) (channels : nat -> Mat) : BallFilter * bool :=
  match bf_worker f with
  | None => (with_worker f (Some channels), true)
  | Some _ => (f, false)
  end.
(** Joining waits for the work to be done. *)
Definition join_filter (f : BallFilter) (show_bin show_contours : bool) : res (BallFilter * list Mark * bool) :=
  match bf_worker f with
  | Some channels =>
      r ← BallFilter_threshold f channels show_bin show_contours;
      Ok (with_worker r.1 None, r.2, true)
  | None => Ok (f, [], false)
  end.

(** ** The pipeline *)

Record CargoFinder := mkCargo {
  cf_pipe : VPipeline;
  red : BallFilter;
  blue : BallFilter;
  red_c : CvTarget;
  blue_c : CvTarget;
  cf_pose : pose
}.

Definition CargoFinder_new (resolution : Size Z) : prog CargoFinder :=
  let p := VPipeline_new "Cargo Pipeline" in
  let* r := lift (BallFilter_new RED 100 100 30 resolution) in
  let* b := lift (BallFilter_new BLUE 20 100 15 resolution) in
  put_boolean (vp_table p) "Process Red" true ;*
  put_boolean (vp_table p) "Process Blue" true ;*
  put_boolean (vp_table p) "Show Threshold" false ;*
  put_boolean (vp_table p) "Show Contours" false ;*
  put_double (vp_table p) "Scaling" (double_of_Z 1) ;*
  on_nt_new (nt_AddListener (entry_path (vp_table p) "Scaling")) ;*
  ret (mkCargo p r b (Cargo_new 1 CARGO_RED) (Cargo_new 1 CARGO_BLUE) no_pose).

(** The listener of "Scaling": the value, if positive, is cut to [size_t]. *)
Definition on_cargo_scaling (f : CargoFinder) (e : nt_event) : res CargoFinder :=
  match e with
  | EDouble x =>
      s ← of_option (uint64_of_double (if SFltb (S754_zero false) x then x else double_of_Z 1));
      Ok (mkCargo (cf_pipe f) (with_ws (red f) (ws_with_scale (bf_ws (red f)) s))
            (with_ws (blue f) (ws_with_scale (bf_ws (blue f)) s)) (red_c f) (blue_c f) (cf_pose f))
  | EOther => Ok f
  end.

Definition get_enabled (table key : string) : prog bool :=
  ask_nt (nt_GetBoolean (entry_path table key) true).

(** The buffers of an enabled filter follow the frame's size. *)
Definition fit_buffers (enabled : bool) (f : BallFilter) (io_frame : Mat) : res BallFilter :=
  let ws := bf_ws f in
  if negb (size_eqb (v_size io_frame) (v_size_times (v_size (ws_buffer ws)) (wraps 32 (ws_scale ws)))) && enabled
  then ws1 ← resizeBuffers v_new ws (v_size io_frame); Ok (with_ws f ws1)
  else Ok f.

(** Start the work of an enabled filter, or blank what a disabled one shows. *)
Definition start_filter (enabled show_bin : bool) (f : BallFilter) (channels : nat -> Mat) (io_frame : Mat)
    : BallFilter :=
  if enabled then (launchThresholding f channels).1
  else if show_bin then with_ws f (ws_with_buffer (bf_ws f) (v_zeros (v_size io_frame)))
  else f.

(** The ball a filter found, as a target: its pose is solved and published, and
    it is the active target unless the other colour has one too. *)
Definition report_ball (v : Vs1) (f : BallFilter) (t : CvTarget) (p : pose) (enabled other : bool) (now : Z)
    : prog (Vs1 * CvTarget * pose) :=
  if validTarget (bf_contours f) && enabled then
    let* o := lift (of_option (bf_filtered f !! Z.to_nat (wrapu 64 (target_idx (bf_contours f))))) in
    let t1 := cargo_sort t o in
    let* r := solve v t1 in
    let* v1 := (if negb other then updateTarget v (cv_name t1) now else ret v) in
    ret (v1, t1, r.1)
  else ret (v, t, p).

(** The frame the two filters look at: scaled down, by channel. *)
Definition split_frame (f : BallFilter) (io_frame : Mat) : BallFilter :=
  let ws := bf_ws f in
  let buffer := v_resize io_frame (inverse (ws_scale ws)) (inverse (ws_scale ws)) in
  with_ws f (ws_with_channels (ws_with_buffer ws buffer) (v_split buffer)).

(** The filtering part: both filters, and the frame with what they drew in some
    order [mix].  [show_bin] and [show_contours] are the entries "Show Threshold"
    and "Show Contours", which the threads of [rapidreact.inc] look up for
    themselves, the second for every outline: here one value of each holds for the
    frame. *)
Definition filter_balls (f : CargoFinder) (do_red do_blue show_bin show_contours : bool) (io_frame : Mat)
    (mix : list Mark -> list Mark -> list Mark) : res (BallFilter * BallFilter * Mat) :=
  r ← fit_buffers do_red (resetTargetIdx (red f)) io_frame;
  b ← fit_buffers do_blue (resetTargetIdx (blue f)) io_frame;
  let r1 := split_frame r io_frame in
  let channels := ws_channels (bf_ws r1) in
  let r2 := start_filter do_red show_bin r1 channels io_frame in
  let b2 := start_filter do_blue show_bin b channels io_frame in
  r3 ← join_filter r2 show_bin show_contours;
  b3 ← join_filter b2 show_bin show_contours;
  let frame := draw_all (mix r3.1.2 b3.1.2) io_frame in
  Ok (r3.1.1, b3.1.1,
      if show_bin then v_bitwise_or (ws_buffer (bf_ws r3.1.1)) (ws_buffer (bf_ws b3.1.1)) else frame).

Definition CargoFinder_process (mix : list Mark -> list Mark -> list Mark) (v : Vs1) (f : CargoFinder)
    (io_frame : Mat) (now : Z) : prog (Vs1 * CargoFinder * Mat) :=
  let table := vp_table (cf_pipe f) in
  let* do_red := get_enabled table "Process Red" in
  let* do_blue := get_enabled table "Process Blue" in
  let* show_bin := get_bool table "Show Threshold" in
  let* show_contours := get_bool table "Show Contours" in
  let* x := lift (filter_balls f do_red do_blue show_bin show_contours io_frame mix) in
  let r := x.1.1 in
  let b := x.1.2 in
  let* p := report_ball v r (red_c f) (cf_pose f) do_red (validTarget (bf_contours b)) now in
  let* q := report_ball p.1.1 b (blue_c f) p.2 do_blue (validTarget (bf_contours r)) now in
  ret (q.1.1, mkCargo (cf_pipe f) r b p.1.2 q.1.2 q.2, x.2).

(** ** The largest ball *)

(** The index names a ball whose radius no other exceeds, if any has a positive
    one. *)
Definition best (s : Balls) : Prop :=
  (ba_idx s = -1 /\ ba_largest s = S754_zero false /\
   forall o, o ∈ ba_filtered s -> SFltb (ba_largest s) (to_double (ol_radius o)) = false) \/
  (exists k o, ba_filtered s !! k = Some o /\ ba_idx s = wraps 16 (Z.of_nat k) /\
     ba_largest s = to_double (ol_radius o) /\
     forall o', o' ∈ ba_filtered s -> SFltb (ba_largest s) (to_double (ol_radius o')) = false).

Lemma best_bound s o : best s -> o ∈ ba_filtered s -> SFltb (ba_largest s) (to_double (ol_radius o)) = false.
Proof. intros [(_ & _ & H)|(k & o' & _ & _ & _ & H)]; apply H. Qed.

Lemma add_ball_best primary scale s p radius s' :
  add_ball primary scale s p radius = Ok s' -> best s ->
  best s' /\ length (ba_filtered s') = S (length (ba_filtered s)) /\ ba_contours s' = ba_contours s.
Proof.
  unfold add_ball. set (o := mkOutline _ _ _). clearbody o.
  destruct (of_option (int_of_double (ol_radius o))) as [r|e|]; cbn; [|done..].
  intros [= <-] Hb. cbn [ba_filtered ba_contours]. split; [|split; [rewrite length_app; cbn; lia | done]].
  destruct (SFltb (ba_largest s) (to_double (ol_radius o))) eqn:El.
  - right. exists (length (ba_filtered s)), o. cbn [ba_filtered ba_idx ba_largest].
    split; [by rewrite lookup_app_r, Nat.sub_diag by lia|].
    split; [rewrite length_app; cbn [length]; f_equal; lia|]. split; [done|].
    intros o' [Ho'|Ho']%elem_of_app.
    + pose proof (best_bound _ _ Hb Ho') as Hmax. apply not_true_is_false. intros Hlt.
      rewrite (SFltb_trans _ _ _ El Hlt) in Hmax. done.
    + apply list_elem_of_singleton in Ho' as ->. apply SFltb_irrefl.
  - assert (Hmax : forall o', o' ∈ ba_filtered s ++ [o] -> SFltb (ba_largest s) (to_double (ol_radius o')) = false).
    { intros o' [Ho'|Ho']%elem_of_app; [by apply best_bound|]. by apply list_elem_of_singleton in Ho' as ->. }
    destruct Hb as [(Hi & Hl & _)|(k & o' & Hk & Hi & Hl & _)]; [left; done|].
    right. exists k, o'. cbn. split; [by apply lookup_app_l_Some | done].
Qed.

Lemma ball_turn_best primary scale least show s i s' :
  ball_turn primary scale least show s i = Ok s' -> best s ->
  best s' /\ (length (ba_filtered s') <= S (length (ba_filtered s)))%nat /\
  length (ba_contours s') = length (ba_contours s).
Proof.
  unfold ball_turn. destruct (ba_contours s !! i) as [c|]; cbn; [|done].
  destruct (SFltb least _); [|intros [= <-]; auto with lia].
  destruct (v_minEnclosingCircle c) as [p radius]. set (s1 := mkBalls _ _ _ _ _ _).
  intros H Hb. assert (Hb1 : best s1) by done.
  assert (Hs2 : forall s2, (if is_ball c radius then add_ball primary scale s1 p radius else Ok s1) = Ok s2 ->
            best s2 /\ (length (ba_filtered s2) <= S (length (ba_filtered s)))%nat /\
            length (ba_contours s2) = length (ba_contours s)).
  { intros s2. destruct (is_ball c radius); [|intros [= <-]; auto with lia].
    intros (? & Hl & Hc)%add_ball_best; [|done]. rewrite Hl, Hc. auto. }
  clearbody s1. revert H. destruct (if is_ball c radius then _ else _) as [s2|e|] eqn:E; cbn; [|done..].
  destruct (Hs2 _ eq_refl) as (? & ? & ?). destruct show; intros [= <-]; [|done].
  split; [done|]. split; [done|]. cbn. by rewrite length_insert.
Qed.

Lemma ball_turns_best primary scale least show is_ s s' :
  ball_turns primary scale least show is_ s = Ok s' -> best s ->
  best s' /\ (length (ba_filtered s') <= length (ba_filtered s) + length is_)%nat /\
  length (ba_contours s') = length (ba_contours s).
Proof.
  revert s. induction is_ as [|i is_ IH]; intros s; cbn; [intros [= <-]; auto with lia|].
  destruct (ball_turn _ _ _ _ s i) as [s1|e|] eqn:E; cbn; [|done..].
  intros H Hb. destruct (ball_turn_best _ _ _ _ _ _ _ E Hb) as (Hb1 & Hl & Hc).
  destruct (IH _ H Hb1) as (? & ? & ?). split; [done|]. split; lia.
Qed.

(** What a filter leaves after its work: no ball of a positive radius and no
    index, or the index of one of the largest. *)
Definition largest_ball (f : BallFilter) : Prop :=
  let idx := target_idx (bf_contours f) in
  (idx = -1 /\ forall o, o ∈ bf_filtered f -> SFltb (S754_zero false) (to_double (ol_radius o)) = false) \/
  (0 <= idx /\ exists o, bf_filtered f !! Z.to_nat idx = Some o /\
     forall o', o' ∈ bf_filtered f -> SFltb (to_double (ol_radius o)) (to_double (ol_radius o')) = false).

(** C27. The work of a colour's filter: its index names one of the largest balls
    among those it kept, or is -1 when it kept none of a positive radius, as long
    as the frame has not more contours than an index of 16 bits can name. *)
Theorem BallFilter_largest f channels show_bin show_contours f' marks :
  BallFilter_threshold f channels show_bin show_contours = Ok (f', marks) ->
  Z.of_nat (length (contours (bf_contours f'))) <= 2 ^ 15 ->
  largest_ball f' /\ (length (bf_filtered f') <= length (contours (bf_contours f')))%nat.
Proof.
  unfold BallFilter_threshold. destruct (weighted_array _) as [a b].
  set (diff := v_subtract _ _). destruct (of_option _) as [least|e|]; cbn; [|done..].
  destruct (int_res _) as [area|e|]; cbn; [|done..].
  destruct (ball_turns _ _ _ _ _ _) as [s|e|] eqn:E; cbn; [|done..]. intros [= <- <-]. cbn.
  destruct (ball_turns_best _ _ _ _ _ _ _ E) as (Hb & Hl & Hc).
  { left. split; [done|]. split; [done|]. by intros o Ho%elem_of_nil. }
  cbn in Hl, Hc. rewrite length_seq in Hl. intros Hlen. split; [|lia].
  destruct Hb as [(Hi & Hz & Hmax)|(k & o & Hk & Hi & Hz & Hmax)]; [left|right]; cbn.
  - split; [done|]. by rewrite <- Hz.
  - pose proof (lookup_lt_Some _ _ _ Hk). assert (Hw : ba_idx s = Z.of_nat k).
    { rewrite Hi. unfold wraps. rewrite Z.mod_small by lia.
      by destruct (Z.ltb_spec (Z.of_nat k) (2 ^ (16 - 1))); [|lia]. }
    rewrite Hw, Nat2Z.id. split; [lia|]. exists o. split; [done|]. by rewrite <- Hz.
Qed.

(** ** What the pipeline reports *)

Definition seen (f : BallFilter) : bool := validTarget (bf_contours f).
Definition at_rest (f : CargoFinder) : Prop := bf_worker (red f) = None /\ bf_worker (blue f) = None.

Lemma fit_buffers_rest enabled f io f' :
  fit_buffers enabled f io = Ok f' -> bf_worker f' = bf_worker f /\ bf_contours f' = bf_contours f.
Proof.
  unfold fit_buffers. destruct (_ && enabled); [|by intros [= <-]].
  destruct (resizeBuffers _ _ _) as [ws|e|]; cbn; [|done..]. by intros [= <-].
Qed.

Lemma threshold_worker f channels show_bin show_contours r :
  BallFilter_threshold f channels show_bin show_contours = Ok r -> bf_worker r.1 = bf_worker f.
Proof.
  unfold BallFilter_threshold. destruct (weighted_array _).
  destruct (of_option _) as [least|e|]; cbn; [|done..].
  destruct (int_res _) as [area|e|]; cbn; [|done..].
  destruct (ball_turns _ _ _ _ _ _) as [s|e|]; cbn; [|done..]. by intros [= <-].
Qed.

(** A filter without a thread is run if it is enabled and sees nothing otherwise. *)
Lemma run_filter_rest enabled show_bin show_contours f channels io r :
  bf_worker f = None -> target_idx (bf_contours f) = -1 ->
  join_filter (start_filter enabled show_bin f channels io) show_bin show_contours = Ok r ->
  bf_worker r.1.1 = None /\ (enabled = false -> seen r.1.1 = false).
Proof.
  intros Hw Hi. unfold start_filter, launchThresholding, join_filter. destruct enabled.
  - rewrite Hw. cbn. destruct (BallFilter_threshold _ _ _ _) as [x|e|]; cbn; [|done..].
    by intros [= <-].
  - destruct show_bin; cbn; rewrite Hw; intros [= <-]; cbn; (split; [done|]); intros _;
      unfold seen, validTarget; cbn; by rewrite Hi.
Qed.

Lemma filter_balls_rest f do_red do_blue show_bin show_contours io mix x :
  at_rest f -> filter_balls f do_red do_blue show_bin show_contours io mix = Ok x ->
  bf_worker x.1.1 = None /\ bf_worker x.1.2 = None /\
  (do_red = false -> seen x.1.1 = false) /\ (do_blue = false -> seen x.1.2 = false).
Proof.
  intros [Hr Hb]. unfold filter_balls.
  destruct (fit_buffers do_red _ io) as [r|e|] eqn:Er; cbn [mbind res_bind]; [|done..].
  destruct (fit_buffers do_blue _ io) as [b|e|] eqn:Eb; cbn [mbind res_bind]; [|done..].
  apply fit_buffers_rest in Er as [Hwr Hcr], Eb as [Hwb Hcb].
  destruct (join_filter (start_filter do_red _ _ _ _) _ _) as [r3|e|] eqn:Jr; cbn [mbind res_bind]; [|done..].
  destruct (join_filter (start_filter do_blue _ _ _ _) _ _) as [b3|e|] eqn:Jb; cbn [mbind res_bind]; [|done..].
  intros [= <-]. cbn [fst snd].
  apply run_filter_rest in Jr as [Hwr3 Hr3]; [| by cbn; rewrite Hwr | by cbn; rewrite Hcr].
  apply run_filter_rest in Jb as [Hwb3 Hb3]; [| by cbn; rewrite Hwb | by cbn; rewrite Hcb].
  done.
Qed.

(** The entries after a ball was reported, and whether it became the active target. *)
Definition ball_entries (t : CvTarget) (p : pose) (other : bool) (nt : T) : T :=
  let nt1 := put_entries (cv_table t) (pose_entries p.2) nt in
  if other then nt1 else nt_SetString (entry_path vision "Active Target") (cv_name t) nt1.

(** The target [t'] at the ball that the index of [f] names, and its pose as the
    current camera sees it. *)
Definition ball_found (v : Vs1) (f : BallFilter) (t t' : CvTarget) (p : pose) : Prop :=
  exists o cam,
    bf_filtered f !! Z.to_nat (wrapu 64 (target_idx (bf_contours f))) = Some o /\
    t' = cargo_sort t o /\ getCurrentCamera v = Ok cam /\
    p = v_solvePnP (world_points t') (corner_points t') (c_matrix cam) (c_distortion cam) 0 false.

Lemma report_ball_writes v f t p enabled other now w w' q :
  report_ball v f t p enabled other now w = (w', Ok q) -> seen f = seen f && enabled ->
  cv_name q.1.2 = cv_name t /\ cv_table q.1.2 = cv_table t /\
  if seen f then
    w' = with_nt w (ball_entries t q.2 other (w_nt w)) /\
    (if other then q.1.1 = v else target_last q.1.1 = now) /\ ball_found v f t q.1.2 q.2
  else w' = w /\ q = (v, t, p).
Proof.
  unfold report_ball. intros H Hen. change (validTarget (bf_contours f)) with (seen f) in H. revert H.
  rewrite <- Hen. destruct (seen f); [|by intros [= <- <-]].
  intros (w1 & o & [-> Ho]%lift_inv & (w2 & r & Hr & (w3 & v1 & Hv & H)%bind_inv)%bind_inv)%bind_inv.
  destruct (solve_writes _ _ _ _ _ Hr) as (Hcam & Hp & ->). injection H as <- <-.
  split; [done|]. split; [done|]. unfold ball_entries.
  assert (Hfound : ball_found v f t (cargo_sort t o) r.1).
  { exists o, r.2. split; [|done]. destruct (bf_filtered f !! _) as [o'|]; cbn in Ho; congruence. }
  destruct other; cbn in Hv; injection Hv as <- <-; cbn [fst snd cargo_sort cv_table cv_name];
    (split; [done|]); by split.
Qed.

(** C26. One frame of the balls' pipeline, in whichever order the two threads draw:
    both threads have ended; a disabled colour sees no ball; the target of a colour
    that sees one is moved to the ball its filter's index names, and its pose is
    solved for the current camera and published; and the active target and its time
    change exactly when one colour alone sees a ball. *)
Theorem CargoFinder_reports mix v f io_frame now w w' v' f' frame :
  at_rest f ->
  CargoFinder_process mix v f io_frame now w = (w', Ok (v', f', frame)) ->
  let enabled key := nt_GetBoolean (entry_path (vp_table (cf_pipe f)) key) true (w_nt w) in
  at_rest f' /\
  (enabled "Process Red" = false -> seen (red f') = false) /\
  (enabled "Process Blue" = false -> seen (blue f') = false) /\
  exists p q,
    (if seen (red f') then ball_found v (red f') (red_c f) (red_c f') p else red_c f' = red_c f) /\
    (if seen (blue f') then ball_found v (blue f') (blue_c f) (blue_c f') q else blue_c f' = blue_c f) /\
    cf_pose f' = (if seen (blue f') then q else if seen (red f') then p else cf_pose f) /\
    match seen (red f'), seen (blue f') with
    | true, false => w' = with_nt w (ball_entries (red_c f) p false (w_nt w)) /\ target_last v' = now
    | false, true => w' = with_nt w (ball_entries (blue_c f) q false (w_nt w)) /\ target_last v' = now
    | true, true =>
        w' = with_nt w (ball_entries (blue_c f) q true (ball_entries (red_c f) p true (w_nt w))) /\ v' = v
    | false, false => w' = w /\ v' = v
    end.
Proof.
  intros Hrest. unfold CargoFinder_process.
  intros (? & do_red & [= <- <-] & (? & do_blue & [= <- <-] & (? & show_bin & [= <- <-] &
    (? & show_contours & [= <- <-] & (? & x & [-> Hx]%lift_inv & (w1 & p & Hp & (w2 & q & Hq & H)%bind_inv)%bind_inv)%bind_inv
    )%bind_inv)%bind_inv)%bind_inv)%bind_inv.
  destruct (filter_balls_rest _ _ _ _ _ _ _ _ Hrest Hx) as (Hwr & Hwb & Hr & Hb). injection H as <- <- <- _.
  cbn zeta. cbn [red blue red_c blue_c cf_pose]. split; [done|]. split; [done|]. split; [done|].
  change (validTarget (bf_contours x.1.1)) with (seen x.1.1) in *.
  change (validTarget (bf_contours x.1.2)) with (seen x.1.2) in *.
  assert (Hand : forall a b, (b = false -> a = false) -> a = a && b) by (intros [] []; auto).
  apply report_ball_writes in Hp as (_ & _ & Hp); [|by apply Hand].
  apply report_ball_writes in Hq as (_ & _ & Hq); [|by apply Hand].
  exists p.2, q.2.
  destruct (seen x.1.1), (seen x.1.2).
  - destruct Hp as (-> & Hv & Hf), Hq as (-> & -> & Hf'). rewrite Hv in *. done.
  - destruct Hp as (-> & Hv & Hf), Hq as (-> & ->). done.
  - destruct Hp as (-> & ->), Hq as (-> & Hv & Hf'). done.
  - destruct Hp as (-> & ->), Hq as (-> & ->). done.
Qed.

(** A scale between 0 and 1 becomes 0, by which the next frame's size is divided. *)
Theorem scaling_below_one f f' x io_frame :
  SFltb (S754_zero false) x = true -> trunc x = Some 0 ->
  on_cargo_scaling f (EDouble x) = Ok f' ->
  ws_scale (bf_ws (red f')) = 0 /\ ws_scale (bf_ws (blue f')) = 0 /\
  (size_eqb (v_size io_frame) (v_size_times (v_size (ws_buffer (bf_ws (red f')))) 0) = false ->
   fit_buffers true (red f') io_frame = Undefined).
Proof.
  intros Hx Ht. unfold on_cargo_scaling. rewrite Hx. unfold uint64_of_double, cast_to. rewrite Ht. cbn.
  intros [= <-]. cbn. split; [done|]. split; [done|]. intros Hs. unfold fit_buffers. cbn -[wraps].
  change (wraps 32 0) with 0. by rewrite Hs.
Qed.
End Cargo.

(** * Evaluation *)

Definition ball_filter (c : LED) : BallFilter (Mat := Shot) :=
  mkFilter (mkWS c (mkShot [] []) (mkShot [] []) (fun _ => mkShot [] []) half half (ddiv half half) 50 1)
    no_contours [] no_outline (S754_zero false) None.
Definition two_boxes : Shot :=
  mkShot [[mkPoint 5 5; mkPoint 6 6]; [mkPoint 0 0; mkPoint 30 30]; [mkPoint 50 0; mkPoint 90 40]] [].

(** The first contour is too small. *)
Lemma BallFilter_largest_witness :
  match BallFilter_threshold (ball_filter RED) (fun _ => two_boxes) false false with
  | Ok (f', _) => largest_ball f' /\ target_idx (bf_contours f') = 0 /\ length (bf_filtered f') = 2%nat
  | _ => False
  end.
Proof.
  assert (Hok : match BallFilter_threshold (ball_filter RED) (fun _ => two_boxes) false false with
                | Ok (f', _) => target_idx (bf_contours f') = 0 /\ length (bf_filtered f') = 2%nat /\
                                length (contours (bf_contours f')) = 3%nat
                | _ => False end) by (vm_compute; auto).
  destruct (BallFilter_threshold (ball_filter RED) (fun _ => two_boxes) false false) as [[f' ms]|e|] eqn:E;
    [|done..].
  destruct Hok as (Hi & Hf & Hc).
  destruct (BallFilter_largest _ _ _ _ _ _ E) as [Hl _]; [rewrite Hc; lia|].
  split; [exact Hl|]. split; [exact Hi | exact Hf].
Defined.

Definition a_cargo_finder : CargoFinder :=
  mkCargo (VPipeline_new "Cargo Pipeline") (ball_filter RED) (ball_filter BLUE)
    (Cargo_new 1 CARGO_RED) (Cargo_new 1 CARGO_BLUE) no_pose.
(** A world in which blue balls are not looked for. *)
Definition red_world : world sim_cs sim_nt :=
  World empty_cs
    (nt_SetBoolean (entry_path (vp_table (cf_pipe a_cargo_finder)) "Process Blue") false empty_nt) zero_bufs [].
Definition cargo_run : world sim_cs sim_nt * res (Vs1 * CargoFinder * Shot) :=
  CargoFinder_process (fun a b => a ++ b) a_server a_cargo_finder two_boxes 31 red_world.

Lemma CargoFinder_reports_witness :
  match cargo_run with
  | (_, Ok (v', f', _)) => at_rest f' /\ seen (blue f') = false /\ target_last v' = 31
  | _ => False
  end.
Proof.
  assert (Hok : match cargo_run with (_, Ok (_, f', _)) => seen (red f') = true | _ => False end)
    by (vm_compute; reflexivity).
  destruct cargo_run as [w' [[[v' f'] s]|e|]] eqn:E; [|done..].
  destruct (CargoFinder_reports _ _ a_cargo_finder _ _ _ _ _ _ _ (conj eq_refl eq_refl) E)
    as (Hrest & _ & Hb & p & q & _ & _ & _ & H).
  specialize (Hb ltac:(vm_compute; reflexivity)). rewrite Hok, Hb in H.
  split; [exact Hrest|]. split; [exact Hb|]. exact (proj2 H).
Defined.

Example cargo_name : cv_name (Cargo_new 1 CARGO_RED) = "Cargo-1r".
Proof. reflexivity. Qed.
