(* ===== verification/Vs1Worker.v ===== *)
(** The workers of the first framework as a whole
    ([lib-vs/src/vs1-legacy/visionserver.inc], [visionserver.cpp]): that they come
    back from a stop, with the camera selection valid and every frame counted,
    whatever pipelines they run that keep the terms stated here
    ([decent_pipelines]). *)

From Stdlib Require Import Ascii.
From S2P Require Import Prelude Floats Json World Instances Camera Config Server Runner Program Survival.
From S2P Require Import Geometry Vs1Camera Vs1Config Vs1Server Vs1Contours Vs1Pipelines.
Local Open Scope Z_scope.
Local Open Scope vs_scope.

Lemma uint64_nonneg x z : uint64_of_double x = Some z -> 0 <= z.
Proof.
  unfold uint64_of_double, cast_to. destruct (trunc x) as [n|]; [|done].
  destruct (Z.leb_spec 0 n); [|done]. cbn [andb]. by destruct (_ <=? _); [intros [= <-]|].
Qed.

Section Worker.

Context {C T : Type} `{CS : CsCore C} `{NT : Tables T} `{NL : !TablesLaws T} `{NF : !TablesFrame T}.
Abbreviation prog := (M C T).
Abbreviation Turn := (Vs1Turn (C := C) (T := T)).
Context (putText : Z -> string -> Z * Z -> Z).
Context {P : Type} (pipe_new : nat -> Vs1 -> prog P) (pipe_delete : P -> prog unit).
Context (pipe_hear : P -> string -> nt_event -> res P).
Context (pipe_process : P -> Vs1 -> Z -> Z -> prog (Vs1 * P * Z)).

(** * What a worker relies on *)

Definition index_key : string := entry_path vision "Pipeline Index".

(** Indices that all workers can convert. *)
Definition index_usable (t : T) : Prop :=
  exists i, int8_of (nt_GetDouble index_key (double_of_Z (-1)) t) = Some i.

(** The index is a number if it is anything, and once the worker has written it,
    one that it can convert. *)
Definition index_ok (opened : bool) (t : T) : Prop :=
  nt_accepts KDouble index_key t /\ (opened = true -> index_usable t).

(** The server with another time of the last report. *)
Definition reported (v : Vs1) (at_ : Z) : Vs1 :=
  mkVs1 (cams v) (selected v) (output v) (stream v) (runloop v) (launched v) (stats v) at_.

(** With a selected camera, pipelines return, keep what they need of themselves,
    leave the index usable, and change nothing of the server but the active target,
    and their listeners stand what clients write to their settings; clients leave
    the index usable and select cameras by numbers. *)
Definition sees (v : Vs1) : Prop := exists cam, getCurrentCamera v = Ok cam.
Definition keeps_index {A} (m : prog A) (Q : A -> Prop) : Prop :=
  forall opened, triple (index_ok opened) m (fun a t => index_ok opened t /\ Q a).
Context (decent_change : string -> nt_event -> Prop).
Record decent_pipelines (good : P -> Prop) : Prop := {
  dp_new i v : sees v -> keeps_index (pipe_new i v) good;
  dp_delete p : triple (index_ok false) (pipe_delete p) (fun _ => index_ok false);
  dp_hear p path e : good p -> decent_change path e -> exists p', pipe_hear p path e = Ok p' /\ good p';
  dp_process p v frame now : good p -> sees v ->
    keeps_index (pipe_process p v frame now) (fun r => good r.1.2 /\ exists at_, r.1.1 = reported v at_)
}.
Definition decent_event (e : nt_event) : Prop :=
  match e with EDouble x => is_Some (uint64_of_double x) | EOther => True end.
Definition decent_turn (start : Z) (t : Turn) : Prop :=
  (forall opened w, index_ok opened (w_nt w) -> index_ok opened (w_nt (elsewhere t w))) /\
  Forall decent_event (selections t) /\ Forall (fun c => decent_change c.1 c.2) (changes t) /\
  is_Some (int_of_double (seconds (t_end t - start))) /\ is_Some (int_of_double (seconds (t_beg t - start))).

(** The server in a worker: the cameras it had, one of them selected, and a count
    of seconds that converts. *)
Record working (v0 : Vs1) (start : Z) (v : Vs1) : Prop := {
  wk_cams : cams v = cams v0;
  wk_selected : exists i, selected v = Some i /\ (i < length (cams v0))%nat;
  wk_start : t_start (stats v) = start;
  wk_second : is_Some (int_of_double (sec1_time (stats v)));
  wk_launched : launched v = launched v0
}.

Lemma getCurrentCamera_working v0 start v : working v0 start v -> sees v.
Proof.
  intros [Hc (i & Hs & Hi) _ _ _]. unfold sees, getCurrentCamera. rewrite Hs, Hc. cbn.
  destruct (lookup_lt_is_Some_2 _ _ Hi) as [cam ->]. by exists cam.
Qed.

(** * A turn *)

Lemma index_other opened key x t :
  key <> index_key -> index_ok opened t -> index_ok opened (nt_SetDouble key x t).
Proof.
  intros Hne [Ha Hu]. split; [by apply double_accepts|]. intros Ho. unfold index_usable.
  rewrite nt_get_set_double_ne by congruence. by apply Hu.
Qed.

Lemma index_untouched opened t t' : untouched index_key t t' -> index_ok opened t -> index_ok opened t'.
Proof.
  intros [Hd Ht] [Ha Hu]. unfold index_ok, nt_accepts, index_usable. rewrite Ht. split; [exact Ha|].
  intros Ho. rewrite Hd. by apply Hu.
Qed.

Lemma not_index table a k : last_char a k <> "x"%char -> entry_path table (String a k) <> index_key.
Proof. intros H. by apply entry_path_ne. Qed.

Lemma index_string opened table a k x t :
  last_char a k <> "x"%char -> index_ok opened t -> index_ok opened (nt_SetString (entry_path table (String a k)) x t).
Proof.
  intros H. apply index_untouched, keep_string. intros E. by destruct (not_index table a k H).
Qed.
Lemma index_boolean opened table a k x t :
  last_char a k <> "x"%char -> index_ok opened t -> index_ok opened (nt_SetBoolean (entry_path table (String a k)) x t).
Proof.
  intros H. apply index_untouched, keep_boolean. intros E. by destruct (not_index table a k H).
Qed.

Lemma put_double_other opened table a k x :
  last_char a k <> "x"%char ->
  triple (index_ok opened) (put_double table (String a k) x : prog unit) (fun _ => index_ok opened).
Proof. intros H. apply triple_on_nt. intros t. apply index_other. by apply not_index. Qed.

Lemma camera_index_triple v0 start opened v e :
  working v0 start v -> decent_event e ->
  triple (index_ok opened) (on_camera_index v e : prog Vs1)
    (fun v' t => index_ok opened t /\ working v0 start v' /\ stats v' = stats v).
Proof.
  intros Hw He. destruct e as [x|]; cbn [on_camera_index decent_event] in *; [|by apply triple_ret].
  destruct He as [z Hz]. rewrite Hz.
  eapply triple_bind; [apply triple_lift with (Q := fun n t => index_ok opened t /\ n = z /\ 0 <= z)|].
  { intros t Ht. exists z. repeat split; try done; try apply Ht. by eapply uint64_nonneg. }
  intros n. apply triple_pure. intros [-> Hpos]. destruct (Z.ltb_spec z (Z.of_nat (length (cams v)))) as [Hlt|];
    [|by apply triple_ret].
  intros w Ht. destruct (lookup_lt_is_Some_2 (cams v) (Z.to_nat z) ltac:(lia)) as [cam Hcam].
  rewrite (bind_ok _ _ w w cam) by (apply vec_at_inside; [lia | done]).
  rewrite (bind_ok _ _ w w (cs_GetName (c_handle cam) (w_cs w))) by done.
  eexists _, _. split; [reflexivity|]. split; [by apply index_string|]. split; [|done].
  destruct Hw as [H1 H2 H3 H4 H5]. constructor; try done. exists (Z.to_nat z). rewrite <- H1. split; [done | lia].
Qed.

Lemma camera_indexes_triple v0 start opened v es :
  working v0 start v -> Forall decent_event es ->
  triple (index_ok opened) (on_camera_indexes v es : prog Vs1)
    (fun v' t => index_ok opened t /\ working v0 start v' /\ stats v' = stats v).
Proof.
  intros Hw Hes. revert v Hw. induction Hes as [|e es He _ IH]; intros v Hw; cbn [on_camera_indexes];
    [by apply triple_ret|].
  eapply triple_bind; [by apply camera_index_triple|]. intros v1. apply triple_pure. intros [Hw1 <-]. by apply IH.
Qed.

Lemma before_triple v0 start opened v t :
  working v0 start v -> decent_turn start t ->
  triple (index_ok opened) (before v t) (fun v' t => index_ok opened t /\ working v0 start v' /\ stats v' = stats v).
Proof.
  intros Hw (He & Hs & _). unfold before.
  eapply triple_bind with (Q := fun _ => index_ok opened).
  { intros w Hi. eexists _, tt. split; [reflexivity|]. by apply He. }
  intros []. by apply camera_indexes_triple.
Qed.

Lemma report_stats_triple opened s cpu temp : triple (index_ok opened) (updateStats s cpu temp : prog unit) (fun _ => index_ok opened).
Proof.
  unfold updateStats. cbv zeta. do 6 (eapply triple_bind; [by apply put_double_other | intros ?]).
  by apply put_double_other.
Qed.

(** The rates can be taken when the seconds of this turn and of the last full
    second convert. *)
Lemma rates_taken s : is_Some (int_of_double (total_time s)) -> is_Some (int_of_double (sec1_time s)) ->
  exists s', take_rates s = Ok s' /\ total_frames s' = total_frames s /\ t_start s' = t_start s /\
    is_Some (int_of_double (sec1_time s')).
Proof.
  intros [a Ha] [b Hb]. unfold take_rates, full_second. rewrite Ha, Hb. cbn.
  destruct (b <? a); eexists; (split; [reflexivity|]); cbn; rewrite ?Ha, ?Hb; by repeat split; eexists.
Qed.

Lemma finish_triple v0 start opened v t frame end_ flush :
  working v0 start v -> is_Some (int_of_double (seconds (end_ - start))) ->
  triple (index_ok opened) (finish_turn putText v t frame end_ flush)
    (fun v' t => index_ok opened t /\ working v0 start v' /\
       total_frames (stats v') = wrapu 64 (total_frames (stats v) + 1)).
Proof.
  intros Hw Hend. unfold finish_turn. cbv zeta. set (s := take_times _ _ _).
  destruct (rates_taken s) as (s' & Es & Hf & Hstart & Hsec).
  { cbn. by rewrite (wk_start v0 start v Hw). }
  { exact (wk_second v0 start v Hw). }
  eapply triple_bind with (Q := fun _ => index_ok opened).
  { unfold target_update. destruct (SFltb _ _); [|by apply triple_ret].
    eapply triple_bind with (Q := fun _ => index_ok opened); [|intros ?; by apply triple_ret].
    apply triple_on_nt. intros t0. by apply index_string. }
  intros _. eapply triple_bind; [apply triple_lift with (Q := fun s1 t => index_ok opened t /\ s1 = s')|].
  { intros t0 Ht. by exists s'. }
  intros s1. apply triple_pure. intros ->.
  eapply triple_bind with (Q := fun _ => index_ok opened); [by apply triple_ask_nt|]. intros show.
  eapply triple_bind; [apply report_stats_triple|]. intros ?. eapply triple_bind; [apply triple_on_cs|]. intros ?.
  eapply triple_bind with (Q := fun _ => index_ok opened).
  { destruct flush; [|by apply triple_ret]. apply triple_on_nt. intros t0. apply index_untouched, keep_flush. }
  intros ?. apply triple_ret. intros t0 Ht. split; [exact Ht|]. split; [|exact Hf].
  destruct Hw as [H1 H2 H3 H4 H5]. constructor; try done. cbn. rewrite Hstart. exact H3.
Qed.

(** ** Selecting *)

(** A selection finds one of [n] pipelines or none. *)
Definition selects (opened : bool) (n : nat) (select : prog (option nat)) : Prop :=
  triple (index_ok opened) select (fun o t => index_ok opened t /\ forall k, o = Some k -> (k < n)%nat).

Lemma int8_int x i : int8_of x = Some i -> int_of_double x = Some i /\ i < 2 ^ 31 - 1.
Proof.
  unfold int8_of, int_of_double, cast_to. destruct (trunc x) as [z|]; [|done].
  destruct (Z.leb_spec (- 2 ^ 7) z), (Z.leb_spec z (2 ^ 7 - 1)); cbn [andb]; try done. intros [= <-].
  destruct (Z.leb_spec (- 2 ^ 31) z), (Z.leb_spec z (2 ^ 31 - 1)); cbn [andb]; (split; [done || lia | lia]).
Qed.

Lemma selects_by_index select (n : nat) :
  (forall i (w : world C T), int8_of (index_entry w) = Some i -> select w = (w, Ok (selection n (enabled_entry w) i))) ->
  selects true n select.
Proof.
  intros Hs w Hw. destruct (proj2 Hw eq_refl) as [i Hi]. rewrite (Hs i w Hi). eexists _, _. split; [reflexivity|].
  split; [exact Hw|]. unfold selection. intros k.
  destruct (enabled_entry w); cbn [andb]; [|done].
  destruct (Z.leb_spec 0 i), (Z.ltb_spec i (Z.of_nat n)); cbn [andb]; try done. intros [= <-]. lia.
Qed.

Lemma selects_1 opened : selects opened 1 select_1.
Proof.
  intros w Hw. eexists _, _. split; [reflexivity|]. split; [exact Hw|].
  intros k. destruct (nt_GetBoolean _ _ _); [intros [= <-]; lia | done].
Qed.
Lemma selects_2 : selects true 2 select_2.
Proof. apply selects_by_index. intros i w Hi. by apply (pipeline_selection 0 i w). Qed.
Lemma selects_3 : selects true 3 select_3.
Proof. apply selects_by_index. intros i w Hi. by apply (pipeline_selection 0 i w). Qed.
Lemma all_by_int8 n i (w : world C T) :
  int8_of (index_entry w) = Some i -> select_all n w = (w, Ok (selection n (enabled_entry w) i)).
Proof. intros Hi. apply int8_int in Hi as [Hi Hlt]. by apply (pipeline_selection n i w). Qed.
Lemma selects_all n : selects true n (select_all n).
Proof. apply selects_by_index, all_by_int8. Qed.

(** ** The loop *)

Context (good : P -> Prop) (Hpipes : decent_pipelines good).

(** What the loop keeps. *)
Definition serving (v0 : Vs1) (start : Z) (n : nat) (s : Vs1 * list P) : Prop :=
  working v0 start s.1 /\ length s.2 = n /\ Forall good s.2.

Lemma hear_one_good ps c :
  Forall good ps -> decent_change c.1 c.2 ->
  exists ps', hear_one pipe_hear ps c = Ok ps' /\ length ps' = length ps /\ Forall good ps'.
Proof.
  intros Hps Hc. unfold hear_one. induction Hps as [|p ps Hp _ IH]; cbn [each]; [by exists []|].
  destruct (dp_hear good Hpipes p c.1 c.2 Hp Hc) as (p' & -> & Hp'). destruct IH as (ps' & -> & Hl & Hps').
  exists (p' :: ps'). split; [done|]. split; [cbn; by rewrite Hl | by apply Forall_cons_2].
Qed.

Lemma hear_good ps cs :
  Forall good ps -> Forall (fun c => decent_change c.1 c.2) cs ->
  exists ps', hear pipe_hear ps cs = Ok ps' /\ length ps' = length ps /\ Forall good ps'.
Proof.
  intros Hps Hcs. revert ps Hps. induction Hcs as [|c cs Hc _ IH]; intros ps Hps; cbn [hear]; [by exists ps|].
  destruct (hear_one_good ps c Hps Hc) as (ps1 & -> & <- & Hps1). cbn [mbind res_bind]. by apply IH.
Qed.

Lemma hear_triple opened n ps (t : Turn) :
  length ps = n -> Forall good ps -> Forall (fun c => decent_change c.1 c.2) (changes t) ->
  triple (index_ok opened) (lift (hear pipe_hear ps (changes t)) : prog _)
    (fun ps' t => index_ok opened t /\ length ps' = n /\ Forall good ps').
Proof.
  intros <- Hps Hc. apply triple_lift. intros t0 Ht0. destruct (hear_good ps (changes t) Hps Hc) as (ps' & E & Hps').
  by exists ps'.
Qed.

Lemma next_frame_triple opened v (t : Turn) :
  sees v -> triple (index_ok opened) (next_frame v t) (fun _ => index_ok opened).
Proof.
  intros [cam Hcam] w Hi. eexists w, _. split; [|exact Hi]. unfold next_frame.
  by rewrite (bind_ok _ _ w w cam) by (by rewrite Hcam).
Qed.

(** A frame for the selected pipeline. *)
Lemma process_at_triple opened v0 start n k v ps frame now :
  working v0 start v -> length ps = n -> Forall good ps -> (k < n)%nat ->
  triple (index_ok opened) (process_at pipe_process k v ps frame now)
    (fun r t => index_ok opened t /\ working v0 start r.1.1 /\ stats r.1.1 = stats v /\
       length r.1.2 = n /\ Forall good r.1.2).
Proof.
  intros Hw Hl Hps Hk. destruct (lookup_lt_is_Some_2 ps k ltac:(lia)) as [p Hp]. unfold process_at.
  eapply triple_bind with (Q := fun q t => index_ok opened t /\ q = p).
  { intros w Hi. exists w, p. split; [|done]. unfold vec_index.
    destruct (Z.ltb_spec (Z.of_nat k) 0); [lia|]. by rewrite Nat2Z.id, Hp. }
  intros q. apply triple_pure. intros ->. eapply triple_bind; [apply (dp_process good Hpipes)|].
  { by apply (Forall_lookup_1 good ps k). }
  { by eapply getCurrentCamera_working. }
  intros [[v1 p'] f']. apply triple_pure. cbn [fst snd]. intros [Hp' [at_ ->]]. apply triple_ret. intros t Ht.
  split; [exact Ht|]. split; [destruct Hw as [H1 H2 H3 H4 H5]; by constructor|]. split; [done|].
  split; [cbn; by rewrite length_insert | by apply Forall_insert].
Qed.

Lemma turn_serves opened v0 start n select idle s t :
  serving v0 start n s -> selects opened n select -> decent_turn start t -> (forall t, idle t ∈ [t_beg t; t_end t]) ->
  triple (index_ok opened) (selected_turn putText pipe_hear pipe_process select idle s t)
    (fun s' t => index_ok opened t /\ serving v0 start n s' /\
       total_frames (stats s'.1) = wrapu 64 (total_frames (stats s.1) + 1)).
Proof.
  intros (Hw & Hl & Hgood) Hsel Ht Hidle. unfold selected_turn.
  eapply triple_bind; [by eapply before_triple|]. intros v. apply triple_pure. intros [Hwv <-].
  destruct Ht as (_ & _ & Hch & Hend & Hbeg).
  eapply triple_bind; [by apply hear_triple|]. intros ps. apply triple_pure. intros [Hlps Hps].
  eapply triple_bind; [eapply next_frame_triple, getCurrentCamera_working, Hwv|].
  intros frame. eapply triple_bind; [exact Hsel|]. intros o. apply triple_pure. intros Hk. destruct o as [k|].
  - eapply triple_bind; [apply (process_at_triple opened v0 start n); [done..|by apply Hk]|].
    intros [[v1 ps1] f1]. cbn [fst snd]. apply triple_pure. intros (Hw1 & <- & Hps1).
    eapply triple_bind; [by apply (finish_triple v0 start)|]. intros v2. apply triple_pure. intros [Hw2 Hf2].
    by apply triple_ret.
  - eapply triple_bind; [apply (finish_triple v0 start); [exact Hwv|]|].
    { specialize (Hidle t). rewrite !elem_of_cons, elem_of_nil in Hidle. by destruct Hidle as [-> | [-> | []]]. }
    intros v2. apply triple_pure. intros [Hw2 Hf2]. by apply triple_ret.
Qed.

(** ** Selections that agree *)

Definition agree (opened : bool) (select select' : prog (option nat)) : Prop :=
  forall w, index_ok opened (w_nt w) -> select w = select' w.

Lemma agree_by_index select select' (n : nat) :
  (forall i (w : world C T), int8_of (index_entry w) = Some i -> select w = (w, Ok (selection n (enabled_entry w) i))) ->
  (forall i (w : world C T), int8_of (index_entry w) = Some i -> select' w = (w, Ok (selection n (enabled_entry w) i))) ->
  agree true select select'.
Proof. intros H H' w [_ Hw]. destruct (Hw eq_refl) as [i Hi]. by rewrite (H i w Hi), (H' i w Hi). Qed.

Lemma turn_agrees opened v0 start n select select' idle s t w :
  agree opened select select' -> serving v0 start n s -> decent_turn start t -> index_ok opened (w_nt w) ->
  selected_turn putText pipe_hear pipe_process select idle s t w =
  selected_turn putText pipe_hear pipe_process select' idle s t w.
Proof.
  intros Hagree (Hw & Hl & Hgood) Ht Hi. unfold selected_turn.
  eapply triple_bind_ext; [by eapply before_triple | | exact Hi]. intros v w1 (Hi1 & Hv & _).
  eapply triple_bind_ext; [apply hear_triple; [exact Hl | exact Hgood | apply Ht] | | exact Hi1]. intros ps w2 (Hi2 & _).
  eapply triple_bind_ext; [eapply next_frame_triple, getCurrentCamera_working, Hv | | exact Hi2]. intros frame w3 Hi3.
  unfold bind at 1 3. by rewrite (Hagree w3 Hi3).
Qed.

Lemma loop_agrees opened v0 start n select select' idle s ts w :
  agree opened select select' -> selects opened n select -> (forall t, idle t ∈ [t_beg t; t_end t]) ->
  serving v0 start n s -> Forall (decent_turn start) ts -> index_ok opened (w_nt w) ->
  loop_turns (selected_turn putText pipe_hear pipe_process select idle) s ts w =
  loop_turns (selected_turn putText pipe_hear pipe_process select' idle) s ts w.
Proof.
  intros Hagree Hsel Hidle Hs Hts. revert s Hs w. induction Hts as [|t ts Ht _ IH]; intros s Hs w Hi; cbn [loop_turns]; [done|].
  unfold bind at 2. rewrite <- (turn_agrees opened v0 start n select select' idle s t w) by done.
  change (bind (selected_turn putText pipe_hear pipe_process select idle s t)
            (fun s1 => loop_turns (selected_turn putText pipe_hear pipe_process select idle) s1 ts) w =
          bind (selected_turn putText pipe_hear pipe_process select idle s t)
            (fun s1 => loop_turns (selected_turn putText pipe_hear pipe_process select' idle) s1 ts) w).
  eapply triple_bind_ext; [by eapply turn_serves | | exact Hi]. intros s1 w1 (Hi1 & Hs1 & _). by apply IH.
Qed.

(** Without pipelines. *)
Lemma plain_serves opened v0 start v t :
  working v0 start v -> decent_turn start t ->
  triple (index_ok opened) (plain_turn putText v t)
    (fun v' t => index_ok opened t /\ working v0 start v' /\
       total_frames (stats v') = wrapu 64 (total_frames (stats v) + 1)).
Proof.
  intros Hw Ht. unfold plain_turn.
  eapply triple_bind; [by eapply before_triple|]. intros v1. apply triple_pure. intros [Hw1 <-].
  eapply triple_bind; [eapply next_frame_triple, getCurrentCamera_working, Hw1|].
  intros frame. apply finish_triple; [exact Hw1 | apply Ht].
Qed.

Definition count_is (v : Vs1) (n : Z) : Prop := total_frames (stats v) mod 2 ^ 64 = n mod 2 ^ 64.

(** A loop whose turns keep [I] and count a frame each. *)
Lemma loop_counts {S} (server : S -> Vs1) (I : S -> Prop) opened start step s ts :
  (forall s t, I s -> decent_turn start t ->
     triple (index_ok opened) (step s t) (fun s' t => index_ok opened t /\ I s' /\
       total_frames (stats (server s')) = wrapu 64 (total_frames (stats (server s)) + 1))) ->
  I s -> Forall (decent_turn start) ts ->
  triple (index_ok opened) (loop_turns step s ts : prog S)
    (fun s' t => index_ok opened t /\ I s' /\
       count_is (server s') (total_frames (stats (server s)) + Z.of_nat (length ts))).
Proof.
  intros Hstep Hs Hts. revert s Hs. induction Hts as [|t ts Ht _ IH]; intros s Hs; cbn [loop_turns].
  - apply triple_ret. intros t0 Ht0. split; [done|]. split; [done|]. unfold count_is. f_equal. cbn. lia.
  - eapply triple_bind; [by apply Hstep|]. intros s1. apply triple_pure. intros [Hs1 Hf].
    eapply triple_weaken; [intros t0 Ht0; exact Ht0 | | by apply (IH s1)]. cbn [length].
    intros s2 t0 (Hi & H2 & Hm). split; [done|]. split; [done|]. unfold count_is in *. rewrite Hm, Hf.
    unfold wrapu. rewrite Z.add_mod_idemp_l by lia. f_equal. lia.
Qed.

(** * The workers *)

Inductive worker := Plain | OnePipeline | TwoPipelines | ThreePipelines | Pipelines (n : nat).
Definition work (k : worker) (v : Vs1) (quality start : Z) (ts : list Turn) : prog Vs1 :=
  match k with
  | Plain => visionWorker putText v quality ts
  | OnePipeline => visionWorker_S1 putText pipe_new pipe_delete pipe_hear pipe_process v quality start ts
  | TwoPipelines => visionWorker_S2 putText pipe_new pipe_delete pipe_hear pipe_process v quality start ts
  | ThreePipelines => visionWorker_S3 putText pipe_new pipe_delete pipe_hear pipe_process v quality start ts
  | Pipelines n => visionWorker_all putText pipe_new pipe_delete pipe_hear pipe_process n v quality start ts
  end.

(** The time that a worker's seconds are counted from: the worker without pipelines
    does not take it. *)
Definition since (k : worker) (last start : Z) : Z := match k with Plain => last | _ => start end.

(** What a server needs for a worker. *)
Definition ready (v : Vs1) : Prop := sees v /\ is_Some (int_of_double (sec1_time (stats v))).

Lemma deletes_triple l :
  triple (index_ok false) (for_each pipe_delete l) (fun _ => index_ok false).
Proof.
  induction l as [|p l IH]; cbn [for_each]; [by apply triple_ret|].
  eapply triple_bind; [apply (dp_delete good Hpipes) | intros ?; exact IH].
Qed.

Lemma index_opened t : nt_accepts KDouble index_key t -> index_ok true (nt_SetDouble index_key (double_of_Z 0) t).
Proof.
  intros Ha. split; [by apply double_accepts|]. intros _. exists 0. by rewrite nt_get_set_double.
Qed.

Lemma deleted_entry `{DL : !DeleteLaws T} opened table key :
  triple (index_ok opened) (delete_entry table key : prog unit) (fun _ => index_ok false).
Proof.
  apply triple_on_nt. intros t [Ha _]. split; [|done]. unfold nt_accepts in *.
  destruct (decide (index_key = entry_path table key)) as [<-|Hne]; [left; apply nt_type_delete|].
  by rewrite nt_type_delete_ne.
Qed.

Lemma open_triple opened n : triple (index_ok opened) (open_entries n : prog unit) (fun _ => index_ok true).
Proof.
  unfold open_entries, put_number, put_boolean.
  eapply triple_bind with (Q := fun _ => index_ok true); [apply triple_on_nt; intros t [Ha _]; by apply index_opened|].
  intros ?. eapply triple_bind with (Q := fun _ => index_ok true);
    [apply triple_on_nt; intros t; apply index_other; by apply not_index|]. intros ?.
  eapply triple_bind with (Q := fun _ => index_ok true); [apply triple_on_nt; intros t; by apply index_boolean|].
  intros ?. apply triple_on_nt. intros t. by apply index_boolean.
Qed.

Lemma close_triple `{DL : !DeleteLaws T} opened : triple (index_ok opened) (close_entries : prog unit) (fun _ => index_ok false).
Proof.
  unfold close_entries. do 3 (eapply triple_bind; [apply deleted_entry | intros ?]). apply deleted_entry.
Qed.

Lemma quality_triple opened v q : triple (index_ok opened) (set_quality v q : prog unit) (fun _ => index_ok opened).
Proof. unfold set_quality. eapply triple_bind; [apply triple_on_cs | intros ?; apply triple_on_cs]. Qed.

Lemma new_triple opened i v :
  sees v -> triple (index_ok opened) (pipe_new i v) (fun p t => index_ok opened t /\ good p).
Proof. intros Hv. by apply (dp_new good Hpipes). Qed.

Lemma expansion_triple opened v i n :
  sees v ->
  triple (index_ok opened) (pipeExpansion pipe_new v i n)
    (fun ps t => index_ok opened t /\ length ps = n /\ Forall good ps).
Proof.
  intros Hv. revert i. induction n as [|n IH]; intros i; cbn [pipeExpansion]; [by apply triple_ret|].
  eapply triple_bind; [by apply new_triple|]. intros p. apply triple_pure. intros Hp. eapply triple_bind; [apply IH|].
  intros ps. apply triple_pure. intros [<- Hps]. apply triple_ret. intros t Ht. split; [exact Ht|].
  split; [done | by apply Forall_cons_2].
Qed.

Lemma make_frame_triple opened v :
  sees v -> triple (index_ok opened) (make_frame v : prog unit) (fun _ => index_ok opened).
Proof.
  unfold sees, getCurrentCamera. intros [cam E]. unfold make_frame.
  eapply triple_bind with (Q := fun _ => index_ok opened); [|intros ?; by apply triple_ret].
  apply triple_lift. intros t Ht. unfold getCurrentResolution. destruct (selected v) as [i|]; [|done].
  cbn in E. destruct (cams v !! i) as [c|]; [|done]. by eexists.
Qed.

(** ** The loop and what follows it *)

Context `{DL : !DeleteLaws T}.

Section Run.

Context (v : Vs1) (start : Z) (ts : list Turn).
Context (Hready : ready v) (Hts : Forall (decent_turn start) ts).

Definition served : nat := if runloop v then length ts else 0.

(** A server like [v] that has served [served] frames more. *)
Definition well_served (v' : Vs1) : Prop :=
  cams v' = cams v /\ launched v' = launched v /\ ready v' /\ t_start (stats v') = start /\
  count_is v' (total_frames (stats v) + Z.of_nat served).

Lemma working_served v' :
  working v start v' -> count_is v' (total_frames (stats v) + Z.of_nat served) -> well_served v'.
Proof.
  intros Hw Hc. split; [apply Hw|]. split; [apply Hw|].
  split; [split; [by eapply getCurrentCamera_working | apply Hw]|]. split; [apply Hw | exact Hc].
Qed.

Lemma ready_working v1 :
  cams v1 = cams v -> selected v1 = selected v -> launched v1 = launched v ->
  sec1_time (stats v1) = sec1_time (stats v) -> t_start (stats v1) = start -> working v start v1.
Proof.
  destruct Hready as [[cam Hcam] Hsec]. intros Hc Hs Hl H1 Ht. unfold getCurrentCamera in Hcam.
  destruct (selected v) as [i|] eqn:Es; [|done]. cbn in Hcam.
  destruct (cams v !! i) as [c|] eqn:Ec; [|done].
  constructor; [done | by exists i; split; [|eapply lookup_lt_Some] | done | by rewrite H1 | done].
Qed.

(** The loop of any worker, from a state [s] with the frames of [v]. *)
Lemma loop_triple {S} (server : S -> Vs1) (I : S -> Prop) opened step s :
  (forall s t, I s -> decent_turn start t ->
     triple (index_ok opened) (step s t) (fun s' t => index_ok opened t /\ I s' /\
       total_frames (stats (server s')) = wrapu 64 (total_frames (stats (server s)) + 1))) ->
  (forall s, I s -> working v start (server s)) ->
  I s -> total_frames (stats (server s)) = total_frames (stats v) ->
  triple (index_ok opened) (worker_loop (runloop v) step s ts : prog S)
    (fun s t => index_ok opened t /\ well_served (server s)).
Proof.
  intros Hstep Hwork Hs Hf. unfold worker_loop. destruct (runloop v) eqn:Er.
  - eapply triple_weaken; [intros t Ht; exact Ht | | by apply (loop_counts server I opened start step s ts)].
    cbv beta. intros s' t (Hi & HI & Hc). split; [exact Hi|]. apply working_served; [by apply Hwork|].
    unfold served. by rewrite Er, <- Hf.
  - apply triple_ret. intros t Ht. split; [exact Ht|]. apply working_served; [by apply Hwork|].
    unfold count_is, served. rewrite Er, Hf. f_equal. cbn. lia.
Qed.

Lemma pipelines_triple opened select idle ps :
  Forall good ps -> selects opened (length ps) select -> (forall t, idle t ∈ [t_beg t; t_end t]) ->
  triple (index_ok opened)
    (worker_loop (runloop v) (selected_turn putText pipe_hear pipe_process select idle) (started v start, ps) ts)
    (fun s t => index_ok opened t /\ well_served s.1).
Proof.
  intros Hps Hsel Hidle. apply (loop_triple fst (serving v start (length ps))).
  - intros s t Hs Ht. by apply turn_serves.
  - by intros s [Hw _].
  - split; [by apply ready_working | by split].
  - done.
Qed.

(** The end of a worker: close, destroy, set the flag. *)
Lemma tail_triple opened (close : prog unit) (s : Vs1 * list P) (order : list P -> list P) :
  triple (index_ok opened) close (fun _ => index_ok false) -> well_served s.1 ->
  triple (index_ok opened) (close ;* for_each pipe_delete (order s.2) ;* ret (with_runloop s.1 true))
    (fun v' t => index_ok false t /\ runloop v' = true /\ well_served v').
Proof.
  intros Hclose Hs. eapply triple_bind; [exact Hclose|]. intros ?.
  eapply triple_bind; [apply deletes_triple|]. intros ?. by apply triple_ret.
Qed.

(** Each worker returns after a stop, with the flag set again. *)
Lemma work_triple k quality start0 :
  since k (t_start (stats v)) start0 = start ->
  triple (index_ok false) (work k v quality start0 ts)
    (fun v' t => index_ok false t /\ runloop v' = true /\ well_served v').
Proof.
  assert (Hbeg : forall t : Turn, t_beg t ∈ [t_beg t; t_end t]) by (intros; by left).
  assert (Hend : forall t : Turn, t_end t ∈ [t_beg t; t_end t]) by (intros; right; by left).
  pose proof close_triple as Hclose. intros Hsince.
  pose proof Hready as [Hsees _]. destruct k; cbn [work since] in *; [|subst start0..].
  - eapply triple_bind; [apply quality_triple|]. intros ?.
    eapply triple_bind with (Q := fun _ => index_ok false); [apply triple_on_nt; intros t; by apply index_boolean|]. intros ?.
    eapply triple_bind; [by apply make_frame_triple|]. intros ?.
    eapply triple_bind; [apply (loop_triple id (working v start)); try done|].
    { intros v1 t Hw Ht. by apply plain_serves. }
    { by apply ready_working. }
    intros v1. apply triple_pure. intros Hs. eapply triple_bind; [apply deleted_entry|]. intros ?. by apply triple_ret.
  - eapply triple_bind; [apply quality_triple|]. intros ?.
    eapply triple_bind with (Q := fun _ => index_ok false); [apply triple_on_nt; intros t; by apply index_boolean|]. intros ?.
    eapply triple_bind with (Q := fun _ => index_ok false); [apply triple_on_nt; intros t; by apply index_boolean|]. intros ?.
    eapply triple_bind; [by apply make_frame_triple|]. intros ?.
    eapply triple_bind; [by apply new_triple|]. intros p. apply triple_pure. intros Hp.
    eapply triple_bind; [apply pipelines_triple; [by apply Forall_cons_2 | apply selects_1 | exact Hend]|]. intros s. apply triple_pure. intros Hs.
    eapply triple_bind; [apply deleted_entry|]. intros ?.
    by apply (tail_triple false (delete_entry vision "Enable Processing") s reverse); [apply deleted_entry|].
  - eapply triple_bind; [apply quality_triple|]. intros ?. eapply triple_bind; [apply open_triple|]. intros ?.
    eapply triple_bind; [by apply make_frame_triple|]. intros ?.
    do 2 (eapply triple_bind; [by apply new_triple | intros ?; apply triple_pure; intros ?]).
    eapply triple_bind; [apply pipelines_triple; [by repeat apply Forall_cons_2 | apply selects_2 | exact Hbeg]|]. intros s. apply triple_pure. intros Hs.
    by apply (tail_triple true _ s reverse).
  - eapply triple_bind; [apply quality_triple|]. intros ?. eapply triple_bind; [apply open_triple|]. intros ?.
    eapply triple_bind; [by apply make_frame_triple|]. intros ?.
    do 3 (eapply triple_bind; [by apply new_triple | intros ?; apply triple_pure; intros ?]).
    eapply triple_bind; [apply pipelines_triple; [by repeat apply Forall_cons_2 | apply selects_3 | exact Hbeg]|]. intros s. apply triple_pure. intros Hs.
    by apply (tail_triple true _ s reverse).
  - eapply triple_bind; [by apply expansion_triple|]. intros ps. apply triple_pure. intros [<- Hps].
    eapply triple_bind; [apply quality_triple|]. intros ?. eapply triple_bind; [apply open_triple|]. intros ?.
    eapply triple_bind; [by apply make_frame_triple|]. intros ?.
    eapply triple_bind; [apply pipelines_triple; [exact Hps | apply selects_all | exact Hbeg]|]. intros s. apply triple_pure. intros Hs.
    by apply (tail_triple true _ s (fun l => l)).
Qed.

End Run.

End Worker.
