(* ===== verification/Vs1Session.v ===== *)
(** What the server of the first framework serves
    ([lib-vs/src/vs1-legacy/visionserver.inc], [visionserver.cpp]): sequences of
    stops, workers and threads with their stops, whatever pipelines they run that
    keep the terms of Vs1Worker.v; and that the target solvers of Vs1Pipelines.v
    keep them. *)

From Stdlib Require Import Ascii.
From S2P Require Import Prelude Floats Json World Instances Camera Config Server Runner Program Survival.
From S2P Require Import Geometry Vs1Camera Vs1Config Vs1Server Vs1Contours Vs1Pipelines Vs1Worker.
Local Open Scope Z_scope.
Local Open Scope vs_scope.

Section Session.

Context {C T : Type} `{CS : CsCore C} `{NT : Tables T} `{NL : !TablesLaws T} `{NF : !TablesFrame T} `{DL : !DeleteLaws T}.
Abbreviation prog := (M C T).
Abbreviation Turn := (Vs1Turn (C := C) (T := T)).
Context (putText : Z -> string -> Z * Z -> Z).
Context {P : Type} (pipe_new : nat -> Vs1 -> prog P) (pipe_delete : P -> prog unit).
Context (pipe_hear : P -> string -> nt_event -> res P).
Context (pipe_process : P -> Vs1 -> Z -> Z -> prog (Vs1 * P * Z)).
Context (decent_change : string -> nt_event -> Prop) (good : P -> Prop).
Context (Hpipes : decent_pipelines pipe_new pipe_delete pipe_hear pipe_process decent_change good).

Abbreviation work := (work putText pipe_new pipe_delete pipe_hear pipe_process).
Abbreviation decent_turn := (decent_turn decent_change).
Abbreviation work_triple := (work_triple putText pipe_new pipe_delete pipe_hear pipe_process decent_change good Hpipes).

(** * Fixed and general workers *)

(** C13. The workers of two and of three pipelines and the one of any number of
    pipelines do the same, turn by turn, when they run the same two or three: in the
    same world, after any number of turns with any camera selections, settings and
    writes that keep the terms - the index among them, as a number that converts
    to eight bits -, the server, the pipelines and the world are the same.  This is
    as far as it goes: for an index that is an [int] below the largest but does not
    fit in eight bits the fixed workers' selection is undefined, while the general
    one selects no pipeline. *)
Theorem fixed_and_general_workers_agree v start p1 p2 p3 ts w :
  ready v -> good p1 -> good p2 -> good p3 -> Forall (decent_turn start) ts -> index_ok true (w_nt w) ->
  let loop select ps :=
    worker_loop (runloop v) (selected_turn putText pipe_hear pipe_process select t_beg) (started v start, ps) ts w in
  (loop select_2 [p1; p2] = loop (select_all 2) [p1; p2] /\
   loop select_3 [p1; p2; p3] = loop (select_all 3) [p1; p2; p3]) /\
  forall i (w1 : world C T), int_of_double (index_entry w1) = Some i ->
    i < - 2 ^ 7 \/ 2 ^ 7 <= i -> i < 2 ^ 31 - 1 ->
    select_2 w1 = (w1, Undefined) /\ select_all 2 w1 = (w1, Ok None) /\
    select_3 w1 = (w1, Undefined) /\ select_all 3 w1 = (w1, Ok None).
Proof.
  intros Hr H1 H2 H3 Hts Hw loop. split.
  2:{ intros i w1 Hi Hout Hmax.
      destruct (selection_outside 2 i w1 Hi Hout Hmax) as (E1 & _ & E2); [lia|].
      by destruct (selection_outside 3 i w1 Hi Hout Hmax) as (_ & E3 & E4); [lia|]. }
  assert (Hserve : forall ps, Forall good ps -> serving good v start (length ps) (started v start, ps)).
  { intros ps Hps. split; [by apply (ready_working v start Hr) | by split]. }
  assert (Hbeg : forall t : Turn, t_beg t ∈ [t_beg t; t_end t]) by (intros; by left).
  unfold loop, worker_loop. destruct (runloop v); [|done].
  split; (eapply (loop_agrees putText pipe_new pipe_delete pipe_hear pipe_process decent_change good Hpipes true v start);
    [|apply selects_2 || apply selects_3 | exact Hbeg | apply Hserve; by repeat apply Forall_cons_2 | done | done]).
  - eapply agree_by_index; [intros i w1 Hi; by apply (pipeline_selection 0 i w1) | apply all_by_int8].
  - eapply agree_by_index; [intros i w1 Hi; by apply (pipeline_selection 0 i w1) | apply all_by_int8].
Qed.

(** * Sessions *)

(** What one thread asks of a server: a stop, a worker that is run until another
    thread stops it, and a worker in a thread with the stop that follows.  The thread
    is still at work then if it was looping, or if the stop [overtook] its end. *)
Inductive Command :=
  | CStop
  | CRun (k : worker) (quality start : Z) (ts : list Turn)
  | CThread (k : worker) (quality start : Z) (ts : list Turn) (overtook : bool).

Definition command (v : Vs1) (c : Command) : prog Vs1 :=
  match c with
  | CStop => ret (stopVision true v).1
  | CRun k quality start ts => work k v quality start ts
  | CThread k quality start ts overtook =>
      let (v1, mine) := runVisionThread v in
      if mine then
        let* v2 := work k v1 quality start ts in
        ret (stopVision (runloop v1 || overtook) v2).1
      else ret v1
  end.
Fixpoint session (v : Vs1) (cs : list Command) : prog Vs1 :=
  match cs with
  | [] => ret v
  | c :: cs' => let* v1 := command v c in session v1 cs'
  end.

(** The abstract server: its flag, the frames served, and the time that seconds are
    counted from. *)
Record Served := mkServed { s_flag : bool; s_frames : nat; s_since : Z }.

Definition count_worker (s : Served) (k : worker) (start : Z) (ts : list Turn) (flag : bool) : Served :=
  mkServed flag (s_frames s + if s_flag s then length ts else 0) (since k (s_since s) start).
Definition count (s : Served) (c : Command) : Served :=
  match c with
  | CStop => mkServed false (s_frames s) (s_since s)
  | CRun k _ start ts => count_worker s k start ts true
  | CThread k _ start ts overtook => count_worker s k start ts (s_flag s || overtook)
  end.
Definition serves_from (v : Vs1) : Served := mkServed (runloop v) 0 (t_start (stats v)).
Definition counted (v : Vs1) (cs : list Command) : Served := foldl count (serves_from v) cs.

Definition decent_command (s : Served) (c : Command) : Prop :=
  match c with
  | CStop => True
  | CRun k _ start ts | CThread k _ start ts _ => Forall (decent_turn (since k (s_since s) start)) ts
  end.
Fixpoint decent_session (s : Served) (cs : list Command) : Prop :=
  match cs with
  | [] => True
  | c :: cs' => decent_command s c /\ decent_session (count s c) cs'
  end.

(** A server with the cameras of [v0] that has come to an abstract state. *)
Definition arrived (v0 : Vs1) (s : Served) (v : Vs1) : Prop :=
  cams v = cams v0 /\ launched v = false /\ ready v /\ runloop v = s_flag s /\ t_start (stats v) = s_since s /\
  count_is v (total_frames (stats v0) + Z.of_nat (s_frames s)).

(** A worker's frames are added to an abstract state. *)
Lemma count_served v0 n v start (ts : list Turn) v' :
  count_is v (total_frames (stats v0) + Z.of_nat n) -> well_served v start ts v' ->
  count_is v' (total_frames (stats v0) + Z.of_nat (n + if runloop v then length ts else 0)).
Proof.
  intros Hv (_ & _ & _ & _ & Hc). unfold count_is, served in *. rewrite Hc, Z.add_mod, Hv, <- Z.add_mod by lia.
  f_equal. lia.
Qed.

Lemma command_triple v0 s v c :
  arrived v0 s v -> decent_command s c ->
  triple (index_ok false) (command v c) (fun v' t => index_ok false t /\ arrived v0 (count s c) v').
Proof.
  intros (Hcams & Hl & Hr & Hflag & Hsince & Hn) Hc.
  destruct c as [|k quality start ts|k quality start ts overtook]; cbn [command decent_command] in *.
  - apply triple_ret. intros t Ht. split; [exact Ht|]. unfold stopVision. cbn [launched with_runloop]. by rewrite Hl.
  - rewrite <- Hsince in Hc.
    eapply triple_weaken; [intros t Ht; exact Ht | | by apply (work_triple v (since k (t_start (stats v)) start) ts Hr Hc)].
    cbv beta. intros v' t (Ht & Hf & Hw). split; [exact Ht|]. pose proof (count_served v0 (s_frames s) v _ ts v' Hn Hw) as Hn'.
    destruct Hw as (H1 & H2 & H3 & H4 & _). rewrite Hflag in Hn'. unfold arrived, count, count_worker.
    cbn [s_flag s_frames s_since]. by rewrite H1, H2, H4, Hsince.
  - unfold runVisionThread. rewrite Hl. cbn [negb]. rewrite <- Hsince in Hc.
    eapply triple_bind; [by apply (work_triple (with_launched v true) (since k (t_start (stats v)) start) ts Hr Hc)|].
    intros v'. apply triple_pure. intros [_ Hw]. apply triple_ret. intros t Ht. split; [exact Ht|].
    pose proof (count_served v0 (s_frames s) (with_launched v true) _ ts v' Hn Hw) as Hn'.
    destruct Hw as (H1 & H2 & H3 & H4 & _). change (launched (with_launched v true)) with true in H2.
    change (runloop (with_launched v true)) with (runloop v) in *. rewrite Hflag in Hn' |- *. rewrite Hsince in H4.
    unfold stopVision. cbn [launched with_runloop]. rewrite H2. split; [by rewrite <- Hcams|]. by split_and!.
Qed.

Lemma session_triple v0 s v cs :
  arrived v0 s v -> decent_session s cs ->
  triple (index_ok false) (session v cs) (fun v' t => index_ok false t /\ arrived v0 (foldl count s cs) v').
Proof.
  revert s v. induction cs as [|c cs IH]; intros s v Hv Hcs; cbn [session foldl]; [by apply triple_ret|].
  destruct Hcs as [Hc Hcs]. eapply triple_bind; [by eapply command_triple|]. intros v1. apply triple_pure.
  intros Hv1. by apply IH.
Qed.

Context (v : Vs1) (Hl : launched v = false) (Hr : ready v).

Lemma session_arrives cs w :
  decent_session (serves_from v) cs -> nt_accepts KDouble index_key (w_nt w) ->
  exists w' v', session v cs w = (w', Ok v') /\ arrived v (counted v cs) v'.
Proof.
  intros Hcs Hw. assert (Hv : arrived v (serves_from v) v).
  { repeat split; try done; try apply Hr. unfold count_is. f_equal. cbn. lia. }
  destruct (session_triple v (serves_from v) v cs Hv Hcs w) as (w' & v' & E & _ & Ha); [by split|]. by exists w', v'.
Qed.

(** C12. Sessions with a server.  Whatever the pipelines are, as long as their methods
    return when a camera is selected and change nothing of the server but the
    active target, whatever cameras clients select by number, and whatever they
    write as long as the pipeline index converts to eight bits and the pipelines'
    listeners stand the settings: every sequence of
    stops, workers and threads comes to its end, with the cameras there were, an
    existing one selected and no thread left; and the flag and the number of frames
    are those of the abstract server, in which a worker serves all its turns if
    the flag is set and none if it is not, and leaves the flag set, a stop without
    a thread clears the flag, and a thread with its stop leaves it set if it was
    or if the stop overtook the worker. *)
Theorem sessions_count cs w :
  decent_session (serves_from v) cs -> nt_accepts KDouble index_key (w_nt w) ->
  exists w' v', session v cs w = (w', Ok v') /\
    cams v' = cams v /\ sees v' /\ launched v' = false /\
    runloop v' = s_flag (counted v cs) /\
    count_is v' (total_frames (stats v) + Z.of_nat (s_frames (counted v cs))).
Proof.
  intros Hcs Hw. destruct (session_arrives cs w Hcs Hw) as (w' & v' & E & H1 & H2 & [H3 _] & H4 & _ & H5).
  exists w', v'. by repeat split.
Qed.

Lemma decent_session_app s cs cs' : decent_session s (cs ++ cs') -> decent_session s cs.
Proof.
  revert s. induction cs as [|c cs IH]; intros s; cbn [decent_session app]; [done|].
  intros [Hc Hcs]. split; [exact Hc | by apply IH].
Qed.

(** The terms do not depend on whether a worker has a thread of its own. *)
Lemma decent_session_thread s cs k quality start ts overtook :
  decent_session s (cs ++ [CRun k quality start ts]) -> decent_session s (cs ++ [CThread k quality start ts overtook]).
Proof.
  revert s. induction cs as [|c cs IH]; intros s; cbn [decent_session app]; [done|].
  intros [Hc Hcs]. split; [exact Hc | by apply IH].
Qed.

(** A thread whose worker ends before its stop. *)
Definition slow_thread (c : Command) : Prop :=
  exists k quality start ts, c = CThread k quality start ts false.

Lemma slow_threads_idle cs s :
  Forall slow_thread cs -> s_flag s = false ->
  s_flag (foldl count s cs) = false /\ s_frames (foldl count s cs) = s_frames s.
Proof.
  intros Hcs. revert s. induction Hcs as [|c cs (k & quality & start & ts & ->) _ IH]; intros s Hs; [done|].
  destruct (IH (count s (CThread k quality start ts false))) as [Hf Hn]; [by cbn; rewrite Hs|].
  split; [exact Hf|]. cbn [foldl]. rewrite Hn. cbn. rewrite Hs. lia.
Qed.

(** C14. In sessions on the terms of [decent_session], a stop without a thread
    disables the server: it leaves the flag clear, and
    every thread started from then on ends before its first frame and has its flag
    cleared again by its own stop, as long as that stop comes after the end of the
    worker.  This lasts until a worker is run outside of a thread, or the stop of a
    thread overtakes its worker: either serves no frame itself but leaves the flag
    set. *)
Theorem stray_stop_disables_threads cs k quality start ts w :
  Forall slow_thread cs ->
  decent_session (serves_from v) (CStop :: cs ++ [CRun k quality start ts]) ->
  nt_accepts KDouble index_key (w_nt w) ->
  (exists w' v', session v (CStop :: cs) w = (w', Ok v') /\ runloop v' = false /\ count_is v' (total_frames (stats v))) /\
  (exists w' v', session v (CStop :: cs ++ [CRun k quality start ts]) w = (w', Ok v') /\ runloop v' = true /\
     count_is v' (total_frames (stats v))) /\
  (exists w' v', session v (CStop :: cs ++ [CThread k quality start ts true]) w = (w', Ok v') /\ runloop v' = true /\
     count_is v' (total_frames (stats v))).
Proof.
  intros Hslow Hcs Hw.
  destruct (slow_threads_idle cs (count (serves_from v) CStop) Hslow eq_refl) as [Hidle Hnone].
  assert (Hlast : forall c, (forall s, s_flag s = false -> s_flag (count s c) = true /\ s_frames (count s c) = s_frames s) ->
    decent_session (serves_from v) (CStop :: cs ++ [c]) ->
    exists w' v', session v (CStop :: cs ++ [c]) w = (w', Ok v') /\ runloop v' = true /\
      count_is v' (total_frames (stats v))).
  { intros c Hc Hd. destruct (session_arrives (CStop :: cs ++ [c]) w Hd Hw) as (w' & v' & E & _ & _ & _ & Hf & _ & Hn).
    unfold counted in *. rewrite app_comm_cons, foldl_app in Hn, Hf. cbn [foldl] in Hn, Hf.
    destruct (Hc _ Hidle) as [Hc1 Hc2]. rewrite Hc2, Hnone, Z.add_0_r in Hn. rewrite Hc1 in Hf. eauto. }
  split; [|split].
  - destruct (session_arrives (CStop :: cs) w) as (w' & v' & E & _ & _ & _ & Hf & _ & Hn);
      [by eapply (decent_session_app _ (CStop :: cs)) | done|].
    unfold counted in *. cbn [foldl] in *. rewrite Hidle in Hf. rewrite Hnone, Z.add_0_r in Hn. eauto.
  - apply Hlast; [|exact Hcs]. intros s Hs. cbn. rewrite Hs. by rewrite Nat.add_0_r.
  - apply Hlast; [|by apply (decent_session_thread _ (CStop :: cs))].
    intros s Hs. cbn. rewrite Hs. by rewrite Nat.add_0_r.
Qed.

End Session.

(** * Target solvers in a worker *)

(** ** Entries named "x" *)

Lemma string_snoc_inj (s t : string) c : s +:+ String c EmptyString = t +:+ String c EmptyString -> s = t.
Proof.
  revert t. induction s as [|a s IH]; intros [|b t]; cbn; [done| | |].
  - intros [= _ E]. by destruct t.
  - intros [= _ E]. by destruct s.
  - intros [= -> E]. f_equal. by apply IH.
Qed.

(** The only name that ends like the index, but for what is before it. *)
Lemma x_not_index table : entry_path table "x" <> index_key.
Proof.
  intros E. change index_key with ("/Vision Server/Pipeline Inde" +:+ "x") in E.
  unfold entry_path in E. rewrite <- string_app_assoc in E. apply string_snoc_inj in E.
  apply (f_equal (last_char "x"%char)) in E. by rewrite (last_char_app "x"%char "/"%char table EmptyString) in E.
Qed.

(** ** The largest contour *)

Section Found.

Context {Mat : Type} (contourArea : contour -> double) (find_in : Mat -> Z -> Z -> list contour).

Lemma scan_largest_inside ok l i c :
  Z.of_nat (i + length l) <= 2 ^ 15 ->
  let c' := scan_largest contourArea ok i l c in
  contours c' = contours c /\ (target_idx c' = target_idx c \/ 0 <= target_idx c' < Z.of_nat (i + length l)).
Proof.
  revert i c. induction l as [|x l IH]; intros i c Hi; cbn zeta; [by auto|].
  cbn [scan_largest length] in *. match goal with |- context [scan_largest _ _ _ _ ?d] => set (c1 := d) end.
  destruct (IH (S i) c1 ltac:(lia)) as [Hc Ht]. rewrite Hc. replace (i + S (length l))%nat with (S i + length l)%nat by lia.
  subst c1. destruct (ok (contourArea x) && _); (split; [done|]); cbn [target_idx] in Ht; [|exact Ht].
  right. destruct Ht as [-> | Ht]; [|exact Ht]. unfold wraps. rewrite Z.mod_small by lia. destruct (Z.ltb_spec (Z.of_nat i) (2 ^ (16 - 1))); lia.
Qed.

(** An index that is valid names a contour of the frame. *)
Lemma found_target c frame mode method :
  Z.of_nat (length (find_in frame mode method)) <= 2 ^ 15 ->
  let c' := (findLargest contourArea find_in c frame mode method).1 in
  validTarget c' = true -> exists t, getTarget c' = Ok t /\ t ∈ find_in frame mode method.
Proof.
  intros Hl c'. unfold validTarget, getTarget. intros H%Z.leb_le.
  pose proof (scan_largest_inside (fun _ => true) (find_in frame mode method) 0
                (findContours find_in (reset c) frame mode method).1 Hl) as Hr.
  change (contours c' = find_in frame mode method /\
    (target_idx c' = -1 \/ 0 <= target_idx c' < Z.of_nat (length (find_in frame mode method)))) in Hr.
  destruct Hr as [Hc Ht]. destruct (Z.ltb_spec (target_idx c') 0); [lia|]. rewrite Hc.
  destruct (lookup_lt_is_Some_2 (find_in frame mode method) (Z.to_nat (target_idx c')) ltac:(lia)) as [t Et].
  rewrite Et. exists t. split; [done|]. by eapply list_elem_of_lookup_2.
Qed.

End Found.

(** ** Solving and sorting always succeed *)

Lemma findCenter_to_float (points : contour) : exists ctr, findCenter_to float_acc points = Ok ctr.
Proof.
  unfold findCenter_to. destruct (Nat.ltb_spec 0 (length points)) as [Hn|]; [|by eexists].
  assert (Hs : exists s, add_points float_acc points = Ok s).
  { unfold add_points. clear Hn. generalize (mkPoint (N := double) n_zero n_zero).
    induction points as [|p l IH]; intros q; cbn [foldl]; [by exists q|]. cbn [mbind res_bind float_acc]. apply IH. }
  destruct Hs as [s ->]. cbn. by eexists.
Qed.

(** Contours whose sums of coordinates are [int]s. *)
Definition small (c : contour) : Prop :=
  Forall (within (2 ^ 15)) c /\ Z.of_nat (length c) < 2 ^ 15.

Lemma findCenter_small c : small c -> exists ctr, findCenter c = Ok ctr.
Proof.
  intros [Hc Hl]. unfold findCenter. destruct (Nat.ltb_spec 0 (length c)); [|by eexists].
  unfold add_points. cbn [n_zero int_Num].
  rewrite (add_points_from (2 ^ 15) c 0 0) by (done || lia). cbn [mbind res_bind px py n_div_size int_Num].
  unfold int_div_size. destruct (Nat.eqb_spec (length c) 0); [lia|]. cbn [mbind res_bind]. by eexists.
Qed.

Section Solver.

Context {C T : Type} `{CS : CsCore C} `{NT : Tables T} `{NL : !TablesLaws T} `{NF : !TablesFrame T} `{DL : !DeleteLaws T}.
Context {Mat : Type} `{VI : Vision Mat} `{CM : CMath}.
Abbreviation prog := (M C T).

(** The template's arguments at each position, the frames' memory, and the largest
    scale that clients set. *)
Context (color : nat -> LED) (reference : nat -> CvTarget) (content : Z -> Mat) (buffer : Mat -> Z).
Context (max_scale : Z) (Hmax : 1 <= max_scale).

(** [TargetSolver<...>] as a pipeline of a worker. *)
Definition solver_new (i : nat) (v : Vs1) : prog TargetSolver :=
  let* size := lift (getCurrentResolution v) in
  TargetSolver_new (color i) (reference i) (mkSize size.1 size.2).
Definition solver_process (s : TargetSolver) (v : Vs1) (frame now : Z) : prog (Vs1 * TargetSolver * Z) :=
  let* r := TargetSolver_process v s (content frame) now in
  ret (r.1, buffer r.2).

(** What the vision library does: as many points are projected as there are; and
    in the cameras' frames, thresholded at a scale in use, there are no more contours
    than 16 bits can name, and their corners at full size are small. *)
Definition in_use (scale : Z) : Prop := 1 <= scale <= max_scale.
Record vision_laws : Prop := {
  vl_project w p m d : length (v_projectPoints w p m d) = length w;
  vl_found ws z ws' : in_use (ws_scale ws) -> do_threshold ws (content z) = Ok ws' ->
    let found := v_findContours (ws_binary ws') RETR_EXTERNAL CHAIN_APPROX_SIMPLE in
    Z.of_nat (length found) <= 2 ^ 15 /\ Forall (fun c => small (target_corners c (ws_scale ws))) found
}.

(** What clients may write to the settings, which all solvers share. *)
Definition solver_table : string := vp_table (VPipeline_new "TargetSolver Pipeline").
Definition decent_setting (path : string) (e : nt_event) : Prop :=
  match e with
  | EOther => True
  | EDouble x =>
      (path = entry_path solver_table "Threshold" -> is_Some (cast_to 0 255 x)) /\
      (path = entry_path solver_table "Scaling" -> exists n, uint64_of_double x = Some n /\ in_use n)
  end.

Definition fit (s : TargetSolver (Mat := Mat)) : Prop :=
  vp_table (so_pipe s) = solver_table /\ in_use (ws_scale (so_ws s)).

Lemma resize_in_use ws size :
  in_use (ws_scale ws) -> exists ws', resizeBuffers v_new ws size = Ok ws' /\ ws_scale ws' = ws_scale ws.
Proof.
  intros [Hs _]. unfold resizeBuffers, size_over, int_div_size.
  destruct (Nat.eqb_spec (Z.to_nat (ws_scale ws)) 0); [lia|]. cbn [mbind res_bind]. by eexists.
Qed.

Lemma threshold_in_use (ws : WeightedSubtraction (Mat := Mat)) frame :
  in_use (ws_scale ws) -> exists ws', do_threshold ws frame = Ok ws' /\ ws_scale ws' = ws_scale ws.
Proof.
  intros Hs. unfold do_threshold, threshold.
  destruct (size_eqb _ _); [|destruct (resize_in_use ws (v_size frame) Hs) as (ws1 & -> & Hs1)]; cbn [mbind res_bind];
    destruct (weighted_array _); by eexists.
Qed.

Lemma hear_fit s path e :
  fit s -> decent_setting path e -> exists s', TargetSolver_hear s path e = Ok s' /\ fit s'.
Proof.
  intros [Ht Hs] He. unfold TargetSolver_hear, WeightedSubtraction_hear, on_threshold, on_scaling, on_number. rewrite Ht.
  destruct e as [x|]; cbn [decent_setting] in He.
  - destruct (String.eqb_spec path (entry_path solver_table "Threshold")) as [E|_].
    + destruct (proj1 He E) as [n ->]. by eexists.
    + destruct (String.eqb_spec path (entry_path solver_table "Scaling")) as [E|_]; [|by eexists].
      destruct (proj2 He E) as (n & -> & Hn). by eexists.
  - destruct (String.eqb _ _); [by eexists|]. destruct (String.eqb _ _); by eexists.
Qed.

Lemma var_triple opened x a k table :
  last_char a k <> "x"%char ->
  triple (index_ok opened) (addNetTableVar x (String a k) table : prog unit) (fun _ => index_ok opened).
Proof.
  intros H. unfold addNetTableVar, contains_key.
  eapply triple_bind with (Q := fun _ => index_ok opened); [by apply triple_ask_nt|]. intros there.
  eapply triple_bind with (Q := fun _ => index_ok opened).
  { destruct there; [by apply triple_ret | by apply put_double_other]. }
  intros ?. eapply triple_bind with (Q := fun _ => index_ok opened); [|intros ?; by apply triple_ret].
  intros w Hw. unfold on_nt_new. pose proof (index_untouched opened _ _ (keep_listen index_key (entry_path table (String a k)) (w_nt w)) Hw) as Hi.
  destruct (nt_AddListener _ (w_nt w)) as [h t]. by eexists (World _ _ _ _), _.
Qed.

Lemma solver_new_triple i v opened :
  sees v -> triple (index_ok opened) (solver_new i v) (fun s t => index_ok opened t /\ fit s).
Proof.
  intros [cam E]. unfold solver_new, TargetSolver_new, WeightedSubtraction_bound. cbv zeta.
  eapply triple_bind with (Q := fun _ => index_ok opened).
  { apply triple_lift. intros t Ht. unfold getCurrentCamera in E. unfold getCurrentResolution.
    destruct (selected v) as [j|]; [|done]. cbn in E. destruct (cams v !! j); [|done]. by eexists. }
  intros size. eapply triple_bind with (Q := fun ws t => index_ok opened t /\ ws_scale ws = 1).
  { do 2 (eapply triple_bind; [by apply var_triple | intros ?]). apply triple_lift. intros t Ht.
    destruct (resize_in_use (ws_members v_empty (color i)) (mkSize size.1 size.2)) as (ws & E1 & Hs); [|by exists ws].
    by split. }
  intros ws. apply triple_pure. intros Hs.
  do 2 (eapply triple_bind with (Q := fun _ => index_ok opened); [apply triple_on_nt; intros t; by apply index_boolean | intros ?]).
  apply triple_ret. intros t Ht. split; [exact Ht|]. split; [done|]. cbn. by rewrite Hs.
Qed.

Lemma solve_triple v tgt opened cam :
  getCurrentCamera v = Ok cam ->
  triple (index_ok opened) (solve v tgt : prog (pose * LegacyCamera)) (fun _ => index_ok opened).
Proof.
  intros E. unfold solve. eapply triple_bind with (Q := fun _ => index_ok opened).
  { apply triple_lift. intros t Ht. by exists cam. }
  intros c. eapply triple_bind with (Q := fun _ => index_ok opened); [|intros ?; by apply triple_ret].
  unfold solvePerspective. destruct (v_solvePnP _ _ _ _ _ _) as [rvec tvec]. cbv zeta.
  eapply triple_bind with (Q := fun _ => index_ok opened).
  { apply triple_on_nt. intros t. apply index_other, x_not_index. }
  intros ?. do 5 (eapply triple_bind; [by apply put_double_other | intros ?]). by apply triple_ret.
Qed.

Lemma bool_triple opened table key : triple (index_ok opened) (get_bool table key : prog bool) (fun _ => index_ok opened).
Proof. by apply triple_ask_nt. Qed.

(** What one frame leaves: the solver at its scale, and of the server all but the
    time of the report. *)
Definition solver_keeps (v : Vs1) (r : Vs1 * TargetSolver (Mat := Mat) * Mat) : Prop :=
  fit r.1.2 /\ exists at_, r.1.1 = reported v at_.

Lemma reported_same v : v = reported v (target_last v).
Proof. by destruct v. Qed.

Lemma keeps_ret v at_ s fr opened :
  fit s ->
  triple (index_ok opened) (ret (reported v at_, s, fr) : prog _) (fun r t => index_ok opened t /\ solver_keeps v r).
Proof. intros Hs. apply triple_ret. intros t Ht. split; [exact Ht|]. split; [exact Hs | by exists at_]. Qed.

Context (HV : vision_laws).

Lemma report_triple v target now opened :
  triple (index_ok opened) (updateTarget v target now : prog Vs1) (fun v' t => index_ok opened t /\ v' = reported v now).
Proof.
  unfold updateTarget, setTarget. eapply triple_bind with (Q := fun _ => index_ok opened).
  { apply triple_on_nt. intros t. by apply index_string. }
  intros ?. by apply triple_ret.
Qed.

Lemma solver_triple s v z now opened :
  fit s -> sees v ->
  triple (index_ok opened) (TargetSolver_process v s (content z) now : prog _)
    (fun r t => index_ok opened t /\ solver_keeps v r).
Proof.
  intros [Ht Hs] [cam Hcam]. unfold TargetSolver_process. cbv zeta.
  destruct (threshold_in_use (so_ws s) (content z) Hs) as (ws & Et & Hws).
  destruct (vl_found HV _ _ _ Hs Et) as [Hl Hsmall].
  eapply triple_bind with (Q := fun ws' t => index_ok opened t /\ ws' = ws).
  { apply triple_lift. intros t Hi. by exists ws. }
  intros ws1. apply triple_pure. intros ->. eapply triple_bind; [apply bool_triple|]. intros show.
  set (c := (find_largest _ _ _ _).1).
  pose proof (found_target v_contourArea v_findContours (so_contours s) (ws_binary ws) RETR_EXTERNAL CHAIN_APPROX_SIMPLE Hl)
    as Hfound. change (findLargest _ _ _ _ _ _).1 with c in Hfound. cbv zeta in Hfound.
  destruct (if show then _ else _) as [ws1 fr] eqn:Ews.
  assert (Hsc : ws_scale ws1 = ws_scale (so_ws s)) by (destruct show; by injection Ews as <- _). clear Ews show.
  assert (Hfit : forall c' pts ref p p2, fit (mkSolver (so_pipe s) ws1 c' pts ref p p2)).
  { intros. split; [exact Ht|]. cbn [so_ws]. by rewrite Hsc. }
  assert (Hdone : forall c' pts ref p p2 fr', triple (index_ok opened)
            (ret (v, mkSolver (so_pipe s) ws1 c' pts ref p p2, fr') : prog _) (fun r t => index_ok opened t /\ solver_keeps v r)).
  { intros. rewrite (reported_same v) at 1. apply keeps_ret, Hfit. }
  destruct (validTarget c); [|apply Hdone]. destruct (Hfound eq_refl) as (tgt & Htgt & Hin).
  eapply triple_bind with (Q := fun t' t => index_ok opened t /\ t' = tgt); [apply triple_lift; intros t Hi; by exists tgt|].
  intros t'. apply triple_pure. intros ->. set (points := target_corners tgt (getScale ws1)).
  destruct (compatible (so_reference s) points).
  - eapply triple_bind with (Q := fun _ => index_ok opened).
    { apply triple_lift. intros t Hi. unfold sort_corners. destruct (findCenter_to_float points) as [ctr ->].
      cbn [mbind res_bind]. by eexists. }
    intros ref. eapply triple_bind; [by eapply solve_triple|]. intros r.
    eapply triple_bind; [apply report_triple|]. intros v1. apply triple_pure. intros ->.
    eapply triple_bind; [apply bool_triple|]. intros debug. destruct debug; [|apply keeps_ret, Hfit].
    eapply triple_bind with (Q := fun _ => index_ok opened); [|intros ?; apply keeps_ret, Hfit].
    apply triple_lift. intros t Hi. pose proof (vl_project HV pose3D r.1 (c_matrix r.2) (c_distortion r.2)) as Hp.
    destruct (v_projectPoints _ _ _ _) as [|q l]; [discriminate Hp|]. by exists q.
  - eapply triple_bind; [apply bool_triple|]. intros debug. destruct debug; [|apply Hdone].
    eapply triple_bind with (Q := fun _ => index_ok opened); [|intros ctr; apply Hdone].
    apply triple_lift. intros t Hi. rewrite Forall_forall in Hsmall.
    destruct (findCenter_small points) as [ctr E]; [|by exists ctr].
    unfold points, getScale. rewrite Hsc. by apply Hsmall.
Qed.

(** Target solvers keep the terms of the workers. *)
Lemma solvers_decent :
  decent_pipelines solver_new TargetSolver_destroy TargetSolver_hear solver_process decent_setting fit.
Proof.
  split.
  - intros i v Hv opened. by apply solver_new_triple.
  - intros s. unfold TargetSolver_destroy. eapply triple_bind; [|intros ?]; apply deleted_entry.
  - intros s path e. apply hear_fit.
  - intros s v frame now Hs Hv opened. unfold solver_process.
    eapply triple_bind; [by apply solver_triple|]. intros [[v' s'] f]. apply triple_pure. intros [Hs' Hv'].
    by apply triple_ret.
Qed.

End Solver.

(** * Concrete runs *)

(** Frame 2 shows the square, all others nothing; frames are known by the number of
    marks on them. *)
Definition shown (z : Z) : Shot := if z =? 2 then square_shot else mkShot [] [].
Definition marks (f : Shot) : Z := Z.of_nat (length (shot_marks f)).
Definition two_colors (i : nat) : LED := match i with O => GREEN | S _ => BLUE end.

Lemma shown_laws : vision_laws shown 100.
Proof.
  split.
  - intros w p m d. cbn. apply length_map.
  - intros ws z ws' [Hlow Hhigh] E. assert (Hb : ws_binary ws' = shown z).
    { revert E. unfold do_threshold, threshold.
      destruct (if size_eqb _ _ then _ else _) as [ws1|e|]; cbn [mbind res_bind]; [|intros E; discriminate E..].
      destruct (weighted_array _). by intros [= <-]. }
    cbv zeta. cbn [v_findContours sim_Vision]. rewrite Hb. unfold shown.
    destruct (z =? 2); (split; [by vm_compute|]); cbn [square_shot shot_contours]; [|done].
    unfold target_corners, rescale_up. cbn [v_convexHull v_approxPolyDP v_point_times sim_Vision].
    rewrite wraps_small by lia. apply Forall_cons_2; [|apply Forall_cons_2; [|done]]; (split; [|by vm_compute]);
      repeat apply Forall_cons_2; (done || (split; cbn [px py]; lia)).
Qed.

(** The first turn comes with a selection of the only camera and a scale. *)
Definition scaling (n : Z) : string * nt_event := (entry_path solver_table "Scaling", EDouble (double_of_Z n)).
Definition selecting_turn : Vs1Turn (C := sim_cs) (T := sim_nt) :=
  mkVs1Turn (fun w => w) [EDouble (double_of_Z 0)] [scaling 2] (fun _ => 1) 1000000010 1000000015 1000000020 1000000030
    (float_of_Z 0) (float_of_Z 0).
Definition solving_turns : list (Vs1Turn (C := sim_cs) (T := sim_nt)) := [selecting_turn; vs1_turn 2; vs1_turn 3].
Definition a_reference (_ : nat) : CvTarget := Test6x6.
Definition solving_session : list (Command (C := sim_cs) (T := sim_nt)) -> sim_prog Vs1 :=
  session no_text (solver_new two_colors a_reference) TargetSolver_destroy TargetSolver_hear (solver_process shown marks)
    (with_launched a_server false).

Definition a_thread : Command := CThread TwoPipelines 50 0 solving_turns false.

(** The square is seen once, so its pose is left in its table, and the entries of
    both solvers, which share a table, are gone. *)
Example solving_run :
  let '(w, r) := solving_session [a_thread] start_world in
  match r with Ok v => (runloop v, total_frames (stats v), target_last v) | _ => (false, 0, 0) end
    = (true, 3, 2000000015) /\
  sim_vals (w_nt w) !! "/Targets/Test Retroreflective Square/x" = Some (VDouble (double_of_Z 4)) /\
  sim_vals (w_nt w) !! "/Vision Server/Pipelines/TargetSolver Pipeline/Debug" = None /\
  sim_vals (w_nt w) !! "/Vision Server/Pipeline Index" = None.
Proof. vm_compute. by repeat split. Qed.

(** A turn at [t] seconds. *)
Definition turn_at (t : Z) : Vs1Turn (C := sim_cs) (T := sim_nt) :=
  mkVs1Turn (fun w => w) [] [] (fun _ => 1) (t * 1000000000) (t * 1000000000) (t * 1000000000) (t * 1000000000)
    (float_of_Z 0) (float_of_Z 0).
Definition timed_thread (start : Z) (ts : list Z) : Command :=
  CThread OnePipeline 50 (start * 1000000000) (map turn_at ts) false.
Definition last_rate (cs : list Command) : option (double * double) :=
  match (solving_session cs start_world).2 with
  | Ok v => Some (fps_1s (stats v), sec1_time (stats v))
  | _ => None
  end.

(** The time of the last full second is kept from one worker to the next, but the
    time since the start is not: a second worker leaves the rate as the first one
    left it until it has run for longer. *)
Example rate_is_stale :
  last_rate [timed_thread 0 [1; 2; 100; 101]] = last_rate [timed_thread 0 [1; 2; 100; 101]; timed_thread 200 [201; 240; 301]] /\
  last_rate [timed_thread 200 [201; 240; 301]] <> last_rate [timed_thread 0 [1; 2; 100; 101]].
Proof. split; [vm_compute; reflexivity|]. intros E. vm_compute in E. discriminate E. Qed.

(** A scale of 0, of any client, ends the program in a division by zero as soon as a
    frame is resized. *)
Definition scaled_turn (n : Z) : Vs1Turn (C := sim_cs) (T := sim_nt) :=
  mkVs1Turn (fun w => w) [] [scaling n] (fun _ => 1) 10 15 20 30 (float_of_Z 0) (float_of_Z 0).
Example zero_scaling :
  (solving_session [CRun OnePipeline 50 0 [scaled_turn 0]] start_world).2 = Undefined /\
  (exists v, (solving_session [CRun OnePipeline 50 0 [scaled_turn 3]] start_world).2 = Ok v).
Proof. split; [vm_compute; reflexivity|]. eexists. vm_compute. reflexivity. Qed.

Lemma calm_turn z : decent_turn (decent_setting 100) 0 (vs1_turn z) <->
  is_Some (int_of_double (seconds (t_end (vs1_turn z) - 0))) /\ is_Some (int_of_double (seconds (t_beg (vs1_turn z) - 0))).
Proof.
  split; [by intros (_ & _ & _ & H) | intros H]. split; [by intros|]. split; [apply Forall_nil_2|].
  split; [apply Forall_nil_2 | exact H].
Qed.

Lemma scaling_decent : decent_setting 100 (scaling 2).1 (scaling 2).2.
Proof.
  split; [intros E; vm_compute in E; discriminate E|]. intros _. exists 2. split; [vm_compute; reflexivity | done].
Qed.

Lemma solving_turns_decent : Forall (decent_turn (decent_setting 100) 0) solving_turns.
Proof.
  apply Forall_cons_2; [|apply Forall_cons_2; [|apply Forall_cons_2; [|done]]];
    [|apply calm_turn; split; eexists; vm_compute; reflexivity..].
  split; [by intros|]. split; [|split; [|split; eexists; vm_compute; reflexivity]].
  - apply Forall_cons_2; [|by apply Forall_nil_2]. eexists. vm_compute. reflexivity.
  - apply Forall_cons_2; [exact scaling_decent | by apply Forall_nil_2].
Qed.

Lemma start_index : nt_accepts KDouble index_key (w_nt start_world).
Proof. left. vm_compute. reflexivity. Qed.

Lemma a_server_ready : ready (with_launched a_server false).
Proof. split; [by exists a_camera | by exists 0]. Qed.

Lemma sample_terms :
  decent_pipelines (C := sim_cs) (T := sim_nt) (solver_new two_colors a_reference) TargetSolver_destroy TargetSolver_hear
    (solver_process shown marks) (decent_setting 100) (fit 100).
Proof. apply solvers_decent; [done | exact shown_laws]. Qed.

(** A thread that works, a stray stop, a thread whose stop comes before the
    worker has seen the flag, and a worker without pipelines. *)
Definition mixed_session : list (Command (C := sim_cs) (T := sim_nt)) :=
  [a_thread; CStop; CThread (Pipelines 3) 50 0 solving_turns true; CRun Plain 50 0 [vs1_turn 4]].

Lemma sessions_count_witness :
  exists w' v', solving_session mixed_session start_world = (w', Ok v') /\ runloop v' = true /\
    count_is v' 4.
Proof.
  pose proof solving_turns_decent as Ht.
  destruct (sessions_count no_text (solver_new two_colors a_reference) TargetSolver_destroy TargetSolver_hear
    (solver_process shown marks) (decent_setting 100) (fit 100) sample_terms
    (with_launched a_server false) eq_refl a_server_ready mixed_session start_world) as (w' & v' & E & _ & _ & _ & Hf & Hn).
  - split; [exact Ht|]. split; [exact I|]. split; [exact Ht|]. split; [|exact I].
    apply Forall_cons_2; [|apply Forall_nil_2]. apply calm_turn. split; eexists; vm_compute; reflexivity.
  - exact start_index.
  - exists w', v'. split; [exact E|]. split; [exact Hf | exact Hn].
Defined.

Lemma stray_stop_disables_threads_witness :
  exists w' v', solving_session [CStop; a_thread; a_thread] start_world = (w', Ok v') /\ runloop v' = false /\
    count_is v' 0.
Proof.
  pose proof solving_turns_decent as Ht.
  assert (Hs : slow_thread a_thread) by by eexists _, _, _, _.
  exact (proj1 (stray_stop_disables_threads no_text (solver_new two_colors a_reference) TargetSolver_destroy TargetSolver_hear
    (solver_process shown marks) (decent_setting 100) (fit 100) sample_terms
    (with_launched a_server false) eq_refl a_server_ready [a_thread; a_thread] OnePipeline 50 0 solving_turns start_world
    (Forall_cons_2 _ _ _ Hs (Forall_cons_2 _ _ _ Hs (Forall_nil_2 _)))
    (conj I (conj Ht (conj Ht (conj Ht I)))) start_index)).
Defined.

(** Two turns with target solvers, the entry holding the second position. *)
Definition second_world : world sim_cs sim_nt :=
  World (w_cs start_world) (sim_put index_key (VDouble (double_of_Z 1)) (w_nt start_world)) (w_bufs start_world) [].
Definition solver_loop (select : sim_prog (option nat)) (ps : list TargetSolver) :=
  worker_loop (runloop a_server) (selected_turn no_text TargetSolver_hear (solver_process shown marks) select t_beg)
    (started a_server 0, ps) solving_turns second_world.
Definition one_solver : TargetSolver :=
  mkSolver (VPipeline_new "TargetSolver Pipeline") a_threshold no_contours [] Test6x6 no_pose
    [mkPoint (S754_zero false) (S754_zero false)].

Lemma fixed_and_general_workers_agree_witness :
  solver_loop select_2 [one_solver; one_solver] = solver_loop (select_all 2) [one_solver; one_solver] /\
  (select_2 (index_world 200)).2 = Undefined /\ (select_all 2 (index_world 200)).2 = Ok None /\
  match (solver_loop select_2 [one_solver; one_solver]).2 with
  | Ok (v, _) => target_last v = 2000000015
  | _ => False
  end.
Proof.
  assert (Hfit : fit 100 one_solver) by by repeat split.
  assert (Hi : index_ok true (w_nt second_world)).
  { split; [right; vm_compute; reflexivity|]. intros _. exists 1. vm_compute. reflexivity. }
  pose proof (fixed_and_general_workers_agree no_text (solver_new two_colors a_reference) TargetSolver_destroy TargetSolver_hear
    (solver_process shown marks) (decent_setting 100) (fit 100) sample_terms a_server 0 one_solver one_solver one_solver
    solving_turns second_world (conj (ex_intro _ a_camera eq_refl) (ex_intro _ 0 eq_refl)) Hfit Hfit Hfit
    solving_turns_decent Hi) as [[Hagree _] Hdiffer].
  split; [exact Hagree|].
  destruct (Hdiffer 200 (index_world 200)) as (E1 & E2 & _); [vm_compute; reflexivity | lia | lia|].
  rewrite E1, E2. do 2 (split; [reflexivity|]). vm_compute; reflexivity.
Defined.
