(* ===== verification/Vs1Kernel.v ===== *)
(** The thresholds of the first framework's pipelines down to the machine: the
    pipelines call the routines of [mem.S] on the bytes of a frame
    ([weightedsubtraction.inc], [2022/rapidreact.inc]).  [KernelFrames] is the
    interface between the two; a pipeline's theorems are proved against it, and
    the routines keep its promise. *)

From S2P Require Import Prelude Machine Simd SimdMem Stream Pixels Arm ArmText MemText ArmLoops ArmKernels ArmFrames.
From S2P Require Import Floats Json World Geometry Vs1Contours Vs1Pipelines Vs1Cargo.
Local Open Scope Z_scope.

(** What a threshold makes of the bytes of a frame: the whole blocks of sixteen
    pixels go through [f], the pixels after them stay. *)
Definition thresholded (f : Z -> Z -> Z) (t : Z) (px : list Z) : list Z :=
  let n := Z.of_nat (length px) in map (f (t mod 256)) (covered n px) ++ uncovered n px.

(** The vision library's frames have bytes, and the two operations of [Vision]
    that stand for the routines of [mem.S] are the routines' effect on them. *)
Class KernelFrames (Mat : Type) `{VI : Vision Mat} := {
  v_bytes : Mat -> list Z;
  v_bytes_threshold m t : v_bytes (v_threshold m t) = thresholded thresh_px t (v_bytes m);
  v_bytes_binary m t : v_bytes (v_threshold_binary m t) = thresholded thresh_bin_px t (v_bytes m)
}.

(** [routine(binary.data, binary.data, binary.size().area(), t)] on any processor
    leaves the frame [m'] where [m] was, and every other byte but the routine's
    stack slot as it was. *)
Definition runs_in_place {Mat} `{KF : KernelFrames Mat} (routine : string) (m m' : Mat) (t : Z) : Prop :=
  forall s data,
    called s (threshold_args data (Z.of_nat (length (v_bytes m))) t) [] 4 ->
    legacy_frame s data (v_bytes m) ->
    arm_returns mem_S routine s (store_bytes (pushed [FP] s) data (v_bytes m')).

Lemma thresholded_lookup f t px i p :
  px !! i = Some p ->
  thresholded f t px !! i =
  Some (if (i <? 16 * (length px / 16))%nat then f (t mod 256) p else p).
Proof.
  intros Hi. unfold thresholded, covered, uncovered.
  replace (Z.to_nat (Z.of_nat (length px) / 16)) with (length px / 16)%nat
    by (rewrite <- (Nat2Z.inj_div _ 16), Nat2Z.id; done).
  set (k := (16 * (length px / 16))%nat).
  assert (Hk : (k <= length px)%nat) by (apply Nat.Div0.mul_div_le).
  destruct (Nat.ltb_spec i k) as [Hlt|Hge].
  - rewrite lookup_app_l by (rewrite length_map, length_take; lia).
    by rewrite list_lookup_fmap, lookup_take_lt, Hi by done.
  - rewrite lookup_app_r by (rewrite length_map, length_take; lia).
    rewrite length_map, length_take, lookup_drop, <- Hi. f_equal. lia.
Qed.

Section Kernel.

Context {Mat : Type} `{KF : KernelFrames Mat} `{CM : CMath}.
Abbreviation WS := (WeightedSubtraction (Mat := Mat)).

(** The routines keep the interface's promise. *)
Lemma kernels_run m t :
  16 <= Z.of_nat (length (v_bytes m)) < 2 ^ 31 ->
  runs_in_place "memcpy_threshold_asm" m (v_threshold m t) t /\
  runs_in_place "memcpy_threshold_binary_asm" m (v_threshold_binary m t) t.
Proof.
  intros Hn. unfold runs_in_place. rewrite v_bytes_threshold, v_bytes_binary.
  split; intros s data Hc Hf; apply (legacy_threshold_frame s data _ t (v_bytes m) Hc Hf eq_refl Hn).
Qed.

(** The difference of the filter's channel and the weighted others. *)
Definition difference (f : WS) (channels : nat -> Mat) (gamma : double) : Mat :=
  let '(a, b) := weighted_array (ws_color f) in
  v_subtract (channels (led_value (ws_color f)))
    (v_addWeighted (channels (led_value a)) (ws_alpha f) (channels (led_value b)) (ws_beta f) gamma).

Lemma do_threshold_binary f frame f' :
  do_threshold f frame = Ok f' ->
  ws_color f' = ws_color f /\ ws_thresh f' = ws_thresh f /\
  ws_binary f' = v_threshold_binary (difference f' (ws_channels f') (ws_gamma f')) (ws_thresh f').
Proof.
  unfold do_threshold, threshold. intros E.
  assert (Hr : forall f1,
    (if size_eqb (v_size frame) (v_size_times (v_size (ws_buffer f)) (wraps 32 (ws_scale f)))
     then Ok f else resizeBuffers v_new f (v_size frame)) = Ok f1 ->
    ws_color f1 = ws_color f /\ ws_thresh f1 = ws_thresh f).
  { intros f1. destruct (size_eqb _ _); [by intros [= <-]|]. unfold resizeBuffers.
    destruct (size_over _ _); cbn; [by intros [= <-] | done..]. }
  destruct (if size_eqb _ _ then _ else _) as [f1|e|]; cbn [mbind res_bind] in E; [|done..].
  destruct (Hr f1 eq_refl) as [Hc Ht]. unfold difference.
  destruct (weighted_array (ws_color f1)) as [a b] eqn:Ew. injection E as <-. cbn.
  by rewrite Ew.
Qed.

(** C29. The weighted subtraction of a pipeline, down to the machine.  When a frame
    is thresholded, the call of [memcpy_threshold_binary_asm] in [mem.S] on the
    bytes of the channels' difference leaves exactly the bytes of the binary
    frame.  Its pixels are 255 where the difference exceeds the threshold and 0
    elsewhere - except for the pixels after the last whole block of sixteen,
    which keep the difference itself, so that the contours are looked for in
    pixels below the threshold, too. *)
Theorem weighted_threshold_pixels (f f' : WS) frame :
  do_threshold f frame = Ok f' -> is_byte (ws_thresh f) ->
  let diff := difference f' (ws_channels f') (ws_gamma f') in
  let n := length (v_bytes diff) in
  16 <= Z.of_nat n < 2 ^ 31 ->
  runs_in_place "memcpy_threshold_binary_asm" diff (ws_binary f') (ws_thresh f) /\
  forall i p, v_bytes diff !! i = Some p ->
    v_bytes (ws_binary f') !! i =
    Some (if (i <? 16 * (n / 16))%nat then (if ws_thresh f <? p then 255 else 0) else p).
Proof.
  intros E Ht diff n Hn. destruct (do_threshold_binary f frame f' E) as (_ & Et & Eb). fold diff in Eb.
  rewrite Eb, Et. split; [by apply kernels_run|].
  intros i p Hi. rewrite v_bytes_binary, (thresholded_lookup _ _ _ _ _ Hi).
  unfold thresh_bin_px. by rewrite (Z.mod_small _ 256) by exact Ht.
Qed.

(** The filter of the balls calls [memcpy_threshold_asm] instead, with a
    percentage of the largest difference. *)
Theorem ball_threshold_pixels f f' channels show_bin show_contours marks :
  BallFilter_threshold f channels show_bin show_contours = Ok (f', marks) ->
  let diff := difference (bf_ws f) channels (double_of_Z 0) in
  let n := length (v_bytes diff) in
  16 <= Z.of_nat n < 2 ^ 31 ->
  exists least, int_of_double (dmul (v_max diff) (ws_gamma (bf_ws f))) = Some least /\
    runs_in_place "memcpy_threshold_asm" diff (ws_binary (bf_ws f')) least /\
    forall i p, v_bytes diff !! i = Some p ->
      v_bytes (ws_binary (bf_ws f')) !! i =
      Some (if (i <? 16 * (n / 16))%nat then (if least mod 256 <? p then p else 0) else p).
Proof.
  unfold BallFilter_threshold, difference. destruct (weighted_array _) as [a b]. cbv zeta.
  set (diff := v_subtract _ _). intros E Hn.
  destruct (int_of_double _) as [least|]; cbn [of_option mbind res_bind] in E; [|done].
  destruct (int_res _); cbn [mbind res_bind] in E; [|done..].
  destruct (ball_turns _ _ _ _ _ _); cbn [mbind res_bind] in E; [|done..]. injection E as <- _.
  exists least. split; [done|].
  match goal with |- context [ws_binary (bf_ws ?f1)] =>
    assert (Eb : ws_binary (bf_ws f1) = v_threshold diff least) by (by destruct show_bin) end.
  rewrite Eb. split; [by apply kernels_run|].
  intros i p Hi. by rewrite v_bytes_threshold, (thresholded_lookup _ _ _ _ _ Hi).
Qed.

End Kernel.

(** * Frames of bytes *)

(** A frame of one channel, or of three interleaved ones. *)
Record ByteFrame := mkBytes { by_size : Size Z; by_px : list Z }.

Definition channel_of (m : ByteFrame) (c : nat) : ByteFrame :=
  mkBytes (by_size m)
    (omap (fun i => by_px m !! (3 * i + c)%nat) (seq 0 (length (by_px m) / 3))).
Definition per_pixel (f : Z -> Z) (m : ByteFrame) : ByteFrame := mkBytes (by_size m) (map f (by_px m)).
Definition per_pixels (f : Z -> Z -> Z) (m1 m2 : ByteFrame) : ByteFrame :=
  mkBytes (by_size m1) (zip_with f (by_px m1) (by_px m2)).
Definition blank (s : Size Z) : ByteFrame := mkBytes s (replicate (Z.to_nat (s_width s * s_height s)) 0).

(** The library's functions on bytes as far as thresholds use them, in full size
    and with equal weights. *)
#[export] Instance byte_Vision : Vision ByteFrame := {
  v_size := by_size;
  v_new s _ := blank s;
  v_zeros := blank;
  v_empty := mkBytes (mkSize 0 0) [];
  v_resize m _ _ := m;
  v_resize_nearest m _ _ := m;
  v_split := channel_of;
  v_addWeighted m1 _ m2 _ _ := per_pixels (fun a b => (a + b) / 2) m1 m2;
  v_subtract := per_pixels (fun a b => Z.max 0 (a - b));
  v_bitwise_or := per_pixels Z.lor;
  v_gray2bgr m := mkBytes (by_size m) (flat_map (fun p => [p; p; p]) (by_px m));
  v_size_times s k := mkSize (s_width s * k) (s_height s * k);
  v_max m := double_of_Z (foldr Z.max 0 (by_px m));
  v_threshold m t := mkBytes (by_size m) (thresholded thresh_px t (by_px m));
  v_threshold_binary m t := mkBytes (by_size m) (thresholded thresh_bin_px t (by_px m));
  v_draw _ m := m;
  v_findContours _ _ _ := [];
  v_contourArea := v_contourArea (Mat := Shot);
  v_arcLength := v_arcLength (Mat := Shot);
  v_convexHull := v_convexHull (Mat := Shot);
  v_approxPolyDP := v_approxPolyDP (Mat := Shot);
  v_boundingRect := v_boundingRect (Mat := Shot);
  v_minEnclosingCircle := v_minEnclosingCircle (Mat := Shot);
  v_tl := v_tl (Mat := Shot);
  v_br := v_br (Mat := Shot);
  v_point_times := v_point_times (Mat := Shot);
  v_fpoint_times := v_fpoint_times (Mat := Shot);
  v_solvePnP := v_solvePnP (Mat := Shot);
  v_solvePnPGeneric := v_solvePnPGeneric (Mat := Shot);
  v_solvePnPRefineLM := v_solvePnPRefineLM (Mat := Shot);
  v_projectPoints := v_projectPoints (Mat := Shot)
}.
#[export] Instance byte_KernelFrames : KernelFrames ByteFrame :=
  {| v_bytes := by_px; v_bytes_threshold _ _ := eq_refl; v_bytes_binary _ _ := eq_refl |}.

(** A frame of 6 by 3 pixels, whose green grows from 20 to 54 above a level of 20
    in blue and red. *)
Definition green_frame : ByteFrame :=
  mkBytes (mkSize 6 3) (flat_map (fun i => [20; 20 + 2 * Z.of_nat i; 20]) (seq 0 18)).
Definition green_threshold : WeightedSubtraction :=
  mkWS GREEN (blank (mkSize 6 3)) (blank (mkSize 6 3)) (fun _ => blank (mkSize 6 3)) half half (double_of_Z 0) 15 1.

Definition green_diff : list Z := map (fun i => 2 * Z.of_nat i) (seq 0 18).

(** Eight pixels exceed the threshold of 15; the last two, after the only whole
    block, keep their differences, which would be foreground at any threshold.
    A processor with the difference at 1000 computes just that. *)
Lemma weighted_threshold_pixels_witness :
  let binary := replicate 8 0 ++ replicate 8 255 ++ [32; 34] in
  let s := arm_with (threshold_args 1000 18 15) [] [(1000, green_diff)] in
  exists f', do_threshold green_threshold green_frame = Ok f' /\
    v_bytes (difference f' (ws_channels f') (ws_gamma f')) = green_diff /\
    v_bytes (ws_binary f') = binary /\
    arm_returns mem_S "memcpy_threshold_binary_asm" s (store_bytes (pushed [FP] s) 1000 binary).
Proof.
  intros binary s. eexists. split; [reflexivity|]. split; [vm_compute; reflexivity|].
  split; [vm_compute; reflexivity|].
  refine (proj1 (weighted_threshold_pixels green_threshold _ green_frame eq_refl _ _) s 1000 _ _);
    [split; [discriminate | reflexivity] | split; [vm_compute; discriminate | vm_compute; reflexivity]
    | concretely | concretely].
Defined.
